(* ===== verification/_CoqProject ===== *)
-Q . S2P
Prelude.v
RBTree.v
Const.v
Errno.v
Conv.v
Mm.v
Mmap.v
MmapFacts.v
MmInv.v
MmSys.v
UserMem.v
FdTable.v
Kernel.v
Files.v
Path.v
FileOps.v
PathOps.v
FdSys.v
ShmMalloc.v
KHash.v
KHashFacts.v
Futex.v
Task.v
Signal.v
Debug.v
Strace.v
Exec.v
Fork.v
Process.v
PageTable.v
Boot.v
MainLoop.v
Dump.v
Net.v
Locks.v
TimeSys.v
Sys.v
Syscalls.v
EndToEnd.v
Security.v
