(* ===== verification/Prelude.v ===== *)
(** * Noah: a verification development

    Noah runs Linux programs on macOS: a process loads an ELF program into a
    virtual machine of Apple's Hypervisor framework, lets it run, and serves its
    system calls itself by calls of Darwin.  This library models the kernel part of
    Noah, written in C under [src/], and proves what makes it correct.

    ** The program and its model

    - Guest memory.  [struct mm] ([src/include/mm.h], [src/src/mm/mm.c]) keeps the
      regions of a process in a red-black tree ([src/include/util/tree.h]) and a
      list; [src/src/mm/mmap.c] implements [mmap], [munmap], [mremap], [mprotect],
      [brk], [msync]; [src/lib/vmm.c] tells the hypervisor.  Files: [RBTree] (the
      [RB_*] macros, a zipper for the parent pointers), [Mm] (regions as objects in a
      store, tree and list hold pointers), [Mmap] (the system calls over a trace of
      host calls), [MmapFacts] and [MmInv] (lemmas and the invariant), [MmSys] (step
      relation and theorems), [UserMem] ([copy_from_user] and the other accesses of
      [src/src/base.c]), [ShmMalloc] (the allocator of [src/src/mm/malloc.c]).
    - Constants and conversions.  [Const] and [Errno] (the X-macro tables of
      [src/include/linux/const.h] and [errno.h], [syswrap]), [Conv]
      ([src/src/conv.c]).
    - Files ([src/src/fs/fs.c]).  [FdTable] and [Files] (the bitmap tables of the
      guest's and of the kernel's descriptors), [Path] ([resolve_path]), [FileOps],
      [PathOps], [FdSys] (the system calls on descriptors, on paths, and [pipe],
      [dup], [select], [poll]).  [Kernel] is the state these handlers share and the
      way they call the host.  [Locks] has the operations that take the lock of the tables
      while they hold it, with the lock.
    - Threads and signals.  [Task] ([struct task], virtual CPU registers, recognition
      of system calls in [src/src/main.c]), [Signal] ([src/src/ipc/signal.c]), [Futex]
      ([src/src/ipc/futex.c], a step relation of threads over a map of wait queues),
      [KHash] and [KHashFacts] ([src/include/util/khash.h], the hash table that holds
      those queues).
    - Processes.  [Exec] ([src/src/proc/exec.c]), [Fork] ([src/src/proc/fork.c] and
      the snapshots of [src/lib/vmm.c]), [Process] ([src/src/proc/process.c]).
    - The machine.  [PageTable] (the page tables of [src/src/mm/pdp.h] and
      [src/src/mm/mm.c], and the translation a processor makes of them), [Boot]
      (segments, VMCS, MSR and FPU set-up, options and the start of [main] in
      [src/src/main.c]), [MainLoop] (the loop of VM entries and exits, with nested
      loops for signal handlers, and the table of [src/include/syscall.h]).
    - Other system calls.  [Net] ([src/src/net/net.c]), [TimeSys]
      ([src/src/sys/time.c]), [Sys] ([src/src/sys/sys.c], [src/src/ipc/sem.c],
      [src/src/mm/shm.c], [src/src/proc/ptrace.c]).
    - Output.  [Debug] ([src/src/debug.c]: logs, warnings, [panic]), [Strace]
      ([src/src/meta_strace.c] and the wrapper that traces a system call), [Dump] (model-specific
      registers and the printing of the virtual CPU, [src/lib/vmm.c]).
    - The program.  [Syscalls] has the state of the whole ([core], and beside it the trace
      file), every handler lifted to it and wrapped ([DEFINE_SYSCALL] of
      [src/include/common.h]), the table of the main loop, and [main].  [EndToEnd] and
      [Security] are theorems about it.

    The parts call each other as in the source: handlers read and write guest memory
    through [UserMem], which translates by [Mm]; [exec] uses [do_mmap],
    [copy_to_user], [close_cloexec] and the signal reset; [fork] rebuilds the
    hypervisor's map from the regions; [exit] wakes futexes; [main_loop] enters the guest, and at an
    exit calls the handler of the table of [Syscalls], or delivers a signal by
    [Signal] and runs itself nested until the handler's [rt_sigreturn].

    ** Conventions

    C integers are [Z], wrapped to their width where it matters ([Word]).  Code with
    effects lives in the state and error monad [M]: it returns ([Done]) or stops the
    process ([Stop]: a failed assertion, [panic], [exit], a bad pointer, a buffer
    overflow).  Each component's state is a record; [lk], [ltask], [lw], [lx], [lv], [pt], [pf],
    [lp] and [unseen] run an operation of one component inside a larger state.  The main loop
    and the dispatch of system calls work on any state that contains a task: the class
    [HasTask] with its laws [HasTaskOk] is what they ask of it, and [on_task] runs an operation of the task
    there.  The host is a
    parameter: Darwin's constants ([DarwinErrno], [DarwinConst]), the answers of its
    calls as a function of the calls before ([OS], [Host]), uninitialised memory
    ([uninit]), fresh memory and CPUs ([HostMem], [HostCpu]), where the linker put the
    kernel's tables ([KernImage]), what the guest does between an entry and
    the next exit ([Guest]), what other threads do while one waits ([Waiting]), the names
    a trace shows ([TraceEnv]); what a theorem needs to
    know of them is a hypothesis or a class of laws ([HostOk], [DarwinSignalOk] and
    the like), with macOS's values as instance.  A handler runs from its start to its
    end: locks have no counterpart, except that [Futex] lets other threads run where
    the code waits on a condition variable, and that [Locks] has the lock of the descriptor
    tables, and shows that leaving it out changes no result on a host that refuses to lock twice.
    What [meta_strace] does is a [Stop] of its own kind when it stops ([Tracing]).

    ** Theorems

    - The whole: a [write] of the guest, from its instruction to Darwin and back; an
      [mmap], from the instruction to the page tables; the
      registers and the mask that the interrupted code gets back from a signal handler, whatever that does
      meanwhile; runs with and without a trace file that end alike, system calls and signals traced ([EndToEnd]); and, over every
      handler of the table, that no process gains a user id ([Security]).
    - The machine: the boot code leaves the virtual CPU in 64-bit mode with legal
      controls and an identity map of user space, so that what the processor reaches is
      what the kernel computes; the main loop dispatches each system call to its
      handler and returns only after [rt_sigreturn].
    - Memory: the address translation computed from the regions is the one installed
      in the hypervisor, in every state reached by requests of whole pages that end below a limit, of at most 2 GB a mapping; with the limit at the
      end of user space it is so everywhere, and with the limit at the end of the address space, where requests
      run into the kernel's regions, outside these ([Limit], [reach_below]); regions stay sorted, disjoint and
      aligned under either; [munmap] and [mmap] change the address space exactly as asked; the
      tree is a set with logarithmic depth; page-wise copying equals byte-wise
      copying; the shared allocator hands out disjoint blocks inside its arena, and a freed block joins its neighbours
      on the free list, which with the blocks handed out tiles the arena;
      attaching shared memory maps exactly the segment.
    - Conversions: error numbers, terminal settings, signal sets and open flags
      survive the way to Darwin and back.
    - Files: descriptors are registered, closed, and closed on exec exactly; path
      resolution gives what a reference definition gives, which expands the first link of a path
      again and again, or -ELOOP when there are more than [LOOP_MAX]; [read], [write],
      [getdents], [open], [poll] do what they promise; descriptors of the kernel are
      refused.
    - Futexes: no interleaving in which waits end only once their entry has left its queue reaches a dangling entry, wakes
      are first-in first-out, and no wake-up is lost; the hash table of queues
      refines a finite map through growth, clearing and rehashing in place.
    - Signals: a handler's frame gives back what it saved; delivery takes the
      lowest signal and terminates.
    - Sockets and times: addresses convert and convert back, [socketpair] leaves
      nothing behind when it fails, [sendmsg] sends the guest's bytes, [utimensat] sets
      each time independently.
    - Processes: the initial stack, the image of a segment, the arguments of a script;
      [fork] gives both processes the machine it destroyed; ids never grow; [wait4]
      statuses decode; an ending thread wakes its joiner.

    Where the code departs from its intention a theorem shows the departure on a
    concrete input ([munmap_misses_lowest], [mprotect_departures],
    [mremap_truncates], [split_offset_overflow], [syswrap_failed],
    [kernel_range_unguarded], [wrapped_range], [relock_unprotected], [relock_waits], [poll_no_events],
    [resolve_path_departures], [getdents64_overlap], [kernel_fd_exposed],
    [shm_malloc_wraps], [timeout_dangles], [boot_departures], [page_fault_exits],
    [check_vm_entry_stops], [net_departures], [time_departures], [sys_departures],
    [shm_attach_unaligned], [trace_departures]).

    ** Bounds and fuel

    Loops that are not structural carry fuel, and the theorems show it suffices: the
    munmap and mprotect loops by the number of regions, the copy loops by the number
    of bytes, [resolve_path] by the [LOOP_MAX] links the code allows, [getdents] by the
    size of the buffer, the allocator by the length of the free list, futex loops by
    the length of the queue, [wake_sighandler] by the 64 signal bits, the probes of a hash
    table by the number of its buckets, its rehashing by the entries not yet moved.  [do_exec] takes
    the length of the chain of script interpreters as an argument, because the code
    does not bound it; [loop] bounds the copying of arguments by the 2^31 strings the
    code allows.  [main_loop] runs as long as the guest does: its fuel is the number of VM
    entries considered, and the theorems on it hold for every number.

    ** Not modelled

    Locks other than in [Locks], the time stamps and headers of the log files, the text of messages on the standard
    error other than [panic]'s, and the parts of
    the containers that the kernel does not use (splay trees, [kh_destroy], string
    keys, list operations) stay out: they only print, or no code calls them.  A thread that
    [clone] creates starts as [Fork] says and then is a run of the main loop of its own; the
    composition follows one thread, and the others appear where it waits.

    The host's memory protection is not modelled.  [copy_to_user] and [copy_from_user] copy with [memcpy] between host addresses, which
    the model makes total where the region exists; but [do_mmap] maps the host's pages with the guest's protection, so that on a page
    the guest made read-only or inaccessible the copy raises a fault in the kernel itself.  The sizes of
    the arrays that [init_userstack] and other loaders put on the host's stack are not checked against it, in the code or in the
    model, where a handler does not check them by [alloca].  What the code keeps, resets or restores of the floating-point unit in [exec] and [fork]
    ([init_fpu], the snapshots), [init_msr] after [fork], the call of [init_shm_malloc] at the start, whose effect is the initial
    state of [ShmMalloc], and, when a thread ends, its removal from the list of tasks and from the
    count of CPUs are left out. *)

From stdpp Require Export base tactics list gmap numbers option strings sorting.
From Stdlib Require Export ZArith Lia.

#[global] Open Scope Z_scope.

(** ** Machine integers

    C integers are modelled as [Z]; every place where the width matters wraps
    explicitly. *)

Module Word.

Definition wrap (w : Z) (x : Z) : Z := x mod 2 ^ w.

(** Conversion to a signed [w]-bit integer (two's complement). *)
Definition swrap (w : Z) (x : Z) : Z :=
  let y := x mod 2 ^ w in if y <? 2 ^ (w - 1) then y else y - 2 ^ w.

Abbreviation u64 := (wrap 64).
Abbreviation u32 := (wrap 32).
Abbreviation s32 := (swrap 32).
Abbreviation s64 := (swrap 64).

Lemma wrap_small w x : 0 <= x < 2 ^ w -> wrap w x = x.
Proof. apply Z.mod_small. Qed.

Lemma wrap_range w x : 0 <= w -> 0 <= wrap w x < 2 ^ w.
Proof. intros; apply Z.mod_pos_bound; lia. Qed.

Lemma wrap_add_l w x y : wrap w (wrap w x + y) = wrap w (x + y).
Proof. apply Zplus_mod_idemp_l. Qed.

Lemma swrap_small w x : 0 < w -> 0 <= x < 2 ^ (w - 1) -> swrap w x = x.
Proof.
  intros Hw Hx. assert (2 ^ w = 2 * 2 ^ (w - 1)) as E.
  { rewrite <- Z.pow_succ_r by lia. f_equal; lia. }
  unfold swrap. rewrite Z.mod_small by lia. destruct (Z.ltb_spec x (2 ^ (w - 1))); lia.
Qed.

Lemma swrap_range w x : 0 < w -> - 2 ^ (w - 1) <= swrap w x < 2 ^ (w - 1).
Proof.
  intros Hw. assert (2 ^ w = 2 * 2 ^ (w - 1)) as E.
  { rewrite <- Z.pow_succ_r by lia. f_equal. lia. }
  unfold swrap. pose proof (Z.mod_pos_bound x (2 ^ w)). pose proof (Z.pow_pos_nonneg 2 w).
  destruct (Z.ltb_spec (x mod 2 ^ w) (2 ^ (w - 1))); lia.
Qed.

Lemma swrap_neg w x : 0 < w -> - 2 ^ (w - 1) <= x < 0 -> swrap w x = x.
Proof.
  intros Hw Hx. assert (2 ^ w = 2 * 2 ^ (w - 1)) as E.
  { rewrite <- Z.pow_succ_r by lia. f_equal; lia. }
  unfold swrap. assert (x mod 2 ^ w = x + 2 ^ w) as ->.
  { symmetry. apply (Z.mod_unique _ _ (-1)); lia. }
  destruct (Z.ltb_spec (x + 2 ^ w) (2 ^ (w - 1))); lia.
Qed.

End Word.

Export Word.

(** ** Fallible, stateful computations

    [M S A] threads a state of type [S] and either returns or stops the
    process.  A stop is what [assert], [panic], [exit], or a dereference of
    [NULL] (undefined behaviour in C) do. *)

Inductive stop :=
| AssertFail            (** [assert] with a false argument *)
| Panic                 (** [panic] *)
| Exit (code : Z)       (** [exit], [_exit] *)
| Fault                 (** a [NULL] or dangling pointer is dereferenced *)
| Overflow              (** a write past the end of a buffer *)
| Diverge               (** a loop exceeded the fuel of its model *)
| Tracing (w : stop).   (** stopped so by the code that traces ([meta_strace.c]), holding [strace_sync] *)

Inductive result (S A : Type) :=
| Done (a : A) (s : S)
| Stop (w : stop) (s : S).
Arguments Done {S A} a s.
Arguments Stop {S A} w s.

Definition M (S A : Type) : Type := S -> result S A.

#[global] Instance M_ret S : MRet (M S) := fun A a s => Done a s.
#[global] Instance M_bind S : MBind (M S) := fun A B k m s =>
  match m s with
  | Done a s' => k a s'
  | Stop w s' => Stop w s'
  end.

Definition get {S} : M S S := fun s => Done s s.
Definition put {S} (s : S) : M S unit := fun _ => Done tt s.
Definition modify {S} (f : S -> S) : M S unit := fun s => Done tt (f s).
Definition halt {S A} (w : stop) : M S A := fun s => Stop w s.
Definition assert_ {S} (b : bool) : M S unit := if b then mret tt else halt AssertFail.

(** A pointer the code dereferences. *)
Definition deref {S A} (o : option A) : M S A :=
  match o with Some a => mret a | None => halt Fault end.

(** [if (c) m] *)
Definition when_ {S} (b : bool) (m : M S unit) : M S unit := if b then m else mret tt.

(** A run whose result is tested by evaluation *)
Lemma run_test {S A} (c : M S A) s (P : A -> S -> Prop) `{forall a s, Decision (P a s)} :
  (match c s with Done a s' => bool_decide (P a s') | Stop _ _ => false end) = true -> exists a s', c s = Done a s' /\ P a s'.
Proof. destruct (c s) as [a s'|]; [|done]. intros Ht. exists a, s'. split; [done|]. by apply bool_decide_eq_true_1 in Ht. Qed.

Lemma bind_Done {S A B} (m : M S A) (k : A -> M S B) s a s' : m s = Done a s' -> (m ≫= k) s = k a s'.
Proof. intros E. unfold mbind, M_bind. by rewrite E. Qed.

(** [ensures c Q s]: if [c] returns from [s], the value and the state satisfy
    [Q]; used for invariants, beside theorems that say when [c] returns. *)
Definition ensures {S A} (c : M S A) (Q : A -> S -> Prop) (s : S) : Prop :=
  match c s with Done a s' => Q a s' | Stop _ _ => True end.

Section Ensures.
Context {S A B : Type}.
Implicit Types (m : M S A) (k : A -> M S B) (s : S).

Lemma ensures_bind m k Q s :
  ensures m (fun a s' => ensures (k a) Q s') s -> ensures (m ≫= k) Q s.
Proof. unfold ensures, mbind, M_bind. by destruct (m s). Qed.

Lemma ensures_ret (a : A) Q s : Q a s -> ensures (mret a) Q s.
Proof. done. Qed.

Lemma ensures_halt w Q s : ensures (halt w : M S A) Q s.
Proof. done. Qed.

Lemma ensures_assert b (Q : unit -> S -> Prop) s : (b = true -> Q tt s) -> ensures (assert_ b) Q s.
Proof. unfold ensures, assert_. destruct b; cbv; auto. Qed.

Lemma ensures_deref (o : option A) (Q : A -> S -> Prop) s :
  (forall a, o = Some a -> Q a s) -> ensures (deref o) Q s.
Proof. unfold ensures, deref. destruct o; cbv; auto. Qed.

Lemma ensures_get (Q : S -> S -> Prop) s : Q s s -> ensures get Q s.
Proof. done. Qed.

Lemma ensures_modify f (Q : unit -> S -> Prop) s : Q tt (f s) -> ensures (modify f) Q s.
Proof. done. Qed.

Lemma ensures_put s0 (Q : unit -> S -> Prop) s : Q tt s0 -> ensures (put s0) Q s.
Proof. done. Qed.

Lemma ensures_Done m a s s' Q : m s = Done a s' -> Q a s' -> ensures m Q s.
Proof. unfold ensures. by intros ->. Qed.

Lemma ensures_mono m (Q Q' : A -> S -> Prop) s :
  (forall a s', Q a s' -> Q' a s') -> ensures m Q s -> ensures m Q' s.
Proof. unfold ensures. destruct (m s); auto. Qed.

Lemma ensures_when b (m : M S unit) (Q : unit -> S -> Prop) s :
  (b = true -> ensures m Q s) -> (b = false -> Q tt s) -> ensures (when_ b m) Q s.
Proof. unfold when_. destruct b; [auto|]. intros _ H. by apply H. Qed.

End Ensures.

(** One step of a symbolic execution under [ensures]. *)
Ltac estep :=
  match goal with
  | |- ensures (_ ≫= _) _ _ => apply ensures_bind
  | |- ensures (mret _) _ _ => apply ensures_ret
  | |- ensures (halt _) _ _ => apply ensures_halt
  | |- ensures get _ _ => apply ensures_get
  | |- ensures (modify _) _ _ => apply ensures_modify
  | |- ensures (put _) _ _ => apply ensures_put
  | |- ensures (assert_ _) _ _ => apply ensures_assert; let H := fresh "Hassert" in intros H
  | |- ensures (deref _) _ _ => apply ensures_deref; intros ? ?
  | |- ensures (when_ _ _) _ _ => apply ensures_when; let H := fresh "Heqb" in intros H
  | |- ensures (if ?b then _ else _) _ _ => destruct b eqn:?
  end.

(** ** C conditions on flag words *)

(** [x & m] used as a condition. *)
Definition testf (x m : Z) : bool := negb (Z.land x m =? 0).

(** [x & ~m] on an unbounded two's complement reading. *)
Definition clearf (x m : Z) : Z := Z.ldiff x m.

(** ** [include/util/misc.h] *)

Definition MIN (a b : Z) : Z := if a <? b then a else b.
Definition MAX (a b : Z) : Z := if a >? b then a else b.
Definition rounddown (x y : Z) : Z := u64 (x / y * y).
Definition roundup (x y : Z) : Z := u64 (u64 (x + y - 1) / y * y).
Definition is_aligned (x y : Z) : bool := x / y * y =? x.

(** ** [include/x86/vm.h], pages *)

Inductive page_type_t := PAGE_4KB | PAGE_2MB | PAGE_1GB | PAGE_PML4E.

Definition page_type_val (p : page_type_t) : Z :=
  match p with PAGE_4KB => 0 | PAGE_2MB => 1 | PAGE_1GB => 2 | PAGE_PML4E => 3 end.
Definition PAGE_SHIFTOF (p : page_type_t) : Z := 12 + page_type_val p * 9.
Definition PAGE_SIZEOF (p : page_type_t) : Z := Z.shiftl 1 (PAGE_SHIFTOF p).
Definition is_page_aligned (addr : Z) (p : page_type_t) : bool :=
  Z.land addr (PAGE_SIZEOF p - 1) =? 0.

Abbreviation PAGE := (PAGE_SIZEOF PAGE_4KB).

(** ** Tactics *)

(** Unfold the monad operations of a computation applied to a state. *)
Ltac msimp := cbv [mbind M_bind mret M_ret get put modify halt deref assert_ when_].

(** Split every boolean comparison on [Z] in sight and finish with [lia]. *)
Ltac zcases :=
  repeat match goal with
    | |- context [ ?a <? ?b ] => destruct (Z.ltb_spec a b)
    | |- context [ ?a <=? ?b ] => destruct (Z.leb_spec a b)
    | |- context [ ?a =? ?b ] => destruct (Z.eqb_spec a b)
    | |- context [ ?a >? ?b ] => rewrite (Z.gtb_ltb a b)
    | |- context [ ?a >=? ?b ] => rewrite (Z.geb_leb a b)
    end.

Ltac zcases_in H :=
  repeat match type of H with
    | context [ ?a <? ?b ] => destruct (Z.ltb_spec a b)
    | context [ ?a <=? ?b ] => destruct (Z.leb_spec a b)
    | context [ ?a =? ?b ] => destruct (Z.eqb_spec a b)
    | context [ ?a >? ?b ] => rewrite (Z.gtb_ltb a b) in H
    | context [ ?a >=? ?b ] => rewrite (Z.geb_leb a b) in H
    end.

(** ** Arithmetic shared by the components *)

Lemma PAGE_val : PAGE = 4096.
Proof. reflexivity. Qed.

Lemma is_page_aligned_spec a : is_page_aligned a PAGE_4KB = true <-> a mod 4096 = 0.
Proof.
  unfold is_page_aligned. rewrite Z.eqb_eq.
  change (PAGE_SIZEOF PAGE_4KB - 1) with (Z.ones 12).
  rewrite Z.land_ones by lia. reflexivity.
Qed.

Lemma roundup_spec x y :
  0 < y -> 0 <= x -> x + y - 1 < 2 ^ 64 ->
  x <= roundup x y < x + y /\ roundup x y mod y = 0.
Proof.
  intros Hy Hx Hb. unfold roundup, wrap.
  rewrite (Z.mod_small (x + y - 1)) by lia.
  pose proof (Z.div_mod (x + y - 1) y ltac:(lia)) as D.
  pose proof (Z.mod_pos_bound (x + y - 1) y Hy).
  assert (0 <= (x + y - 1) / y) by (apply Z.div_pos; lia).
  rewrite Z.mod_small by nia.
  split; [nia |]. apply Z.mod_mul; lia.
Qed.

Lemma roundup_aligned x y : 0 < y -> 0 <= x < 2 ^ 64 - y -> x mod y = 0 -> roundup x y = x.
Proof.
  intros Hy Hx Hm. destruct (roundup_spec x y) as [Hr Hr0]; try lia.
  pose proof (Z.div_mod x y ltac:(lia)). pose proof (Z.div_mod (roundup x y) y ltac:(lia)).
  rewrite Hm, Hr0 in *. assert (x / y = roundup x y / y) by nia. lia.
Qed.

(** ** Sorted lists *)

Lemma sorted_split {A} (R : A -> A -> Prop) (l1 l2 : list A) y :
  StronglySorted R (l1 ++ y :: l2) ->
  StronglySorted R l1 /\ StronglySorted R l2 /\
  (forall z, z ∈ l1 -> R z y) /\ (forall z, z ∈ l2 -> R y z).
Proof.
  intros H. apply StronglySorted_app in H as (H12 & H1 & H2).
  apply StronglySorted_inv in H2 as [H2 Hy]. rewrite Forall_forall in Hy.
  split_and!; auto. intros z Hz. apply H12; [done|set_solver].
Qed.

Lemma sorted_insert {A} (R : A -> A -> Prop) l1 l2 x :
  StronglySorted R (l1 ++ l2) -> (forall z, z ∈ l1 -> R z x) -> (forall z, z ∈ l2 -> R x z) ->
  StronglySorted R (l1 ++ x :: l2).
Proof.
  rewrite !StronglySorted_app. intros (H12 & H1 & H2) Hx1 Hx2. split_and!; [|done|].
  - intros y z Hy. rewrite elem_of_cons. intros [->|Hz]; auto.
  - constructor; [done|]. by apply Forall_forall.
Qed.

Lemma sorted_delete {A} (R : A -> A -> Prop) l1 l2 x :
  StronglySorted R (l1 ++ x :: l2) -> StronglySorted R (l1 ++ l2).
Proof.
  rewrite !StronglySorted_app. intros (H12 & H1 & H2). apply StronglySorted_inv in H2 as [H2 _].
  split_and!; [|done|done]. intros y z Hy Hz. apply H12; [done|set_solver].
Qed.

Lemma sorted_impl {A} (R R' : A -> A -> Prop) l :
  (forall x y, x ∈ l -> y ∈ l -> R x y -> R' x y) -> StronglySorted R l -> StronglySorted R' l.
Proof.
  intros Hi Hs. induction Hs as [|x l Hs IH Hf]; constructor.
  - apply IH. intros; apply Hi; set_solver.
  - rewrite Forall_forall in *. intros y Hy. apply Hi; set_solver.
Qed.

(** A cut of a list into a part satisfying [P] and a part excluding it is unique. *)
Lemma cut_unique {A} (P : A -> Prop) (l1 l2 k1 k2 : list A) :
  l1 ++ l2 = k1 ++ k2 ->
  Forall P l1 -> Forall P k1 -> Forall (fun x => ~ P x) l2 -> Forall (fun x => ~ P x) k2 ->
  l1 = k1 /\ l2 = k2.
Proof.
  revert k1. induction l1 as [|x l1 IH]; intros [|y k1] E H1 K1 H2 K2; simpl in E.
  - done.
  - subst l2. inv K1. inv H2. done.
  - subst k2. inv K2. inv H1. done.
  - injection E as -> E. inv H1. inv K1. destruct (IH k1) as [-> ->]; auto.
Qed.

(** The occurrence of an element in a duplicate-free list is unique. *)
Lemma app_cons_inj {A} (l1 l2 k1 k2 : list A) x :
  l1 ++ x :: l2 = k1 ++ x :: k2 -> x ∉ l1 -> x ∉ k1 -> l1 = k1 /\ l2 = k2.
Proof.
  revert k1. induction l1 as [|y l1 IH]; intros [|z k1] E N1 N2; simpl in E.
  - by injection E as ->.
  - injection E as -> _. set_solver.
  - injection E as -> _. set_solver.
  - injection E as -> E. destruct (IH k1) as [-> ->]; [done|set_solver..|done].
Qed.
