(* ===== verification/RBTree.v ===== *)
(** * Red-black trees ([include/util/tree.h], the [RB_*] macros)

    The C code links nodes by left, right and parent pointers.  A node seen
    together with its chain of parents is modelled as a zipper: the subtree
    hanging at the node and the list of frames above it, innermost first.
    Writing a child pointer of a parent is rebuilding the frame. *)

From S2P Require Import Prelude.

Inductive color := RB_BLACK | RB_RED.

#[global] Instance color_eq_dec : EqDecision color.
Proof. solve_decision. Defined.

(** A possibly [NULL] pointer to a node, with everything reachable from it. *)
Inductive rbtree (A : Type) :=
| Nil
| Node (c : color) (l : rbtree A) (x : A) (r : rbtree A).
Arguments Nil {A}.
Arguments Node {A} c l x r.

(** One step of [rbe_parent]: the focus is the left (resp. right) child. *)
Inductive frame (A : Type) :=
| InLeft (c : color) (x : A) (r : rbtree A)
| InRight (c : color) (l : rbtree A) (x : A).
Arguments InLeft {A} c x r.
Arguments InRight {A} c l x.

Section RB.
Context {A : Type}.
Implicit Types (t l r elm tmp : rbtree A) (f : frame A) (p : list (frame A)).

Definition plug1 t f : rbtree A :=
  match f with InLeft c x r => Node c t x r | InRight c l x => Node c l x t end.
Definition plug t p : rbtree A := foldl plug1 t p.

(** [RB_COLOR(elm) == RB_RED] guarded by [elm != NULL]. *)
Definition is_red t : bool := match t with Node RB_RED _ _ _ => true | _ => false end.
Definition set_color (c : color) t : rbtree A :=
  match t with Nil => Nil | Node _ l x r => Node c l x r end.
Definition frame_color f : color := match f with InLeft c _ _ | InRight c _ _ => c end.
Definition frame_set_color (c : color) f : frame A :=
  match f with InLeft _ x r => InLeft c x r | InRight _ l x => InRight c l x end.
Definition RB_LEFT t : rbtree A := match t with Nil => Nil | Node _ l _ _ => l end.
Definition RB_RIGHT t : rbtree A := match t with Nil => Nil | Node _ _ _ r => r end.
Definition RB_ELM t : option A := match t with Nil => None | Node _ _ x _ => Some x end.

(** The rotations dereference the child that moves up. *)
Definition RB_ROTATE_LEFT t : option (rbtree A) :=
  match t with
  | Node c l x (Node c' l' x' r') => Some (Node c' (Node c l x l') x' r')
  | _ => None
  end.
Definition RB_ROTATE_RIGHT t : option (rbtree A) :=
  match t with
  | Node c (Node c' l' x' r') x r => Some (Node c' l' x' (Node c r' x r))
  | _ => None
  end.

(** The loop of [RB_INSERT_COLOR].  [None] is the dereference of a [NULL]
    grandparent.  After a rotation the parent of [elm] is black, so the loop
    test fails and the root is coloured. *)
Fixpoint RB_INSERT_COLOR (elm : rbtree A) (p : list (frame A)) : option (rbtree A) :=
  match p with
  | [] => Some (set_color RB_BLACK elm)
  | f :: p1 =>
    match frame_color f with
    | RB_BLACK => Some (set_color RB_BLACK (plug elm p))
    | RB_RED =>
      match p1 with
      | [] => None
      | InLeft gc gx tmp :: p2 =>
        if is_red tmp then
          RB_INSERT_COLOR
            (Node RB_RED (plug1 elm (frame_set_color RB_BLACK f)) gx (set_color RB_BLACK tmp)) p2
        else
          parent ← match f with
                   | InRight _ _ _ => RB_ROTATE_LEFT (plug1 elm f)
                   | InLeft _ _ _ => Some (plug1 elm f)
                   end;
          t ← RB_ROTATE_RIGHT (Node RB_RED (set_color RB_BLACK parent) gx tmp);
          Some (set_color RB_BLACK (plug t p2))
      | InRight gc tmp gx :: p2 =>
        if is_red tmp then
          RB_INSERT_COLOR
            (Node RB_RED (set_color RB_BLACK tmp) gx (plug1 elm (frame_set_color RB_BLACK f))) p2
        else
          parent ← match f with
                   | InLeft _ _ _ => RB_ROTATE_RIGHT (plug1 elm f)
                   | InRight _ _ _ => Some (plug1 elm f)
                   end;
          t ← RB_ROTATE_LEFT (Node RB_RED tmp gx (set_color RB_BLACK parent));
          Some (set_color RB_BLACK (plug t p2))
      end
    end
  end.

(** The descents take the comparison against the key as [probe]: the key of
    [RB_FIND] is a structure on the C stack that is in no tree. *)
Fixpoint insert_descend (probe : A -> Z) t p : A + list (frame A) :=
  match t with
  | Nil => inr p
  | Node c l y r =>
    let comp := probe y in
    if comp <? 0 then insert_descend probe l (InLeft c y r :: p)
    else if comp >? 0 then insert_descend probe r (InRight c l y :: p)
    else inl y
  end.

(** Returns the element already there ([Some]) or [NULL] ([None]), and the tree. *)
Definition RB_INSERT (cmp : A -> A -> Z) (x : A) t : option (option A * rbtree A) :=
  match insert_descend (cmp x) t [] with
  | inl y => Some (Some y, t)
  | inr p => t' ← RB_INSERT_COLOR (Node RB_RED Nil x Nil) p; Some (None, t')
  end.

Fixpoint RB_FIND (probe : A -> Z) t : rbtree A :=
  match t with
  | Nil => Nil
  | Node c l y r =>
    let comp := probe y in
    if comp <? 0 then RB_FIND probe l
    else if comp >? 0 then RB_FIND probe r
    else t
  end.

(** [res] is the variable of the same name in [RB_NFIND]. *)
Fixpoint nfind_loop (probe : A -> Z) t (res : option A) : option A :=
  match t with
  | Nil => res
  | Node _ l y r =>
    let comp := probe y in
    if comp <? 0 then nfind_loop probe l (Some y)
    else if comp >? 0 then nfind_loop probe r res
    else Some y
  end.
Definition RB_NFIND (probe : A -> Z) t : option A := nfind_loop probe t None.

Fixpoint minmax_loop (val : Z) t (parent : option A) : option A :=
  match t with
  | Nil => parent
  | Node _ l x r => if val <? 0 then minmax_loop val l (Some x) else minmax_loop val r (Some x)
  end.
Definition RB_MINMAX (val : Z) t : option A := minmax_loop val t None.

(** [RB_PREV] and [RB_NEXT] on a node given by its zipper. *)
Fixpoint up_while_left p : list (frame A) :=
  match p with InLeft _ _ _ :: p' => up_while_left p' | _ => p end.
Fixpoint up_while_right p : list (frame A) :=
  match p with InRight _ _ _ :: p' => up_while_right p' | _ => p end.
Definition frame_elm f : A := match f with InLeft _ x _ | InRight _ _ x => x end.
Definition RB_PREV t p : option A :=
  match RB_LEFT t with
  | Nil => match p with
           | InRight _ _ x :: _ => Some x
           | _ => frame_elm <$> head (up_while_left p)
           end
  | l => RB_MINMAX 1 l
  end.
Definition RB_NEXT t p : option A :=
  match RB_RIGHT t with
  | Nil => match p with
           | InLeft _ x _ :: _ => Some x
           | _ => frame_elm <$> head (up_while_right p)
           end
  | r => RB_MINMAX (-1) r
  end.

(** One iteration of [RB_REMOVE_COLOR]: the loop continues with a new
    [elm] and parent chain, or the whole tree is finished by [break]. *)
Inductive rc_step :=
| RcLoop (elm : rbtree A) (p : list (frame A))
| RcBreak (t : rbtree A).

(** The black-sibling part of the body, [tmp] being the sibling. *)
Definition rc_left_black elm (pc : color) (px : A) tmp p : option rc_step :=
  match tmp with
  | Nil => None
  | Node _ tl tx tr =>
    if negb (is_red tl) && negb (is_red tr)
    then Some (RcLoop (Node pc elm px (Node RB_RED tl tx tr)) p)
    else
      tmp ← (if negb (is_red tr) then RB_ROTATE_RIGHT (Node RB_RED (set_color RB_BLACK tl) tx tr)
             else Some tmp);
      let tmp := set_color pc tmp in
      let tmp := match tmp with
                 | Nil => Nil
                 | Node c l x r => Node c l x (set_color RB_BLACK r)
                 end in
      t ← RB_ROTATE_LEFT (Node RB_BLACK elm px tmp);
      Some (RcBreak (plug t p))
  end.

(** [RB_LEFT(parent) == elm]: a red sibling is first rotated above the parent. *)
Definition rc_left elm (pc : color) (px : A) tmp p : option rc_step :=
  match tmp with
  | Nil => None
  | Node RB_RED tl tx tr => rc_left_black elm RB_RED px tl (InLeft RB_BLACK tx tr :: p)
  | Node RB_BLACK _ _ _ => rc_left_black elm pc px tmp p
  end.

Definition rc_right_black elm (pc : color) tmp (px : A) p : option rc_step :=
  match tmp with
  | Nil => None
  | Node _ tl tx tr =>
    if negb (is_red tl) && negb (is_red tr)
    then Some (RcLoop (Node pc (Node RB_RED tl tx tr) px elm) p)
    else
      tmp ← (if negb (is_red tl) then RB_ROTATE_LEFT (Node RB_RED tl tx (set_color RB_BLACK tr))
             else Some tmp);
      let tmp := set_color pc tmp in
      let tmp := match tmp with
                 | Nil => Nil
                 | Node c l x r => Node c (set_color RB_BLACK l) x r
                 end in
      t ← RB_ROTATE_RIGHT (Node RB_BLACK tmp px elm);
      Some (RcBreak (plug t p))
  end.

Definition rc_right elm (pc : color) tmp (px : A) p : option rc_step :=
  match tmp with
  | Nil => None
  | Node RB_RED tl tx tr => rc_right_black elm RB_RED tr px (InRight RB_BLACK tl tx :: p)
  | Node RB_BLACK _ _ _ => rc_right_black elm pc tmp px p
  end.

(** The loop; [None] is a [NULL] dereference or no fuel left. *)
Fixpoint RB_REMOVE_COLOR (fuel : nat) elm p : option (rbtree A) :=
  match fuel with
  | O => None
  | S fuel =>
    if is_red elm then Some (plug (set_color RB_BLACK elm) p)
    else
      match p with
      | [] => Some (set_color RB_BLACK elm)
      | f :: p' =>
        s ← match f with
            | InLeft pc px tmp => rc_left elm pc px tmp p'
            | InRight pc tmp px => rc_right elm pc tmp px p'
            end;
        match s with
        | RcLoop elm p => RB_REMOVE_COLOR fuel elm p
        | RcBreak t => Some (set_color RB_BLACK t)
        end
      end
  end.

(** The in-order successor: [elm = RB_RIGHT(elm); while (left) elm = left]. *)
Fixpoint descend_left t p : option (color * A * rbtree A * list (frame A)) :=
  match t with
  | Nil => None
  | Node c Nil x r => Some (c, x, r, p)
  | Node c l x r => descend_left l (InLeft c x r :: p)
  end.

Context `{EqDecision A}.

(** The pointer [x] as a position in the tree. *)
Fixpoint locate (x : A) t p : option (rbtree A * list (frame A)) :=
  match t with
  | Nil => None
  | Node c l y r =>
    if decide (x = y) then Some (t, p)
    else match locate x l (InLeft c y r :: p) with
         | Some z => Some z
         | None => locate x r (InRight c l y :: p)
         end
  end.

Definition RB_REMOVE (x : A) t : option (rbtree A) :=
  '(old, p) ← locate x t [];
  match old with
  | Nil => None
  | Node c l _ r =>
    '(col, child, p) ←
      match l, r with
      | Nil, _ => Some (c, r, p)
      | _, Nil => Some (c, l, p)
      | _, _ =>
        '(ec, ex, er, q) ← descend_left r [];
        Some (ec, er, q ++ InRight c l ex :: p)
      end;
    match col with
    | RB_BLACK => RB_REMOVE_COLOR (2 * length p + 2) child p
    | RB_RED => Some (plug child p)
    end
  end.

End RB.

(** ** Specification: in-order contents and the red-black invariant *)

Section Spec.
Context {A : Type}.
Implicit Types (t l r elm tmp : rbtree A) (f : frame A) (p : list (frame A)).

Fixpoint elements t : list A :=
  match t with Nil => [] | Node _ l x r => elements l ++ x :: elements r end.

(** What stands before and after the focus of a zipper. *)
Fixpoint before p : list A :=
  match p with
  | [] => []
  | InLeft _ _ _ :: p => before p
  | InRight _ l x :: p => before p ++ elements l ++ [x]
  end.
Fixpoint after p : list A :=
  match p with
  | [] => []
  | InLeft _ x r :: p => x :: elements r ++ after p
  | InRight _ _ _ :: p => after p
  end.

(** [rbt c n t]: [t] is a red-black tree with root colour [c] and black height [n]. *)
Inductive rbt : color -> nat -> rbtree A -> Prop :=
| rbt_Nil : rbt RB_BLACK 0 Nil
| rbt_Red n l x r : rbt RB_BLACK n l -> rbt RB_BLACK n r -> rbt RB_RED n (Node RB_RED l x r)
| rbt_Black n cl cr l x r :
    rbt cl n l -> rbt cr n r -> rbt RB_BLACK (S n) (Node RB_BLACK l x r).

(** [rbctx c n p]: the chain of parents [p] completes a subtree of black
    height [n]; [c] is the colour of the innermost parent, [RB_RED] standing
    for the root itself, which must be black. *)
Inductive rbctx : color -> nat -> list (frame A) -> Prop :=
| rbctx_nil n : rbctx RB_RED n []
| rbctx_InLeft_red n x r p :
    rbt RB_BLACK n r -> rbctx RB_BLACK n p -> rbctx RB_RED n (InLeft RB_RED x r :: p)
| rbctx_InRight_red n l x p :
    rbt RB_BLACK n l -> rbctx RB_BLACK n p -> rbctx RB_RED n (InRight RB_RED l x :: p)
| rbctx_InLeft_black n c c' x r p :
    rbt c n r -> rbctx c' (S n) p -> rbctx RB_BLACK n (InLeft RB_BLACK x r :: p)
| rbctx_InRight_black n c c' l x p :
    rbt c n l -> rbctx c' (S n) p -> rbctx RB_BLACK n (InRight RB_BLACK l x :: p).

(** A whole tree: black root, no two reds in a row, equal black heights. *)
Definition is_rb t : Prop := exists n, rbt RB_BLACK n t.

End Spec.

Create HintDb rb discriminated.
#[export] Hint Constructors rbt rbctx : rb.

Section Facts.
Context {A : Type}.
Implicit Types (t l r elm tmp : rbtree A) (f : frame A) (p : list (frame A)).

Lemma elements_plug t p : elements (plug t p) = before p ++ elements t ++ after p.
Proof.
  revert t. induction p as [|f p IH]; intros t; simpl; [by rewrite app_nil_r|].
  rewrite IH. destruct f; simpl; by rewrite <- ?app_assoc.
Qed.

Lemma elements_set_color c t : elements (set_color c t) = elements t.
Proof. by destruct t. Qed.

Lemma is_red_rbt c n t : rbt c n t -> is_red t = bool_decide (c = RB_RED).
Proof. by inversion 1. Qed.

Lemma rbt_set_black c n t : rbt c n t -> exists m, rbt RB_BLACK m (set_color RB_BLACK t).
Proof. inversion 1; subst; simpl; eauto with rb. Qed.

Lemma rbt_set_black_red n t : rbt RB_RED n t -> rbt RB_BLACK (S n) (set_color RB_BLACK t).
Proof. inversion 1; subst; simpl; eauto with rb. Qed.

Lemma rbt_set_black_black n t : rbt RB_BLACK n t -> set_color RB_BLACK t = t.
Proof. by inversion 1. Qed.

(** Filling a context: a red subtree is allowed below a black parent only. *)
Lemma rbctx_plug c n p cf t :
  rbctx c n p -> rbt cf n t -> (c = RB_RED -> cf = RB_BLACK) -> is_rb (plug t p).
Proof.
  intros Hp. revert cf t.
  induction Hp; intros cf t Ht Hc; simpl.
  - rewrite (Hc eq_refl) in Ht. by exists n.
  - rewrite (Hc eq_refl) in Ht. eapply IHHp; [eauto with rb|done].
  - rewrite (Hc eq_refl) in Ht. eapply IHHp; [eauto with rb|done].
  - eapply IHHp; eauto with rb.
  - eapply IHHp; eauto with rb.
Qed.

Lemma is_rb_set_black t : is_rb t -> set_color RB_BLACK t = t.
Proof. intros [n H]. by apply rbt_set_black_black in H. Qed.

Lemma rbctx_red_inv n f p :
  rbctx RB_RED n (f :: p) -> frame_color f = RB_RED /\ rbctx RB_BLACK n p.
Proof. inversion 1; subst; done. Qed.

Ltac rb_inv :=
  repeat match goal with
    | H : rbt _ _ Nil |- _ => inv H
    | H : rbt _ _ (Node _ _ _ _) |- _ => inv H
    | H : rbt RB_RED _ _ |- _ => inv H
    | H : rbctx _ _ (_ :: _) |- _ => inv H
    | H : rbctx RB_BLACK _ [] |- _ => inv H
    end.

(** [RB_INSERT_COLOR] repairs a red subtree placed anywhere, never
    dereferences [NULL], and keeps the in-order sequence. *)
(** Equations between in-order sequences. *)
Ltac elements_eq :=
  simpl; rewrite ?elements_plug, ?elements_set_color; simpl;
  repeat first [rewrite <- app_assoc | rewrite app_nil_r | rewrite elements_set_color | progress simpl];
  done.

Lemma insert_color_tail t p c n ct :
  rbctx c n p -> rbt ct n t -> (c = RB_RED -> ct = RB_BLACK) ->
  is_rb (set_color RB_BLACK (plug t p)) /\
  elements (set_color RB_BLACK (plug t p)) = before p ++ elements t ++ after p.
Proof.
  intros Hp Ht Hc. pose proof (rbctx_plug _ _ _ _ _ Hp Ht Hc) as H.
  by rewrite is_rb_set_black, elements_plug.
Qed.

(** [RB_INSERT_COLOR] repairs a red subtree placed anywhere, never
    dereferences [NULL], and keeps the in-order sequence. *)
Lemma RB_INSERT_COLOR_ok m : forall c n elm p,
  (length p <= m)%nat -> rbt RB_RED n elm -> rbctx c n p ->
  exists t, RB_INSERT_COLOR elm p = Some t /\ is_rb t /\
            elements t = before p ++ elements elm ++ after p.
Proof.
  induction m as [|m IH]; intros c n elm p Hlen Helm Hp;
    destruct p as [|f [|g p]]; simpl in Hlen; try lia.
  1,2: eexists; split; [done|]; split;
    [apply rbt_set_black in Helm; exact Helm | by rewrite elements_set_color, app_nil_r].
  - cbn [RB_INSERT_COLOR]. assert (c = RB_BLACK /\ frame_color f = RB_BLACK) as [-> ->]
      by (inv Hp; rb_inv; done).
    eexists; split; [done|]. eapply insert_color_tail; [exact Hp|exact Helm|done].
  - destruct c.
    + assert (frame_color f = RB_BLACK) as Hf by (inv Hp; done).
      cbn [RB_INSERT_COLOR]. rewrite Hf. eexists; split; [done|].
      eapply insert_color_tail; [exact Hp|exact Helm|done].
    + destruct (rbctx_red_inv _ _ _ Hp) as [Hf Hg].
      cbn [RB_INSERT_COLOR]. rewrite Hf.
      destruct g as [gc gx gr|gc gl gx]; inv Hg;
        match goal with H : rbt ?c _ ?tmp |- context [is_red ?tmp] =>
          rewrite (is_red_rbt _ _ _ H); destruct c; simpl end.
      (* red uncle: recolour and go on from the grandparent *)
      2,4: match goal with
           | |- context [RB_INSERT_COLOR ?e ?q] =>
             edestruct IH with (elm := e) (p := q) as (t & -> & Ht & Hel);
               [lia | | eassumption | ]
           end;
           [ destruct f; simpl in *; subst; inv Hp;
             solve [eauto 6 using rbt_set_black_red with rb]
           | eexists; split; [done|]; split; [done|]; rewrite Hel;
             destruct f; elements_eq ].
      (* black uncle: rotate and stop *)
      all: destruct f as [fc fx fr|fc fl fx]; simpl in Hf; subst; inv Hp; rb_inv; simpl;
        (eexists; split; [done|]).
      all: match goal with |- context [plug ?e ?q] =>
             edestruct (insert_color_tail e q) as [Hrb ->];
               [eassumption | eauto with rb | done |] end;
           split; [done|]; elements_eq.
Qed.

(** Taking a subtree out of a red-black tree leaves a context of its height. *)
Lemma rbctx_unplug t p :
  is_rb (plug t p) ->
  exists c n cf, rbctx c n p /\ rbt cf n t /\ (c = RB_RED -> cf = RB_BLACK).
Proof.
  revert t. induction p as [|f p IH]; intros t; simpl.
  - intros [n H]. eauto 10 with rb.
  - intros H. destruct (IH _ H) as (c & n & cf & Hp & Ht & Hc).
    destruct f; simpl in Ht; inv Ht; destruct c; try (by specialize (Hc eq_refl));
      (do 3 eexists; split_and!; [eauto with rb | eassumption | done]).
Qed.

(** [RB_REMOVE_COLOR] is entered with a subtree one black short, or a red one
    that becomes right when coloured black. *)
Definition short (n : nat) elm : Prop :=
  rbt RB_BLACK n elm \/ (is_red elm = true /\ rbt RB_BLACK (S n) (set_color RB_BLACK elm)).

Definition rc_post (s : rc_step) (n : nat) (bef el aft : list A) (len : nat) : Prop :=
  match s with
  | RcLoop elm p =>
      exists m c, short m elm /\ rbctx c (S m) p /\
      before p ++ elements elm ++ after p = bef ++ el ++ aft /\
      (if is_red elm then length p <= S len else length p <= len)%nat
  | RcBreak t => is_rb t /\ elements t = bef ++ el ++ aft
  end.

Lemma rc_post_ext s n bef el aft bef' el' aft' len :
  bef ++ el ++ aft = bef' ++ el' ++ aft' ->
  rc_post s n bef el aft len -> rc_post s n bef' el' aft' len.
Proof. unfold rc_post. by intros ->. Qed.

Lemma rc_break t p c n ct (bef el aft : list A) len m :
  rbctx c n p -> rbt ct n t -> (c = RB_RED -> ct = RB_BLACK) ->
  before p ++ elements t ++ after p = bef ++ el ++ aft ->
  rc_post (RcBreak (plug t p)) m bef el aft len.
Proof. intros. split; [by eapply rbctx_plug | by rewrite elements_plug]. Qed.

Lemma rc_loop elm p c n (bef el aft : list A) len m :
  rbctx c (S n) p -> short n elm ->
  before p ++ elements elm ++ after p = bef ++ el ++ aft ->
  (if is_red elm then length p <= S len else length p <= len)%nat ->
  rc_post (RcLoop elm p) m bef el aft len.
Proof. intros. exists n, c. auto. Qed.

Ltac red_cases :=
  repeat match goal with
    | H : rbt ?c _ ?t |- context [is_red ?t] =>
      rewrite (is_red_rbt _ _ _ H); is_var c; destruct c
    | H : rbt ?c _ ?t |- context [is_red ?t] => rewrite (is_red_rbt _ _ _ H)
    end; simpl.

Ltac rc_finish :=
  eexists; split; [reflexivity|];
  first [ eapply rc_loop; [eauto with rb | unfold short; simpl; eauto 6 with rb | elements_eq | simpl; lia]
        | eapply rc_break; [eauto with rb | rb_inv; eauto 8 using rbt_set_black_red with rb | done | elements_eq] ].

Lemma rc_left_black_ok elm pc px tmp p c n len :
  rbt RB_BLACK n elm -> rbt RB_BLACK (S n) tmp -> rbctx c (S n) (InLeft pc px tmp :: p) ->
  (length p <= if pc then len else S len)%nat ->
  exists s, rc_left_black elm pc px tmp p = Some s /\
            rc_post s n (before p) (elements (Node pc elm px tmp)) (after p) len.
Proof.
  intros He Ht Hp Hl. inv Ht. unfold rc_left_black. inv Hp; red_cases; rb_inv; simpl; rc_finish.
Qed.

Lemma rc_right_black_ok elm pc tmp px p c n len :
  rbt RB_BLACK n elm -> rbt RB_BLACK (S n) tmp -> rbctx c (S n) (InRight pc tmp px :: p) ->
  (length p <= if pc then len else S len)%nat ->
  exists s, rc_right_black elm pc tmp px p = Some s /\
            rc_post s n (before p) (elements (Node pc tmp px elm)) (after p) len.
Proof.
  intros He Ht Hp Hl. inv Ht. unfold rc_right_black. inv Hp; red_cases; rb_inv; simpl; rc_finish.
Qed.

(** A red sibling of a short subtree has a black parent and black children. *)
Lemma rc_left_ok elm pc px tmp p c n :
  rbt RB_BLACK n elm -> rbctx c (S n) (InLeft pc px tmp :: p) ->
  exists s, rc_left elm pc px tmp p = Some s /\
            rc_post s n (before p) (elements (Node pc elm px tmp)) (after p) (length p).
Proof.
  intros He Hp. assert (exists ct, rbt ct (S n) tmp) as [ct Ht] by (inv Hp; eauto).
  unfold rc_left. inv Ht.
  - inv Hp; rb_inv.
    destruct (rc_left_black_ok elm RB_RED px l (InLeft RB_BLACK x r :: p) RB_RED n (length p))
      as (s & -> & Hs); [eauto with rb ..|simpl; lia|].
    eexists; split; [done|]. eapply rc_post_ext; [|exact Hs]. elements_eq.
  - eapply rc_left_black_ok; [eauto with rb ..|destruct pc; lia].
Qed.

Lemma rc_right_ok elm pc tmp px p c n :
  rbt RB_BLACK n elm -> rbctx c (S n) (InRight pc tmp px :: p) ->
  exists s, rc_right elm pc tmp px p = Some s /\
            rc_post s n (before p) (elements (Node pc tmp px elm)) (after p) (length p).
Proof.
  intros He Hp. assert (exists ct, rbt ct (S n) tmp) as [ct Ht] by (inv Hp; eauto).
  unfold rc_right. inv Ht.
  - inv Hp; rb_inv.
    destruct (rc_right_black_ok elm RB_RED r px (InRight RB_BLACK l x :: p) RB_RED n (length p))
      as (s & -> & Hs); [eauto with rb ..|simpl; lia|].
    eexists; split; [done|]. eapply rc_post_ext; [|exact Hs]. elements_eq.
  - eapply rc_right_black_ok; [eauto with rb ..|destruct pc; lia].
Qed.

(** [RB_REMOVE_COLOR] restores the invariant, with fuel linear in the depth. *)
Lemma RB_REMOVE_COLOR_ok fuel : forall elm p c n,
  short n elm -> rbctx c (S n) p ->
  (2 * length p + (if is_red elm then 1 else 2) <= fuel)%nat ->
  exists t, RB_REMOVE_COLOR fuel elm p = Some t /\ is_rb t /\
            elements t = before p ++ elements elm ++ after p.
Proof.
  induction fuel as [|fuel IH]; intros elm p c n Hs Hp Hf; [destruct (is_red elm); lia|].
  cbn [RB_REMOVE_COLOR]. destruct (is_red elm) eqn:Hr.
  { destruct Hs as [Hs|[_ Hs]]; [apply is_red_rbt in Hs; rewrite Hs in Hr; done|].
    eexists; split; [done|]. split; [eapply rbctx_plug; eauto|elements_eq]. }
  destruct Hs as [Hs|[? _]]; [|congruence].
  destruct p as [|f p].
  { eexists; split; [done|]. rewrite (rbt_set_black_black _ _ Hs).
    split; [by eexists|elements_eq]. }
  assert (exists s, match f with
            | InLeft pc px tmp => rc_left elm pc px tmp p
            | InRight pc tmp px => rc_right elm pc tmp px p
            end = Some s /\ rc_post s n (before p) (elements (plug1 elm f)) (after p) (length p))
    as (s & -> & Hpost).
  { destruct f; [eapply rc_left_ok|eapply rc_right_ok]; eauto. }
  destruct s as [elm' p'|t]; simpl.
  - destruct Hpost as (m & c' & Hs' & Hp' & He & Hl).
    edestruct (IH elm' p') as (t & -> & Ht & Hel); [exact Hs'|exact Hp'| |].
    { simpl in Hf. destruct (is_red elm'); lia. }
    eexists; split; [done|]. split; [done|]. rewrite Hel, He. destruct f; elements_eq.
  - destruct Hpost as [Hrb Hel]. eexists; split; [done|].
    rewrite (is_rb_set_black _ Hrb). split; [done|]. rewrite Hel. destruct f; elements_eq.
Qed.

Lemma plug_app t q p : plug t (q ++ p) = plug (plug t q) p.
Proof. unfold plug. by rewrite foldl_app. Qed.

Lemma before_app q p : before (q ++ p) = before p ++ before q.
Proof. induction q as [|[] q IH]; simpl; rewrite ?app_nil_r, ?IH; by rewrite <- ?app_assoc. Qed.

Lemma after_app q p : after (q ++ p) = after q ++ after p.
Proof. induction q as [|[] q IH]; simpl; rewrite ?IH; by rewrite <- ?app_assoc. Qed.

(** The invariant does not depend on the elements. *)
Lemma is_rb_replace c l x y r p : is_rb (plug (Node c l x r) p) -> is_rb (plug (Node c l y r) p).
Proof.
  intros H. destruct (rbctx_unplug _ _ H) as (c' & n & cf & Hp & Ht & Hc).
  eapply rbctx_plug; [exact Hp| |exact Hc]. inv Ht; eauto with rb.
Qed.

Lemma descend_left_ok t p0 c n :
  rbt c n t -> t <> Nil ->
  exists ec ex er q, descend_left t p0 = Some (ec, ex, er, q ++ p0) /\
    plug (Node ec Nil ex er) q = t /\ before q = [].
Proof.
  revert p0 c n. induction t as [|c' l IH x r _]; intros p0 c n Ht Hn; [done|].
  destruct l as [|lc ll lx lr].
  - do 3 eexists. exists []. done.
  - assert (exists c2 n2, rbt c2 n2 (Node lc ll lx lr)) as (c2 & n2 & Hl) by (inv Ht; eauto).
    destruct (IH (InLeft c' x r :: p0) _ _ Hl) as (ec & ex & er & q & Hq & Hpl & Hb); [done|].
    exists ec, ex, er, (q ++ [InLeft c' x r]).
    rewrite <- app_assoc, plug_app, Hpl, before_app, Hb. done.
Qed.


Section Remove.
Context `{EqDecision A}.

Lemma locate_ok x t p :
  match locate x t p with
  | Some (n, q) => exists c l r, n = Node c l x r /\ plug n q = plug t p
  | None => x ∉ elements t
  end.
Proof.
  revert p. induction t as [|c l IHl y r IHr]; intros p; simpl; [set_solver|].
  destruct (decide (x = y)) as [->|Hne]; [eauto 10|].
  specialize (IHl (InLeft c y r :: p)). destruct (locate x l _) as [[n q]|].
  { destruct IHl as (c' & l' & r' & -> & E). eauto 10. }
  specialize (IHr (InRight c l y :: p)). destruct (locate x r _) as [[n q]|].
  { destruct IHr as (c' & l' & r' & -> & E). eauto 10. }
  rewrite elem_of_app, elem_of_cons. tauto.
Qed.

(** Unlinking a node with at most one child, then repairing. *)
Lemma unlink_ok col l x r child p :
  is_rb (plug (Node col l x r) p) ->
  (l = Nil /\ child = r \/ r = Nil /\ child = l) ->
  exists t, match col with
            | RB_BLACK => RB_REMOVE_COLOR (2 * length p + 2) child p
            | RB_RED => Some (plug child p)
            end = Some t /\ is_rb t /\ elements t = before p ++ elements child ++ after p.
Proof.
  intros Hrb Hch. destruct (rbctx_unplug _ _ Hrb) as (c & n & cf & Hp & Ht & Hc).
  inv Ht.
  - assert (rbt RB_BLACK n child) by (by destruct Hch as [[-> ->]|[-> ->]]).
    eexists; split; [done|]. split; [by eapply rbctx_plug|elements_eq].
  - assert (short n0 child).
    { unfold short. destruct Hch as [[-> ->]|[-> ->]];
        repeat match goal with H : rbt _ _ Nil |- _ => inv H end;
        match goal with H : rbt ?k 0 ?t |- _ \/ is_red ?t = true /\ _ =>
          rewrite (is_red_rbt _ _ _ H); destruct k; [by left|right] end;
        split; [done|by apply rbt_set_black_red|done|by apply rbt_set_black_red]. }
    eapply RB_REMOVE_COLOR_ok; eauto. destruct (is_red child); lia.
Qed.

(** Removing a node that is in the tree never faults, keeps the tree
    red-black and takes exactly that element out of the in-order sequence. *)
Lemma RB_REMOVE_ok x t :
  is_rb t -> x ∈ elements t ->
  exists t' (l1 l2 : list A), RB_REMOVE x t = Some t' /\ is_rb t' /\
    elements t = l1 ++ x :: l2 /\ elements t' = l1 ++ l2.
Proof.
  intros Hrb Hin. unfold RB_REMOVE. pose proof (locate_ok x t []) as Hloc.
  destruct (locate x t []) as [[old p]|]; [|done].
  destruct Hloc as (c & l & r & -> & E). simpl in E. subst t.
  assert (forall child, (l = Nil /\ child = r \/ r = Nil /\ child = l) ->
    elements (Node c l x r) = elements l ++ x :: elements r -> exists t' (l1 l2 : list A),
      match c with
      | RB_BLACK => RB_REMOVE_COLOR (2 * length p + 2) child p
      | RB_RED => Some (plug child p)
      end = Some t' /\ is_rb t' /\
      elements (plug (Node c l x r) p) = l1 ++ x :: l2 /\ elements t' = l1 ++ l2) as Hone.
  { intros child Hch _. destruct (unlink_ok _ _ _ _ _ _ Hrb Hch) as (t' & -> & Hrb' & Hel).
    exists t', (before p ++ elements l), (elements r ++ after p).
    rewrite Hel. split_and!; [done|done|elements_eq|].
    destruct Hch as [[-> ->]|[-> ->]]; elements_eq. }
  cbn [mbind option_bind]. destruct l as [|lc ll lx lr]; [by apply Hone; auto|].
  destruct r as [|rc rl rx rr]; [by apply Hone; auto|].
  assert (exists cr n, rbt cr n (Node rc rl rx rr)) as (cr & n & Hr).
  { destruct (rbctx_unplug _ _ Hrb) as (? & ? & ? & _ & Ht & _). inv Ht; eauto. }
  destruct (descend_left_ok _ [] _ _ Hr) as (ec & ex & er & q & Hd & Hpl & Hb); [done|].
  rewrite Hd, app_nil_r. cbn [mbind option_bind]. set (l := Node lc ll lx lr) in *.
  assert (is_rb (plug (Node ec Nil ex er) (q ++ InRight c l ex :: p))) as Hrb2.
  { rewrite plug_app, Hpl. by eapply is_rb_replace in Hrb. }
  destruct (unlink_ok _ _ _ _ er _ Hrb2) as (t' & -> & Hrb' & Hel); [by left|].
  exists t', (before p ++ elements l), (elements (Node rc rl rx rr) ++ after p).
  split_and!; [done|done|elements_eq|].
  rewrite Hel, <- Hpl, before_app, after_app, Hb, elements_plug, Hb. elements_eq.
Qed.

End Remove.

(** ** Searching with a probe compatible with the order of the tree *)

(** [probe y] compares the key with [y]; it is compatible with the order [R]
    when being below (above) an element is inherited by what follows
    (precedes) it. *)
Class Probe (R : A -> A -> Prop) (probe : A -> Z) : Prop := {
  probe_lt y z : R y z -> probe y < 0 -> probe z < 0;
  probe_gt y z : R y z -> 0 < probe z -> 0 < probe y;
}.

Section Search.
Context (R : A -> A -> Prop) (probe : A -> Z) `{!Probe R probe}.

Lemma insert_descend_ok t p :
  StronglySorted R (elements t) ->
  Forall (fun z => 0 < probe z) (before p) -> Forall (fun z => probe z < 0) (after p) ->
  match insert_descend probe t p with
  | inl y => y ∈ elements t /\ probe y = 0
  | inr q => plug Nil q = plug t p /\
      Forall (fun z => 0 < probe z) (before q) /\ Forall (fun z => probe z < 0) (after q)
  end.
Proof.
  revert p. induction t as [|c l IHl y r IHr]; intros p Hs Hb Ha; simpl; [done|].
  simpl in Hs. destruct (sorted_split _ _ _ _ Hs) as (Hl & Hr & Hly & Hry).
  rewrite Z.gtb_ltb. destruct (Z.ltb_spec (probe y) 0).
  - specialize (IHl (InLeft c y r :: p) Hl Hb). destruct (insert_descend probe l _).
    + destruct IHl as [? ?]; [|set_solver].
      simpl. constructor; [done|]. apply Forall_app; split; [|done].
      apply Forall_forall. eauto using probe_lt.
    + apply IHl. simpl. constructor; [done|]. apply Forall_app; split; [|done].
      apply Forall_forall. eauto using probe_lt.
  - destruct (Z.ltb_spec 0 (probe y)); [|split; [set_solver|lia]].
    specialize (IHr (InRight c l y :: p) Hr). destruct (insert_descend probe r _).
    + destruct IHr as [? ?]; [|done|set_solver].
      simpl. apply Forall_app; split; [done|]. apply Forall_app; split; [|by constructor].
      apply Forall_forall. eauto using probe_gt.
    + apply IHr; [|done].
      simpl. apply Forall_app; split; [done|]. apply Forall_app; split; [|by constructor].
      apply Forall_forall. eauto using probe_gt.
Qed.

(** [RB_FIND] returns the topmost match; every match lies in its subtree. *)
Lemma RB_FIND_ok t p :
  StronglySorted R (elements t) ->
  Forall (fun z => 0 < probe z) (before p) -> Forall (fun z => probe z < 0) (after p) ->
  match RB_FIND probe t with
  | Nil => Forall (fun z => probe z <> 0) (elements t)
  | Node c l y r => probe y = 0 /\ exists q, plug (Node c l y r) q = plug t p /\
      Forall (fun z => 0 < probe z) (before q) /\ Forall (fun z => probe z < 0) (after q)
  end.
Proof.
  revert p. induction t as [|c l IHl y r IHr]; intros p Hs Hb Ha; simpl; [done|].
  simpl in Hs. destruct (sorted_split _ _ _ _ Hs) as (Hl & Hr & Hly & Hry).
  rewrite Z.gtb_ltb. destruct (Z.ltb_spec (probe y) 0).
  - assert (Forall (fun z => probe z < 0) (elements r))
      by (apply Forall_forall; eauto using probe_lt).
    specialize (IHl (InLeft c y r :: p) Hl Hb). destruct (RB_FIND probe l).
    + apply Forall_app; split; [apply IHl|].
      * simpl. constructor; [done|]. by apply Forall_app.
      * constructor; [lia|]. eapply Forall_impl; [done|]. simpl; lia.
    + apply IHl. simpl. constructor; [done|]. by apply Forall_app.
  - destruct (Z.ltb_spec 0 (probe y)); [|split; [lia|by exists p]].
    assert (Forall (fun z => 0 < probe z) (elements l))
      by (apply Forall_forall; eauto using probe_gt).
    specialize (IHr (InRight c l y :: p) Hr). destruct (RB_FIND probe r).
    + apply Forall_app; split; [eapply Forall_impl; [done|]; simpl; lia|].
      constructor; [lia|]. apply IHr; [|done].
      simpl. apply Forall_app; split; [done|]. apply Forall_app; split; [done|by constructor].
    + apply IHr; [|done].
      simpl. apply Forall_app; split; [done|]. apply Forall_app; split; [done|by constructor].
Qed.

End Search.

(** Inserting an element no element of the tree compares equal to puts it at
    its place in the order, and otherwise returns the equal element. *)
Lemma RB_INSERT_ok (R : A -> A -> Prop) cmp x t :
  Probe R (cmp x) -> is_rb t -> StronglySorted R (elements t) ->
  exists o t', RB_INSERT cmp x t = Some (o, t') /\ is_rb t' /\
  match o with
  | Some y => t' = t /\ y ∈ elements t /\ cmp x y = 0
  | None => exists l1 l2 : list A, elements t = l1 ++ l2 /\ elements t' = l1 ++ x :: l2 /\
      Forall (fun z => 0 < cmp x z) l1 /\ Forall (fun z => cmp x z < 0) l2
  end.
Proof.
  intros HP Hrb Hs. unfold RB_INSERT.
  pose proof (insert_descend_ok R (cmp x) t [] Hs) as Hd. simpl in Hd.
  destruct (insert_descend (cmp x) t []) as [y|p].
  - exists (Some y), t. split_and!; [done..| |]; apply Hd; by constructor.
  - destruct Hd as (Hpl & Hb & Ha); [by constructor..|].
    assert (is_rb (plug Nil p)) as Hrb' by (by rewrite Hpl).
    destruct (rbctx_unplug _ _ Hrb') as (c & n & cf & Hp & Ht & _). inv Ht.
    destruct (RB_INSERT_COLOR_ok (length p) c 0 (Node RB_RED Nil x Nil) p)
      as (t' & -> & Hrb2 & Hel); [done|eauto with rb|done|].
    exists None, t'. split_and!; [done..|]. exists (before p), (after p).
    split_and!; [by rewrite elements_plug|done..].
Qed.

(** ** Neighbours and extremes *)

Lemma minmax_loop_max val t o :
  0 <= val -> minmax_loop val t o = match last (elements t) with Some y => Some y | None => o end.
Proof.
  intros Hv. revert o. induction t as [|c l IHl x r IHr]; intros o; simpl; [done|].
  destruct (Z.ltb_spec val 0); [lia|]. rewrite IHr, last_app, last_cons.
  by destruct (last (elements r)).
Qed.

Lemma minmax_loop_min val t o :
  val < 0 -> minmax_loop val t o = match head (elements t) with Some y => Some y | None => o end.
Proof.
  intros Hv. revert o. induction t as [|c l IHl x r IHr]; intros o; simpl; [done|].
  destruct (Z.ltb_spec val 0); [|lia]. rewrite IHl. by destruct (elements l).
Qed.

Lemma up_while_left_ok p : frame_elm <$> head (up_while_left p) = last (before p).
Proof.
  induction p as [|[] p IH]; simpl; [done|done|]. by rewrite app_assoc, last_snoc.
Qed.

Lemma up_while_right_ok p : frame_elm <$> head (up_while_right p) = head (after p).
Proof. by induction p as [|[] p IH]. Qed.

(** [RB_PREV] and [RB_NEXT] are the in-order neighbours. *)
Lemma RB_PREV_ok c l x r p : RB_PREV (Node c l x r) p = last (before p ++ elements l).
Proof.
  unfold RB_PREV. simpl. destruct l as [|lc ll lx lr].
  - rewrite app_nil_r, <- up_while_left_ok. by destruct p as [|[] p].
  - unfold RB_MINMAX. rewrite minmax_loop_max, last_app by lia.
    assert (is_Some (last (elements (Node lc ll lx lr)))) as [y ->]; [|done].
    rewrite last_is_Some. simpl. by destruct (elements ll).
Qed.

Lemma RB_NEXT_ok c l x r p : RB_NEXT (Node c l x r) p = head (elements r ++ after p).
Proof.
  unfold RB_NEXT. simpl. destruct r as [|rc rl rx rr].
  - simpl. rewrite <- up_while_right_ok. by destruct p as [|[] p].
  - unfold RB_MINMAX. rewrite minmax_loop_min by lia. simpl. by destruct (elements rl).
Qed.

(** The depth of a red-black tree is logarithmic in its size. *)
Fixpoint height t : nat :=
  match t with Nil => 0 | Node _ l _ r => S (height l `max` height r) end.

Lemma rbt_height c n t :
  rbt c n t -> (height t <= 2 * n + (if c then 0 else 1))%nat.
Proof.
  induction 1; simpl; [lia|lia|]. destruct cl, cr; lia.
Qed.

Lemma rbt_size c n t : rbt c n t -> (2 ^ n <= S (length (elements t)))%nat.
Proof.
  induction 1; simpl; rewrite ?length_app; simpl; [lia|lia|]. lia.
Qed.

End Facts.

(** ** A tree as a set *)

Section TreeSet.
#[local] Abbreviation keycmp := (fun x y : Z => x - y).

(** The calls a client makes: insert a key, or look it up and remove what was found. *)
Inductive tree_op := Ins (x : Z) | Del (x : Z).

Definition tree_step (t : rbtree Z) (o : tree_op) : option (rbtree Z) :=
  match o with
  | Ins x => snd <$> RB_INSERT keycmp x t
  | Del x => match RB_ELM (RB_FIND (keycmp x) t) with
             | Some y => RB_REMOVE y t
             | None => Some t
             end
  end.

Definition set_step (s : gset Z) (o : tree_op) : gset Z :=
  match o with Ins x => {[x]} ∪ s | Del x => s ∖ {[x]} end.

Fixpoint tree_run (t : rbtree Z) (os : list tree_op) : option (rbtree Z) :=
  match os with [] => Some t | o :: os => t' ← tree_step t o; tree_run t' os end.

Definition represents (t : rbtree Z) (s : gset Z) : Prop :=
  is_rb t /\ StronglySorted Z.lt (elements t) /\ forall x, x ∈ elements t <-> x ∈ s.

#[local] Instance keycmp_Probe x : Probe Z.lt (keycmp x).
Proof. split; intros; lia. Qed.

Lemma tree_step_ok t s o : represents t s -> exists t', tree_step t o = Some t' /\ represents t' (set_step s o).
Proof.
  intros (Hrb & Hs & Hin). destruct o as [x|x]; simpl.
  - destruct (RB_INSERT_ok Z.lt keycmp x t _ Hrb Hs) as (o & t' & -> & Hrb' & Ho). exists t'. split; [done|].
    destruct o as [y|].
    + destruct Ho as (-> & Hy & Hc). assert (x = y) as <- by lia. split_and!; [done..|]. set_solver.
    + destruct Ho as (l1 & l2 & E1 & E2 & H1 & H2). rewrite Forall_forall in H1, H2. rewrite E1 in *.
      split_and!; [done| |].
      * rewrite E2. apply sorted_insert; [done| |]; intros z Hz; [specialize (H1 _ Hz)|specialize (H2 _ Hz)]; lia.
      * intros y. rewrite E2. specialize (Hin y). set_solver.
  - pose proof (RB_FIND_ok Z.lt (keycmp x) t [] Hs (Forall_nil_2 _) (Forall_nil_2 _)) as Hf.
    destruct (RB_FIND _ t) as [|c l y r]; simpl.
    + exists t. split; [done|]. split_and!; [done..|]. rewrite Forall_forall in Hf.
      intros z. rewrite elem_of_difference, elem_of_singleton, <- Hin. split; [|by intros []].
      intros Hz. split; [done|]. intros ->. apply (Hf _ Hz). lia.
    + destruct Hf as (Hy & q & Hq & _). assert (x = y) as <- by lia.
      destruct (RB_REMOVE_ok x t Hrb) as (t' & l1 & l2 & -> & Hrb' & E1 & E2).
      { simpl in Hq. rewrite <- Hq, elements_plug. set_solver. }
      exists t'. split; [done|]. split_and!; [done| |].
      * rewrite E2. eapply sorted_delete. by rewrite <- E1.
      * rewrite E1 in Hs. destruct (sorted_split _ _ _ _ Hs) as (_ & _ & H1 & H2).
        intros z. rewrite E2, elem_of_difference, elem_of_singleton, <- Hin, E1.
        specialize (H1 z). specialize (H2 z). split.
        -- intros Hz. split; [set_solver|]. intros ->. set_solver by lia.
        -- set_solver.
Qed.

(** C10: The red-black tree of [tree.h] is a set: any sequence of insertions and
    of look-up-and-remove calls runs without dereferencing [NULL], ends in a
    red-black tree with its keys in order, holding exactly the keys a
    mathematical set would, and of depth at most twice the logarithm of its size. *)
Theorem tree_is_set os :
  exists t, tree_run Nil os = Some t /\ represents t (foldl set_step ∅ os) /\
    (height t <= 2 * Nat.log2 (S (length (elements t))))%nat.
Proof.
  assert (forall t s, represents t s ->
    exists t', tree_run t os = Some t' /\ represents t' (foldl set_step s os)) as Hgen.
  { induction os as [|o os IH]; intros t s Hr; simpl; [by exists t|].
    destruct (tree_step_ok t s o Hr) as (t' & -> & Hr'). by apply IH. }
  destruct (Hgen Nil ∅) as (t & E & Hr).
  { split_and!; [by exists 0%nat; constructor|constructor|]. intros x. simpl. set_solver. }
  exists t. split_and!; [done..|]. destruct Hr as ([n Hn] & _).
  pose proof (rbt_height _ _ _ Hn). apply rbt_size, Nat.log2_le_mono in Hn.
  rewrite Nat.log2_pow2 in Hn by lia. simpl in *. lia.
Qed.

End TreeSet.
