(* ===== verification/Const.v ===== *)
(** * Constant tables ([include/linux/const.h])

    Linux constants are declared in X-macro tables from which an enum, a
    name table and two conversion functions are generated.  A table is a list
    of declarations here, and the generated [switch] is the list of its cases.
    The numbers of the host's constants come from Darwin's headers and are a
    parameter, indexed by the constant's name. *)

From S2P Require Import Prelude.

(** The third argument of [DECL_LINUX]: absent, or [LINUX_SPECIFIC]. *)
Inductive dkind := SAME | LINUX_SPECIFIC.

Inductive decl :=
| DECL_LINUX (name : string) (val : Z) (k : dkind)
| DECL_ALIAS (name : string) (target : string)
| FROM_DARWN (name : string) (darwin : string).

(** [DECLARE_CENUM]: the value of [LINUX_<name>]. *)
Fixpoint constant_in (whole tbl : list decl) (name : string) : option Z :=
  match tbl with
  | [] => None
  | DECL_LINUX n v _ :: t => if decide (n = name) then Some v else constant_in whole t name
  | DECL_ALIAS n target :: t =>
      if decide (n = name) then
        head (omap (fun d => match d with
                             | DECL_LINUX m v _ => if decide (m = target) then Some v else None
                             | _ => None
                             end) whole)
      else constant_in whole t name
  | FROM_DARWN _ _ :: t => constant_in whole t name
  end.
Definition constant (tbl : list decl) (name : string) : option Z := constant_in tbl tbl name.

(** [DECLARE_CSTR_FUNC]: the name printed for a value. *)
Fixpoint strtable (tbl : list decl) (val : Z) : option string :=
  match tbl with
  | [] => None
  | DECL_LINUX n v _ :: t => if v =? val then Some (String.append "LINUX_" n) else strtable t val
  | _ :: t => strtable t val
  end.

(** A C [switch] whose cases all return; the default of [DECLARE_CMAP_FUNC] is -1. *)
Definition switch (cases : list (Z * Z)) (val : Z) : Z :=
  match list_find (fun c => c.1 = val) cases with
  | Some (_, c) => c.2
  | None => -1
  end.

(** [LINUX_SPECIFIC] is [-10 - __COUNTER__]; [ctr] is the value of the counter
    where the expansion of the table starts. *)
Fixpoint linux_to_darwin_cases (dar : string -> Z) (ctr : Z) (tbl : list decl) : list (Z * Z) :=
  match tbl with
  | [] => []
  | DECL_LINUX n v SAME :: t => (v, dar n) :: linux_to_darwin_cases dar ctr t
  | DECL_LINUX n v LINUX_SPECIFIC :: t => (v, -10 - ctr) :: linux_to_darwin_cases dar (ctr + 1) t
  | _ :: t => linux_to_darwin_cases dar ctr t
  end.

Fixpoint darwin_to_linux_cases (dar : string -> Z) (whole : list decl) (ctr : Z) (tbl : list decl) :
    list (Z * Z) :=
  match tbl with
  | [] => []
  | DECL_LINUX n v SAME :: t => (dar n, v) :: darwin_to_linux_cases dar whole ctr t
  | DECL_LINUX n v LINUX_SPECIFIC :: t =>
      (-10 - ctr, v) :: darwin_to_linux_cases dar whole (ctr + 1) t
  | FROM_DARWN n d :: t =>
      (dar d, default (-1) (constant whole n)) :: darwin_to_linux_cases dar whole ctr t
  | DECL_ALIAS _ _ :: t => darwin_to_linux_cases dar whole ctr t
  end.

(** Darwin's constants by name, the macros [major] and [minor] of its
    [sys/types.h], and the value of [__COUNTER__] where the table of a conversion
    function is expanded. *)
Class DarwinConst := { D : string -> Z; major : Z -> Z; minor : Z -> Z; counter : string -> Z }.

(** ** Facts *)

Lemma switch_case cases k v : NoDup cases.*1 -> (k, v) ∈ cases -> switch cases k = v.
Proof.
  intros Hnd Hin. unfold switch. destruct (list_find _ cases) as [[i [k' v']]|] eqn:E.
  - apply list_find_Some in E as (Hi & Hk & _). simpl in *. subst k'.
    apply list_elem_of_lookup in Hin as [j Hj].
    assert (i = j) as ->.
    { eapply NoDup_lookup; [exact Hnd| |]; rewrite list_lookup_fmap;
        [by rewrite Hi|by rewrite Hj]. }
    congruence.
  - apply list_find_None in E. rewrite Forall_forall in E. by destruct (E _ Hin).
Qed.

Lemma switch_default cases k : k ∉ cases.*1 -> switch cases k = -1.
Proof.
  intros Hn. unfold switch. destruct (list_find _ cases) as [[i [k' v']]|] eqn:E; [|done].
  apply list_find_Some in E as (Hi & Hk & _). simpl in *. subst k'.
  destruct Hn. apply list_elem_of_fmap. exists (k, v'). split; [done|].
  by eapply list_elem_of_lookup_2.
Qed.

Lemma switch_range cases k (P : Z -> Prop) : P (-1) -> Forall (fun c => P c.2) cases -> P (switch cases k).
Proof.
  intros H1 Hf. unfold switch. destruct (list_find _ cases) as [[i c]|] eqn:E; [|done].
  apply list_find_Some in E as (Hi & _ & _). rewrite Forall_forall in Hf.
  apply Hf. by eapply list_elem_of_lookup_2.
Qed.

Lemma switch_label cases k (P : Z -> Prop) :
  k ∈ cases.*1 -> Forall (fun c => P c.2) cases -> P (switch cases k).
Proof.
  intros Hin Hf. unfold switch. destruct (list_find _ cases) as [[i c]|] eqn:E.
  - apply list_find_Some in E as (Hi & _ & _). rewrite Forall_forall in Hf.
    apply Hf. by eapply list_elem_of_lookup_2.
  - apply list_find_None in E. rewrite Forall_forall in E.
    apply list_elem_of_fmap in Hin as ([k' v] & -> & Hin). by destruct (E _ Hin).
Qed.

Lemma l2d_case dar ctr tbl n v :
  DECL_LINUX n v SAME ∈ tbl -> (v, dar n) ∈ linux_to_darwin_cases dar ctr tbl.
Proof.
  revert ctr. induction tbl as [|d t IH]; intros ctr; [by rewrite elem_of_nil|].
  rewrite elem_of_cons. intros [<-|H]; simpl; [left|].
  destruct d as [? ? []| |]; simpl; eauto; right; eauto.
Qed.

Lemma d2l_case dar whole ctr tbl n v :
  DECL_LINUX n v SAME ∈ tbl -> (dar n, v) ∈ darwin_to_linux_cases dar whole ctr tbl.
Proof.
  revert ctr. induction tbl as [|d t IH]; intros ctr; [by rewrite elem_of_nil|].
  rewrite elem_of_cons. intros [<-|H]; simpl; [left|].
  destruct d as [? ? []| |]; simpl; eauto; right; eauto.
Qed.

(** The linux labels do not depend on the host's numbers. *)
Lemma l2d_labels dar ctr tbl :
  (linux_to_darwin_cases dar ctr tbl).*1 =
  omap (fun d => match d with DECL_LINUX _ v _ => Some v | _ => None end) tbl.
Proof.
  revert ctr. induction tbl as [|d t IH]; intros ctr; simpl; [done|].
  destruct d as [? ? []| |]; simpl; by rewrite ?IH.
Qed.

Lemma const_roundtrip dar tbl c1 c2 n v :
  NoDup (omap (fun d => match d with DECL_LINUX _ v _ => Some v | _ => None end) tbl) ->
  NoDup (darwin_to_linux_cases dar tbl c2 tbl).*1 ->
  DECL_LINUX n v SAME ∈ tbl ->
  switch (linux_to_darwin_cases dar c1 tbl) v = dar n /\
  switch (darwin_to_linux_cases dar tbl c2 tbl) (dar n) = v.
Proof.
  intros H1 H2 Hin. split; apply switch_case; auto using l2d_case, d2l_case.
  by rewrite l2d_labels.
Qed.
