(* ===== verification/Errno.v ===== *)
(** * Error numbers ([include/linux/errno.h]) and [syswrap] ([include/common.h]) *)

From S2P Require Import Prelude Const.

Open Scope string_scope.

Definition LINUX_ERRNO : list decl := [
  DECL_LINUX "EPERM" 1 SAME;
  DECL_LINUX "ENOENT" 2 SAME;
  DECL_LINUX "ESRCH" 3 SAME;
  DECL_LINUX "EINTR" 4 SAME;
  DECL_LINUX "EIO" 5 SAME;
  DECL_LINUX "ENXIO" 6 SAME;
  DECL_LINUX "E2BIG" 7 SAME;
  DECL_LINUX "ENOEXEC" 8 SAME;
  DECL_LINUX "EBADF" 9 SAME;
  DECL_LINUX "ECHILD" 10 SAME;
  DECL_LINUX "EAGAIN" 11 SAME;
  DECL_LINUX "ENOMEM" 12 SAME;
  DECL_LINUX "EACCES" 13 SAME;
  DECL_LINUX "EFAULT" 14 SAME;
  DECL_LINUX "ENOTBLK" 15 SAME;
  DECL_LINUX "EBUSY" 16 SAME;
  DECL_LINUX "EEXIST" 17 SAME;
  DECL_LINUX "EXDEV" 18 SAME;
  DECL_LINUX "ENODEV" 19 SAME;
  DECL_LINUX "ENOTDIR" 20 SAME;
  DECL_LINUX "EISDIR" 21 SAME;
  DECL_LINUX "EINVAL" 22 SAME;
  DECL_LINUX "ENFILE" 23 SAME;
  DECL_LINUX "EMFILE" 24 SAME;
  DECL_LINUX "ENOTTY" 25 SAME;
  DECL_LINUX "ETXTBSY" 26 SAME;
  DECL_LINUX "EFBIG" 27 SAME;
  DECL_LINUX "ENOSPC" 28 SAME;
  DECL_LINUX "ESPIPE" 29 SAME;
  DECL_LINUX "EROFS" 30 SAME;
  DECL_LINUX "EMLINK" 31 SAME;
  DECL_LINUX "EPIPE" 32 SAME;
  DECL_LINUX "EDOM" 33 SAME;
  DECL_LINUX "ERANGE" 34 SAME;
  DECL_LINUX "EDEADLK" 35 SAME;
  DECL_LINUX "ENAMETOOLONG" 36 SAME;
  DECL_LINUX "ENOLCK" 37 SAME;
  DECL_LINUX "ENOSYS" 38 SAME;
  DECL_LINUX "ENOTEMPTY" 39 SAME;
  DECL_LINUX "ELOOP" 40 SAME;
  DECL_ALIAS "EWOULDBLOCK" "EAGAIN";
  DECL_LINUX "ENOMSG" 42 SAME;
  DECL_LINUX "EIDRM" 43 SAME;
  DECL_LINUX "ECHRNG" 44 LINUX_SPECIFIC;
  DECL_LINUX "EL2NSYNC" 45 LINUX_SPECIFIC;
  DECL_LINUX "EL3HLT" 46 LINUX_SPECIFIC;
  DECL_LINUX "EL3RST" 47 LINUX_SPECIFIC;
  DECL_LINUX "ELNRNG" 48 LINUX_SPECIFIC;
  DECL_LINUX "EUNATCH" 49 LINUX_SPECIFIC;
  DECL_LINUX "ENOCSI" 50 LINUX_SPECIFIC;
  DECL_LINUX "EL2HLT" 51 LINUX_SPECIFIC;
  DECL_LINUX "EBADE" 52 LINUX_SPECIFIC;
  DECL_LINUX "EBADR" 53 LINUX_SPECIFIC;
  DECL_LINUX "EXFULL" 54 LINUX_SPECIFIC;
  DECL_LINUX "ENOANO" 55 LINUX_SPECIFIC;
  DECL_LINUX "EBADRQC" 56 LINUX_SPECIFIC;
  DECL_LINUX "EBADSLT" 57 LINUX_SPECIFIC;
  DECL_ALIAS "EDEADLOCK" "EDEADLK";
  DECL_LINUX "EBFONT" 59 LINUX_SPECIFIC;
  DECL_LINUX "ENOSTR" 60 SAME;
  DECL_LINUX "ENODATA" 61 SAME;
  DECL_LINUX "ETIME" 62 SAME;
  DECL_LINUX "ENOSR" 63 SAME;
  DECL_LINUX "ENONET" 64 LINUX_SPECIFIC;
  DECL_LINUX "ENOPKG" 65 LINUX_SPECIFIC;
  DECL_LINUX "EREMOTE" 66 SAME;
  DECL_LINUX "ENOLINK" 67 SAME;
  DECL_LINUX "EADV" 68 LINUX_SPECIFIC;
  DECL_LINUX "ESRMNT" 69 LINUX_SPECIFIC;
  DECL_LINUX "ECOMM" 70 LINUX_SPECIFIC;
  DECL_LINUX "EPROTO" 71 SAME;
  DECL_LINUX "EMULTIHOP" 72 SAME;
  DECL_LINUX "EDOTDOT" 73 LINUX_SPECIFIC;
  DECL_LINUX "EBADMSG" 74 SAME;
  DECL_LINUX "EOVERFLOW" 75 SAME;
  DECL_LINUX "ENOTUNIQ" 76 LINUX_SPECIFIC;
  DECL_LINUX "EBADFD" 77 LINUX_SPECIFIC;
  DECL_LINUX "EREMCHG" 78 LINUX_SPECIFIC;
  DECL_LINUX "ELIBACC" 79 LINUX_SPECIFIC;
  DECL_LINUX "ELIBBAD" 80 LINUX_SPECIFIC;
  DECL_LINUX "ELIBSCN" 81 LINUX_SPECIFIC;
  DECL_LINUX "ELIBMAX" 82 LINUX_SPECIFIC;
  DECL_LINUX "ELIBEXEC" 83 LINUX_SPECIFIC;
  DECL_LINUX "EILSEQ" 84 SAME;
  DECL_LINUX "ERESTART" 85 LINUX_SPECIFIC;
  DECL_LINUX "ESTRPIPE" 86 LINUX_SPECIFIC;
  DECL_LINUX "EUSERS" 87 SAME;
  DECL_LINUX "ENOTSOCK" 88 SAME;
  DECL_LINUX "EDESTADDRREQ" 89 SAME;
  DECL_LINUX "EMSGSIZE" 90 SAME;
  DECL_LINUX "EPROTOTYPE" 91 SAME;
  DECL_LINUX "ENOPROTOOPT" 92 SAME;
  DECL_LINUX "EPROTONOSUPPORT" 93 SAME;
  DECL_LINUX "ESOCKTNOSUPPORT" 94 SAME;
  DECL_LINUX "EOPNOTSUPP" 95 SAME;
  DECL_ALIAS "ENOTSUP" "EOPNOTSUPP";
  DECL_LINUX "EPFNOSUPPORT" 96 SAME;
  DECL_LINUX "EAFNOSUPPORT" 97 SAME;
  DECL_LINUX "EADDRINUSE" 98 SAME;
  DECL_LINUX "EADDRNOTAVAIL" 99 SAME;
  DECL_LINUX "ENETDOWN" 100 SAME;
  DECL_LINUX "ENETUNREACH" 101 SAME;
  DECL_LINUX "ENETRESET" 102 SAME;
  DECL_LINUX "ECONNABORTED" 103 SAME;
  DECL_LINUX "ECONNRESET" 104 SAME;
  DECL_LINUX "ENOBUFS" 105 SAME;
  DECL_LINUX "EISCONN" 106 SAME;
  DECL_LINUX "ENOTCONN" 107 SAME;
  DECL_LINUX "ESHUTDOWN" 108 SAME;
  DECL_LINUX "ETOOMANYREFS" 109 SAME;
  DECL_LINUX "ETIMEDOUT" 110 SAME;
  DECL_LINUX "ECONNREFUSED" 111 SAME;
  DECL_LINUX "EHOSTDOWN" 112 SAME;
  DECL_LINUX "EHOSTUNREACH" 113 SAME;
  DECL_LINUX "EALREADY" 114 SAME;
  DECL_LINUX "EINPROGRESS" 115 SAME;
  DECL_LINUX "ESTALE" 116 SAME;
  DECL_LINUX "EUCLEAN" 117 LINUX_SPECIFIC;
  DECL_LINUX "ENOTNAM" 118 LINUX_SPECIFIC;
  DECL_LINUX "ENAVAIL" 119 LINUX_SPECIFIC;
  DECL_LINUX "EISNAM" 120 LINUX_SPECIFIC;
  DECL_LINUX "EREMOTEIO" 121 LINUX_SPECIFIC;
  DECL_LINUX "EDQUOT" 122 SAME;
  DECL_LINUX "ENOMEDIUM" 123 LINUX_SPECIFIC;
  DECL_LINUX "EMEDIUMTYPE" 124 LINUX_SPECIFIC;
  DECL_LINUX "ECANCELED" 125 SAME;
  DECL_LINUX "ENOKEY" 126 LINUX_SPECIFIC;
  DECL_LINUX "EKEYEXPIRED" 127 LINUX_SPECIFIC;
  DECL_LINUX "EKEYREVOKED" 128 LINUX_SPECIFIC;
  DECL_LINUX "EKEYREJECTED" 129 LINUX_SPECIFIC;
  DECL_LINUX "EOWNERDEAD" 130 SAME;
  DECL_LINUX "ENOTRECOVERABLE" 131 SAME;
  DECL_LINUX "ERFKILL" 132 LINUX_SPECIFIC;
  DECL_LINUX "EHWPOISON" 133 LINUX_SPECIFIC;
  FROM_DARWN "EPERM" "EFTYPE";
  FROM_DARWN "EPERM" "EAUTH";
  FROM_DARWN "EPERM" "ENEEDAUTH";
  FROM_DARWN "ENOEXEC" "EBADEXEC";
  FROM_DARWN "ENOEXEC" "EBADARCH";
  FROM_DARWN "ENOEXEC" "EBADMACHO";
  FROM_DARWN "ENODATA" "ENOATTR";
  FROM_DARWN "EPERM" "ENOPOLICY";
  FROM_DARWN "EPERM" "EBADRPC"
].

Close Scope string_scope.

(** The enum constants the sources use. *)
Definition LINUX_EPERM : Z := Eval vm_compute in default 0 (constant LINUX_ERRNO "EPERM").
Definition LINUX_ENOENT : Z := Eval vm_compute in default 0 (constant LINUX_ERRNO "ENOENT").
Definition LINUX_EINTR : Z := Eval vm_compute in default 0 (constant LINUX_ERRNO "EINTR").
Definition LINUX_E2BIG : Z := Eval vm_compute in default 0 (constant LINUX_ERRNO "E2BIG").
Definition LINUX_ENOEXEC : Z := Eval vm_compute in default 0 (constant LINUX_ERRNO "ENOEXEC").
Definition LINUX_EBADF : Z := Eval vm_compute in default 0 (constant LINUX_ERRNO "EBADF").
Definition LINUX_EAGAIN : Z := Eval vm_compute in default 0 (constant LINUX_ERRNO "EAGAIN").
Definition LINUX_ENOMEM : Z := Eval vm_compute in default 0 (constant LINUX_ERRNO "ENOMEM").
Definition LINUX_EACCES : Z := Eval vm_compute in default 0 (constant LINUX_ERRNO "EACCES").
Definition LINUX_EFAULT : Z := Eval vm_compute in default 0 (constant LINUX_ERRNO "EFAULT").
Definition LINUX_EISDIR : Z := Eval vm_compute in default 0 (constant LINUX_ERRNO "EISDIR").
Definition LINUX_EINVAL : Z := Eval vm_compute in default 0 (constant LINUX_ERRNO "EINVAL").
Definition LINUX_EMFILE : Z := Eval vm_compute in default 0 (constant LINUX_ERRNO "EMFILE").
Definition LINUX_ENOTTY : Z := Eval vm_compute in default 0 (constant LINUX_ERRNO "ENOTTY").
Definition LINUX_ENAMETOOLONG : Z := Eval vm_compute in default 0 (constant LINUX_ERRNO "ENAMETOOLONG").
Definition LINUX_ENOSYS : Z := Eval vm_compute in default 0 (constant LINUX_ERRNO "ENOSYS").
Definition LINUX_ELOOP : Z := Eval vm_compute in default 0 (constant LINUX_ERRNO "ELOOP").
Definition LINUX_ETIMEDOUT : Z := Eval vm_compute in default 0 (constant LINUX_ERRNO "ETIMEDOUT").

(** Host error numbers: values of Darwin's [E*] and the value of
    [__COUNTER__] where each table is expanded. *)
Class DarwinErrno := {
  darwin_errno : string -> Z;
  errno_ctr_l2d : Z;
  errno_ctr_d2l : Z;
}.

Section Errno.
Context `{DarwinErrno}.

Definition linux_to_darwin_errno (val : Z) : Z :=
  switch (linux_to_darwin_cases darwin_errno errno_ctr_l2d LINUX_ERRNO) val.
Definition darwin_to_linux_errno (val : Z) : Z :=
  switch (darwin_to_linux_cases darwin_errno LINUX_ERRNO errno_ctr_d2l LINUX_ERRNO) val.

(** [syswrap(call)]: [errno] is cleared before the call, so it is the one the
    call set; the result of the call is converted to [int]. *)
Definition syswrap (call errno : Z) : Z :=
  let sys_ret := s32 call in
  if (sys_ret <? 0) && negb (errno =? 0) then - darwin_to_linux_errno errno else sys_ret.

(** The labels of the generated [switch] are pairwise distinct (C refuses
    duplicate case labels). *)
Class DarwinErrnoOk : Prop := {
  errno_labels : NoDup (darwin_to_linux_cases darwin_errno LINUX_ERRNO errno_ctr_d2l LINUX_ERRNO).*1;
}.

Lemma linux_errno_labels :
  NoDup (omap (fun d => match d with DECL_LINUX _ v _ => Some v | _ => None end) LINUX_ERRNO).
Proof. apply (bool_decide_unpack _). vm_compute. exact I. Qed.

#[local] Abbreviation d2l := (darwin_to_linux_cases darwin_errno LINUX_ERRNO errno_ctr_d2l LINUX_ERRNO).

Lemma d2l_values : Forall (fun c => 1 <= c.2 <= 133) d2l.
Proof.
  generalize errno_ctr_d2l darwin_errno. intros c d.
  unfold LINUX_ERRNO. cbn [darwin_to_linux_cases].
  repeat (constructor; [vm_compute; split; discriminate|]). constructor.
Qed.

Lemma syswrap_nonneg r e : 0 <= r < 2 ^ 31 -> syswrap r e = r.
Proof.
  intros. unfold syswrap. rewrite swrap_small by lia. destruct (Z.ltb_spec r 0); [lia|done].
Qed.

(** Every Linux error number that has a Darwin counterpart survives the
    conversion to Darwin and back, and a failed host call that sets that
    counterpart makes the system call return exactly the negated number. *)
Theorem errno_roundtrip `{!DarwinErrnoOk} n v :
  DECL_LINUX n v SAME ∈ LINUX_ERRNO ->
  darwin_to_linux_errno (linux_to_darwin_errno v) = v /\
  (linux_to_darwin_errno v <> 0 -> syswrap (-1) (linux_to_darwin_errno v) = - v).
Proof.
  intros Hin.
  destruct (const_roundtrip darwin_errno LINUX_ERRNO errno_ctr_l2d errno_ctr_d2l n v
    linux_errno_labels errno_labels Hin) as [E1 E2].
  assert (darwin_to_linux_errno (linux_to_darwin_errno v) = v) as E.
  { unfold linux_to_darwin_errno. rewrite E1. exact E2. }
  split; [done|]. intros Hn. unfold syswrap. rewrite E. by destruct (Z.eqb_spec (linux_to_darwin_errno v) 0).
Qed.

Lemma syswrap_bound r e : - 2 ^ 31 <= syswrap r e < 2 ^ 31.
Proof.
  unfold syswrap. pose proof (swrap_range 32 r ltac:(lia)) as Hr. change (2 ^ (32 - 1)) with (2 ^ 31) in Hr.
  destruct ((_ <? 0) && _); [|done].
  pose proof (switch_range d2l e (fun v => -1 <= v <= 133) ltac:(cbv beta; lia)) as Hs. simpl in Hs.
  unfold darwin_to_linux_errno. assert (-1 <= switch d2l e <= 133) as Hv; [|lia].
  apply Hs. eapply Forall_impl; [apply d2l_values|]. simpl. lia.
Qed.

Lemma syswrap_label r e :
  - 2 ^ 31 <= r < 0 -> e <> 0 -> e ∈ d2l.*1 -> -133 <= syswrap r e <= -1.
Proof.
  intros Hr He Hin. unfold syswrap. rewrite swrap_neg by lia. destruct (Z.ltb_spec r 0); [|lia].
  destruct (Z.eqb_spec e 0); [done|]. simpl. unfold darwin_to_linux_errno.
  pose proof (switch_label d2l e (fun v => 1 <= v <= 133) Hin d2l_values). simpl in *. lia.
Qed.

(** [syswrap] turns a failed call into a negated Linux error number
    between 1 and 133 when the host's number is one of the table's labels, and
    into the positive value 1, which the guest takes for success, when it is not. *)
Theorem syswrap_failed r e :
  let labels := (darwin_to_linux_cases darwin_errno LINUX_ERRNO errno_ctr_d2l LINUX_ERRNO).*1 in
  - 2 ^ 31 <= r < 0 -> e <> 0 ->
  (e ∈ labels -> -133 <= syswrap r e <= -1) /\ (e ∉ labels -> syswrap r e = 1).
Proof.
  intros labels Hr He. split; intros Hin; [by apply syswrap_label|].
  unfold syswrap. rewrite swrap_neg by lia. destruct (Z.ltb_spec r 0); [|lia].
  destruct (Z.eqb_spec e 0); [done|]. simpl. unfold darwin_to_linux_errno. by rewrite switch_default.
Qed.

End Errno.

(** ** macOS's numbers, used by the witnesses *)

Definition macos_errnos : list (string * Z) :=
  [("EPERM", 1); ("ENOENT", 2); ("ESRCH", 3); ("EINTR", 4);
   ("EIO", 5); ("ENXIO", 6); ("E2BIG", 7); ("ENOEXEC", 8);
   ("EBADF", 9); ("ECHILD", 10); ("EDEADLK", 11); ("ENOMEM", 12);
   ("EACCES", 13); ("EFAULT", 14); ("ENOTBLK", 15); ("EBUSY", 16);
   ("EEXIST", 17); ("EXDEV", 18); ("ENODEV", 19); ("ENOTDIR", 20);
   ("EISDIR", 21); ("EINVAL", 22); ("ENFILE", 23); ("EMFILE", 24);
   ("ENOTTY", 25); ("ETXTBSY", 26); ("EFBIG", 27); ("ENOSPC", 28);
   ("ESPIPE", 29); ("EROFS", 30); ("EMLINK", 31); ("EPIPE", 32);
   ("EDOM", 33); ("ERANGE", 34); ("EAGAIN", 35); ("EINPROGRESS", 36);
   ("EALREADY", 37); ("ENOTSOCK", 38); ("EDESTADDRREQ", 39); ("EMSGSIZE", 40);
   ("EPROTOTYPE", 41); ("ENOPROTOOPT", 42); ("EPROTONOSUPPORT", 43); ("ESOCKTNOSUPPORT", 44);
   ("ENOTSUP", 45); ("EPFNOSUPPORT", 46); ("EAFNOSUPPORT", 47); ("EADDRINUSE", 48);
   ("EADDRNOTAVAIL", 49); ("ENETDOWN", 50); ("ENETUNREACH", 51); ("ENETRESET", 52);
   ("ECONNABORTED", 53); ("ECONNRESET", 54); ("ENOBUFS", 55); ("EISCONN", 56);
   ("ENOTCONN", 57); ("ESHUTDOWN", 58); ("ETOOMANYREFS", 59); ("ETIMEDOUT", 60);
   ("ECONNREFUSED", 61); ("ELOOP", 62); ("ENAMETOOLONG", 63); ("EHOSTDOWN", 64);
   ("EHOSTUNREACH", 65); ("ENOTEMPTY", 66); ("EPROCLIM", 67); ("EUSERS", 68);
   ("EDQUOT", 69); ("ESTALE", 70); ("EREMOTE", 71); ("EBADRPC", 72);
   ("ERPCMISMATCH", 73); ("EPROGUNAVAIL", 74); ("EPROGMISMATCH", 75); ("EPROCUNAVAIL", 76);
   ("ENOLCK", 77); ("ENOSYS", 78); ("EFTYPE", 79); ("EAUTH", 80);
   ("ENEEDAUTH", 81); ("EPWROFF", 82); ("EDEVERR", 83); ("EOVERFLOW", 84);
   ("EBADEXEC", 85); ("EBADARCH", 86); ("ESHLIBVERS", 87); ("EBADMACHO", 88);
   ("ECANCELED", 89); ("EIDRM", 90); ("ENOMSG", 91); ("EILSEQ", 92);
   ("ENOATTR", 93); ("EBADMSG", 94); ("EMULTIHOP", 95); ("ENODATA", 96);
   ("ENOLINK", 97); ("ENOSR", 98); ("ENOSTR", 99); ("EPROTO", 100);
   ("ETIME", 101); ("EOPNOTSUPP", 102); ("ENOPOLICY", 103); ("ENOTRECOVERABLE", 104);
   ("EOWNERDEAD", 105); ("EQFULL", 106)]%string.

Definition macos_errno_of (n : string) : Z :=
  match list_find (fun p => p.1 = n) macos_errnos with Some (_, p) => p.2 | None => 0 end.

#[local] Instance macos_errno : DarwinErrno := {|
  darwin_errno := macos_errno_of;
  errno_ctr_l2d := 0;
  errno_ctr_d2l := 100;
|}.

Lemma macos_errno_ok : @DarwinErrnoOk macos_errno.
Proof. constructor. apply (bool_decide_unpack _). vm_compute. exact I. Qed.

Lemma existsb_decl n v tbl :
  existsb (fun d => match d with DECL_LINUX m w SAME => String.eqb m n && (w =? v) | _ => false end) tbl = true ->
  List.In (DECL_LINUX n v SAME) tbl.
Proof.
  rewrite existsb_exists. intros (d & Hin & Hd). destruct d as [m w []| |]; try done.
  apply andb_true_iff in Hd as [H1 H2]. apply String.eqb_eq in H1 as ->. by apply Z.eqb_eq in H2 as ->.
Qed.

Lemma errno_roundtrip_witness :
  @darwin_to_linux_errno macos_errno (@linux_to_darwin_errno macos_errno LINUX_EAGAIN) = LINUX_EAGAIN /\
  @syswrap macos_errno (-1) 35 = -11.
Proof.
  destruct (@errno_roundtrip macos_errno macos_errno_ok "EAGAIN" 11) as [H1 H2].
  - apply list_elem_of_In, (existsb_decl "EAGAIN" 11). vm_compute. reflexivity.
  - split; [exact H1|]. apply H2. vm_compute. discriminate.
Defined.

(** macOS's [ENOTSUP] (45) is not in the table. *)
Lemma syswrap_failed_witness :
  @syswrap macos_errno (-1) 45 = 1 /\ -133 <= @syswrap macos_errno (-1) 2 <= -1.
Proof.
  split; [apply (@syswrap_failed macos_errno (-1) 45)|apply (@syswrap_failed macos_errno (-1) 2)]; try lia;
    apply (bool_decide_unpack _); vm_compute; exact I.
Defined.
