(* ===== verification/Conv.v ===== *)
(** * Conversions between Linux and Darwin ([src/conv.c])

    Flag words are converted by a list of [if (x & FROM) ret |= TO;] statements,
    here a table of pairs in the order of the statements.  The host's
    constants are parameters ([D]), the Linux ones are those of
    [include/linux/ioctl.h], [fs.h] and [signal.h]. *)

From S2P Require Import Prelude Const.

(** ** Linux constants *)

Definition LINUX_VINTR : Z := 0.
Definition LINUX_VQUIT : Z := 1.
Definition LINUX_VERASE : Z := 2.
Definition LINUX_VKILL : Z := 3.
Definition LINUX_VEOF : Z := 4.
Definition LINUX_VTIME : Z := 5.
Definition LINUX_VMIN : Z := 6.
Definition LINUX_VSTART : Z := 8.
Definition LINUX_VSTOP : Z := 9.
Definition LINUX_VSUSP : Z := 0xa.
Definition LINUX_VEOL : Z := 0xb.
Definition LINUX_VREPRINT : Z := 0xc.
Definition LINUX_VDISCARD : Z := 0xd.
Definition LINUX_VWERASE : Z := 0xe.
Definition LINUX_VLNEXT : Z := 0xf.
Definition LINUX_VEOL2 : Z := 0x10.
Definition LINUX_NCCS : Z := 0x13.
Definition LINUX_POSIX_VDISABLE : Z := 0.
Definition LINUX_IGNBRK : Z := 1.
Definition LINUX_BRKINT : Z := 2.
Definition LINUX_IGNPAR : Z := 4.
Definition LINUX_PARMRK : Z := 8.
Definition LINUX_INPCK : Z := 0x10.
Definition LINUX_ISTRIP : Z := 0x20.
Definition LINUX_INLCR : Z := 0x40.
Definition LINUX_IGNCR : Z := 0x80.
Definition LINUX_ICRNL : Z := 0x100.
Definition LINUX_IXON : Z := 0x400.
Definition LINUX_IXANY : Z := 0x800.
Definition LINUX_IXOFF : Z := 0x1000.
Definition LINUX_IMAXBEL : Z := 0x2000.
Definition LINUX_OPOST : Z := 1.
Definition LINUX_ONLCR : Z := 4.
Definition LINUX_XTABS : Z := 0x1800.
Definition LINUX_CBAUD : Z := 0x100f.
Definition LINUX_B0 : Z := 0.
Definition LINUX_B50 : Z := 1.
Definition LINUX_B75 : Z := 2.
Definition LINUX_B110 : Z := 3.
Definition LINUX_B134 : Z := 4.
Definition LINUX_B150 : Z := 5.
Definition LINUX_B200 : Z := 6.
Definition LINUX_B300 : Z := 7.
Definition LINUX_B600 : Z := 8.
Definition LINUX_B1200 : Z := 9.
Definition LINUX_B1800 : Z := 0xa.
Definition LINUX_B2400 : Z := 0xb.
Definition LINUX_B4800 : Z := 0xc.
Definition LINUX_B9600 : Z := 0xd.
Definition LINUX_B19200 : Z := 0xe.
Definition LINUX_B38400 : Z := 0xf.
Definition LINUX_B57600 : Z := 0x1001.
Definition LINUX_B115200 : Z := 0x1002.
Definition LINUX_CSIZE : Z := 0x30.
Definition LINUX_CSTOPB : Z := 0x40.
Definition LINUX_CREAD : Z := 0x80.
Definition LINUX_PARENB : Z := 0x100.
Definition LINUX_PARODD : Z := 0x200.
Definition LINUX_HUPCL : Z := 0x400.
Definition LINUX_CLOCAL : Z := 0x800.
Definition LINUX_CRTSCTS : Z := 0x80000000.
Definition LINUX_ISIG : Z := 1.
Definition LINUX_ICANON : Z := 2.
Definition LINUX_ECHO : Z := 8.
Definition LINUX_ECHOE : Z := 0x10.
Definition LINUX_ECHOK : Z := 0x20.
Definition LINUX_ECHONL : Z := 0x40.
Definition LINUX_NOFLSH : Z := 0x80.
Definition LINUX_TOSTOP : Z := 0x100.
Definition LINUX_ECHOCTL : Z := 0x200.
Definition LINUX_ECHOPRT : Z := 0x400.
Definition LINUX_ECHOKE : Z := 0x800.
Definition LINUX_FLUSHO : Z := 0x1000.
Definition LINUX_PENDIN : Z := 0x2000.
Definition LINUX_IEXTEN : Z := 0x8000.
Definition LINUX_O_RDONLY : Z := 0.
Definition LINUX_O_WRONLY : Z := 1.
Definition LINUX_O_RDWR : Z := 2.
Definition LINUX_O_ACCMODE : Z := 3.
Definition LINUX_O_CREAT : Z := 0x40.
Definition LINUX_O_EXCL : Z := 0x80.
Definition LINUX_O_NOCTTY : Z := 0x100.
Definition LINUX_O_TRUNC : Z := 0x200.
Definition LINUX_O_APPEND : Z := 0x400.
Definition LINUX_O_NONBLOCK : Z := 0x800.
Definition LINUX_O_NDELAY : Z := 0x800.
Definition LINUX_O_SYNC : Z := 0x1000.
Definition LINUX_FASYNC : Z := 0x2000.
Definition LINUX_O_DIRECTORY : Z := 0x10000.
Definition LINUX_O_NOFOLLOW : Z := 0x20000.
Definition LINUX_O_CLOEXEC : Z := 0x80000.
Definition LINUX_O_PATH : Z := 0x200000.
Definition LINUX_F_RDLCK : Z := 0.
Definition LINUX_F_WRLCK : Z := 1.
Definition LINUX_F_UNLCK : Z := 2.
Definition LINUX_ST_RDONLY : Z := 1.
Definition LINUX_ST_NOSUID : Z := 2.
Definition LINUX_ST_NODEV : Z := 4.
Definition LINUX_ST_NOEXEC : Z := 8.
Definition LINUX_ST_SYNCHRONOUS : Z := 0x10.
Definition LINUX_ST_VALID : Z := 0x20.
Definition LINUX_SIGRTMIN : Z := 0x20.
Definition LINUX_SIGRTMAX : Z := 0x40.
Definition LINUX_SA_NOCLDSTOP : Z := 1.
Definition LINUX_SA_NOCLDWAIT : Z := 2.
Definition LINUX_SA_SIGINFO : Z := 4.
Definition LINUX_SA_ONSTACK : Z := 0x8000000.
Definition LINUX_SA_RESTART : Z := 0x10000000.
Definition LINUX_SA_NOMASK : Z := 0x40000000.
Definition LINUX_SA_ONESHOT : Z := 0x80000000.

Definition LINUX_STSIGNUM : list decl := [
  DECL_LINUX "SIGHUP" 1 SAME;
  DECL_LINUX "SIGINT" 2 SAME;
  DECL_LINUX "SIGQUIT" 3 SAME;
  DECL_LINUX "SIGILL" 4 SAME;
  DECL_LINUX "SIGTRAP" 5 SAME;
  DECL_LINUX "SIGABRT" 6 SAME;
  DECL_ALIAS "SIGIOT" "SIGABRT";
  DECL_LINUX "SIGBUS" 7 SAME;
  DECL_LINUX "SIGFPE" 8 SAME;
  DECL_LINUX "SIGKILL" 9 SAME;
  DECL_LINUX "SIGUSR1" 10 SAME;
  DECL_LINUX "SIGSEGV" 11 SAME;
  DECL_LINUX "SIGUSR2" 12 SAME;
  DECL_LINUX "SIGPIPE" 13 SAME;
  DECL_LINUX "SIGALRM" 14 SAME;
  DECL_LINUX "SIGTERM" 15 SAME;
  DECL_LINUX "SIGSTKFLT" 16 LINUX_SPECIFIC;
  DECL_LINUX "SIGCHLD" 17 SAME;
  DECL_LINUX "SIGCONT" 18 SAME;
  DECL_LINUX "SIGSTOP" 19 SAME;
  DECL_LINUX "SIGTSTP" 20 SAME;
  DECL_LINUX "SIGTTIN" 21 SAME;
  DECL_LINUX "SIGTTOU" 22 SAME;
  DECL_LINUX "SIGURG" 23 SAME;
  DECL_LINUX "SIGXCPU" 24 SAME;
  DECL_LINUX "SIGXFSZ" 25 SAME;
  DECL_LINUX "SIGVTALRM" 26 SAME;
  DECL_LINUX "SIGPROF" 27 SAME;
  DECL_LINUX "SIGWINCH" 28 SAME;
  DECL_LINUX "SIGIO" 29 SAME;
  DECL_ALIAS "SIGPOLL" "SIGIO";
  DECL_LINUX "SIGPWR" 30 LINUX_SPECIFIC;
  DECL_LINUX "SIGSYS" 31 SAME
]%string.

Definition LINUX_SIGSTKFLT : Z := Eval vm_compute in default 0 (constant LINUX_STSIGNUM "SIGSTKFLT").
Definition LINUX_SIGPWR : Z := Eval vm_compute in default 0 (constant LINUX_STSIGNUM "SIGPWR").

(** [LINUX_AT] ([include/linux/fs.h]) *)
Definition LINUX_AT : list decl := [
  DECL_LINUX "AT_FDCWD" (-100) SAME;
  DECL_LINUX "AT_SYMLINK_NOFOLLOW" 0x100 SAME;
  DECL_LINUX "AT_EACCESS" 0x200 SAME;
  DECL_LINUX "AT_SYMLINK_FOLLOW" 0x400 SAME;
  DECL_LINUX "AT_NO_AUTOMOUNT" 0x800 LINUX_SPECIFIC;
  DECL_LINUX "AT_EMPTY_PATH" 0x1000 LINUX_SPECIFIC
]%string.
Definition LINUX_AT_FDCWD : Z := Eval vm_compute in default 0 (constant LINUX_AT "AT_FDCWD").
Definition LINUX_AT_SYMLINK_NOFOLLOW : Z := Eval vm_compute in default 0 (constant LINUX_AT "AT_SYMLINK_NOFOLLOW").
Definition LINUX_AT_EACCESS : Z := Eval vm_compute in default 0 (constant LINUX_AT "AT_EACCESS").
Definition LINUX_AT_REMOVEDIR : Z := 0x200.
Definition LINUX_AT_SYMLINK_FOLLOW : Z := Eval vm_compute in default 0 (constant LINUX_AT "AT_SYMLINK_FOLLOW").
Definition LINUX_AT_EMPTY_PATH : Z := Eval vm_compute in default 0 (constant LINUX_AT "AT_EMPTY_PATH").

(** ** Tables of flags *)

(** [if (x & from) ret |= to;] for each pair, starting from [ret]. *)
Definition convert (ret : Z) (tbl : list (Z * Z)) (x : Z) : Z :=
  fold_left (fun acc p => if testf x p.1 then Z.lor acc p.2 else acc) tbl ret.

(** [TEST(from, to)]: the bits recognised are cleared; the rest is returned. *)
Definition convert_test (tbl : list (Z * Z)) (x : Z) : Z * Z :=
  fold_left (fun st p => let '(flags, r) := st in
    if testf r p.1 then (Z.lor flags p.2, clearf r p.1) else (flags, r)) tbl (0, x).

Definition d2l_o : list (string * Z) := [
  ("O_RDONLY", LINUX_O_RDONLY); ("O_WRONLY", LINUX_O_WRONLY); ("O_RDWR", LINUX_O_RDWR);
  ("O_APPEND", LINUX_O_APPEND); ("O_NONBLOCK", LINUX_O_NONBLOCK); ("O_FSYNC", LINUX_FASYNC);
  ("O_CREAT", LINUX_O_CREAT); ("O_TRUNC", LINUX_O_TRUNC); ("O_EXCL", LINUX_O_EXCL);
  ("O_NOCTTY", LINUX_O_NOCTTY); ("O_NOFOLLOW", LINUX_O_NOFOLLOW); ("O_DIRECTORY", LINUX_O_DIRECTORY);
  ("O_CLOEXEC", LINUX_O_CLOEXEC)
]%string.

Definition l2d_o : list (Z * string) := [
  (LINUX_O_NDELAY, "O_NONBLOCK"); (LINUX_O_APPEND, "O_APPEND"); (LINUX_O_SYNC, "O_FSYNC");
  (LINUX_O_NONBLOCK, "O_NONBLOCK"); (LINUX_FASYNC, "O_ASYNC"); (LINUX_O_CREAT, "O_CREAT");
  (LINUX_O_TRUNC, "O_TRUNC"); (LINUX_O_EXCL, "O_EXCL"); (LINUX_O_NOCTTY, "O_NOCTTY");
  (LINUX_O_NOFOLLOW, "O_NOFOLLOW"); (LINUX_O_DIRECTORY, "O_DIRECTORY")
]%string.

(** Terminal flags *)
Definition d2l_iflag : list (string * Z) := [
  ("IGNBRK", LINUX_IGNBRK); ("BRKINT", LINUX_BRKINT); ("IGNPAR", LINUX_IGNPAR);
  ("PARMRK", LINUX_PARMRK); ("INPCK", LINUX_INPCK); ("ISTRIP", LINUX_ISTRIP); ("INLCR", LINUX_INLCR);
  ("IGNCR", LINUX_IGNCR); ("ICRNL", LINUX_ICRNL); ("IXON", LINUX_IXON); ("IXANY", LINUX_IXANY);
  ("IXOFF", LINUX_IXOFF); ("IMAXBEL", LINUX_IMAXBEL)
]%string.

Definition d2l_oflag : list (string * Z) := [
  ("OPOST", LINUX_OPOST); ("ONLCR", LINUX_ONLCR); ("TAB3", LINUX_XTABS)
]%string.

Definition d2l_cflag : list (string * Z) := [
  ("CSTOPB", LINUX_CSTOPB); ("CREAD", LINUX_CREAD); ("PARENB", LINUX_PARENB); ("PARODD", LINUX_PARODD);
  ("HUPCL", LINUX_HUPCL); ("CLOCAL", LINUX_CLOCAL); ("CRTSCTS", LINUX_CRTSCTS)
]%string.

Definition d2l_lflag : list (string * Z) := [
  ("ISIG", LINUX_ISIG); ("ICANON", LINUX_ICANON); ("ECHO", LINUX_ECHO); ("ECHOE", LINUX_ECHOE);
  ("ECHOK", LINUX_ECHOK); ("ECHONL", LINUX_ECHONL); ("NOFLSH", LINUX_NOFLSH); ("TOSTOP", LINUX_TOSTOP);
  ("ECHOCTL", LINUX_ECHOCTL); ("ECHOPRT", LINUX_ECHOPRT); ("ECHOKE", LINUX_ECHOKE);
  ("FLUSHO", LINUX_FLUSHO); ("PENDIN", LINUX_PENDIN); ("IEXTEN", LINUX_IEXTEN)
]%string.

Definition l2d_iflag : list (Z * string) := [
  (LINUX_IGNBRK, "IGNBRK"); (LINUX_BRKINT, "BRKINT"); (LINUX_IGNPAR, "IGNPAR");
  (LINUX_PARMRK, "PARMRK"); (LINUX_INPCK, "INPCK"); (LINUX_ISTRIP, "ISTRIP"); (LINUX_INLCR, "INLCR");
  (LINUX_IGNCR, "IGNCR"); (LINUX_ICRNL, "ICRNL"); (LINUX_IXON, "IXON"); (LINUX_IXANY, "IXANY");
  (LINUX_IXOFF, "IXOFF"); (LINUX_IMAXBEL, "IMAXBEL")
]%string.

Definition l2d_oflag : list (Z * string) := [
  (LINUX_OPOST, "OPOST"); (LINUX_ONLCR, "ONLCR"); (LINUX_XTABS, "TAB3")
]%string.

Definition l2d_cflag : list (Z * string) := [
  (LINUX_CSTOPB, "CSTOPB"); (LINUX_CREAD, "CREAD"); (LINUX_PARENB, "PARENB"); (LINUX_PARODD, "PARODD");
  (LINUX_HUPCL, "HUPCL"); (LINUX_CLOCAL, "CLOCAL"); (LINUX_CRTSCTS, "CRTSCTS")
]%string.

Definition l2d_lflag : list (Z * string) := [
  (LINUX_ISIG, "ISIG"); (LINUX_ICANON, "ICANON"); (LINUX_ECHO, "ECHO"); (LINUX_ECHOE, "ECHOE");
  (LINUX_ECHOK, "ECHOK"); (LINUX_ECHONL, "ECHONL"); (LINUX_NOFLSH, "NOFLSH"); (LINUX_TOSTOP, "TOSTOP");
  (LINUX_ECHOCTL, "ECHOCTL"); (LINUX_ECHOPRT, "ECHOPRT"); (LINUX_ECHOKE, "ECHOKE");
  (LINUX_FLUSHO, "FLUSHO"); (LINUX_PENDIN, "PENDIN"); (LINUX_IEXTEN, "IEXTEN")
]%string.

(** Control characters: the assignments of each function. *)
Definition d2l_cc : list (Z * string) := [
  (LINUX_VINTR, "VINTR"); (LINUX_VQUIT, "VQUIT"); (LINUX_VERASE, "VERASE"); (LINUX_VKILL, "VKILL");
  (LINUX_VEOF, "VEOF"); (LINUX_VEOL, "VEOL"); (LINUX_VMIN, "VMIN"); (LINUX_VTIME, "VTIME");
  (LINUX_VEOL2, "VEOL2"); (LINUX_VSUSP, "VSUSP"); (LINUX_VSTART, "VSTART"); (LINUX_VSTOP, "VSTOP");
  (LINUX_VREPRINT, "VREPRINT"); (LINUX_VDISCARD, "VDISCARD"); (LINUX_VWERASE, "VWERASE");
  (LINUX_VLNEXT, "VLNEXT")
]%string.

Definition l2d_cc : list (string * Z) := [
  ("VINTR", LINUX_VINTR); ("VQUIT", LINUX_VQUIT); ("VERASE", LINUX_VERASE); ("VKILL", LINUX_VKILL);
  ("VEOF", LINUX_VEOF); ("VEOL", LINUX_VEOL); ("VMIN", LINUX_VMIN); ("VTIME", LINUX_VTIME);
  ("VEOL2", LINUX_VEOL2); ("VSUSP", LINUX_VSUSP); ("VSTART", LINUX_VSTART); ("VSTOP", LINUX_VSTOP);
  ("VREPRINT", LINUX_VREPRINT); ("VDISCARD", LINUX_VDISCARD); ("VWERASE", LINUX_VWERASE);
  ("VLNEXT", LINUX_VLNEXT)
]%string.

(** Line speeds, without the sentinel [{-1, -1}]. *)
Definition sptab : list (string * Z) := [
  ("B0", LINUX_B0); ("B50", LINUX_B50); ("B75", LINUX_B75); ("B110", LINUX_B110); ("B134", LINUX_B134);
  ("B150", LINUX_B150); ("B200", LINUX_B200); ("B300", LINUX_B300); ("B600", LINUX_B600);
  ("B1200", LINUX_B1200); ("B1800", LINUX_B1800); ("B2400", LINUX_B2400); ("B4800", LINUX_B4800);
  ("B9600", LINUX_B9600); ("B19200", LINUX_B19200); ("B38400", LINUX_B38400); ("B57600", LINUX_B57600);
  ("B115200", LINUX_B115200)
]%string.

(** [sa_flags] and mount flags *)
Definition l2d_sa : list (Z * string) := [
  (LINUX_SA_NOCLDSTOP, "SA_NOCLDSTOP"); (LINUX_SA_NOCLDWAIT, "SA_NOCLDWAIT");
  (LINUX_SA_SIGINFO, "SA_SIGINFO"); (LINUX_SA_ONSTACK, "SA_ONSTACK"); (LINUX_SA_RESTART, "SA_RESTART");
  (LINUX_SA_ONESHOT, "SA_RESETHAND"); (LINUX_SA_NOMASK, "SA_NODEFER")
]%string.

Definition d2l_sa : list (string * Z) := [
  ("SA_NOCLDSTOP", LINUX_SA_NOCLDSTOP); ("SA_NOCLDWAIT", LINUX_SA_NOCLDWAIT);
  ("SA_SIGINFO", LINUX_SA_SIGINFO); ("SA_ONSTACK", LINUX_SA_ONSTACK); ("SA_RESTART", LINUX_SA_RESTART);
  ("SA_RESETHAND", LINUX_SA_ONESHOT); ("SA_NODEFER", LINUX_SA_NOMASK)
]%string.

Definition d2l_mnt : list (string * Z) := [
  ("MNT_RDONLY", LINUX_ST_RDONLY); ("MNT_NOSUID", LINUX_ST_NOSUID); ("MNT_NODEV", LINUX_ST_NODEV);
  ("MNT_NOEXEC", LINUX_ST_NOEXEC); ("MNT_SYNCHRONOUS", LINUX_ST_SYNCHRONOUS)
]%string.

(** ** Structures *)

(** Darwin's [struct termios] and [struct linux_termios] *)
Record termios := mk_termios {
  c_iflag : Z; c_oflag : Z; c_cflag : Z; c_lflag : Z; c_cc : list Z; c_ispeed : Z; c_ospeed : Z }.
Record linux_termios := mk_linux_termios {
  lc_iflag : Z; lc_oflag : Z; lc_cflag : Z; lc_lflag : Z; lc_line : Z; lc_cc : list Z }.

(** Darwin's [struct winsize] and [struct linux_winsize] *)
Record winsize := mk_winsize { ws_row : Z; ws_col : Z; ws_xpixel : Z; ws_ypixel : Z }.
Record linux_winsize := mk_linux_winsize { lws_row : Z; lws_col : Z; lws_xpixel : Z; lws_ypixel : Z }.

(** Darwin's [struct stat] and [struct l_newstat]; Darwin's [struct statfs] and
    [struct l_statfs] *)
Record stat := mk_stat {
  st_dev : Z; st_ino : Z; st_mode : Z; st_nlink : Z; st_uid : Z; st_gid : Z; st_rdev : Z; st_size : Z;
  st_atimespec : Z * Z; st_mtimespec : Z * Z; st_ctimespec : Z * Z; st_blksize : Z; st_blocks : Z }.
Record l_newstat := mk_l_newstat {
  l_st_dev : Z; l_st_ino : Z; l_st_nlink : Z; l_st_mode : Z; l_st_uid : Z; l_st_gid : Z; l_st_rdev : Z;
  l_st_size : Z; l_st_blksize : Z; l_st_blocks : Z; st_atim : Z * Z; st_mtim : Z * Z; st_ctim : Z * Z }.
Record statfs := mk_statfs {
  f_bsize : Z; f_blocks : Z; f_bfree : Z; f_bavail : Z; f_files : Z; f_ffree : Z; f_fsid : Z * Z;
  f_flags : Z }.
Record l_statfs := mk_l_statfs {
  lf_type : Z; lf_bsize : Z; lf_blocks : Z; lf_bfree : Z; lf_bavail : Z; lf_files : Z; lf_ffree : Z;
  lf_fsid : Z * Z; lf_namelen : Z; lf_frsize : Z; lf_flags : Z }.

(** Darwin's [struct sigaction] and [l_sigaction_t]; Darwin's [struct flock] and
    [struct l_flock] *)
Record sigaction := mk_sigaction { sa_handler : Z; sa_flags : Z; sa_mask : Z }.
Record l_sigaction := mk_l_sigaction { lsa_handler : Z; lsa_flags : Z; lsa_restorer : Z; lsa_mask : Z }.
Record flock := mk_flock { l_type : Z; l_whence : Z; l_start : Z; l_len : Z; l_pid : Z }.
Record l_flock := mk_l_flock { ll_type : Z; ll_whence : Z; ll_start : Z; ll_len : Z; ll_pid : Z }.

(** [struct rlimit] and [struct l_rlimit]: the soft and the hard limit. *)
Definition LINUX_RLIM_INFINITY : Z := u64 (-1).

Section Conv.
Context `{DarwinConst}.

Definition from_darwin (tbl : list (string * Z)) : list (Z * Z) := map (fun p => (D p.1, p.2)) tbl.
Definition to_darwin (tbl : list (Z * string)) : list (Z * Z) := map (fun p => (p.1, D p.2)) tbl.

(** The result, and the flags that are left (for which a warning is printed). *)
Definition linux_to_darwin_at_flags (flags : Z) : Z :=
  if flags =? LINUX_AT_FDCWD then D "AT_FDCWD"
  else (convert_test (to_darwin [(LINUX_AT_SYMLINK_NOFOLLOW, "AT_SYMLINK_NOFOLLOW");
          (LINUX_AT_EACCESS, "AT_EACCESS"); (LINUX_AT_SYMLINK_FOLLOW, "AT_SYMLINK_FOLLOW")]%string) flags).1.

Definition linux_to_darwin_o_flags (l_flags : Z) : Z :=
  if testf l_flags LINUX_O_PATH then
    convert 0 (to_darwin [(LINUX_O_CLOEXEC, "O_CLOEXEC"); (LINUX_O_NOFOLLOW, "O_SYMLINK");
                          (LINUX_O_DIRECTORY, "O_DIRECTORY")]%string) l_flags
  else
    let acc := Z.land l_flags LINUX_O_ACCMODE in
    let ret := if acc =? LINUX_O_WRONLY then D "O_WRONLY"
               else if acc =? LINUX_O_RDWR then D "O_RDWR" else D "O_RDONLY" in
    convert ret (to_darwin l2d_o) l_flags.

(** [None] is the failed [assert(r == 0)]. *)
Definition darwin_to_linux_o_flags (r : Z) : option Z :=
  let '(flags, r) := convert_test (from_darwin d2l_o) r in
  if r =? 0 then Some flags else None.

Definition darwin_to_linux_speed (speed : Z) : Z :=
  match list_find (fun p => D p.1 = speed) sptab with Some (_, p) => p.2 | None => -1 end.
Definition linux_to_darwin_speed (code : Z) : Z :=
  match list_find (fun p => p.2 = code) sptab with Some (_, p) => D p.1 | None => -1 end.

(** [cc[i]] of a character array. *)
Definition cc_at (cc : list Z) (i : Z) : Z := default 0 (cc !! Z.to_nat i).
Definition cc_set (cc : list Z) (i v : Z) : list Z := <[Z.to_nat i := v]> cc.

(** The loops that replace one "disabled" character by the other, except at
    the positions of VMIN and VTIME. *)
Definition cc_disable (vmin vtime from to : Z) (cc : list Z) : list Z :=
  imap (fun i v => let i := Z.of_nat i in
    if negb (i =? vmin) && negb (i =? vtime) && (v =? from) then to else v) cc.

Definition darwin_to_linux_termios (bios : termios) : linux_termios :=
  let cflag := u32 (darwin_to_linux_speed (c_ispeed bios)) in
  let cflag := Z.lor cflag (u32 (Z.shiftr (Z.land (c_cflag bios) (D "CSIZE")) 4)) in
  mk_linux_termios
    (convert 0 (from_darwin d2l_iflag) (c_iflag bios))
    (convert 0 (from_darwin d2l_oflag) (c_oflag bios))
    (convert cflag (from_darwin d2l_cflag) (c_cflag bios))
    (convert 0 (from_darwin d2l_lflag) (c_lflag bios))
    0
    (cc_disable LINUX_VMIN LINUX_VTIME (D "_POSIX_VDISABLE") LINUX_POSIX_VDISABLE
      (fold_left (fun cc p => cc_set cc p.1 (cc_at (c_cc bios) (D p.2))) d2l_cc
        (repeat LINUX_POSIX_VDISABLE (Z.to_nat LINUX_NCCS)))).

Definition linux_to_darwin_termios (lios : linux_termios) : termios :=
  let speed := linux_to_darwin_speed (Z.land (lc_cflag lios) LINUX_CBAUD) in
  mk_termios
    (convert 0 (to_darwin l2d_iflag) (lc_iflag lios))
    (convert 0 (to_darwin l2d_oflag) (lc_oflag lios))
    (convert (Z.shiftl (Z.land (lc_cflag lios) LINUX_CSIZE) 4) (to_darwin l2d_cflag) (lc_cflag lios))
    (convert 0 (to_darwin l2d_lflag) (lc_lflag lios))
    (cc_disable (D "VMIN") (D "VTIME") LINUX_POSIX_VDISABLE (D "_POSIX_VDISABLE")
      (fold_left (fun cc p => cc_set cc (D p.1) (cc_at (lc_cc lios) p.2)) l2d_cc
        (repeat (D "_POSIX_VDISABLE") (Z.to_nat (D "NCCS")))))
    speed speed.

Definition darwin_to_linux_winsize (ws : winsize) : linux_winsize :=
  mk_linux_winsize (ws_row ws) (ws_col ws) (ws_xpixel ws) (ws_ypixel ws).
Definition linux_to_darwin_winsize (lws : linux_winsize) : winsize :=
  mk_winsize (lws_row lws) (lws_col lws) (lws_xpixel lws) (lws_ypixel lws).

Definition stat_darwin_to_linux (st : stat) : l_newstat :=
  mk_l_newstat (u64 (s32 (Z.lor (minor (st_dev st)) (Z.shiftl (major (st_dev st)) 8))))
    (st_ino st) (st_nlink st) (st_mode st) (st_uid st) (st_gid st) (u64 (st_rdev st)) (st_size st)
    (st_blksize st) (st_blocks st) (st_atimespec st) (st_mtimespec st) (st_ctimespec st).

Definition HFS_SUPER_MAGIC : Z := 0x4244.
Definition statfs_darwin_to_linux (fs : statfs) : l_statfs :=
  mk_l_statfs HFS_SUPER_MAGIC (f_bsize fs) (f_blocks fs) (f_bfree fs) (f_bavail fs) (f_files fs)
    (f_ffree fs) (f_fsid fs) (D "NAME_MAX") (f_bsize fs)
    (convert LINUX_ST_VALID (from_darwin d2l_mnt) (f_flags fs)).

(** *** Signals *)

Definition linux_to_darwin_signum (val : Z) : Z :=
  switch (linux_to_darwin_cases D (counter "linux_to_darwin_signum") LINUX_STSIGNUM) val.
Definition darwin_to_linux_signum (val : Z) : Z :=
  switch (darwin_to_linux_cases D LINUX_STSIGNUM (counter "darwin_to_linux_signum") LINUX_STSIGNUM) val.

Definition linux_to_darwin_signal (signum : Z) : Z :=
  if signum <? LINUX_SIGRTMIN then linux_to_darwin_signum signum else 0.
Definition darwin_to_linux_signal (signum : Z) : Z :=
  if signum <? LINUX_SIGRTMIN then darwin_to_linux_signum signum else 0.

(** [sigaddset] and [sigismember] of the C library: they fail on numbers that
    are not signals.  A [sigset_t] is a bit mask. *)
Definition sigaddset (dset signo : Z) : Z :=
  if (0 <? signo) && (signo <? D "NSIG") then Z.lor dset (Z.shiftl 1 (signo - 1)) else dset.
Definition sigismember (dset signo : Z) : Z :=
  if (0 <? signo) && (signo <? D "NSIG") then Z.b2z (Z.testbit dset (signo - 1)) else -1.

(** [LINUX_SIGISMEMBER], [LINUX_SIGADDSET] and the other macros of [signal.h]. *)
Definition LINUX_SIGISMEMBER (mask sig : Z) : bool := testf 1 (Z.shiftr mask (sig - 1)).
Definition LINUX_SIGADDSET (mask sig : Z) : Z := Z.lor mask (Z.shiftl 1 (sig - 1)).
Definition LINUX_SIGDELSET (mask sig : Z) : Z := clearf mask (Z.shiftl 1 (sig - 1)).

Definition linux_to_darwin_sigset (lset : Z) : Z :=
  fold_left (fun dset i =>
    if negb (LINUX_SIGISMEMBER lset i) then dset
    else if (i =? LINUX_SIGSTKFLT) || (i =? LINUX_SIGPWR) then dset
    else sigaddset dset (linux_to_darwin_signal i)) (seqZ 1 LINUX_SIGRTMAX) 0.

Definition darwin_to_linux_sigset (dset : Z) : Z :=
  fold_left (fun lset i =>
    if sigismember dset i =? 0 then lset
    else
      let num := darwin_to_linux_signal i in
      if num >? 0 then LINUX_SIGADDSET lset num else lset) (seqZ 1 LINUX_SIGRTMIN) 0.

Definition linux_to_darwin_sigaction (lsa : l_sigaction) (handler : Z) : sigaction :=
  mk_sigaction handler (convert 0 (to_darwin l2d_sa) (lsa_flags lsa)) (linux_to_darwin_sigset (lsa_mask lsa)).
Definition darwin_to_linux_sigaction (dsa : sigaction) (handler : Z) : l_sigaction :=
  mk_l_sigaction handler (convert 0 (from_darwin d2l_sa) (sa_flags dsa)) 0
    (darwin_to_linux_sigset (sa_mask dsa)).

(** *** Locks and limits *)

Definition linux_to_darwin_flock (f : l_flock) : flock :=
  mk_flock
    (if ll_type f =? LINUX_F_RDLCK then D "F_RDLCK"
     else if ll_type f =? LINUX_F_WRLCK then D "F_WRLCK"
     else if ll_type f =? LINUX_F_UNLCK then D "F_UNLCK" else -1)
    (ll_whence f) (ll_start f) (ll_len f) (ll_pid f).

(** [old] is the type the Linux structure has before: an unknown lock type
    leaves it. *)
Definition darwin_to_linux_flock (f : flock) (old : Z) : l_flock :=
  mk_l_flock
    (if l_type f =? D "F_RDLCK" then LINUX_F_RDLCK
     else if l_type f =? D "F_WRLCK" then LINUX_F_WRLCK
     else if l_type f =? D "F_UNLCK" then LINUX_F_UNLCK else old)
    (l_whence f) (l_start f) (l_len f) (l_pid f).

(** [nofile] is [darwin_to_linux_rlimit_nofile]. *)
Definition darwin_to_linux_rlimit (nofile : Z * Z -> Z * Z) (resource : Z) (rl : Z * Z) : Z * Z :=
  if resource =? D "RLIMIT_NOFILE" then nofile rl
  else
    let conv x := if x =? D "RLIM_INFINITY" then LINUX_RLIM_INFINITY else x in
    (conv rl.1, conv rl.2).

End Conv.

(** ** Facts about tables *)

Section Tables.
Implicit Types (tbl : list (Z * Z)) (x m : Z).

Lemma testf_lor a b m : testf (Z.lor a b) m = testf a m || testf b m.
Proof.
  unfold testf. rewrite Z.land_lor_distr_l.
  destruct (Z.eqb_spec (Z.lor (Z.land a m) (Z.land b m)) 0) as [E|E].
  - apply Z.lor_eq_0_iff in E as [-> ->]. done.
  - destruct (Z.eqb_spec (Z.land a m) 0) as [Ha|]; [|done].
    destruct (Z.eqb_spec (Z.land b m) 0) as [Hb|]; [|done]. by rewrite Ha, Hb in E.
Qed.

Lemma testf_convert ret tbl x m :
  testf (convert ret tbl x) m = testf ret m || existsb (fun p => testf x p.1 && testf p.2 m) tbl.
Proof.
  unfold convert. revert ret. induction tbl as [|p tbl IH]; intros ret; simpl; [by rewrite orb_false_r|].
  rewrite IH. destruct (testf x p.1); simpl; [|done]. by rewrite testf_lor, orb_assoc.
Qed.

(** [disjoint ms]: no bit is in two of the masks and none is empty. *)
Fixpoint disjoint (ms : list Z) : bool :=
  match ms with
  | [] => true
  | m :: ms => negb (m =? 0) && forallb (fun m' => Z.land m m' =? 0) ms && disjoint ms
  end.

Lemma disjoint_lookup ms i j a b :
  disjoint ms = true -> ms !! i = Some a -> ms !! j = Some b -> testf a b = bool_decide (i = j).
Proof.
  revert i j. induction ms as [|m ms IH]; intros [|i] [|j] Hd; simpl; try done;
    simpl in Hd; rewrite !andb_true_iff, forallb_forall in Hd; destruct Hd as [[Hm Hall] Hd].
  - intros [= ->] [= ->]. unfold testf. rewrite Z.land_diag. by rewrite Hm.
  - intros [= ->] Hj. unfold testf. rewrite (proj1 (Z.eqb_eq _ _) (Hall b ltac:(by eapply list_elem_of_In, list_elem_of_lookup_2))). done.
  - intros Hi [= ->]. unfold testf. rewrite (Z.land_comm a).
    rewrite (proj1 (Z.eqb_eq _ _) (Hall a ltac:(by eapply list_elem_of_In, list_elem_of_lookup_2))). done.
  - intros Hi Hj. rewrite (IH i j Hd Hi Hj). by repeat case_bool_decide; naive_solver.
Qed.

Lemma disjoint_cons m ms : disjoint (m :: ms) = true ->
  disjoint ms = true /\ forall m', m' ∈ ms -> Z.land m m' = 0.
Proof.
  cbn [disjoint]. intros Hd. apply andb_true_iff in Hd as [Hd ?]. apply andb_true_iff in Hd as [_ Hd].
  rewrite forallb_forall in Hd. split; [done|]. intros m' Hm. by apply Z.eqb_eq, Hd, list_elem_of_In.
Qed.

(** The words that contain each mask of the table entirely or not at all. *)
Definition whole (ms : list Z) (x : Z) : bool :=
  forallb (fun m => (Z.land x m =? 0) || (Z.land x m =? m)) ms.

Definition union_of (ms : list Z) : Z := foldr Z.lor 0 ms.
Definition swap_table tbl : list (Z * Z) := map (fun p => (p.2, p.1)) tbl.

(** A word that has, of each mask of the first table, the corresponding one of
    the second: converting it back gives the bits of the first masks. *)
Lemma convert_back ret tbl x y :
  whole tbl.*1 x = true -> (forall p, p ∈ tbl -> testf y p.2 = testf x p.1) ->
  convert ret (swap_table tbl) y = Z.lor ret (Z.land x (union_of tbl.*1)).
Proof.
  unfold convert. revert ret. induction tbl as [|p tbl IH]; intros ret Hw Hy; simpl.
  { by rewrite Z.land_0_r, Z.lor_0_r. }
  simpl in Hw. apply andb_true_iff in Hw as [Hp Hw].
  rewrite Hy by (by left). rewrite IH; [|done|intros q Hq; apply Hy; by right].
  rewrite Z.land_lor_distr_r, Z.lor_assoc. f_equal.
  unfold testf. apply orb_true_iff in Hp as [Hp|Hp]; apply Z.eqb_eq in Hp; rewrite Hp.
  - by rewrite Z.lor_0_r.
  - destruct (Z.eqb_spec p.1 0) as [->|]; simpl; [by rewrite Z.lor_0_r|done].
Qed.

(** Each target is set exactly when its source is. *)
Lemma testf_convert_target ret tbl x p :
  disjoint tbl.*2 = true -> p ∈ tbl -> testf ret p.2 = false -> testf (convert ret tbl x) p.2 = testf x p.1.
Proof.
  intros Hd Hp Hr. rewrite testf_convert, Hr. simpl. apply list_elem_of_lookup in Hp as [i Hi].
  apply eq_true_iff_eq. rewrite existsb_exists. split.
  - intros (q & Hq & Hb). apply andb_true_iff in Hb as [Hx Ht].
    apply list_elem_of_In, list_elem_of_lookup in Hq as [j Hj].
    rewrite (disjoint_lookup tbl.*2 j i q.2 p.2 Hd) in Ht; [|by rewrite list_lookup_fmap, Hj|by rewrite list_lookup_fmap, Hi].
    apply bool_decide_eq_true in Ht as ->. congruence.
  - intros Hx. exists p. split; [by eapply list_elem_of_In, list_elem_of_lookup_2|].
    rewrite Hx. rewrite (disjoint_lookup tbl.*2 i i p.2 p.2 Hd); [by rewrite bool_decide_true| |];
      by rewrite list_lookup_fmap, Hi.
Qed.

(** Converting there and back keeps exactly the bits of the table. *)
Lemma convert_roundtrip ret tbl x :
  disjoint tbl.*2 = true -> whole tbl.*1 x = true ->
  (forall p, p ∈ tbl -> testf ret p.2 = false) ->
  convert 0 (swap_table tbl) (convert ret tbl x) = Z.land x (union_of tbl.*1).
Proof.
  intros Hd Hw Hr. rewrite (convert_back 0 tbl x); [by rewrite Z.lor_0_l|done|].
  intros p Hp. apply testf_convert_target; auto.
Qed.


Lemma land_convert ret tbl x m :
  (forall p, p ∈ tbl -> Z.land p.2 m = 0) -> Z.land (convert ret tbl x) m = Z.land ret m.
Proof.
  unfold convert. revert ret. induction tbl as [|p tbl IH]; intros ret Hd; simpl; [done|].
  rewrite IH by (intros q Hq; apply Hd; by right). destruct (testf x p.1); [|done].
  rewrite Z.land_lor_distr_l, Hd by (by left). apply Z.lor_0_r.
Qed.

Definition is_pow2 (m : Z) : bool := (0 <? m) && (m =? 2 ^ Z.log2 m).

Lemma land_pow2 x k : 0 <= k -> Z.land x (2 ^ k) = if Z.testbit x k then 2 ^ k else 0.
Proof.
  intros Hk. apply Z.bits_inj'. intros n Hn. rewrite Z.land_spec, Z.pow2_bits_eqb by done.
  destruct (Z.eqb_spec k n) as [->|Hne].
  - destruct (Z.testbit x n); [|by rewrite Z.bits_0]. by rewrite Z.pow2_bits_true.
  - rewrite andb_false_r. destruct (Z.testbit x k); [|by rewrite Z.bits_0].
    by rewrite Z.pow2_bits_false.
Qed.

Lemma whole_pow2 ms x : forallb is_pow2 ms = true -> whole ms x = true.
Proof.
  unfold whole. rewrite !forallb_forall. intros Hp m Hm. specialize (Hp m Hm).
  unfold is_pow2 in Hp. apply andb_true_iff in Hp as [H0 Hp]. apply Z.eqb_eq in Hp. rewrite Hp.
  rewrite land_pow2 by apply Z.log2_nonneg. destruct (Z.testbit _ _); rewrite ?Z.eqb_refl; by rewrite ?orb_true_r.
Qed.

Lemma NoDup_map_inj {A} (f : A -> Z) l a b : NoDup (map f l) -> a ∈ l -> b ∈ l -> f a = f b -> a = b.
Proof.
  intros Hnd Ha Hb Hf. apply list_elem_of_lookup in Ha as [i Hi], Hb as [j Hj].
  assert (i = j) as ->; [|congruence].
  eapply NoDup_lookup; [exact Hnd| |]; rewrite list_lookup_fmap, ?Hi, ?Hj; simpl; by rewrite ?Hf.
Qed.

End Tables.

(** ** Arrays of control characters *)

Definition assign (asg : list (Z * Z)) (cc : list Z) : list Z :=
  fold_left (fun cc p => cc_set cc p.1 p.2) asg cc.

Lemma assign_length asg cc : length (assign asg cc) = length cc.
Proof.
  unfold assign. revert cc. induction asg as [|p asg IH]; intros cc; [done|].
  simpl. rewrite IH. apply length_insert.
Qed.

Lemma assign_other asg cc i : 0 <= i -> Forall (fun j => 0 <= j) asg.*1 -> i ∉ asg.*1 ->
  cc_at (assign asg cc) i = cc_at cc i.
Proof.
  intros Hi. unfold assign. revert cc. induction asg as [|p asg IH]; intros cc Hf Hn; [done|].
  simpl in *. apply Forall_cons in Hf as [Hp Hf]. rewrite IH; [|done|set_solver].
  unfold cc_at, cc_set. rewrite list_lookup_insert_ne; [done|].
  intros E. apply Hn. assert (i = p.1) as -> by lia. by left.
Qed.

Lemma assign_at asg cc i v :
  NoDup asg.*1 -> Forall (fun j => 0 <= j < Z.of_nat (length cc)) asg.*1 -> (i, v) ∈ asg ->
  cc_at (assign asg cc) i = v.
Proof.
  revert cc. induction asg as [|p asg IH]; intros cc Hnd Hf Hin; [set_solver|].
  simpl in *. apply NoDup_cons in Hnd as [Hp Hnd]. apply Forall_cons in Hf as [Hr Hf].
  apply elem_of_cons in Hin as [<-|Hin].
  - simpl in *. unfold assign. simpl. fold (assign asg (cc_set cc i v)). rewrite assign_other; [|lia| |done].
    + unfold cc_at, cc_set. rewrite list_lookup_insert_eq by lia. done.
    + eapply Forall_impl; [done|]. simpl. lia.
  - apply IH; [done| |done]. unfold cc_set. by rewrite length_insert.
Qed.

Lemma cc_disable_at vmin vtime from to cc i :
  0 <= i < Z.of_nat (length cc) ->
  cc_at (cc_disable vmin vtime from to cc) i =
  if negb (i =? vmin) && negb (i =? vtime) && (cc_at cc i =? from) then to else cc_at cc i.
Proof.
  intros Hi. unfold cc_at, cc_disable. rewrite list_lookup_imap.
  destruct (lookup_lt_is_Some_2 cc (Z.to_nat i)) as [v E]; [lia|]. rewrite E. simpl.
  by rewrite Z2Nat.id by lia.
Qed.

Lemma fold_assign {A} (f : A -> Z) (g : A -> Z) l cc :
  fold_left (fun cc p => cc_set cc (f p) (g p)) l cc = assign (map (fun p => (f p, g p)) l) cc.
Proof. unfold assign. revert cc. induction l as [|p l IH]; intros cc; simpl; [done|apply IH]. Qed.

(** ** Terminal settings *)

(** What the conversions rely on of Darwin's [termios.h]: the masks of a word
    do not overlap, and speeds and positions of characters are distinct. *)
Class DarwinTermiosOk `{DarwinConst} : Prop := {
  t_iflag : disjoint (to_darwin l2d_iflag).*2 = true;
  t_oflag : disjoint (to_darwin l2d_oflag).*2 = true;
  t_lflag : disjoint (to_darwin l2d_lflag).*2 = true;
  t_cflag : disjoint (D "CSIZE" :: (to_darwin l2d_cflag).*2) = true;
  t_csize : D "CSIZE" = Z.shiftl LINUX_CSIZE 4;
  t_speed : NoDup (map (fun p => D p.1) sptab);
  t_cc : NoDup (map D l2d_cc.*1);
  t_nccs : Forall (fun n => 0 <= D n < D "NCCS") l2d_cc.*1;
}.

Section Termios.
Context `{DarwinTermiosOk}.

Lemma sptab_codes : NoDup sptab.*2.
Proof. apply (bool_decide_unpack _). vm_compute. exact I. Qed.

Lemma speed_roundtrip code : code ∈ sptab.*2 -> darwin_to_linux_speed (linux_to_darwin_speed code) = code.
Proof.
  intros Hin. unfold linux_to_darwin_speed.
  destruct (list_find (fun p => p.2 = code) sptab) as [[i p]|] eqn:E.
  - apply list_find_Some in E as (Hi & Hp & _). unfold darwin_to_linux_speed.
    destruct (list_find (fun q => D q.1 = D p.1) sptab) as [[j q]|] eqn:E2.
    + apply list_find_Some in E2 as (Hj & Hq & _).
      assert (q = p) as ->; [|done].
      eapply (NoDup_map_inj (fun p => D p.1)); [exact t_speed| | |exact Hq]; by eapply list_elem_of_lookup_2.
    + apply list_find_None in E2. rewrite Forall_forall in E2.
      by destruct (E2 p (list_elem_of_lookup_2 _ _ _ Hi)).
  - apply list_find_None in E. rewrite Forall_forall in E.
    apply list_elem_of_fmap in Hin as (p & -> & Hp). by destruct (E p Hp).
Qed.

Lemma csize_back c y :
  (forall p, p ∈ to_darwin l2d_cflag -> Z.land p.2 (D "CSIZE") = 0) ->
  Z.shiftr (Z.land (convert (Z.shiftl (Z.land c LINUX_CSIZE) 4) (to_darwin l2d_cflag) y) (D "CSIZE")) 4 =
  Z.land c LINUX_CSIZE.
Proof.
  intros Hd. rewrite (land_convert _ _ _ _ Hd), t_csize, <- Z.shiftl_land, Z.shiftr_shiftl_l by lia.
  rewrite Z.sub_diag, Z.shiftl_0_r, <- Z.land_assoc. done.
Qed.

(** Masking with a 32-bit mask gives a 32-bit word. *)
Lemma u32_land x m : 0 <= m < 2 ^ 32 -> u32 (Z.land x m) = Z.land x m.
Proof.
  intros Hm. unfold u32, wrap. rewrite <- Z.land_ones, <- Z.land_assoc, Z.land_ones by lia.
  by rewrite (Z.mod_small m).
Qed.

Lemma cflag_targets p : p ∈ to_darwin l2d_cflag -> Z.land p.2 (D "CSIZE") = 0.
Proof.
  intros Hp. rewrite Z.land_comm. apply (disjoint_cons _ _ t_cflag), list_elem_of_fmap. by exists p.
Qed.

(** Of a word that uses a known speed, everything the tables know survives. *)
Lemma cflag_roundtrip l :
  Z.land (lc_cflag l) LINUX_CBAUD ∈ sptab.*2 ->
  lc_cflag (darwin_to_linux_termios (linux_to_darwin_termios l)) =
  Z.land (lc_cflag l) (Z.lor LINUX_CBAUD (Z.lor LINUX_CSIZE (union_of l2d_cflag.*1))).
Proof.
  intros Hs. unfold darwin_to_linux_termios, linux_to_darwin_termios. cbn [lc_cflag c_cflag c_ispeed].
  rewrite speed_roundtrip, csize_back by (done || apply cflag_targets). set (c := lc_cflag l) in *.
  change (from_darwin d2l_cflag) with (swap_table (to_darwin l2d_cflag)).
  rewrite (convert_back _ (to_darwin l2d_cflag) c).
  - change (to_darwin l2d_cflag).*1 with l2d_cflag.*1.
    rewrite !Z.land_lor_distr_r, Z.lor_assoc. f_equal. by rewrite !u32_land.
  - by apply whole_pow2.
  - intros p Hp. apply testf_convert_target; [|done|].
    + apply (disjoint_cons _ _ t_cflag).
    + unfold testf. replace (Z.land _ p.2) with 0; [done|]. symmetry.
      rewrite Z.shiftl_land, <- t_csize, <- Z.land_assoc, (Z.land_comm (D "CSIZE")), cflag_targets by done.
      apply Z.land_0_r.
Qed.

Lemma cc_inj n m : n ∈ l2d_cc.*1 -> m ∈ l2d_cc.*1 -> n <> m -> (D n =? D m) = false.
Proof. intros Hn Hm Hne. apply Z.eqb_neq. intros E. apply Hne. 
  exact (NoDup_map_inj D _ _ _ t_cc Hn Hm E).
Qed.

(** The entries of the two lists of assignments. *)
Lemma cc_entry i n : (i, n) ∈ d2l_cc ->
  (n, i) ∈ l2d_cc /\ 0 <= i < LINUX_NCCS /\ 0 <= D n < D "NCCS" /\
  (D n =? D "VMIN") = (i =? LINUX_VMIN) /\ (D n =? D "VTIME") = (i =? LINUX_VTIME).
Proof.
  intros Hin. assert ((n, i) ∈ l2d_cc) as Hl.
  { change l2d_cc with (map (fun p => (p.2, p.1)) d2l_cc). apply list_elem_of_fmap. by exists (i, n). }
  assert (n ∈ l2d_cc.*1) as Hn by (apply list_elem_of_fmap; by exists (n, i)).
  split; [done|]. assert (0 <= D n < D "NCCS") as Hr.
  { pose proof t_nccs as Ht. rewrite Forall_forall in Ht. by apply Ht. }
  clear Hl. apply list_elem_of_In in Hin.
  repeat (destruct Hin as [[= <- <-]|Hin];
    [split_and!; try (vm_compute; congruence); try lia; try apply Z.eqb_refl;
     apply cc_inj; apply (bool_decide_unpack _); vm_compute; exact I|]).
  destruct Hin.
Qed.

(** The characters, one by one. *)
Lemma cc_roundtrip l i n : (i, n) ∈ d2l_cc ->
  cc_at (lc_cc (darwin_to_linux_termios (linux_to_darwin_termios l))) i =
  (if negb (i =? LINUX_VMIN) && negb (i =? LINUX_VTIME) && (cc_at (lc_cc l) i =? D "_POSIX_VDISABLE")
   then LINUX_POSIX_VDISABLE else cc_at (lc_cc l) i).
Proof.
  intros Hin. destruct (cc_entry i n Hin) as (Hl & Hi & Hn & Emin & Etime).
  unfold darwin_to_linux_termios, linux_to_darwin_termios. cbn [lc_cc c_cc].
  rewrite !fold_assign, cc_disable_at by (rewrite assign_length, repeat_length; lia).
  erewrite assign_at; cycle 1.
  { apply (bool_decide_unpack _). vm_compute. exact I. }
  { rewrite repeat_length. apply (bool_decide_unpack _). vm_compute. exact I. }
  { apply list_elem_of_fmap. exists (i, n). split; [reflexivity|done]. }
  cbn [fst snd]. rewrite cc_disable_at, Emin, Etime by (rewrite assign_length, repeat_length; lia).
  erewrite (assign_at _ _ (D n)); cycle 1.
  { exact t_cc. }
  { rewrite repeat_length. rewrite Forall_forall. intros j Hj.
    apply list_elem_of_fmap in Hj as (q & -> & Hq). apply list_elem_of_fmap in Hq as (q' & -> & Hq).
    pose proof t_nccs as Ht. rewrite Forall_forall in Ht. specialize (Ht q'.1).
    cbn [fst]. enough (0 <= D q'.1 < D "NCCS") by lia. apply Ht. apply list_elem_of_fmap. by exists q'. }
  { apply list_elem_of_fmap. exists (n, i). split; [reflexivity|done]. }
  cbn [fst snd]. set (v := cc_at (lc_cc l) i).
  destruct (negb (i =? LINUX_VMIN) && negb (i =? LINUX_VTIME)); simpl; [|done].
  destruct (Z.eqb_spec v LINUX_POSIX_VDISABLE) as [->|]; [|done]. rewrite Z.eqb_refl.
  by destruct (LINUX_POSIX_VDISABLE =? _).
Qed.

(** C40: Terminal settings read back after having been set: every flag the
    tables know, the character size and the line speed survive the conversion to
    Darwin and back (and unknown flags are dropped); so does every control
    character, except that one equal to Darwin's "disabled" value comes back as
    Linux's. *)
Theorem termios_roundtrip l :
  let l' := darwin_to_linux_termios (linux_to_darwin_termios l) in
  Z.land (lc_cflag l) LINUX_CBAUD ∈ sptab.*2 ->
  Z.land (lc_oflag l) LINUX_XTABS = 0 \/ Z.land (lc_oflag l) LINUX_XTABS = LINUX_XTABS ->
  lc_iflag l' = Z.land (lc_iflag l) (union_of l2d_iflag.*1) /\
  lc_oflag l' = Z.land (lc_oflag l) (union_of l2d_oflag.*1) /\
  lc_cflag l' = Z.land (lc_cflag l) (Z.lor LINUX_CBAUD (Z.lor LINUX_CSIZE (union_of l2d_cflag.*1))) /\
  lc_lflag l' = Z.land (lc_lflag l) (union_of l2d_lflag.*1) /\
  (forall i n, (i, n) ∈ d2l_cc -> cc_at (lc_cc l') i =
    if negb (i =? LINUX_VMIN) && negb (i =? LINUX_VTIME) && (cc_at (lc_cc l) i =? D "_POSIX_VDISABLE")
    then LINUX_POSIX_VDISABLE else cc_at (lc_cc l) i).
Proof.
  intros l' Hs Hx. split_and!.
  - apply (convert_roundtrip 0 (to_darwin l2d_iflag)); [apply t_iflag|by apply whole_pow2|done].
  - apply (convert_roundtrip 0 (to_darwin l2d_oflag)); [apply t_oflag| |done].
    pose proof (whole_pow2 [LINUX_OPOST; LINUX_ONLCR] (lc_oflag l) eq_refl) as Hw.
    simpl in Hw |- *. rewrite !andb_true_iff in *. destruct Hw as (? & ? & _). split_and!; try done.
    destruct Hx as [-> | ->]; [done|]. by rewrite Z.eqb_refl, orb_true_r.
  - by apply cflag_roundtrip.
  - apply (convert_roundtrip 0 (to_darwin l2d_lflag)); [apply t_lflag|by apply whole_pow2|done].
  - intros i n. apply cc_roundtrip.
Qed.

End Termios.

(** ** Signal sets *)

(** What the conversions rely on of Darwin's [signal.h]: the labels of the
    generated [switch] are distinct, its signals are below [NSIG], and [NSIG] is 32. *)
Definition std_signals : list (string * Z) :=
  omap (fun d => match d with DECL_LINUX n v SAME => Some (n, v) | _ => None end) LINUX_STSIGNUM.

Class DarwinSignalOk `{DarwinConst} : Prop := {
  sig_labels : NoDup (darwin_to_linux_cases D LINUX_STSIGNUM (counter "darwin_to_linux_signum") LINUX_STSIGNUM).*1;
  sig_range : Forall (fun p => 0 < D p.1 < D "NSIG") std_signals;
  sig_nsig : D "NSIG" = LINUX_SIGRTMIN;
}.

Section Signals.
Context `{DarwinSignalOk}.

Lemma fold_bits (c : Z -> bool) (f : Z -> Z) l acc k :
  0 <= k -> (forall i, c i = true -> 0 < f i) ->
  Z.testbit (fold_left (fun acc i => if c i then Z.lor acc (Z.shiftl 1 (f i - 1)) else acc) l acc) k =
  Z.testbit acc k || existsb (fun i => c i && (f i - 1 =? k)) l.
Proof.
  intros Hk Hf. revert acc. induction l as [|i l IH]; intros acc; simpl; [by rewrite orb_false_r|].
  rewrite IH. destruct (c i) eqn:Hc; [|done]. simpl.
  rewrite Z.lor_spec, Z.shiftl_1_l, Z.pow2_bits_eqb, orb_assoc; [done|]. specialize (Hf i Hc). lia.
Qed.

Lemma ismember_testbit mask sig : LINUX_SIGISMEMBER mask sig = Z.testbit (Z.shiftr mask (sig - 1)) 0.
Proof.
  unfold LINUX_SIGISMEMBER, testf. rewrite Z.land_comm. change 1 with (2 ^ 0) at 2.
  rewrite land_pow2 by done. by destruct (Z.testbit _ 0).
Qed.

Lemma std_signal_table n v : (n, v) ∈ std_signals -> DECL_LINUX n v SAME ∈ LINUX_STSIGNUM.
Proof.
  intros Hin. apply list_elem_of_omap in Hin as (d & Hd & E). by destruct d as [? ? []| |]; simplify_eq.
Qed.

Lemma std_signal_value n v : (n, v) ∈ std_signals -> 1 <= v < LINUX_SIGRTMIN /\ v <> LINUX_SIGSTKFLT /\ v <> LINUX_SIGPWR.
Proof.
  intros Hin. assert (Forall (fun p => 1 <= p.2 < LINUX_SIGRTMIN /\ p.2 <> LINUX_SIGSTKFLT /\ p.2 <> LINUX_SIGPWR) std_signals) as Hf.
  { apply (bool_decide_unpack _). vm_compute. exact I. }
  rewrite Forall_forall in Hf. exact (Hf _ Hin).
Qed.

Lemma std_signal_of i : 1 <= i < LINUX_SIGRTMIN -> i <> LINUX_SIGSTKFLT -> i <> LINUX_SIGPWR ->
  exists n, (n, i) ∈ std_signals.
Proof.
  intros Hi H1 H2.
  assert (Forall (fun i => i = LINUX_SIGSTKFLT \/ i = LINUX_SIGPWR \/ Exists (fun p => p.2 = i) std_signals) (seqZ 1 31)) as Hf.
  { apply (bool_decide_unpack _). vm_compute. exact I. }
  rewrite Forall_forall in Hf. destruct (Hf i) as [|[|He]]; [|done|done|].
  - apply elem_of_seqZ. unfold LINUX_SIGRTMIN in *. lia.
  - apply Exists_exists in He as ([n v] & Hin & <-). by exists n.
Qed.

Lemma signal_values n v : (n, v) ∈ std_signals ->
  linux_to_darwin_signal v = D n /\ darwin_to_linux_signal (D n) = v /\ 0 < D n < D "NSIG".
Proof.
  intros Hin. pose proof (std_signal_value n v Hin) as (Hv & _).
  pose proof sig_range as Hr. rewrite Forall_forall in Hr. specialize (Hr _ Hin). simpl in Hr.
  pose proof sig_nsig as Hn.
  destruct (const_roundtrip D LINUX_STSIGNUM (counter "linux_to_darwin_signum") (counter "darwin_to_linux_signum") n v)
    as [E1 E2]; [|exact sig_labels|by apply std_signal_table|].
  { apply (bool_decide_unpack _). vm_compute. exact I. }
  unfold linux_to_darwin_signal, darwin_to_linux_signal, linux_to_darwin_signum, darwin_to_linux_signum.
  destruct (Z.ltb_spec v LINUX_SIGRTMIN); [|lia]. destruct (Z.ltb_spec (D n) LINUX_SIGRTMIN); [|lia]. done.
Qed.

Lemma fold_left_ext {A B} (f g : A -> B -> A) l a :
  (forall a b, f a b = g a b) -> fold_left f l a = fold_left g l a.
Proof. intros E. revert a. induction l as [|b l IH]; intros a; simpl; [done|]. by rewrite E, IH. Qed.

(** The Darwin set has the counterparts of the Linux set's standard signals. *)
Lemma l2d_sigset_member lset j : 0 < j < D "NSIG" ->
  Z.testbit (linux_to_darwin_sigset lset) (j - 1) = true <->
  exists n v, (n, v) ∈ std_signals /\ LINUX_SIGISMEMBER lset v = true /\ D n = j.
Proof.
  intros Hj. unfold linux_to_darwin_sigset.
  set (c := fun i => LINUX_SIGISMEMBER lset i && negb ((i =? LINUX_SIGSTKFLT) || (i =? LINUX_SIGPWR)) &&
    ((0 <? linux_to_darwin_signal i) && (linux_to_darwin_signal i <? D "NSIG"))).
  rewrite (fold_left_ext _ (fun acc i =>
    if c i then Z.lor acc (Z.shiftl 1 (linux_to_darwin_signal i - 1)) else acc)).
  2: { intros acc i. unfold c, sigaddset. destruct (LINUX_SIGISMEMBER lset i); [|done].
       by destruct ((i =? LINUX_SIGSTKFLT) || (i =? LINUX_SIGPWR)). }
  rewrite fold_bits; [|lia|].
  2: { intros i. unfold c. rewrite !andb_true_iff. lia. }
  rewrite Z.bits_0, orb_false_l, existsb_exists. split.
  - intros (i & Hi & Hb). unfold c in Hb. rewrite !andb_true_iff, negb_true_iff, orb_false_iff in Hb.
    destruct Hb as (((Hm & H1 & H2) & H3 & H4) & E).
    apply list_elem_of_In, elem_of_seqZ in Hi.
    assert (i < LINUX_SIGRTMIN) as Hlt.
    { unfold linux_to_darwin_signal in H3. destruct (Z.ltb_spec i LINUX_SIGRTMIN); [done|lia]. }
    destruct (std_signal_of i) as [n Hn]; [lia|lia|lia|]. exists n, i.
    destruct (signal_values n i Hn) as (E1 & _). split_and!; [done|done|lia].
  - intros (n & v & Hin & Hm & E). destruct (signal_values n v Hin) as (E1 & E2 & Hr).
    destruct (std_signal_value n v Hin) as (Hv & Hn1 & Hn2). exists v. split.
    + apply list_elem_of_In, elem_of_seqZ. unfold LINUX_SIGRTMIN, LINUX_SIGRTMAX in *. lia.
    + unfold c. rewrite Hm, E1, E. rewrite (proj2 (Z.eqb_neq _ _) Hn1), (proj2 (Z.eqb_neq _ _) Hn2).
      simpl. rewrite !andb_true_iff. lia.
Qed.

(** Converting a signal set to Darwin and back keeps exactly the standard
    signals Darwin has: [SIGSTKFLT], [SIGPWR] and the real-time signals are
    dropped, and no signal is added. *)
Theorem sigset_roundtrip lset sig : 1 <= sig <= LINUX_SIGRTMAX ->
  LINUX_SIGISMEMBER (darwin_to_linux_sigset (linux_to_darwin_sigset lset)) sig =
  LINUX_SIGISMEMBER lset sig &&
  ((sig <? LINUX_SIGRTMIN) && negb (sig =? LINUX_SIGSTKFLT) && negb (sig =? LINUX_SIGPWR)).
Proof.
  intros Hs. rewrite ismember_testbit, Z.shiftr_spec by done. unfold darwin_to_linux_sigset.
  set (dset := linux_to_darwin_sigset lset).
  set (c := fun i => negb (sigismember dset i =? 0) && (darwin_to_linux_signal i >? 0)).
  rewrite (fold_left_ext _ (fun acc i =>
    if c i then Z.lor acc (Z.shiftl 1 (darwin_to_linux_signal i - 1)) else acc)).
  2: { intros acc i. unfold c, LINUX_SIGADDSET. by destruct (sigismember dset i =? 0). }
  rewrite fold_bits; [|lia|].
  2: { intros i. unfold c. rewrite !andb_true_iff. lia. }
  rewrite Z.bits_0, orb_false_l. apply eq_true_iff_eq. rewrite existsb_exists, !andb_true_iff, !negb_true_iff. split.
  - intros (i & Hi & Hb). unfold c in Hb. rewrite !andb_true_iff, negb_true_iff in Hb.
    destruct Hb as ((Hm & Hp) & E). unfold sigismember in Hm.
    destruct ((0 <? i) && (i <? D "NSIG")) eqn:Hr.
    + rewrite andb_true_iff in Hr. destruct (Z.testbit dset (i - 1)) eqn:Hb; [|done].
      apply l2d_sigset_member in Hb as (n & v & Hin & Hv & <-); [|lia].
      destruct (signal_values n v Hin) as (_ & E2 & _).
      assert (v = sig) as -> by lia. destruct (std_signal_value n sig Hin) as (? & ? & ?).
      split_and!; [done|lia|lia|lia].
    + apply list_elem_of_In, elem_of_seqZ in Hi. rewrite sig_nsig in Hr.
      assert (i = LINUX_SIGRTMIN) as -> by (unfold LINUX_SIGRTMIN in *; lia). done.
  - intros (Hm & (Hlt & H1) & H2). destruct (std_signal_of sig) as [n Hn]; [lia|lia|lia|].
    destruct (signal_values n sig Hn) as (_ & E2 & Hr). pose proof sig_nsig. exists (D n). split.
    + apply list_elem_of_In, elem_of_seqZ. lia.
    + unfold c, sigismember. destruct (Z.ltb_spec 0 (D n)); [|lia]. destruct (Z.ltb_spec (D n) (D "NSIG")); [|lia].
      simpl. unfold dset. rewrite (proj2 (l2d_sigset_member lset (D n) Hr)) by eauto. rewrite E2. simpl. lia.
Qed.

End Signals.

(** ** Flags of [open] and [fcntl] *)

Section MoreTables.
Implicit Types (tbl : list (Z * Z)) (x m : Z).

Lemma ldiff_lor a b c : Z.ldiff (Z.lor a b) c = Z.lor (Z.ldiff a c) (Z.ldiff b c).
Proof.
  apply Z.bits_inj'. intros n Hn. rewrite Z.lor_spec, !Z.ldiff_spec, Z.lor_spec.
  by rewrite andb_orb_distrib_l.
Qed.

Lemma ldiff_ldiff a b c : Z.ldiff (Z.ldiff a b) c = Z.ldiff a (Z.lor b c).
Proof.
  apply Z.bits_inj'. intros n Hn. rewrite !Z.ldiff_spec, Z.lor_spec.
  by rewrite negb_orb, andb_assoc.
Qed.

Lemma testf_ldiff a b m : Z.land b m = 0 -> testf (Z.ldiff a b) m = testf a m.
Proof.
  intros Hd. unfold testf. do 2 f_equal. apply Z.bits_inj'. intros n Hn.
  pose proof (f_equal (fun z => Z.testbit z n) Hd) as E. cbv beta in E. rewrite Z.land_spec, Z.bits_0 in E.
  rewrite !Z.land_spec, Z.ldiff_spec. destruct (Z.testbit b n), (Z.testbit m n); simpl in *; try done;
    by rewrite ?andb_false_r, ?andb_true_r.
Qed.

Lemma ldiff_convert ret tbl x m :
  Z.ldiff ret m = 0 -> (forall p, p ∈ tbl -> testf x p.1 = true -> Z.ldiff p.2 m = 0) ->
  Z.ldiff (convert ret tbl x) m = 0.
Proof.
  unfold convert. revert ret. induction tbl as [|p tbl IH]; intros ret Hr Hp; simpl; [done|].
  apply IH; [|intros q Hq; apply Hp; by right].
  destruct (testf x p.1) eqn:Hx; [|done]. by rewrite ldiff_lor, Hr, Hp by (by left || done).
Qed.

Lemma ldiff_union m ms : m ∈ ms -> Z.ldiff m (union_of ms) = 0.
Proof.
  intros Hin. apply Z.bits_inj'. intros n Hn. rewrite Z.ldiff_spec, Z.bits_0.
  induction ms as [|m' ms IH]; [by apply elem_of_nil in Hin|]. simpl. rewrite Z.lor_spec.
  apply elem_of_cons in Hin as [->|Hin].
  - by destruct (Z.testbit m' n).
  - specialize (IH Hin). destruct (Z.testbit m n), (Z.testbit m' n); simpl in *; done.
Qed.

Lemma land_union a ms : (forall m, m ∈ ms -> testf a m = false) -> Z.land (union_of ms) a = 0.
Proof.
  induction ms as [|m ms IH]; intros Hm; simpl; [done|].
  rewrite Z.land_lor_distr_l, IH, Z.lor_0_r by (intros m' ?; apply Hm; by right).
  rewrite Z.land_comm. specialize (Hm m ltac:(by left)). unfold testf in Hm.
  by apply negb_false_iff, Z.eqb_eq in Hm.
Qed.

(** [TEST] on masks that do not overlap is [convert], and clears the masks. *)
Lemma convert_test_ok tbl flags x : disjoint tbl.*1 = true ->
  fold_left (fun st p => let '(flags, r) := st in
    if testf r p.1 then (Z.lor flags p.2, clearf r p.1) else (flags, r)) tbl (flags, x) =
  (convert flags tbl x, Z.ldiff x (union_of tbl.*1)).
Proof.
  unfold convert. revert flags x. induction tbl as [|p tbl IH]; intros flags x Hd; simpl.
  { by rewrite Z.ldiff_0_r. }
  simpl in Hd. rewrite !andb_true_iff, forallb_forall in Hd. destruct Hd as [[Hp Hall] Hd].
  assert (Z.ldiff x p.1 = x \/ testf x p.1 = true) as Hx.
  { unfold testf. destruct (Z.eqb_spec (Z.land x p.1) 0) as [E|]; [left|by right].
    apply Z.bits_inj'. intros n Hn. pose proof (f_equal (fun z => Z.testbit z n) E) as E'. cbv beta in E'.
    rewrite Z.land_spec, Z.bits_0 in E'. rewrite Z.ldiff_spec.
    by destruct (Z.testbit x n), (Z.testbit p.1 n). }
  assert (forall f r, fold_left (fun acc q => if testf (Z.ldiff r p.1) q.1 then Z.lor acc q.2 else acc) tbl f =
    fold_left (fun acc q => if testf r q.1 then Z.lor acc q.2 else acc) tbl f) as Hsame.
  { intros f r. clear IH Hd. revert f. induction tbl as [|q tbl IH]; intros f; simpl; [done|].
    rewrite testf_ldiff; [|apply Z.eqb_eq, Hall; by left]. apply IH. intros z Hz. apply Hall. by right. }
  rewrite <- ldiff_ldiff. destruct (testf x p.1) eqn:Ht.
  - rewrite IH by done. unfold clearf. by rewrite Hsame.
  - destruct Hx as [Hx|]; [|done]. rewrite IH by done. by rewrite Hx.
Qed.

Lemma testf_convert_entry ret tbl x p :
  p ∈ tbl -> testf ret p.2 = false -> p.2 <> 0 ->
  (forall q, q ∈ tbl -> testf q.2 p.2 = true -> q.1 = p.1) ->
  testf (convert ret tbl x) p.2 = testf x p.1.
Proof.
  intros Hp Hr Hnz Hq. rewrite testf_convert, Hr. simpl. apply eq_true_iff_eq. rewrite existsb_exists. split.
  - intros (q & Hin & Hb). apply andb_true_iff in Hb as [Hx Ht].
    apply list_elem_of_In in Hin. by rewrite <- (Hq q).
  - intros Hx. exists p. split; [by apply list_elem_of_In|]. rewrite Hx. unfold testf.
    rewrite Z.land_diag. by destruct (Z.eqb_spec p.2 0).
Qed.

End MoreTables.

(** What the conversions rely on of Darwin's [fcntl.h]. *)
Class DarwinOpenOk `{DarwinConst} : Prop := {
  o_rdonly : D "O_RDONLY" = 0;
  o_flags : disjoint (D "O_ASYNC" :: (from_darwin (tail d2l_o)).*1) = true;
}.

Section OpenFlags.
Context `{DarwinOpenOk}.

Definition O_UNSUPPORTED : Z := union_of [LINUX_O_PATH; LINUX_O_SYNC; LINUX_FASYNC; LINUX_O_CLOEXEC].

Lemma d2l_o_cases r : darwin_to_linux_o_flags r =
  (if Z.ldiff r (union_of (from_darwin (tail d2l_o)).*1) =? 0
   then Some (convert 0 (from_darwin (tail d2l_o)) r) else None).
Proof.
  unfold darwin_to_linux_o_flags, convert_test.
  change (from_darwin d2l_o) with ((D "O_RDONLY", LINUX_O_RDONLY) :: from_darwin (tail d2l_o)).
  cbn [fold_left fst snd]. rewrite o_rdonly. 
  replace (testf r 0) with false by (unfold testf; by rewrite Z.land_0_r). cbv iota.
  rewrite convert_test_ok; [done|]. apply (disjoint_cons _ _ o_flags).
Qed.

(** The access mode as two flags, which is how the code reads it back. *)
Definition o_entries : list (Z * string) :=
  (LINUX_O_WRONLY, "O_WRONLY") :: (LINUX_O_RDWR, "O_RDWR") :: l2d_o%string.

Lemma l2d_o_convert f : testf f LINUX_O_PATH = false -> Z.land f LINUX_O_ACCMODE <> 3 ->
  linux_to_darwin_o_flags f = convert 0 (to_darwin o_entries) f.
Proof.
  intros Hp Ha. unfold linux_to_darwin_o_flags. rewrite Hp. unfold o_entries.
  change (to_darwin ((LINUX_O_WRONLY, "O_WRONLY"%string) :: (LINUX_O_RDWR, "O_RDWR"%string) :: l2d_o))
    with ((LINUX_O_WRONLY, D "O_WRONLY") :: (LINUX_O_RDWR, D "O_RDWR") :: to_darwin l2d_o).
  unfold convert. cbn [fold_left fst snd]. f_equal. unfold testf.
  change LINUX_O_ACCMODE with (Z.lor (2 ^ 0) (2 ^ 1)) in *. change LINUX_O_WRONLY with (2 ^ 0).
  change LINUX_O_RDWR with (2 ^ 1). rewrite Z.land_lor_distr_r in *. rewrite !land_pow2 in * by lia.
  destruct (Z.testbit f 0), (Z.testbit f 1); simpl in *; rewrite ?o_rdonly, ?Z.lor_0_l; done.
Qed.

(** The Darwin flags are pairwise disjoint. *)
Lemma o_disjoint a b : a ∈ "O_ASYNC"%string :: (tail d2l_o).*1 -> b ∈ "O_ASYNC"%string :: (tail d2l_o).*1 ->
  testf (D a) (D b) = bool_decide (a = b).
Proof.
  intros Ha Hb. apply list_elem_of_lookup in Ha as [i Hi], Hb as [j Hj].
  rewrite (disjoint_lookup _ i j (D a) (D b) o_flags).
  - apply bool_decide_ext. split; [intros ->; congruence|]. intros ->.
    eapply NoDup_lookup; [|exact Hi|exact Hj]. apply (bool_decide_unpack _). vm_compute. exact I.
  - change (map D ("O_ASYNC"%string :: (tail d2l_o).*1) !! i = Some (D a)). by rewrite list_lookup_fmap, Hi.
  - change (map D ("O_ASYNC"%string :: (tail d2l_o).*1) !! j = Some (D b)). by rewrite list_lookup_fmap, Hj.
Qed.

Lemma o_entry l d f : (l, d) ∈ o_entries -> testf (convert 0 (to_darwin o_entries) f) (D d) = testf f l.
Proof.
  intros Hin.
  assert (forall l d, (l, d) ∈ o_entries -> d ∈ "O_ASYNC"%string :: (tail d2l_o).*1) as Hd.
  { intros l' d' Hin'. assert (Forall (fun p : Z * string => p.2 ∈ "O_ASYNC"%string :: (tail d2l_o).*1) o_entries) as Hf.
    { apply (bool_decide_unpack _). vm_compute. exact I. }
    rewrite Forall_forall in Hf. exact (Hf _ Hin'). }
  apply (testf_convert_entry 0 _ f (l, D d)); cbn [fst snd].
  - apply list_elem_of_fmap. by exists (l, d).
  - done.
  - intros E. pose proof (o_disjoint d d (Hd _ _ Hin) (Hd _ _ Hin)) as Ht.
    rewrite bool_decide_true in Ht by done. unfold testf in Ht. by rewrite E in Ht.
  - intros q Hq Ht. apply list_elem_of_fmap in Hq as ([l' d'] & -> & Hq). cbn [fst snd] in *.
    rewrite o_disjoint in Ht by eauto. apply bool_decide_eq_true in Ht as ->.
    assert (Forall (fun p : Z * string => Forall (fun q : Z * string => p.2 = q.2 -> p.1 = q.1) o_entries) o_entries) as Hf.
    { apply (bool_decide_unpack _). vm_compute. exact I. }
    rewrite Forall_forall in Hf. specialize (Hf _ Hq). rewrite Forall_forall in Hf. by apply (Hf _ Hin).
Qed.

Lemma o_unsupported f m : testf f O_UNSUPPORTED = false ->
  m ∈ [LINUX_O_PATH; LINUX_O_SYNC; LINUX_FASYNC; LINUX_O_CLOEXEC] -> testf f m = false.
Proof.
  intros Hf Hm. unfold testf in *. apply negb_false_iff in Hf. apply Z.eqb_eq in Hf.
  enough (Z.land f m = 0) as -> by done. apply Z.bits_inj'. intros n Hn. pose proof (f_equal (fun z => Z.testbit z n) Hf) as E. cbv beta in E.
  pose proof (f_equal (fun z => Z.testbit z n) (ldiff_union m _ Hm)) as E'. cbv beta in E'.
  fold O_UNSUPPORTED in E'. rewrite Z.ldiff_spec in E'. rewrite Z.land_spec, Z.bits_0 in *.
  destruct (Z.testbit f n), (Z.testbit m n), (Z.testbit O_UNSUPPORTED n); done.
Qed.

Lemma o_cloexec f : testf (convert 0 (to_darwin o_entries) f) (D "O_CLOEXEC") = false.
Proof.
  rewrite testf_convert. change (testf 0 (D "O_CLOEXEC")) with false. rewrite orb_false_l. apply not_true_iff_false. rewrite existsb_exists.
  intros (q & Hq & Hb). apply andb_true_iff in Hb as [_ Ht].
  apply list_elem_of_In, list_elem_of_fmap in Hq as ([l d] & -> & Hq). cbn [snd] in Ht.
  assert (Forall (fun p : Z * string => p.2 ∈ "O_ASYNC"%string :: (tail d2l_o).*1 /\ p.2 <> "O_CLOEXEC"%string) o_entries) as Hf.
  { apply (bool_decide_unpack _). vm_compute. exact I. }
  rewrite Forall_forall in Hf. destruct (Hf _ Hq) as [Hd Hne].
  rewrite o_disjoint in Ht; [by apply bool_decide_eq_true in Ht|done|].
  apply (bool_decide_unpack _). vm_compute. exact I.
Qed.

Lemma o_sync : darwin_to_linux_o_flags (linux_to_darwin_o_flags LINUX_O_SYNC) = Some LINUX_FASYNC.
Proof.
  change (linux_to_darwin_o_flags LINUX_O_SYNC) with (Z.lor (D "O_RDONLY") (D "O_FSYNC")).
  rewrite o_rdonly, Z.lor_0_l, d2l_o_cases, ldiff_union.
  - simpl (0 =? 0). cbv iota. f_equal.
    change (from_darwin (tail d2l_o)) with (swap_table (map (fun p => (p.2, D p.1)) (tail d2l_o))).
    rewrite (convert_back 0 _ LINUX_FASYNC); [done|done|].
    intros p Hp. apply list_elem_of_fmap in Hp as ([d l] & -> & Hp). cbn [fst snd].
    assert (Forall (fun p : string * Z => "O_FSYNC"%string ∈ "O_ASYNC"%string :: (tail d2l_o).*1 /\
       bool_decide ("O_FSYNC"%string = p.1) = testf LINUX_FASYNC p.2) (tail d2l_o)) as Hf.
    { apply (bool_decide_unpack _). vm_compute. exact I. }
    rewrite Forall_forall in Hf. destruct (Hf _ Hp) as [Ha Hb]. cbn [fst snd] in Hb. rewrite <- Hb.
    apply o_disjoint; [done|]. right. apply list_elem_of_fmap. by exists (d, l).
  - change (D "O_FSYNC" ∈ map D (tail d2l_o).*1). apply list_elem_of_fmap. eexists. split; [done|].
    apply (bool_decide_unpack _). vm_compute. exact I.
Qed.

Lemma o_async : darwin_to_linux_o_flags (linux_to_darwin_o_flags LINUX_FASYNC) = None.
Proof.
  change (linux_to_darwin_o_flags LINUX_FASYNC) with (Z.lor (D "O_RDONLY") (D "O_ASYNC")).
  rewrite o_rdonly, Z.lor_0_l, d2l_o_cases. destruct (Z.eqb_spec (Z.ldiff (D "O_ASYNC") (union_of (from_darwin (tail d2l_o)).*1)) 0) as [E|]; [|done].
  pose proof (testf_ldiff (D "O_ASYNC") (union_of (from_darwin (tail d2l_o)).*1) (D "O_ASYNC")) as Ht.
  rewrite E, o_disjoint in Ht by (by left). rewrite bool_decide_true in Ht by done.
  discriminate Ht. apply land_union. change (from_darwin (tail d2l_o)).*1 with (map D (tail d2l_o).*1).
  intros m Hm. apply list_elem_of_fmap in Hm as (d & -> & Hd).
  rewrite o_disjoint by (by constructor). apply bool_decide_false. intros <-. revert Hd.
  apply (bool_decide_unpack _). vm_compute. exact I.
Qed.

(** [F_GETFL] after [F_SETFL] or [open]: the access mode and the flags
    Darwin has come back as they were, for words without [O_SYNC], [FASYNC],
    [O_CLOEXEC] and [O_PATH].  [O_SYNC] comes back as [FASYNC], and [FASYNC] fails
    the assertion of [darwin_to_linux_o_flags]. *)
Theorem open_flags_roundtrip f :
  testf f O_UNSUPPORTED = false -> Z.land f LINUX_O_ACCMODE <> 3 ->
  darwin_to_linux_o_flags (linux_to_darwin_o_flags f) = Some (Z.land f (union_of (tail d2l_o).*2)) /\
  darwin_to_linux_o_flags (linux_to_darwin_o_flags LINUX_O_SYNC) = Some LINUX_FASYNC /\
  darwin_to_linux_o_flags (linux_to_darwin_o_flags LINUX_FASYNC) = None.
Proof.
  intros Hf Ha. split; [|split].
  - rewrite d2l_o_cases, l2d_o_convert by (done || (apply o_unsupported; [done|set_solver])).
    rewrite ldiff_convert; [|done|].
    + simpl (0 =? 0). cbv iota. f_equal.
      change (from_darwin (tail d2l_o)) with (swap_table (map (fun p => (p.2, D p.1)) (tail d2l_o))).
      rewrite (convert_back 0 _ f); [by rewrite Z.lor_0_l|by apply whole_pow2|].
      intros p Hp. apply list_elem_of_fmap in Hp as ([d l] & -> & Hp). cbn [fst snd].
      destruct (decide ((l, d) ∈ o_entries)) as [Hin|Hin]; [by apply o_entry|].
      apply list_elem_of_In in Hp.
      repeat (destruct Hp as [[= <- <-]|Hp]; [first [destruct Hin; apply (bool_decide_unpack _); vm_compute; exact I
        |rewrite ?o_cloexec, ?(o_entry LINUX_O_SYNC) by (apply (bool_decide_unpack _); vm_compute; exact I);
         rewrite ?(o_unsupported f) by (done || set_solver); done]|]).
      destruct Hp.
    + intros p Hp Hx. apply list_elem_of_fmap in Hp as ([l d] & -> & Hp). cbn [fst snd] in *.
      apply ldiff_union. change (D d ∈ map D (tail d2l_o).*1). apply list_elem_of_fmap. exists d. split; [done|].
      assert (Forall (fun p : Z * string => p.2 ∈ (tail d2l_o).*1 \/ p.1 = LINUX_FASYNC) o_entries) as Hd.
      { apply (bool_decide_unpack _). vm_compute. exact I. }
      rewrite Forall_forall in Hd. destruct (Hd _ Hp) as [|E]; [done|]. cbn [fst] in E. subst l.
      rewrite o_unsupported in Hx; [done|done|set_solver].
  - apply o_sync.
  - apply o_async.
Qed.

End OpenFlags.

(** ** macOS's numbers, used by the witnesses *)

Definition macos_consts : list (string * Z) :=
  [("IGNBRK", 0x1); ("BRKINT", 0x2); ("IGNPAR", 0x4); ("PARMRK", 0x8); ("INPCK", 0x10); ("ISTRIP", 0x20);
   ("INLCR", 0x40); ("IGNCR", 0x80); ("ICRNL", 0x100); ("IXON", 0x200); ("IXOFF", 0x400); ("IXANY", 0x800);
   ("IMAXBEL", 0x2000); ("OPOST", 0x1); ("ONLCR", 0x2); ("TAB3", 0x4);
   ("CSIZE", 0x300); ("CSTOPB", 0x400); ("CREAD", 0x800); ("PARENB", 0x1000); ("PARODD", 0x2000);
   ("HUPCL", 0x4000); ("CLOCAL", 0x8000); ("CRTSCTS", 0x30000);
   ("ECHOKE", 0x1); ("ECHOE", 0x2); ("ECHOK", 0x4); ("ECHO", 0x8); ("ECHONL", 0x10); ("ECHOPRT", 0x20);
   ("ECHOCTL", 0x40); ("ISIG", 0x80); ("ICANON", 0x100); ("IEXTEN", 0x400); ("TOSTOP", 0x400000);
   ("FLUSHO", 0x800000); ("PENDIN", 0x20000000); ("NOFLSH", 0x80000000);
   ("VEOF", 0); ("VEOL", 1); ("VEOL2", 2); ("VERASE", 3); ("VWERASE", 4); ("VKILL", 5); ("VREPRINT", 6);
   ("VINTR", 8); ("VQUIT", 9); ("VSUSP", 10); ("VSTART", 12); ("VSTOP", 13); ("VLNEXT", 14);
   ("VDISCARD", 15); ("VMIN", 16); ("VTIME", 17); ("NCCS", 20); ("_POSIX_VDISABLE", 255);
   ("B0", 0); ("B50", 50); ("B75", 75); ("B110", 110); ("B134", 134); ("B150", 150); ("B200", 200);
   ("B300", 300); ("B600", 600); ("B1200", 1200); ("B1800", 1800); ("B2400", 2400); ("B4800", 4800);
   ("B9600", 9600); ("B19200", 19200); ("B38400", 38400); ("B57600", 57600); ("B115200", 115200);
   ("SIGHUP", 1); ("SIGINT", 2); ("SIGQUIT", 3); ("SIGILL", 4); ("SIGTRAP", 5); ("SIGABRT", 6);
   ("SIGFPE", 8); ("SIGKILL", 9); ("SIGBUS", 10); ("SIGSEGV", 11); ("SIGSYS", 12); ("SIGPIPE", 13);
   ("SIGALRM", 14); ("SIGTERM", 15); ("SIGURG", 16); ("SIGSTOP", 17); ("SIGTSTP", 18); ("SIGCONT", 19);
   ("SIGCHLD", 20); ("SIGTTIN", 21); ("SIGTTOU", 22); ("SIGIO", 23); ("SIGXCPU", 24); ("SIGXFSZ", 25);
   ("SIGVTALRM", 26); ("SIGPROF", 27); ("SIGWINCH", 28); ("SIGUSR1", 30); ("SIGUSR2", 31); ("NSIG", 32);
   ("O_RDONLY", 0); ("O_WRONLY", 1); ("O_RDWR", 2); ("O_NONBLOCK", 0x4); ("O_APPEND", 0x8);
   ("O_ASYNC", 0x40); ("O_FSYNC", 0x80); ("O_NOFOLLOW", 0x100); ("O_CREAT", 0x200); ("O_TRUNC", 0x400);
   ("O_EXCL", 0x800); ("O_NOCTTY", 0x20000); ("O_DIRECTORY", 0x100000); ("O_SYMLINK", 0x200000);
   ("O_CLOEXEC", 0x1000000); ("AT_FDCWD", -2); ("AT_EACCESS", 0x10); ("AT_SYMLINK_NOFOLLOW", 0x20);
   ("AT_SYMLINK_FOLLOW", 0x40); ("AT_REMOVEDIR", 0x80)]%string.

Definition macos_const_of (n : string) : Z :=
  match list_find (fun p => p.1 = n) macos_consts with Some (_, p) => p.2 | None => 0 end.
Definition macos_const : DarwinConst := {|
  D := macos_const_of;
  major x := Z.land (Z.shiftr x 24) 0xff;
  minor x := Z.land x 0xffffff;
  counter _ := 0;
|}.

Section MacOS.
#[local] Existing Instance macos_const.

Lemma macos_termios_ok : DarwinTermiosOk.
Proof.
  constructor; [vm_compute; reflexivity..| | |]; apply (bool_decide_unpack _); vm_compute; exact I.
Qed.
Lemma macos_signal_ok : DarwinSignalOk.
Proof.
  constructor; [| |vm_compute; reflexivity]; apply (bool_decide_unpack _); vm_compute; exact I.
Qed.
Lemma macos_open_ok : DarwinOpenOk.
Proof. constructor; vm_compute; reflexivity. Qed.
#[local] Existing Instances macos_termios_ok macos_signal_ok macos_open_ok.

(** A usual line: 38400 baud, eight bits, canonical mode. *)
Definition tty : linux_termios :=
  mk_linux_termios 0x4500 0x5 0xbf 0x8a3b 0
    [3; 28; 127; 21; 4; 0; 1; 0; 17; 19; 26; 255; 18; 15; 23; 22; 0; 0; 0].

Lemma termios_roundtrip_witness :
  let l' := darwin_to_linux_termios (linux_to_darwin_termios tty) in
  lc_iflag l' = Z.land 0x4500 (union_of l2d_iflag.*1) /\ lc_cflag l' = 0xbf /\ lc_lflag l' = 0x8a3b.
Proof.
  destruct (termios_roundtrip tty) as (Hi & _ & Hc & Hl & _).
  - apply (bool_decide_unpack _). vm_compute. exact I.
  - left. vm_compute. reflexivity.
  - split; [exact Hi|]. split; [rewrite Hc; vm_compute; reflexivity|rewrite Hl; vm_compute; reflexivity].
Defined.

Lemma sigset_roundtrip_witness :
  LINUX_SIGISMEMBER (darwin_to_linux_sigset (linux_to_darwin_sigset (2 ^ 64 - 1))) 10 = true /\
  LINUX_SIGISMEMBER (darwin_to_linux_sigset (linux_to_darwin_sigset (2 ^ 64 - 1))) 34 = false.
Proof.
  split; [rewrite (sigset_roundtrip (2 ^ 64 - 1) 10)|rewrite (sigset_roundtrip (2 ^ 64 - 1) 34)];
    try (vm_compute; reflexivity); unfold LINUX_SIGRTMAX; lia.
Defined.

Lemma open_flags_roundtrip_witness :
  darwin_to_linux_o_flags (linux_to_darwin_o_flags 0x241) = Some 0x241.
Proof.
  destruct (open_flags_roundtrip 0x241) as (E & _).
  - vm_compute. reflexivity.
  - vm_compute. discriminate.
  - rewrite E. vm_compute. reflexivity.
Defined.

End MacOS.
