(* ===== verification/Mm.v ===== *)
(** * Guest memory regions ([src/mm/mm.c], [include/mm.h])

    A [struct mm] links its regions twice: in a red-black tree ordered by
    guest address and in a doubly linked list.  Both hold pointers to the same
    [struct mm_region] objects, which the code mutates in place, so the regions
    live in a store indexed by pointer and the tree and the list hold pointers. *)

From S2P Require Import Prelude RBTree Errno.

Abbreviation ptr := positive.

(** [include/linux/mman.h] *)
Definition LINUX_PROT_READ : Z := 0x1.
Definition LINUX_PROT_WRITE : Z := 0x2.
Definition LINUX_PROT_EXEC : Z := 0x4.
Definition LINUX_MAP_SHARED : Z := 0x1.
Definition LINUX_MAP_PRIVATE : Z := 0x2.
Definition LINUX_MAP_FIXED : Z := 0x10.
Definition LINUX_MAP_ANON : Z := 0x20.
Definition LINUX_MAP_ANONYMOUS : Z := LINUX_MAP_ANON.
Definition LINUX_MAP_DENYWRITE : Z := 0x0800.
Definition LINUX_MAP_EXECUTABLE : Z := 0x1000.
Definition LINUX_MAP_NORESERVE : Z := 0x4000.
Definition LINUX_MAP_STACK : Z := 0x20000.
Definition LINUX_MAP_HUGETLB : Z := 0x40000.
Definition LINUX_MREMAP_MAYMOVE : Z := 1.
Definition LINUX_MREMAP_FIXED : Z := 2.
Definition LINUX_MS_ASYNC : Z := 1.
Definition LINUX_MS_SYNC : Z := 2.
Definition LINUX_MS_INVALIDATE : Z := 4.

Definition user_addr_max : Z := 0x0000007fc0000000.

(** [struct mm_region] without its links and [is_global], which no code reads. *)
Record mm_region := mk_region {
  haddr : Z;
  gaddr : Z;
  size : Z;
  prot : Z;
  mm_flags : Z;
  mm_fd : Z;
  pgoff : Z;
}.

(** [struct mm]; [heap] and [brkptr] are the allocator's view of the regions. *)
Record mm := mk_mm {
  mm_region_tree : rbtree ptr;
  mm_regions : list ptr;
  heap : gmap ptr mm_region;
  brkptr : ptr;
  start_brk : Z;
  current_brk : Z;
  current_mmap_top : Z;
}.

Definition set_tree (t : rbtree ptr) (m : mm) : mm :=
  mk_mm t (mm_regions m) (heap m) (brkptr m) (start_brk m) (current_brk m) (current_mmap_top m).
Definition set_list (l : list ptr) (m : mm) : mm :=
  mk_mm (mm_region_tree m) l (heap m) (brkptr m) (start_brk m) (current_brk m) (current_mmap_top m).
Definition set_heap (h : gmap ptr mm_region) (m : mm) : mm :=
  mk_mm (mm_region_tree m) (mm_regions m) h (brkptr m) (start_brk m) (current_brk m)
    (current_mmap_top m).
Definition set_current_brk (b : Z) (m : mm) : mm :=
  mk_mm (mm_region_tree m) (mm_regions m) (heap m) (brkptr m) (start_brk m) b (current_mmap_top m).
Definition set_start_brk (b : Z) (m : mm) : mm :=
  mk_mm (mm_region_tree m) (mm_regions m) (heap m) (brkptr m) b (current_brk m) (current_mmap_top m).
Definition set_mmap_top (b : Z) (m : mm) : mm :=
  mk_mm (mm_region_tree m) (mm_regions m) (heap m) (brkptr m) (start_brk m) (current_brk m) b.

Definition region_set_size (sz : Z) (r : mm_region) : mm_region :=
  mk_region (haddr r) (gaddr r) sz (prot r) (mm_flags r) (mm_fd r) (pgoff r).
Definition region_set_prot (p : Z) (r : mm_region) : mm_region :=
  mk_region (haddr r) (gaddr r) (size r) p (mm_flags r) (mm_fd r) (pgoff r).

(** ** Allocation and links *)

(** [malloc(sizeof(struct mm_region))] and the initialisation that follows it. *)
Definition malloc_region (r : mm_region) : M mm ptr := fun m =>
  Done (brkptr m)
    (mk_mm (mm_region_tree m) (mm_regions m) (<[brkptr m := r]> (heap m)) (Pos.succ (brkptr m))
       (start_brk m) (current_brk m) (current_mmap_top m)).

Definition region_at (x : ptr) : M mm mm_region := m ← get; deref (heap m !! x).
Definition region_upd (x : ptr) (r : mm_region) : M mm unit :=
  modify (fun m => set_heap (<[x := r]> (heap m)) m).
Definition free_region (x : ptr) : M mm unit :=
  modify (fun m => set_heap (delete x (heap m)) m).

(** [list_add(&new->list, &prev->list)]: [new] goes right behind [prev]. *)
Fixpoint list_add_after (new prev : ptr) (l : list ptr) : list ptr :=
  match l with
  | [] => []
  | y :: l => if decide (y = prev) then y :: new :: l else y :: list_add_after new prev l
  end.

(** [list_del] *)
Fixpoint list_del (x : ptr) (l : list ptr) : list ptr :=
  match l with
  | [] => []
  | y :: l => if decide (y = x) then l else y :: list_del x l
  end.

(** [x->list.next], [None] when it is the list head. *)
Fixpoint list_next (x : ptr) (l : list ptr) : option ptr :=
  match l with
  | [] => None
  | y :: l => if decide (y = x) then head l else list_next x l
  end.

(** ** Operations *)

Definition init_mm : mm := mk_mm Nil [] ∅ 1 0 0 0x00000000c0000000.

Definition region_compare (r1 r2 : mm_region) : Z :=
  if gaddr r1 >=? u64 (gaddr r2 + size r2) then 1
  else if u64 (gaddr r1 + size r1) <=? gaddr r2 then -1
  else 0.

(** A stack-allocated search key. *)
Definition key (ga sz : Z) : mm_region := mk_region 0 ga sz 0 0 0 0.

(** Comparison of a key with a region given by its pointer; the pointers of a
    tree are never dangling (see [mm_ok]). *)
Definition probe (h : gmap ptr mm_region) (k : mm_region) (y : ptr) : Z :=
  match h !! y with Some r => region_compare k r | None => 0 end.
Definition ptr_compare (h : gmap ptr mm_region) (x y : ptr) : Z :=
  match h !! x with Some r => probe h r y | None => 0 end.

Definition find_region (ga : Z) (m : mm) : option ptr :=
  RB_ELM (RB_FIND (probe (heap m) (key ga 1)) (mm_region_tree m)).

Definition is_Nil {A} (t : rbtree A) : bool := match t with Nil => true | _ => false end.

(** [while (RB_LEFT(leftmost) != NULL && region_compare(&find, RB_LEFT(leftmost)) == 0)] *)
Fixpoint leftmost_loop (h : gmap ptr mm_region) (k : mm_region) (leftmost : rbtree ptr) : option ptr :=
  match leftmost with
  | Nil => None
  | Node _ l x _ =>
    match RB_ELM l with
    | Some y => if probe h k y =? 0 then leftmost_loop h k l else Some x
    | None => Some x
    end
  end.

Definition find_region_range (ga sz : Z) (m : mm) : option ptr :=
  leftmost_loop (heap m) (key ga sz) (RB_FIND (probe (heap m) (key ga sz)) (mm_region_tree m)).

Definition split_region (x : ptr) (ga : Z) : M mm unit :=
  assert_ (is_page_aligned ga PAGE_4KB);;
  region ← region_at x;
  let offset := s32 (ga - gaddr region) in
  tail ← malloc_region (mk_region (u64 (haddr region + offset)) ga (u64 (size region - offset))
                          (prot region) (mm_flags region) (mm_fd region) (pgoff region));
  region_upd x (region_set_size (u64 offset) region);;
  m ← get;
  put (set_list (list_add_after tail x (mm_regions m)) m);;
  '(_, t) ← deref (RB_INSERT (ptr_compare (heap m)) tail (mm_region_tree m));
  modify (set_tree t).

Definition record_region (ha ga sz pr flags fd off : Z) : M mm ptr :=
  assert_ (negb (ga =? 0));;
  region ← malloc_region (mk_region ha ga sz pr flags fd off);
  m ← get;
  '(o, t) ← deref (RB_INSERT (ptr_compare (heap m)) region (mm_region_tree m));
  match o with
  | Some _ => halt Panic
  | None =>
    '(n, p) ← deref (locate region t []);
    let prev := RB_PREV n p in
    put (set_tree t (set_list (match prev with
                               | None => region :: mm_regions m
                               | Some pr => list_add_after region pr (mm_regions m)
                               end) m));;
    mret region
  end.

(** [list_del(&x->list); RB_REMOVE(mm_region_tree, &mm->mm_region_tree, x)] *)
Definition unlink_region (x : ptr) : M mm unit :=
  m ← get;
  put (set_list (list_del x (mm_regions m)) m);;
  t ← deref (RB_REMOVE x (mm_region_tree m));
  modify (set_tree t).

Definition is_region_private (r : mm_region) : bool :=
  negb (testf (mm_flags r) LINUX_MAP_SHARED) && (mm_fd r =? -1).

(** [guest_to_host] searches the process's regions, then the kernel's. *)
Definition guest_to_host (proc_mm vkern_mm : mm) (ga : Z) : option Z :=
  let host_of (m : mm) (x : ptr) := r ← heap m !! x; Some (u64 (haddr r + ga - gaddr r)) in
  match find_region ga proc_mm with
  | Some x => host_of proc_mm x
  | None =>
    match find_region ga vkern_mm with
    | Some x => host_of vkern_mm x
    | None => None
    end
  end.

(** [addr_ok] ([src/base.c]) *)
Definition addr_ok (m : mm) (addr access : Z) : bool :=
  if addr >=? user_addr_max then false
  else
    match (x ← find_region addr m; heap m !! x) with
    | None => false
    | Some r => negb (negb (clearf access (prot r) =? 0))
    end.

(** ** Specification *)

(** A region that does not wrap around and is made of whole pages. *)
Record reg_ok (r : mm_region) : Prop := {
  reg_gaddr : 0 < gaddr r;
  reg_size : 0 < size r;
  reg_end : gaddr r + size r < 2 ^ 64;
  reg_galign : gaddr r mod 4096 = 0;
  reg_salign : size r mod 4096 = 0;
}.

Definition below (r1 r2 : mm_region) : Prop := gaddr r1 + size r1 <= gaddr r2.
Definition contains (r : mm_region) (a : Z) : Prop := gaddr r <= a < gaddr r + size r.
Definition overlaps (k r : mm_region) : Prop :=
  gaddr k < gaddr r + size r /\ gaddr r < gaddr k + size k.

Definition ptr_below (h : gmap ptr mm_region) (x y : ptr) : Prop :=
  exists rx ry, h !! x = Some rx /\ h !! y = Some ry /\ below rx ry.

(** The invariant of [struct mm]: the tree is red-black, it and the list hold
    the same pointers in the same order, they are exactly the live region
    objects, and the regions are well formed, sorted and disjoint. *)
Record mm_ok (m : mm) : Prop := {
  ok_rb : is_rb (mm_region_tree m);
  ok_elements : elements (mm_region_tree m) = mm_regions m;
  ok_heap x : x ∈ mm_regions m <-> is_Some (heap m !! x);
  ok_fresh x : is_Some (heap m !! x) -> (x < brkptr m)%positive;
  ok_reg x r : heap m !! x = Some r -> reg_ok r;
  ok_sorted : StronglySorted (ptr_below (heap m)) (mm_regions m);
}.

(** What the guest sees at an address: host address, protection, flags, file. *)
Definition attr_at (r : mm_region) (a : Z) : Z * Z * Z * Z :=
  (u64 (haddr r + a - gaddr r), prot r, mm_flags r, mm_fd r).

(** The abstract address space of a [struct mm]. *)
Definition region_list (m : mm) : list mm_region := omap (fun x => heap m !! x) (mm_regions m).
Definition containsb (a : Z) (r : mm_region) : bool :=
  (gaddr r <=? a) && (a <? gaddr r + size r).
Definition aspace (m : mm) (a : Z) : option (Z * Z * Z * Z) :=
  r ← List.find (containsb a) (region_list m); Some (attr_at r a).

(** ** Facts *)

Lemma containsb_spec a r : containsb a r = true <-> contains r a.
Proof.
  unfold containsb, contains. rewrite andb_true_iff, Z.leb_le, Z.ltb_lt. tauto.
Qed.

Section Compare.
Implicit Types (k r : mm_region).

Definition key_ok k : Prop := 0 <= gaddr k /\ 0 <= size k /\ gaddr k + size k < 2 ^ 64.

Lemma reg_key_ok r : reg_ok r -> key_ok r.
Proof. intros []; unfold key_ok; lia. Qed.

Lemma region_compare_cases k r :
  key_ok k -> reg_ok r ->
  (region_compare k r = 1 /\ below r k) \/ (region_compare k r = -1 /\ below k r) \/
  (region_compare k r = 0 /\ overlaps k r).
Proof.
  intros (? & ? & ?) []. unfold region_compare, below, overlaps.
  rewrite !wrap_small by lia. zcases; lia.
Qed.

Lemma region_compare_overlap k r :
  key_ok k -> reg_ok r -> region_compare k r = 0 <-> overlaps k r.
Proof.
  intros Hk Hr. destruct (region_compare_cases k r Hk Hr) as [[-> ?]|[[-> ?]|[-> ?]]];
    unfold below, overlaps in *; destruct Hk, Hr; lia.
Qed.
End Compare.

Section Heap.
Context (h : gmap ptr mm_region).
Hypothesis Hreg : forall x r, h !! x = Some r -> reg_ok r.

Lemma probe_Probe k : key_ok k -> Probe (ptr_below h) (probe h k).
Proof.
  intros Hk. split; intros y z (ry & rz & Hy & Hz & Hb); unfold probe; rewrite Hy, Hz;
    pose proof (Hreg _ _ Hy) as Oy; pose proof (Hreg _ _ Hz) as Oz;
    destruct (region_compare_cases k ry Hk Oy) as [[-> ?]|[[-> ?]|[-> ?]]];
    destruct (region_compare_cases k rz Hk Oz) as [[-> ?]|[[-> ?]|[-> ?]]];
    unfold below, overlaps in *; destruct Hk, Oy, Oz; lia.
Qed.

Lemma ptr_below_irrefl x : ~ ptr_below h x x.
Proof.
  intros (r1 & r2 & H1 & H2 & Hb). rewrite H1 in H2. inv H2.
  destruct (Hreg _ _ H1). unfold below in Hb. lia.
Qed.

Lemma ptr_below_asym x y : ptr_below h x y -> ~ ptr_below h y x.
Proof.
  intros (rx & ry & Hx & Hy & Hb) (ry' & rx' & Hy' & Hx' & Hb'). simplify_eq.
  destruct (Hreg _ _ Hx), (Hreg _ _ Hy). unfold below in *. lia.
Qed.

(** The insertion point of a region is unique. *)
Lemma insert_point (l1 l2 k1 k2 : list ptr) x :
  l1 ++ l2 = k1 ++ k2 ->
  (forall z, z ∈ l1 -> ptr_below h z x) -> (forall z, z ∈ l2 -> ptr_below h x z) ->
  (forall z, z ∈ k1 -> ptr_below h z x) -> (forall z, z ∈ k2 -> ptr_below h x z) ->
  l1 = k1 /\ l2 = k2.
Proof.
  intros E H1 H2 K1 K2. apply (cut_unique (fun z => ptr_below h z x)); rewrite ?Forall_forall; auto.
  - intros z Hz. by apply ptr_below_asym, H2.
  - intros z Hz. by apply ptr_below_asym, K2.
Qed.

Lemma sorted_NoDup l : StronglySorted (ptr_below h) l -> NoDup l.
Proof.
  induction 1 as [|x l Hs IH Hf]; constructor; [|done].
  rewrite Forall_forall in Hf. intros Hin. by apply (ptr_below_irrefl x), Hf.
Qed.

(** Inserting a region object that the tree does not hold yet. *)
Lemma insert_region t x rx :
  is_rb t -> StronglySorted (ptr_below h) (elements t) ->
  (forall y, y ∈ elements t -> is_Some (h !! y)) -> h !! x = Some rx ->
  exists o t', RB_INSERT (ptr_compare h) x t = Some (o, t') /\ is_rb t' /\
  match o with
  | Some y => exists ry, y ∈ elements t /\ h !! y = Some ry /\ overlaps rx ry
  | None => exists l1 l2 : list ptr, elements t = l1 ++ l2 /\ elements t' = l1 ++ x :: l2 /\
      (forall z, z ∈ l1 -> ptr_below h z x) /\ (forall z, z ∈ l2 -> ptr_below h x z)
  end.
Proof.
  intros Hrb Hs Hin Hx. pose proof (Hreg _ _ Hx) as Ox. pose proof (reg_key_ok _ Ox) as Kx.
  assert (forall z rz, h !! z = Some rz -> ptr_compare h x z = region_compare rx rz) as Hcmp
    by (intros z rz Hz; unfold ptr_compare, probe; by rewrite Hx, Hz).
  assert (Probe (ptr_below h) (ptr_compare h x)) as HP.
  { unfold ptr_compare. rewrite Hx. by apply probe_Probe. }
  destruct (RB_INSERT_ok (ptr_below h) (ptr_compare h) x t HP Hrb Hs) as (o & t' & -> & Hrb' & Ho).
  exists o, t'. split_and!; [done..|]. destruct o as [y|].
  - destruct Ho as (-> & Hy & Hc). destruct (Hin _ Hy) as [ry Hry].
    rewrite (Hcmp _ _ Hry), region_compare_overlap in Hc by eauto. eauto.
  - destruct Ho as (l1 & l2 & E1 & E2 & H1 & H2). exists l1, l2. rewrite Forall_forall in H1, H2.
    split_and!; [done..| |]; intros z Hz;
      (destruct (Hin z) as [rz Hrz]; [rewrite E1; set_solver|]);
      [specialize (H1 _ Hz); rewrite (Hcmp _ _ Hrz) in H1 | specialize (H2 _ Hz); rewrite (Hcmp _ _ Hrz) in H2];
      destruct (region_compare_cases rx rz Kx (Hreg _ _ Hrz)) as [[E ?]|[[E ?]|[E ?]]];
      rewrite E in *; try lia; do 2 eexists; eauto.
Qed.

End Heap.

Section Ok.
Context (m : mm) (Hm : mm_ok m).

Lemma ok_in_heap x : x ∈ elements (mm_region_tree m) -> is_Some (heap m !! x).
Proof. rewrite (ok_elements _ Hm). apply ok_heap; done. Qed.

Lemma ok_sorted_tree : StronglySorted (ptr_below (heap m)) (elements (mm_region_tree m)).
Proof. rewrite (ok_elements _ Hm). apply ok_sorted; done. Qed.

Lemma ok_NoDup : NoDup (mm_regions m).
Proof. eapply sorted_NoDup; [apply (ok_reg _ Hm)|apply (ok_sorted _ Hm)]. Qed.

(** Distinct live regions are disjoint. *)
Lemma ok_disjoint x y rx ry :
  heap m !! x = Some rx -> heap m !! y = Some ry -> x <> y -> below rx ry \/ below ry rx.
Proof.
  intros Hx Hy Hne.
  assert (x ∈ mm_regions m /\ y ∈ mm_regions m) as [Ix Iy] by (split; apply (ok_heap _ Hm); eauto).
  pose proof (ok_sorted _ Hm) as Hs.
  apply list_elem_of_split in Ix as (l1 & l2 & E). rewrite E in Iy, Hs.
  destruct (sorted_split _ _ _ _ Hs) as (_ & _ & H1 & H2).
  rewrite elem_of_app, elem_of_cons in Iy. destruct Iy as [Hin|[->|Hin]]; [|done|].
  - destruct (H1 _ Hin) as (? & ? & Hy' & Hx' & ?). right. congruence.
  - destruct (H2 _ Hin) as (? & ? & Hx' & Hy' & ?). left. congruence.
Qed.

Lemma ok_contains_inj x y rx ry a :
  heap m !! x = Some rx -> heap m !! y = Some ry -> contains rx a -> contains ry a -> x = y.
Proof.
  intros Hx Hy Ca Cb. destruct (decide (x = y)) as [|Hne]; [done|].
  destruct (ok_disjoint _ _ _ _ Hx Hy Hne); unfold contains, below in *; lia.
Qed.

Lemma region_list_elem r : r ∈ region_list m <-> exists x, heap m !! x = Some r.
Proof.
  unfold region_list. rewrite list_elem_of_omap. split.
  - intros (x & _ & Hx). eauto.
  - intros [x Hx]. exists x. split; [|done]. apply (ok_heap _ Hm). eauto.
Qed.

(** The address space is determined by the live regions. *)
Lemma aspace_Some a p :
  aspace m a = Some p <-> exists x r, heap m !! x = Some r /\ contains r a /\ p = attr_at r a.
Proof.
  unfold aspace. destruct (List.find (containsb a) (region_list m)) as [r|] eqn:E; simpl.
  - apply find_some in E as [Hin Hc]. rewrite <- list_elem_of_In, region_list_elem in Hin.
    rewrite containsb_spec in Hc. destruct Hin as [x Hx]. split.
    + intros [= <-]. eauto 10.
    + intros (y & r' & Hy & Hc' & ->).
      assert (x = y) as -> by (by eapply ok_contains_inj). congruence.
  - split; [done|]. intros (x & r & Hx & Hc & ->).
    assert (r ∈ region_list m) as Hin by (apply region_list_elem; eauto).
    rewrite list_elem_of_In in Hin. eapply find_none in Hin; [|exact E].
    rewrite <- containsb_spec in Hc. congruence.
Qed.

Lemma aspace_in x r a : heap m !! x = Some r -> contains r a -> aspace m a = Some (attr_at r a).
Proof. intros. apply aspace_Some. eauto. Qed.

Lemma aspace_None a :
  aspace m a = None <-> forall x r, heap m !! x = Some r -> ~ contains r a.
Proof.
  split.
  - intros E x r Hx Hc. rewrite (aspace_in _ _ _ Hx Hc) in E. done.
  - intros H. destruct (aspace m a) as [p|] eqn:E; [|done].
    apply aspace_Some in E as (x & r & Hx & Hc & _). by apply H in Hx.
Qed.

(** [find_region] returns the region that holds an address, if there is one. *)
Lemma find_region_spec a :
  0 <= a < 2 ^ 64 - 1 ->
  match find_region a m with
  | Some x => exists r, heap m !! x = Some r /\ contains r a
  | None => forall x r, heap m !! x = Some r -> ~ contains r a
  end.
Proof.
  intros Ha. assert (key_ok (key a 1)) as Hk by (unfold key_ok; simpl; lia).
  pose proof (probe_Probe _ (ok_reg _ Hm) _ Hk) as HP.
  pose proof (RB_FIND_ok _ _ (mm_region_tree m) [] ok_sorted_tree) as Hf.
  unfold find_region.
  destruct (RB_FIND _ _) as [|c l y r]; simpl in *.
  - intros x rx Hx Hc. specialize (Hf (Forall_nil_2 _) (Forall_nil_2 _)). rewrite Forall_forall in Hf.
    apply (Hf x).
    + rewrite (ok_elements _ Hm). apply (ok_heap _ Hm). eauto.
    + unfold probe. rewrite Hx. apply region_compare_overlap; [done|by eapply ok_reg|].
      unfold overlaps, contains in *. simpl. lia.
  - destruct Hf as [Hy (q & Hq & _)]; [done|done|].
    destruct (ok_in_heap y) as [ry Hry]; [rewrite <- Hq, elements_plug; set_solver|].
    exists ry. split; [done|]. unfold probe in Hy. rewrite Hry in Hy.
    apply region_compare_overlap in Hy; [|done|by eapply ok_reg].
    unfold overlaps, contains in *. simpl in *. lia.
Qed.

(** [find_region_range] returns a region that overlaps the range, or none does. *)
Lemma leftmost_loop_ok k t :
  (forall y, y ∈ elements t -> is_Some (heap m !! y)) ->
  match t with Nil => True | Node _ _ y _ => probe (heap m) k y = 0 end ->
  match leftmost_loop (heap m) k t with
  | Some x => x ∈ elements t /\ probe (heap m) k x = 0
  | None => t = Nil
  end.
Proof.
  induction t as [|c l IH x r _]; [done|]. intros Hin H0.
  assert (forall y, y ∈ elements l -> is_Some (heap m !! y)) as Hl
    by (intros; apply Hin; simpl; set_solver).
  specialize (IH Hl). destruct l as [|lc ll y lr]; [simpl; split; [set_solver|done]|].
  change (leftmost_loop (heap m) k (Node c (Node lc ll y lr) x r)) with
    (if probe (heap m) k y =? 0 then leftmost_loop (heap m) k (Node lc ll y lr) else Some x).
  destruct (Z.eqb_spec (probe (heap m) k y) 0) as [e|]; [|split; [simpl; set_solver|done]].
  specialize (IH e). destruct (leftmost_loop _ _ _) as [z|]; [|done].
  destruct IH as [IH1 IH2]. split; [|done]. simpl in *. set_solver.
Qed.

Lemma find_region_range_spec a n :
  0 <= a -> 0 <= n -> a + n < 2 ^ 64 ->
  match find_region_range a n m with
  | Some x => exists r, heap m !! x = Some r /\ overlaps (key a n) r
  | None => forall x r, heap m !! x = Some r -> ~ overlaps (key a n) r
  end.
Proof.
  intros Ha Hn Hb. assert (key_ok (key a n)) as Hk by (unfold key_ok; simpl; lia).
  pose proof (probe_Probe _ (ok_reg _ Hm) _ Hk) as HP.
  pose proof (RB_FIND_ok _ _ (mm_region_tree m) [] ok_sorted_tree (Forall_nil_2 _) (Forall_nil_2 _)) as Hf.
  unfold find_region_range. set (t := RB_FIND _ _) in *.
  pose proof (leftmost_loop_ok (key a n) t) as Hl.
  destruct t as [|c l y r] eqn:Et.
  - simpl. intros x rx Hx Ho. rewrite Forall_forall in Hf. apply (Hf x).
    + rewrite (ok_elements _ Hm). apply (ok_heap _ Hm). eauto.
    + unfold probe. rewrite Hx. apply region_compare_overlap; [done|by eapply ok_reg|done].
  - destruct Hf as [Hy (q & Hq & _)].
    assert (forall z, z ∈ elements (Node c l y r) -> is_Some (heap m !! z)) as Hin
      by (intros z Hz; apply ok_in_heap; change (plug (mm_region_tree m) []) with (mm_region_tree m) in Hq;
          rewrite <- Hq, elements_plug; set_solver).
    specialize (Hl Hin Hy). destruct (leftmost_loop _ _ _) as [x|]; [|done].
    destruct Hl as [Hx Hp]. destruct (Hin _ Hx) as [rx Hrx]. exists rx. split; [done|].
    unfold probe in Hp. rewrite Hrx in Hp. apply region_compare_overlap in Hp; [done|done|by eapply ok_reg].
Qed.

End Ok.

(** ** Links *)

Lemma list_add_after_split new x l1 l2 :
  x ∉ l1 -> list_add_after new x (l1 ++ x :: l2) = l1 ++ x :: new :: l2.
Proof.
  induction l1 as [|y l1 IH]; simpl; intros Hn; [by rewrite decide_True|].
  rewrite decide_False by set_solver. rewrite IH; set_solver.
Qed.

Lemma list_del_split x l1 l2 : x ∉ l1 -> list_del x (l1 ++ x :: l2) = l1 ++ l2.
Proof.
  induction l1 as [|y l1 IH]; simpl; intros Hn; [by rewrite decide_True|].
  rewrite decide_False by set_solver. rewrite IH; set_solver.
Qed.

Lemma list_next_split x l1 l2 : x ∉ l1 -> list_next x (l1 ++ x :: l2) = head l2.
Proof.
  induction l1 as [|y l1 IH]; simpl; intros Hn; [by rewrite decide_True|].
  rewrite decide_False by set_solver. apply IH; set_solver.
Qed.

Lemma NoDup_mid (l1 l2 : list ptr) x : NoDup (l1 ++ x :: l2) -> x ∉ l1 /\ x ∉ l2.
Proof. rewrite NoDup_app, NoDup_cons. set_solver. Qed.

(** The position of a live region in the list. *)
Lemma ok_position m x r :
  mm_ok m -> heap m !! x = Some r ->
  exists l1 l2, mm_regions m = l1 ++ x :: l2 /\ x ∉ l1 /\ x ∉ l2.
Proof.
  intros Hm Hx. assert (x ∈ mm_regions m) as Hin by (apply (ok_heap _ Hm); eauto).
  apply list_elem_of_split in Hin as (l1 & l2 & E). exists l1, l2. split; [done|].
  apply NoDup_mid. rewrite <- E. by apply ok_NoDup.
Qed.

Lemma fresh_None m : mm_ok m -> heap m !! brkptr m = None.
Proof.
  intros Hm. apply eq_None_not_Some. intros Hs. apply (ok_fresh _ Hm) in Hs. lia.
Qed.

(** ** [split_region] *)

Definition tail_of (r : mm_region) (ga : Z) : mm_region :=
  mk_region (u64 (haddr r + (ga - gaddr r))) ga (size r - (ga - gaddr r))
    (prot r) (mm_flags r) (mm_fd r) (pgoff r).
Definition head_of (r : mm_region) (ga : Z) : mm_region := region_set_size (ga - gaddr r) r.

Lemma tail_of_ok r ga :
  reg_ok r -> gaddr r < ga < gaddr r + size r -> ga mod 4096 = 0 -> reg_ok (tail_of r ga).
Proof.
  intros [] Hg Ha. constructor; simpl; try lia.
  rewrite Zminus_mod, (Zminus_mod ga), Ha, reg_galign0, reg_salign0. done.
Qed.

Lemma head_of_ok r ga :
  reg_ok r -> gaddr r < ga < gaddr r + size r -> ga mod 4096 = 0 -> reg_ok (head_of r ga).
Proof.
  intros [] Hg Ha. constructor; simpl; try lia.
  rewrite Zminus_mod, Ha, reg_galign0. done.
Qed.

Lemma attr_tail r ga a : attr_at (tail_of r ga) a = attr_at r a.
Proof.
  unfold attr_at, tail_of; simpl.
  replace (u64 (haddr r + (ga - gaddr r)) + a - ga) with (u64 (haddr r + (ga - gaddr r)) + (a - ga)) by lia.
  rewrite wrap_add_l. do 4 f_equal. lia.
Qed.

(** The state after a split at [ga]. *)
Definition split_heap (m : mm) (x : ptr) (r : mm_region) (ga : Z) : gmap ptr mm_region :=
  <[x := head_of r ga]> (<[brkptr m := tail_of r ga]> (heap m)).

(** Relation of a split heap to the old one, in terms of sortedness. *)
Section Split.
Context (m : mm) (x : ptr) (r : mm_region) (ga : Z).
Hypothesis Hm : mm_ok m.
Hypothesis Hx : heap m !! x = Some r.
Hypothesis Hga : gaddr r < ga < gaddr r + size r.
Hypothesis Hal : ga mod 4096 = 0.

Let h' := split_heap m x r ga.

Lemma fresh_ne y : is_Some (heap m !! y) -> y <> brkptr m.
Proof using Hm. intros H ->. apply (ok_fresh _ Hm) in H. lia. Qed.

Lemma split_heap_x : h' !! x = Some (head_of r ga).
Proof. unfold h', split_heap. by rewrite lookup_insert_eq. Qed.

Lemma split_heap_tail : h' !! brkptr m = Some (tail_of r ga).
Proof using Hm Hx.
  unfold h', split_heap. rewrite lookup_insert_ne, lookup_insert_eq; [done|].
  apply fresh_ne. eauto.
Qed.

Lemma split_heap_other y : y <> x -> y <> brkptr m -> h' !! y = heap m !! y.
Proof. intros. unfold h', split_heap. by rewrite !lookup_insert_ne. Qed.

Lemma split_heap_ok y ry : h' !! y = Some ry -> reg_ok ry.
Proof using Hm Hx Hga Hal.
  pose proof (ok_reg _ Hm _ _ Hx).
  unfold h', split_heap. rewrite !lookup_insert.
  repeat case_decide; intros; simplify_eq; eauto using head_of_ok, tail_of_ok, ok_reg.
Qed.

Lemma split_below y z : y <> brkptr m -> z <> brkptr m -> ptr_below (heap m) y z -> ptr_below h' y z.
Proof using Hm Hx Hga Hal.
  intros Hy Hz (ry & rz & Ey & Ez & Hb).
  destruct (decide (y = x)) as [->|]; destruct (decide (z = x)) as [->|].
  - exfalso. apply (ptr_below_irrefl _ (ok_reg _ Hm) x). by exists ry, rz.
  - exists (head_of r ga), rz. rewrite split_heap_x, split_heap_other by done.
    split_and!; [done..|]. unfold below in *. simpl. simplify_eq. lia.
  - exists ry, (head_of r ga). rewrite split_heap_x, split_heap_other by done.
    split_and!; [done..|]. unfold below in *. simpl. by simplify_eq.
  - exists ry, rz. by rewrite !split_heap_other by done.
Qed.

Lemma split_sorted : StronglySorted (ptr_below h') (mm_regions m).
Proof using Hm Hx Hga Hal.
  eapply sorted_impl; [|apply (ok_sorted _ Hm)]. intros y z Hy Hz.
  apply split_below; apply fresh_ne; by apply (ok_heap _ Hm).
Qed.

Lemma split_points l1 l2 :
  mm_regions m = l1 ++ x :: l2 ->
  (forall z, z ∈ l1 ++ [x] -> ptr_below h' z (brkptr m)) /\
  (forall z, z ∈ l2 -> ptr_below h' (brkptr m) z).
Proof using Hm Hx Hga Hal.
  intros El. pose proof (ok_sorted _ Hm) as Hs. rewrite El in Hs.
  destruct (sorted_split _ _ _ _ Hs) as (_ & _ & H1 & H2).
  assert (x ∉ l1 /\ x ∉ l2) as [N1 N2] by (apply NoDup_mid; rewrite <- El; by apply ok_NoDup).
  split; intros z Hz.
  - apply elem_of_app in Hz as [Hz|Hz].
    + destruct (H1 _ Hz) as (rz & r' & Ez & Ex & Hb). exists rz, (tail_of r ga).
      rewrite split_heap_tail, split_heap_other by (first [set_solver | apply fresh_ne; eauto]).
      split_and!; [done..|]. simplify_eq. unfold below in *. simpl. lia.
    + apply list_elem_of_singleton in Hz as ->. exists (head_of r ga), (tail_of r ga).
      rewrite split_heap_tail, split_heap_x. split_and!; [done..|]. unfold below. simpl. lia.
  - destruct (H2 _ Hz) as (r' & rz & Ex & Ez & Hb). exists (tail_of r ga), rz.
    rewrite split_heap_tail, split_heap_other by (first [set_solver | apply fresh_ne; eauto]).
    split_and!; [done..|]. simplify_eq. unfold below in *. simpl. lia.
Qed.

End Split.

Lemma split_region_ok m x r ga :
  mm_ok m -> heap m !! x = Some r -> gaddr r < ga < gaddr r + size r -> ga mod 4096 = 0 ->
  ga - gaddr r < 2 ^ 31 ->
  exists m', split_region x ga m = Done tt m' /\ mm_ok m' /\
    heap m' = split_heap m x r ga /\
    mm_regions m' = list_add_after (brkptr m) x (mm_regions m) /\
    brkptr m' = Pos.succ (brkptr m) /\ start_brk m' = start_brk m /\
    current_brk m' = current_brk m /\ current_mmap_top m' = current_mmap_top m.
Proof.
  intros Hm Hx Hga Hal Hlt. pose proof (ok_reg _ Hm _ _ Hx) as Or. destruct Or as [R1 R2 R3 R4 R5].
  destruct (ok_position _ _ _ Hm Hx) as (l1 & l2 & El & Hn1 & Hn2).
  pose proof (split_heap_ok m x r ga Hm Hx Hga Hal) as Hok.
  pose proof (split_sorted m x r ga Hm Hx Hga Hal) as Hs.
  assert (is_Some (heap m !! x)) as Hsx by eauto.
  pose proof (fresh_ne _ Hm) as Hfr.
  destruct (insert_region _ Hok (mm_region_tree m) (brkptr m) (tail_of r ga))
    as (o & t' & Hins & Hrb' & Ho).
  { apply (ok_rb _ Hm). } { by rewrite (ok_elements _ Hm). }
  { intros y Hy. apply (ok_in_heap _ Hm) in Hy. unfold split_heap.
    rewrite !lookup_insert. repeat case_decide; eauto. }
  { by apply split_heap_tail. }
  assert (forall y ry, y <> x -> heap m !! y = Some ry -> below ry r \/ below r ry) as Hdis
    by (intros; eapply ok_disjoint; eauto).
  destruct o as [y|].
  { exfalso. destruct Ho as (ry & Hy & Hry & Hov). unfold overlaps in Hov. simpl in Hov.
    destruct (decide (y = x)) as [->|Hne].
    - rewrite split_heap_x in Hry. simplify_eq. simpl in Hov. lia.
    - rewrite split_heap_other in Hry by (try done; apply Hfr, (ok_in_heap _ Hm); done).
      destruct (Hdis y ry) as [?|?]; try done; unfold below in *; destruct (ok_reg _ Hm _ _ Hry); lia. }
  destruct Ho as (k1 & k2 & E1 & E2 & K1 & K2).
  destruct (split_points m x r ga Hm Hx Hga Hal _ _ El) as [P1 P2].
  destruct (insert_point _ Hok (l1 ++ [x]) l2 k1 k2 (brkptr m)) as [<- <-]; try done.
  { rewrite <- E1, (ok_elements _ Hm), El, <- app_assoc. done. }
  unfold split_region, assert_. rewrite (proj2 (is_page_aligned_spec ga)) by done.
  unfold region_at, mbind, M_bind, mret, M_ret, get, deref. rewrite Hx. simpl.
  rewrite (swrap_small 32), (wrap_small 64 (size r - _)), (wrap_small 64 (ga - _)) by lia.
  change (mk_region _ ga _ _ _ _ _) with (tail_of r ga).
  change (region_set_size _ r) with (head_of r ga).
  unfold region_upd, modify, put; simpl. fold (split_heap m x r ga). rewrite Hins.
  eexists; split; [done|]. split_and!; [|done..].
  rewrite El, list_add_after_split by done.
  constructor; simpl; [done| | | |done|].
  - rewrite E2, <- app_assoc. done.
  - intros y. unfold split_heap. rewrite !lookup_insert.
    pose proof (ok_heap _ Hm y) as Hy. rewrite El in Hy.
    repeat case_decide; subst; split; intros; eauto; set_solver.
  - intros y. unfold split_heap. rewrite !lookup_insert.
    pose proof (ok_fresh _ Hm y) as Hy. pose proof (ok_fresh _ Hm x Hsx) as Hxf.
    repeat case_decide; subst; intros; [lia|lia|]. apply Pos.lt_lt_succ. eauto.
  - rewrite cons_middle, app_assoc. apply sorted_insert; [|done..].
    rewrite <- app_assoc. simpl. by rewrite <- El.
Qed.

(** ** Effect on the address space *)

Lemma aspace_ext m m' a b :
  mm_ok m -> mm_ok m' ->
  (forall p, (exists x r, heap m !! x = Some r /\ contains r a /\ p = attr_at r a) <->
             (exists x r, heap m' !! x = Some r /\ contains r b /\ p = attr_at r b)) ->
  aspace m a = aspace m' b.
Proof.
  intros Hm Hm' H. apply option_eq. intros p. rewrite !aspace_Some by done. apply H.
Qed.

Lemma split_aspace m m' x r ga a :
  mm_ok m -> mm_ok m' -> heap m !! x = Some r -> gaddr r < ga < gaddr r + size r ->
  heap m' = split_heap m x r ga -> aspace m' a = aspace m a.
Proof.
  intros Hm Hm' Hx Hga Hh. apply aspace_ext; [done..|]. intros p. rewrite Hh. split.
  - intros (y & ry & Hy & Hc & ->). unfold split_heap in Hy. rewrite !lookup_insert in Hy.
    unfold contains in *. repeat case_decide; simplify_eq; simpl in *.
    + exists y, r. split_and!; [done|lia|lia|done].
    + exists x, r. rewrite attr_tail. split_and!; [done|lia|lia|done].
    + eauto 10.
  - intros (y & ry & Hy & Hc & ->). destruct (decide (y = x)) as [->|Hne].
    + assert (ry = r) as -> by congruence. unfold contains in Hc. destruct (Z.lt_ge_cases a ga).
      * exists x, (head_of r ga). rewrite split_heap_x. unfold contains; simpl. split_and!; [done|lia|lia|done].
      * exists (brkptr m), (tail_of r ga). rewrite split_heap_tail, attr_tail by done.
        unfold contains; simpl. split_and!; [done|lia|lia|done].
    + exists y, ry. rewrite split_heap_other; [done..|]. apply fresh_ne; eauto.
Qed.

(** ** [record_region] *)

Section Record.
Context (m : mm) (Hm : mm_ok m) (rn : mm_region).

(** The store after the allocation of the new region object. *)
Let h' := <[brkptr m := rn]> (heap m).

Lemma record_heap_old y : is_Some (heap m !! y) -> h' !! y = heap m !! y.
Proof using Hm. intros. unfold h'. rewrite lookup_insert_ne; [done|]. by apply not_eq_sym, fresh_ne. Qed.

Lemma record_sorted : StronglySorted (ptr_below h') (mm_regions m).
Proof using Hm.
  eapply sorted_impl; [|apply (ok_sorted _ Hm)]. intros y z _ _ (ry & rz & Hy & Hz & Hb).
  exists ry, rz. by rewrite !record_heap_old by eauto.
Qed.

Lemma record_heap_ok y ry : reg_ok rn -> h' !! y = Some ry -> reg_ok ry.
Proof using Hm.
  unfold h'. rewrite lookup_insert. case_decide; intros; simplify_eq; eauto using ok_reg.
Qed.
End Record.

(** [RB_PREV] of a freshly inserted pointer gives its place in the list. *)
Lemma link_after_prev t x (l1 l2 : list ptr) :
  elements t = l1 ++ x :: l2 -> NoDup (l1 ++ x :: l2) ->
  exists n p, locate x t [] = Some (n, p) /\
    match RB_PREV n p with
    | None => x :: l1 ++ l2
    | Some pr => list_add_after x pr (l1 ++ l2)
    end = l1 ++ x :: l2.
Proof.
  intros E Hnd. pose proof (locate_ok x t []) as Hl.
  destruct (locate x t []) as [[n p]|]; [|rewrite E in Hl; set_solver].
  destruct Hl as (c & l & r & -> & Hp). simpl in Hp. exists (Node c l x r), p. split; [done|].
  rewrite RB_PREV_ok. destruct (NoDup_mid _ _ _ Hnd) as [N1 N2].
  assert (before p ++ elements l = l1) as ->.
  { rewrite <- Hp, elements_plug in E. simpl in E.
    rewrite <- E, <- (app_assoc (elements l)), (app_assoc (before p)) in Hnd.
    rewrite <- (app_assoc (elements l)), (app_assoc (before p)) in E. simpl in *.
    apply NoDup_mid in Hnd as [? _]. by destruct (app_cons_inj _ _ _ _ _ E) as [? _]. }
  destruct (last l1) as [pr|] eqn:El.
  - apply last_Some in El as [l1' ->]. rewrite <- app_assoc in Hnd. simpl in Hnd.
    apply NoDup_mid in Hnd as [Hpr _]. rewrite <- !app_assoc. simpl. by apply list_add_after_split.
  - apply last_None in El as ->. done.
Qed.

(** A region disjoint from all others is linked in at its place; an
    overlapping one makes the process panic. *)
Lemma record_region_ok m ha ga sz pr flags fd off :
  let rn := mk_region ha ga sz pr flags fd off in
  mm_ok m -> reg_ok rn ->
  (forall x r, heap m !! x = Some r -> ~ overlaps rn r) ->
  exists m', record_region ha ga sz pr flags fd off m = Done (brkptr m) m' /\ mm_ok m' /\
    heap m' = <[brkptr m := rn]> (heap m) /\ brkptr m' = Pos.succ (brkptr m) /\
    start_brk m' = start_brk m /\ current_brk m' = current_brk m /\
    current_mmap_top m' = current_mmap_top m.
Proof.
  intros rn Hm Hrn Hdis. pose proof (record_sorted m Hm rn) as Hs.
  pose proof (fun y ry => record_heap_ok m Hm rn y ry Hrn) as Hok.
  set (h' := <[brkptr m := rn]> (heap m)) in *. set (x := brkptr m) in *.
  assert (x ∉ mm_regions m) as Hxn.
  { intros Hin. apply (ok_heap _ Hm), (ok_fresh _ Hm) in Hin. unfold x in Hin. lia. }
  assert (h' !! x = Some rn) as Hx by apply lookup_insert_eq.
  destruct (insert_region _ Hok (mm_region_tree m) x rn) as (o & t' & Hins & Hrb' & Ho);
    [apply (ok_rb _ Hm)|by rewrite (ok_elements _ Hm)| |done|].
  { intros y Hy. apply (ok_in_heap _ Hm) in Hy. unfold h', x. by rewrite record_heap_old. }
  destruct o as [y|].
  { exfalso. destruct Ho as (ry & Hy & Hry & Hov). apply (ok_in_heap _ Hm) in Hy.
    unfold h', x in Hry. rewrite record_heap_old in Hry by done. by eapply Hdis. }
  destruct Ho as (l1 & l2 & E1 & E2 & K1 & K2). rewrite (ok_elements _ Hm) in E1.
  assert (StronglySorted (ptr_below h') (l1 ++ x :: l2)) as Hs'
    by (apply sorted_insert; [by rewrite <- E1|done..]).
  destruct (link_after_prev t' x l1 l2 E2) as (n & p & Hloc & Hprev); [by eapply sorted_NoDup|].
  unfold record_region, assert_. destruct (Z.eqb_spec ga 0); [destruct Hrn; simpl in *; lia|].
  unfold mbind, M_bind, mret, M_ret, get, deref, put; simpl. fold x rn h'. rewrite Hins. msimp. rewrite Hloc.
  eexists; split; [done|]. split_and!; [|done..]. rewrite E1, Hprev.
  constructor; simpl; [done..| | |exact Hok|done].
  - intros y. unfold h'. rewrite lookup_insert. pose proof (ok_heap _ Hm y) as Hy. rewrite E1 in Hy.
    case_decide; subst; split; intros; eauto; set_solver.
  - intros y. unfold h'. rewrite lookup_insert. pose proof (ok_fresh _ Hm y) as Hy.
    case_decide; subst; intros; [unfold x; lia|]. apply Pos.lt_lt_succ. eauto.
Qed.

Lemma record_region_overlap m ha ga sz pr flags fd off x r :
  let rn := mk_region ha ga sz pr flags fd off in
  mm_ok m -> reg_ok rn -> heap m !! x = Some r -> overlaps rn r ->
  exists m', record_region ha ga sz pr flags fd off m = Stop Panic m'.
Proof.
  intros rn Hm Hrn Hx Hov. pose proof (record_sorted m Hm rn) as Hs.
  pose proof (fun y ry => record_heap_ok m Hm rn y ry Hrn) as Hok.
  assert (is_Some (heap m !! x)) as Hsx by eauto.
  destruct (insert_region _ Hok (mm_region_tree m) (brkptr m) rn) as (o & t' & Hins & Hrb' & Ho);
    [apply (ok_rb _ Hm)|by rewrite (ok_elements _ Hm)| |apply lookup_insert_eq|].
  { intros y Hy. apply (ok_in_heap _ Hm) in Hy. by rewrite record_heap_old. }
  unfold record_region, assert_. destruct (Z.eqb_spec ga 0); [destruct Hrn; simpl in *; lia|].
  unfold mbind, M_bind, mret, M_ret, get, deref, put; simpl. fold rn. rewrite Hins.
  destruct o; [by eexists|]. exfalso. destruct Ho as (l1 & l2 & E1 & _ & K1 & K2).
  assert (x ∈ l1 ++ l2) as Hin by (rewrite <- E1, (ok_elements _ Hm); by apply (ok_heap _ Hm)).
  assert (forall r1, <[brkptr m:=rn]> (heap m) !! x = Some r1 -> r1 = r) as Hr.
  { intros r1. rewrite record_heap_old by done. congruence. }
  destruct Hrn, (ok_reg _ Hm _ _ Hx). unfold overlaps in Hov. simpl in *.
  apply elem_of_app in Hin as [Hin|Hin]; [destruct (K1 _ Hin) as (r1 & r2 & A1 & A2 & B)
                                         |destruct (K2 _ Hin) as (r2 & r1 & A2 & A1 & B)];
    rewrite lookup_insert_eq in A2; apply Hr in A1; simplify_eq; unfold below in B; simpl in *; lia.
Qed.

Lemma record_aspace m m' x rn a :
  mm_ok m -> mm_ok m' -> heap m !! x = None -> heap m' = <[x := rn]> (heap m) ->
  aspace m' a = if containsb a rn then Some (attr_at rn a) else aspace m a.
Proof.
  intros Hm Hm' Hx Hh. destruct (containsb a rn) eqn:E.
  - apply (aspace_in _ Hm' x); [rewrite Hh; apply lookup_insert_eq|by apply containsb_spec].
  - assert (~ contains rn a) as Hnc by (rewrite <- containsb_spec, E; done).
    apply aspace_ext; [done..|]. intros p. rewrite Hh. split.
    + intros (y & ry & Hy & Hc & ->). rewrite lookup_insert in Hy.
      case_decide; simplify_eq; [done|eauto 10].
    + intros (y & ry & Hy & Hc & ->). exists y, ry. rewrite lookup_insert_ne by congruence. done.
Qed.

(** ** Unlinking and freeing *)

Lemma unlink_region_ok m x r :
  mm_ok m -> heap m !! x = Some r ->
  exists m', unlink_region x m = Done tt m' /\ mm_ok (set_heap (delete x (heap m')) m') /\
    heap m' = heap m /\ mm_regions m' = list_del x (mm_regions m) /\ brkptr m' = brkptr m /\
    start_brk m' = start_brk m /\ current_brk m' = current_brk m /\
    current_mmap_top m' = current_mmap_top m.
Proof.
  intros Hm Hx. destruct (ok_position _ _ _ Hm Hx) as (l1 & l2 & El & N1 & N2).
  destruct (RB_REMOVE_ok x (mm_region_tree m) (ok_rb _ Hm)) as (t' & k1 & k2 & Hr & Hrb & E1 & E2).
  { rewrite (ok_elements _ Hm), El. set_solver. }
  rewrite (ok_elements _ Hm), El in E1.
  assert (l1 = k1 /\ l2 = k2) as [<- <-].
  { pose proof (ok_NoDup _ Hm) as Hnd. rewrite El, E1 in Hnd. apply NoDup_mid in Hnd as [? _].
    by apply (app_cons_inj _ _ _ _ x). }
  unfold unlink_region, mbind, M_bind, get, put, deref, mret, M_ret. rewrite Hr.
  eexists; split; [done|]. split_and!; [|done..]. rewrite El, list_del_split by done.
  pose proof (ok_sorted _ Hm) as Hs. rewrite El in Hs.
  constructor; simpl; [done..| | | |].
  - intros y. rewrite lookup_delete. pose proof (ok_heap _ Hm y) as Hy. rewrite El in Hy.
    case_decide; subst; [|set_solver]. rewrite is_Some_alt. set_solver.
  - intros y. rewrite lookup_delete. case_decide; [by intros []|]. apply (ok_fresh _ Hm).
  - intros y ry. rewrite lookup_delete. case_decide; [done|]. apply (ok_reg _ Hm).
  - eapply sorted_impl; [|eapply sorted_delete; exact Hs].
    intros y z Hy Hz (ry & rz & Ey & Ez & Hb). exists ry, rz.
    by rewrite !lookup_delete_ne by set_solver.
Qed.

Lemma delete_aspace m m' x r a :
  mm_ok m -> mm_ok m' -> heap m !! x = Some r -> heap m' = delete x (heap m) ->
  aspace m' a = if containsb a r then None else aspace m a.
Proof.
  intros Hm Hm' Hx Hh. destruct (containsb a r) eqn:E.
  - apply containsb_spec in E. apply aspace_None; [done|]. intros y ry Hy Hc. rewrite Hh in Hy.
    rewrite lookup_delete in Hy. case_decide as Hne; [done|].
    apply Hne. exact (ok_contains_inj m Hm _ _ _ _ _ Hx Hy E Hc).
  - assert (~ contains r a) as Hnc by (rewrite <- containsb_spec, E; done).
    apply aspace_ext; [done..|]. intros p. rewrite Hh. split.
    + intros (y & ry & Hy & Hc & ->). rewrite lookup_delete in Hy. case_decide; [done|eauto 10].
    + intros (y & ry & Hy & Hc & ->). exists y, ry. rewrite lookup_delete_ne by congruence. done.
Qed.

(** Nothing is mapped between a region and its successor in the list. *)
Lemma aspace_gap m x r l1 l2 a :
  mm_ok m -> mm_regions m = l1 ++ x :: l2 -> heap m !! x = Some r -> gaddr r + size r <= a ->
  match head l2 with
  | Some n => forall rn, heap m !! n = Some rn -> a < gaddr rn
  | None => True
  end -> aspace m a = None.
Proof.
  intros Hm El Hx Ha Hn. apply aspace_None; [done|]. intros y ry Hy [C1 C2].
  assert (y ∈ mm_regions m) as Hin by (apply (ok_heap _ Hm); eauto).
  pose proof (ok_sorted _ Hm) as Hs. rewrite El in Hin, Hs.
  destruct (sorted_split _ _ _ _ Hs) as (_ & S2 & H1 & _).
  apply elem_of_app in Hin as [Hin|Hin]; [|apply elem_of_cons in Hin as [->|Hin]].
  - destruct (H1 _ Hin) as (? & ? & ? & ? & B). simplify_eq. unfold below in B.
    destruct (ok_reg _ Hm _ _ Hx). lia.
  - simplify_eq. lia.
  - destruct l2 as [|n l2]; [by apply elem_of_nil in Hin|]. simpl in Hn.
    apply elem_of_cons in Hin as [->|Hin]; [specialize (Hn _ Hy); lia|].
    apply StronglySorted_inv in S2 as [_ S2]. rewrite Forall_forall in S2.
    destruct (S2 _ Hin) as (rn & ? & Hrn & ? & B). simplify_eq. unfold below in B.
    specialize (Hn _ Hrn). destruct (ok_reg _ Hm _ _ Hrn). lia.
Qed.

(** Regions later in the list lie at higher addresses. *)
Lemma ok_later m x r y ry l1 l2 :
  mm_ok m -> mm_regions m = l1 ++ x :: l2 -> heap m !! x = Some r -> y ∈ l2 ->
  heap m !! y = Some ry -> below r ry.
Proof.
  intros Hm El Hx Hy Hry. pose proof (ok_sorted _ Hm) as Hs. rewrite El in Hs.
  destruct (sorted_split _ _ _ _ Hs) as (_ & _ & _ & H2).
  destruct (H2 _ Hy) as (? & ? & ? & ? & B). by simplify_eq.
Qed.

(** ** Updating a region object in place *)

Section Update.
Context (m : mm) (x : ptr) (r r' : mm_region).
Hypothesis Hm : mm_ok m.
Hypothesis Hx : heap m !! x = Some r.
Hypothesis Hg : gaddr r' = gaddr r.
Hypothesis Hs : 0 < size r' <= size r.
Hypothesis Hal : size r' mod 4096 = 0.

Lemma update_ok : mm_ok (set_heap (<[x := r']> (heap m)) m).
Proof using Hm Hx Hg Hs Hal.
  destruct (ok_reg _ Hm _ _ Hx). destruct Hm. constructor; simpl; try done.
  - intros y. rewrite lookup_insert. case_decide; subst; [|done]. rewrite ok_heap0, Hx.
    split; by eexists.
  - intros y. rewrite lookup_insert. case_decide; subst; eauto.
  - intros y ry. rewrite lookup_insert. case_decide; [|eauto]. intros [= <-].
    constructor; rewrite ?Hg; lia || done.
  - eapply sorted_impl; [|done]. intros y z _ _ (ry & rz & Hy & Hz & Hb). unfold ptr_below, below in *.
    rewrite !lookup_insert. repeat case_decide; simplify_eq; do 2 eexists; split_and!; try done; lia.
Qed.

Lemma update_aspace a :
  aspace (set_heap (<[x := r']> (heap m)) m) a =
  if containsb a r then (if containsb a r' then Some (attr_at r' a) else None) else aspace m a.
Proof using Hm Hx Hg Hs Hal.
  pose proof update_ok as Hm'. set (m' := set_heap _ m) in *.
  assert (heap m' !! x = Some r') as Hx' by apply lookup_insert_eq.
  assert (containsb a r' = true -> containsb a r = true) as Himp.
  { unfold containsb. rewrite Hg. zcases; simpl; try done; lia. }
  destruct (containsb a r') eqn:E'.
  - rewrite Himp by done. apply (aspace_in _ Hm' x); [done|by apply containsb_spec].
  - assert (~ contains r' a) as Hnc by (rewrite <- containsb_spec, E'; done).
    assert (forall y, y <> x -> heap m' !! y = heap m !! y) as Hne
      by (intros; by apply lookup_insert_ne, not_eq_sym).
    destruct (containsb a r) eqn:E.
    + apply containsb_spec in E. apply aspace_None; [done|]. intros y ry Hy Hc.
      destruct (decide (y = x)) as [->|Hn]; [congruence|]. rewrite (Hne y Hn) in Hy.
      by destruct Hn; eapply (ok_contains_inj m).
    + assert (~ contains r a) as Hn by (rewrite <- containsb_spec, E; done).
      apply aspace_ext; [done..|]. intros p. split; intros (y & ry & Hy & Hc & ->); exists y, ry;
        (destruct (decide (y = x)) as [->|Hyx]; [congruence|]); by rewrite (Hne y Hyx) in *.
Qed.

End Update.
