(* ===== verification/Mmap.v ===== *)
(** * Memory system calls ([src/mm/mmap.c], [src/mm/mm.c], [lib/vmm.c])

    The state is the process's address space, the kernel's ([vkern_mm]) and the
    sequence of host calls made so far, most recent first.  What the host
    answers is a parameter, a function of the calls made before. *)

From S2P Require Import Prelude RBTree Const Errno Mm.

(** Calls of the Hypervisor framework ([Hv*]) and of Darwin ([H*]). *)
Inductive hostcall :=
| HvVmCreate
| HvMap (haddr gaddr size prot : Z)
| HvUnmap (gaddr size : Z)
| HvProtect (gaddr size prot : Z)
| HMmap (len prot flags fd off : Z) (res : option Z)
| HMunmap (addr size : Z)
| HMprotect (addr size prot : Z)
| HMemcpy (dst src n : Z)
| HMsync (addr len flags : Z).

Record world := mk_world {
  w_mm : mm;
  w_vkern : mm;
  noah_kern_brk : Z;
  w_trace : list hostcall;
}.

(** The host: its constants and its answers. *)
Class Host := {
  MAP_SHARED : Z;
  MAP_PRIVATE : Z;
  MAP_ANON : Z;
  VM_FLAGS_SUPERPAGE_SIZE_ANY : Z;
  PROT_NONE : Z;
  PROT_READ : Z;
  PROT_WRITE : Z;
  HV_MEMORY_READ : Z;
  HV_MEMORY_WRITE : Z;
  HV_MEMORY_EXEC : Z;
  MS_ASYNC : Z;
  MS_SYNC : Z;
  MS_INVALIDATE : Z;
  (** [mmap(0, len, prot, flags, fd, off)]: the address or [errno] *)
  host_mmap : list hostcall -> Z -> Z -> Z -> Z -> Z -> Z + Z;
  (** [hv_vm_map(...) == HV_SUCCESS] *)
  hv_vm_map_ok : list hostcall -> bool;
  (** [msync]: result and [errno] *)
  host_msync : list hostcall -> Z -> Z -> Z -> Z * Z;
}.

(** A host with macOS's constants that never fails, used by the witnesses:
    its [mmap] hands out one 256 MB slot per earlier call. *)
Definition demo_host : Host := {|
  MAP_SHARED := 1; MAP_PRIVATE := 2; MAP_ANON := 0x1000; VM_FLAGS_SUPERPAGE_SIZE_ANY := 0x10000;
  PROT_NONE := 0; PROT_READ := 1; PROT_WRITE := 2;
  HV_MEMORY_READ := 1; HV_MEMORY_WRITE := 2; HV_MEMORY_EXEC := 4;
  MS_ASYNC := 1; MS_SYNC := 16; MS_INVALIDATE := 2;
  host_mmap tr len _ _ _ _ :=
    if len =? 0 then inr 22 else inl (0x100000000 + 0x10000000 * Z.of_nat (length tr));
  hv_vm_map_ok _ := true;
  host_msync _ _ _ _ := (0, 0);
|}.

Section Mmap.
Context `{Host} `{DarwinErrno}.

Definition on_mm {A} (c : M mm A) : M world A := fun w =>
  match c (w_mm w) with
  | Done a m => Done a (mk_world m (w_vkern w) (noah_kern_brk w) (w_trace w))
  | Stop s m => Stop s (mk_world m (w_vkern w) (noah_kern_brk w) (w_trace w))
  end.
Definition on_vkern {A} (c : M mm A) : M world A := fun w =>
  match c (w_vkern w) with
  | Done a m => Done a (mk_world (w_mm w) m (noah_kern_brk w) (w_trace w))
  | Stop s m => Stop s (mk_world (w_mm w) m (noah_kern_brk w) (w_trace w))
  end.
Definition call (e : hostcall) : M world unit :=
  modify (fun w => mk_world (w_mm w) (w_vkern w) (noah_kern_brk w) (e :: w_trace w)).

(** ** [lib/vmm.c] *)

Definition vmm_mmap (ga sz pr ha : Z) : M world unit :=
  assert_ (is_page_aligned ha PAGE_4KB);;
  assert_ (is_page_aligned ga PAGE_4KB);;
  assert_ (is_page_aligned sz PAGE_4KB);;
  call (HvUnmap ga sz);;
  w ← get;
  if hv_vm_map_ok (w_trace w) then call (HvMap ha ga sz pr) else halt Panic.

Definition vmm_munmap (ga sz : Z) : M world unit :=
  assert_ (is_page_aligned sz PAGE_4KB);;
  call (HvUnmap ga sz).

(** ** Flag conversions *)

Definition hv_mflag_to_linux_mprot (mflag : Z) : Z :=
  let l_prot := 0 in
  let l_prot := if testf mflag HV_MEMORY_READ then Z.lor l_prot LINUX_PROT_READ else l_prot in
  let l_prot := if testf mflag HV_MEMORY_WRITE then Z.lor l_prot LINUX_PROT_WRITE else l_prot in
  if testf mflag HV_MEMORY_EXEC then Z.lor l_prot LINUX_PROT_EXEC else l_prot.

Definition linux_mprot_to_hv_mflag (mprot : Z) : Z :=
  let mflag := 0 in
  let mflag := if testf mprot LINUX_PROT_READ then Z.lor mflag HV_MEMORY_READ else mflag in
  let mflag := if testf mprot LINUX_PROT_WRITE then Z.lor mflag HV_MEMORY_WRITE else mflag in
  if testf mprot LINUX_PROT_EXEC then Z.lor mflag HV_MEMORY_EXEC else mflag.

Definition linux_to_darwin_mflags (l_flags : Z) : Z :=
  let d := 0 in
  let d := if testf l_flags LINUX_MAP_SHARED then Z.lor d MAP_SHARED else d in
  let d := if testf l_flags LINUX_MAP_PRIVATE then Z.lor d MAP_PRIVATE else d in
  let d := if testf l_flags LINUX_MAP_ANON then Z.lor d MAP_ANON else d in
  if testf l_flags LINUX_MAP_HUGETLB then Z.lor d VM_FLAGS_SUPERPAGE_SIZE_ANY else d.

(** ** Mapping and unmapping *)

Definition alloc_region (len : Z) : M world Z :=
  let len := roundup len PAGE in
  on_mm (modify (fun m => set_mmap_top (u64 (current_mmap_top m + len)) m));;
  w ← get;
  mret (u64 (current_mmap_top (w_mm w) - len)).

(** The body of the loop of [do_munmap], in three parts: the region is cut at
    the start of the range, cut at its end, and the piece in between goes. *)
Definition munmap_cut_head (k : mm_region) (x : ptr) : M world ptr :=
  overlapping ← on_mm (region_at x);
  if gaddr overlapping <? gaddr k then
    on_mm (split_region x (gaddr k));;
    w ← get;
    deref (list_next x (mm_regions (w_mm w)))
  else mret x.

Definition munmap_cut_tail (k : mm_region) (x : ptr) : M world unit :=
  overlapping ← on_mm (region_at x);
  when_ (u64 (gaddr overlapping + size overlapping) >? u64 (gaddr k + size k))
    (on_mm (split_region x (u64 (gaddr k + size k)))).

Definition munmap_piece (x : ptr) : M world (option ptr) :=
  w ← get;
  let next := list_next x (mm_regions (w_mm w)) in
  on_mm (unlink_region x);;
  overlapping ← on_mm (region_at x);
  vmm_munmap (gaddr overlapping) (size overlapping);;
  call (HMunmap (haddr overlapping) (size overlapping));;
  on_mm (free_region x);;
  mret next.

(** [while (region_compare(&key, overlapping) == 0)] of [do_munmap] *)
Fixpoint munmap_loop (fuel : nat) (k : mm_region) (x : ptr) : M world unit :=
  match fuel with
  | O => halt Diverge
  | S fuel =>
    overlapping ← on_mm (region_at x);
    if region_compare k overlapping =? 0 then
      x ← munmap_cut_head k x;
      munmap_cut_tail k x;;
      next ← munmap_piece x;
      match next with
      | None => mret tt
      | Some n => munmap_loop fuel k n
      end
    else mret tt
  end.

Definition do_munmap (ga sz : Z) : M world Z :=
  if negb (is_page_aligned ga PAGE_4KB) then mret (- LINUX_EINVAL)
  else
    let sz := roundup sz PAGE in
    w ← get;
    match find_region_range ga sz (w_mm w) with
    | None => mret (- LINUX_ENOMEM)
    | Some x => munmap_loop (S (length (mm_regions (w_mm w)))) (key ga sz) x;; mret 0
    end.

(** The flags [do_mmap] keeps. *)
Definition mmap_flags (l_flags : Z) : Z :=
  clearf (clearf (clearf (clearf l_flags LINUX_MAP_DENYWRITE) LINUX_MAP_EXECUTABLE)
            LINUX_MAP_NORESERVE) LINUX_MAP_STACK.

Definition mmap_supported : Z :=
  Z.lor LINUX_MAP_SHARED (Z.lor LINUX_MAP_PRIVATE (Z.lor LINUX_MAP_FIXED
    (Z.lor LINUX_MAP_ANON LINUX_MAP_HUGETLB))).

(** The second half of [do_mmap], from the call of [mmap] on. *)
Definition mmap_at (addr len d_prot l_prot l_flags fd offset : Z) : M world Z :=
  w ← get;
  let d_flags := linux_to_darwin_mflags l_flags in
  match host_mmap (w_trace w) len d_prot d_flags fd offset with
  | inr errno =>
      call (HMmap len d_prot d_flags fd offset None);;
      mret (u64 (- darwin_to_linux_errno errno))
  | inl p =>
      call (HMmap len d_prot d_flags fd offset (Some p));;
      _ ← do_munmap addr len;
      _ ← on_mm (record_region p addr len l_prot l_flags fd (s32 offset));
      vmm_mmap addr len (linux_mprot_to_hv_mflag l_prot) p;;
      mret addr
  end.

Definition do_mmap (addr len d_prot l_prot l_flags fd offset : Z) : M world Z :=
  assert_ (Z.land addr 0xfff =? 0);;
  let l_flags := mmap_flags l_flags in
  let len := roundup len PAGE in
  if negb (clearf l_flags mmap_supported =? 0) then halt (Exit 1)
  else
    let fd := if testf l_flags LINUX_MAP_ANON then -1 else fd in
    let offset := if testf l_flags LINUX_MAP_ANON then 0 else offset in
    addr ← (if testf l_flags LINUX_MAP_FIXED then mret addr else alloc_region len);
    mmap_at addr len d_prot l_prot l_flags fd offset.

Definition sys_mmap (addr len pr flags fd offset : Z) : M world Z :=
  do_mmap addr len pr pr flags fd offset.

Definition sys_munmap (ga sz : Z) : M world Z :=
  r ← do_munmap ga sz; mret (u64 r).

Definition sys_brk (brk : Z) : M world Z :=
  let brk := roundup brk PAGE in
  w ← get;
  if brk <? start_brk (w_mm w) then mret (start_brk (w_mm w))
  else if brk <? current_brk (w_mm w) then
    _ ← do_munmap brk (u64 (current_brk (w_mm w) - brk));
    on_mm (modify (set_current_brk brk));;
    mret brk
  else
    _ ← do_mmap (current_brk (w_mm w)) (u64 (brk - current_brk (w_mm w)))
          (Z.lor PROT_READ PROT_WRITE) (Z.lor LINUX_PROT_READ LINUX_PROT_WRITE)
          (Z.lor LINUX_MAP_PRIVATE (Z.lor LINUX_MAP_FIXED LINUX_MAP_ANONYMOUS)) (-1) 0;
    on_mm (modify (set_current_brk brk));;
    mret brk.

Definition sys_mremap (old_addr old_size new_size flags new_addr : Z) : M world Z :=
  if negb (clearf flags (Z.lor LINUX_MREMAP_FIXED LINUX_MREMAP_MAYMOVE) =? 0)
  then mret (u64 (- LINUX_EINVAL))
  else if testf flags LINUX_MREMAP_FIXED && negb (testf flags LINUX_MREMAP_MAYMOVE)
  then mret (u64 (- LINUX_EINVAL))
  else if negb (is_page_aligned old_addr PAGE_4KB) then mret (u64 (- LINUX_EINVAL))
  else if negb (testf flags LINUX_MREMAP_MAYMOVE) then mret (u64 (- LINUX_EINVAL))
  else if new_size =? 0 then mret (u64 (- LINUX_EINVAL))
  else
    let old_size := roundup old_size PAGE in
    let new_size := roundup new_size PAGE in
    w ← get;
    match find_region old_addr (w_mm w) with
    | None => mret (u64 (- LINUX_EFAULT))
    | Some x =>
      region ← on_mm (region_at x);
      if negb (gaddr region =? old_addr) then mret (u64 (- LINUX_EFAULT))
      else if size region <? old_size then mret (u64 (- LINUX_EFAULT))
      else if new_size <=? old_size then
        call (HMunmap (u64 (haddr region + new_size)) (u64 (size region - new_size)));;
        vmm_munmap (u64 (gaddr region + new_size)) (u64 (size region - new_size));;
        on_mm (region_upd x (region_set_size new_size region));;
        mret old_addr
      else
        w ← get;
        let d_flags := linux_to_darwin_mflags (mm_flags region) in
        match host_mmap (w_trace w) new_size PROT_NONE d_flags (mm_fd region) (pgoff region) with
        | inr _ => halt Panic
        | inl moved_to =>
          call (HMmap new_size PROT_NONE d_flags (mm_fd region) (pgoff region) (Some moved_to));;
          (if negb (testf (mm_flags region) LINUX_MAP_ANONYMOUS) then
             let d_prot := 0 in
             let d_prot := if testf (prot region) LINUX_PROT_READ then Z.lor d_prot PROT_READ else d_prot in
             let d_prot := if testf (prot region) LINUX_PROT_WRITE then Z.lor d_prot PROT_WRITE else d_prot in
             call (HMprotect moved_to new_size d_prot)
           else
             call (HMprotect moved_to new_size (Z.lor PROT_READ PROT_WRITE));;
             call (HMemcpy moved_to (haddr region) old_size));;
          when_ (old_size <? size region) (on_mm (split_region x (u64 (gaddr region + old_size))));;
          on_mm (unlink_region x);;
          region ← on_mm (region_at x);
          call (HMunmap (haddr region) (size region));;
          vmm_munmap (gaddr region) (size region);;
          ret ← alloc_region new_size;
          n ← on_mm (record_region moved_to ret new_size (prot region) (mm_flags region)
                       (mm_fd region) (pgoff region));
          new ← on_mm (region_at n);
          vmm_mmap (gaddr new) (size new) (prot new) (haddr new);;
          on_mm (free_region x);;
          mret ret
        end
    end.

(** [hv_vm_protect], [mprotect] and the assignment to [prot] that [mprotect]
    makes for a region. *)
Definition protect_region (x : ptr) (hvprot pr : Z) : M world unit :=
  r ← on_mm (region_at x);
  call (HvProtect (gaddr r) (size r) hvprot);;
  call (HMprotect (haddr r) (size r) pr);;
  on_mm (region_upd x (region_set_prot hvprot r)).

(** The loop of [mprotect]: [inr x] leaves it normally at region [x], [inl e]
    jumps to [out] with error [e]. *)
Fixpoint mprotect_loop (fuel : nat) (x : ptr) (end_ hvprot pr : Z) : M world (Z + ptr) :=
  match fuel with
  | O => halt Diverge
  | S fuel =>
    r ← on_mm (region_at x);
    if u64 (gaddr r + size r) <=? end_ then
      protect_region x hvprot pr;;
      w ← get;
      match list_next x (mm_regions (w_mm w)) with
      | None => mret (inl (- LINUX_ENOMEM))
      | Some next =>
        n ← on_mm (region_at next);
        if negb (gaddr n =? u64 (gaddr r + size r)) then mret (inl (- LINUX_ENOMEM))
        else mprotect_loop fuel next end_ hvprot pr
      end
    else mret (inr x)
  end.

Definition sys_mprotect (addr len pr : Z) : M world Z :=
  if negb (is_page_aligned addr PAGE_4KB) || (len =? 0) then mret (u64 (- LINUX_EINVAL))
  else
    let len := roundup len PAGE in
    let end_ := u64 (addr + len) in
    let hvprot := linux_mprot_to_hv_mflag pr in
    w ← get;
    match find_region addr (w_mm w) with
    | None => mret (u64 (- LINUX_ENOMEM))
    | Some x =>
      region ← on_mm (region_at x);
      x ← (if addr >? gaddr region then
             on_mm (split_region x addr);;
             w ← get;
             x' ← deref (list_next x (mm_regions (w_mm w)));
             protect_region x' hvprot pr;;
             mret x'
           else mret x);
      w ← get;
      o ← mprotect_loop (length (mm_regions (w_mm w))) x end_ hvprot pr;
      match o with
      | inl e => mret (u64 e)
      | inr x =>
        r ← on_mm (region_at x);
        when_ (gaddr r <? end_) (
          on_mm (split_region x end_);;
          protect_region x hvprot pr);;
        mret (u64 0)
      end
    end.

Definition sys_msync (addr len flags : Z) : M world Z :=
  w ← get;
  match find_region addr (w_mm w) with
  | None => mret (u64 (- LINUX_ENOMEM))
  | Some x =>
    region ← on_mm (region_at x);
    if (u64 (addr - gaddr region) >=? len) || (u64 (len + addr - gaddr region) >? size region)
    then mret (u64 (- LINUX_ENOMEM))
    else if negb (clearf flags (Z.lor LINUX_MS_ASYNC (Z.lor LINUX_MS_SYNC LINUX_MS_INVALIDATE)) =? 0)
    then mret (u64 (- LINUX_EINVAL))
    else
      let d := 0 in
      let d := if testf flags LINUX_MS_ASYNC then Z.lor d MS_ASYNC else d in
      let d := if testf flags LINUX_MS_SYNC then Z.lor d MS_SYNC else d in
      let d := if testf flags LINUX_MS_INVALIDATE then Z.lor d MS_INVALIDATE else d in
      let a := u64 (addr - gaddr region + haddr region) in
      let '(r, e) := host_msync (w_trace w) a len d in
      call (HMsync a len d);;
      mret (u64 (syswrap r e))
  end.

(** ** Kernel mappings and teardown *)

Definition kmap (p sz flags : Z) : M world Z :=
  assert_ (Z.land sz 0xfff =? 0);;
  assert_ (Z.land p 0xfff =? 0);;
  w ← get;
  _ ← on_vkern (record_region p (noah_kern_brk w) sz (hv_mflag_to_linux_mprot flags) (-1) (-1) 0);
  vmm_mmap (noah_kern_brk w) sz flags p;;
  modify (fun w => mk_world (w_mm w) (w_vkern w) (u64 (noah_kern_brk w + sz)) (w_trace w));;
  w ← get;
  mret (u64 (noah_kern_brk w - sz)).

Fixpoint destroy_loop (l : list ptr) : M world unit :=
  match l with
  | [] => mret tt
  | x :: l =>
    r ← on_mm (region_at x);
    call (HMunmap (haddr r) (size r));;
    vmm_munmap (gaddr r) (size r);;
    on_mm (free_region x);;
    destroy_loop l
  end.

Definition destroy_mm : M world unit :=
  w ← get;
  destroy_loop (mm_regions (w_mm w));;
  on_mm (modify (fun m => set_list [] (set_tree Nil m))).

End Mmap.

(** ** Specification *)

(** The guest-physical map the hypervisor holds, replayed from the calls. *)
Fixpoint ept (tr : list hostcall) (a : Z) : option Z :=
  match tr with
  | [] | HvVmCreate :: _ => None
  | HvMap ha ga sz _ :: tr =>
      if (ga <=? a) && (a <? ga + sz) then Some (u64 (ha + a - ga)) else ept tr a
  | HvUnmap ga sz :: tr => if (ga <=? a) && (a <? ga + sz) then None else ept tr a
  | _ :: tr => ept tr a
  end.

Definition host_of (p : Z * Z * Z * Z) : Z := p.1.1.1.

(** The hypervisor maps exactly what the regions of the process say. *)
Definition sync_at (w : world) (a : Z) : Prop :=
  ept (w_trace w) a = host_of <$> aspace (w_mm w) a.
Definition synced (w : world) : Prop := forall a, 0 <= a < user_addr_max -> sync_at w a.

(** What the operations on regions leave alone. *)
Record same_frame (w w' : world) : Prop := {
  sf_vkern : w_vkern w' = w_vkern w;
  sf_kbrk : noah_kern_brk w' = noah_kern_brk w;
  sf_start : start_brk (w_mm w') = start_brk (w_mm w);
  sf_brk : current_brk (w_mm w') = current_brk (w_mm w);
  sf_top : current_mmap_top (w_mm w') = current_mmap_top (w_mm w);
}.

#[global] Instance same_frame_preorder : PreOrder same_frame.
Proof.
  split; [by constructor|]. intros w1 w2 w3 [] []. constructor; congruence.
Qed.

(** Regions whose split offsets fit the [int] of [split_region]. *)
Definition small_regions (m : mm) : Prop :=
  forall x r, heap m !! x = Some r -> size r <= 2 ^ 31.

Definition range_ok (k : mm_region) : Prop :=
  key_ok k /\ gaddr k mod 4096 = 0 /\ size k mod 4096 = 0 /\ 0 < size k.

