(* ===== verification/MmapFacts.v ===== *)
(** * Effect of the memory system calls on the address space

    [munmap] and [mmap] as updates of the abstract address space [aspace] and
    of the hypervisor's guest-physical map [ept]. *)

From S2P Require Import Prelude RBTree Const Errno Mm Mmap.

Lemma on_mm_Done {A} (c : M mm A) a w m :
  c (w_mm w) = Done a m -> on_mm c w = Done a (mk_world m (w_vkern w) (noah_kern_brk w) (w_trace w)).
Proof. unfold on_mm. by intros ->. Qed.

Lemma on_mm_region_at x r w : heap (w_mm w) !! x = Some r -> on_mm (region_at x) w = Done r w.
Proof. intros Hx. unfold on_mm, region_at. msimp. rewrite Hx. by destruct w. Qed.

Lemma split_small m x r ga :
  small_regions m -> heap m !! x = Some r -> gaddr r < ga < gaddr r + size r ->
  forall y ry, split_heap m x r ga !! y = Some ry -> size ry <= 2 ^ 31.
Proof.
  intros Hs Hx Hga y ry. specialize (Hs) as Hs'. pose proof (Hs _ _ Hx).
  unfold split_heap. rewrite !lookup_insert.
  repeat case_decide; intros; simplify_eq; simpl; [lia|lia|]. eauto.
Qed.

Section Munmap.
Context `{Host} `{DarwinErrno}.

(** Cutting a live region in the world. *)
Lemma split_world w x r ga l1 l2 :
  mm_ok (w_mm w) -> small_regions (w_mm w) -> heap (w_mm w) !! x = Some r ->
  gaddr r < ga < gaddr r + size r -> ga mod 4096 = 0 -> mm_regions (w_mm w) = l1 ++ x :: l2 ->
  exists w' y, on_mm (split_region x ga) w = Done tt w' /\ mm_ok (w_mm w') /\
    small_regions (w_mm w') /\ same_frame w w' /\ w_trace w' = w_trace w /\
    mm_regions (w_mm w') = l1 ++ x :: y :: l2 /\
    heap (w_mm w') !! x = Some (head_of r ga) /\ heap (w_mm w') !! y = Some (tail_of r ga) /\
    (forall a, aspace (w_mm w') a = aspace (w_mm w) a).
Proof.
  intros Hm Hs Hx Hga Hal El.
  destruct (split_region_ok _ _ _ _ Hm Hx Hga Hal) as (m' & Hr & Hm' & Hh & Hl & _ & ? & ? & ?);
    [specialize (Hs _ _ Hx); lia|].
  apply on_mm_Done in Hr. eexists _, (brkptr (w_mm w)). split; [exact Hr|]. simpl.
  assert (x ∉ l1) as N1.
  { pose proof (ok_NoDup _ Hm) as Hnd. rewrite El in Hnd. by apply NoDup_mid in Hnd as [? _]. }
  split_and!; [done| |by constructor|done| | | |].
  - intros y ry. rewrite Hh. eapply split_small; eauto.
  - by rewrite Hl, El, list_add_after_split.
  - rewrite Hh. apply split_heap_x.
  - rewrite Hh. by apply split_heap_tail.
  - intros a. eapply split_aspace; eauto.
Qed.

Lemma munmap_piece_ok w x r l1 l2 :
  mm_ok (w_mm w) -> small_regions (w_mm w) -> heap (w_mm w) !! x = Some r ->
  mm_regions (w_mm w) = l1 ++ x :: l2 ->
  exists w', munmap_piece x w = Done (head l2) w' /\ mm_ok (w_mm w') /\
    small_regions (w_mm w') /\ same_frame w w' /\
    w_trace w' = HMunmap (haddr r) (size r) :: HvUnmap (gaddr r) (size r) :: w_trace w /\
    mm_regions (w_mm w') = l1 ++ l2 /\ heap (w_mm w') = delete x (heap (w_mm w)) /\
    (forall a, aspace (w_mm w') a = if containsb a r then None else aspace (w_mm w) a).
Proof.
  intros Hm Hs Hx El.
  destruct (unlink_region_ok _ _ _ Hm Hx) as (m' & Hu & Hm' & Hh & Hl & _ & ? & ? & ?).
  assert (x ∉ l1) as N1.
  { pose proof (ok_NoDup _ Hm) as Hnd. rewrite El in Hnd. by apply NoDup_mid in Hnd as [? _]. }
  apply on_mm_Done in Hu. unfold munmap_piece. msimp. rewrite El, list_next_split by done.
  rewrite Hu. rewrite (on_mm_region_at _ r) by (simpl; by rewrite Hh).
  unfold vmm_munmap. msimp.
  rewrite (proj2 (is_page_aligned_spec _)) by (by destruct (ok_reg _ Hm _ _ Hx)).
  unfold call, on_mm, free_region. msimp. simpl.
  eexists; split; [done|]. simpl. split_and!; [done| |by constructor|done| |by rewrite Hh|].
  - intros y ry. simpl. rewrite Hh, lookup_delete. case_decide; [done|]. apply Hs.
  - by rewrite Hl, El, list_del_split.
  - intros a. eapply delete_aspace; [done|done|done|]. simpl. by rewrite Hh.
Qed.

Lemma munmap_cut_head_ok w k x r l1 l2 :
  mm_ok (w_mm w) -> small_regions (w_mm w) -> range_ok k -> heap (w_mm w) !! x = Some r ->
  mm_regions (w_mm w) = l1 ++ x :: l2 -> overlaps k r ->
  exists w' x' r' l1', munmap_cut_head k x w = Done x' w' /\ mm_ok (w_mm w') /\
    small_regions (w_mm w') /\ same_frame w w' /\ w_trace w' = w_trace w /\
    mm_regions (w_mm w') = l1' ++ x' :: l2 /\ heap (w_mm w') !! x' = Some r' /\
    gaddr r' = Z.max (gaddr r) (gaddr k) /\ gaddr r' + size r' = gaddr r + size r /\
    (forall a, aspace (w_mm w') a = aspace (w_mm w) a).
Proof.
  intros Hm Hs (Hk & Ha & _) Hx El [O1 O2]. unfold munmap_cut_head. msimp.
  rewrite (on_mm_region_at _ _ _ Hx). destruct (Z.ltb_spec (gaddr r) (gaddr k)).
  - destruct (split_world w x r (gaddr k) l1 l2) as (w' & y & -> & Hm' & Hs' & Hf & Ht & Hl & Hx' & Hy & Has);
      [done..|lia|done|done|].
    assert (x ∉ l1) as N1.
    { pose proof (ok_NoDup _ Hm) as Hnd. rewrite El in Hnd. by apply NoDup_mid in Hnd as [? _]. }
    rewrite Hl, list_next_split by done. simpl.
    exists w', y, (tail_of r (gaddr k)), (l1 ++ [x]). rewrite <- app_assoc. simpl.
    split_and!; try done; lia.
  - exists w, x, r, l1. split_and!; try done; lia.
Qed.

Lemma munmap_cut_tail_ok w k x r l1 l2 :
  mm_ok (w_mm w) -> small_regions (w_mm w) -> range_ok k -> heap (w_mm w) !! x = Some r ->
  mm_regions (w_mm w) = l1 ++ x :: l2 -> gaddr r < gaddr k + size k ->
  exists w' r' l2', munmap_cut_tail k x w = Done tt w' /\ mm_ok (w_mm w') /\
    small_regions (w_mm w') /\ same_frame w w' /\ w_trace w' = w_trace w /\
    mm_regions (w_mm w') = l1 ++ x :: l2' /\ heap (w_mm w') !! x = Some r' /\
    gaddr r' = gaddr r /\ gaddr r' + size r' = Z.min (gaddr r + size r) (gaddr k + size k) /\
    (l2' = l2 \/ exists y ry, l2' = y :: l2 /\ heap (w_mm w') !! y = Some ry /\
                             gaddr ry = gaddr k + size k /\ gaddr k + size k < gaddr r + size r) /\
    (forall a, aspace (w_mm w') a = aspace (w_mm w) a).
Proof.
  intros Hm Hs ((K1 & K2 & K3) & Ha & Hb & _) Hx El Hlt. unfold munmap_cut_tail. msimp.
  rewrite (on_mm_region_at _ _ _ Hx). destruct (ok_reg _ Hm _ _ Hx).
  rewrite !wrap_small by lia. rewrite Z.gtb_ltb.
  destruct (Z.ltb_spec (gaddr k + size k) (gaddr r + size r)).
  - destruct (split_world w x r (gaddr k + size k) l1 l2)
      as (w' & y & -> & Hm' & Hs' & Hf & Ht & Hl & Hx' & Hy & Has); [done..|lia| |done|].
    { rewrite Zplus_mod, Ha, Hb. done. }
    exists w', (head_of r (gaddr k + size k)), (y :: l2). simpl.
    split_and!; try done; try lia. right. exists y. eexists. split_and!; done.
  - exists w, r, l2. split_and!; try done; try lia. by left.
Qed.

(** The loop stops at once on a region beyond the range. *)
Lemma munmap_loop_beyond fuel w k x r :
  (0 < fuel)%nat -> mm_ok (w_mm w) -> key_ok k -> heap (w_mm w) !! x = Some r ->
  gaddr k + size k <= gaddr r -> munmap_loop fuel k x w = Done tt w.
Proof.
  intros Hf Hm Hk Hx Hb. destruct fuel; [lia|]. simpl. msimp. rewrite (on_mm_region_at _ _ _ Hx).
  destruct (region_compare_cases k r Hk (ok_reg _ Hm _ _ Hx)) as [[-> ?]|[[-> ?]|[-> ?]]]; [done..|].
  unfold overlaps in *. lia.
Qed.

(** Addresses of the range from the region found on. *)
Definition cut (k r : mm_region) (a : Z) : bool :=
  (Z.max (gaddr k) (gaddr r) <=? a) && (a <? gaddr k + size k).

(** Addresses of the region inside the range. *)
Definition piece (k r : mm_region) (a : Z) : bool :=
  (Z.max (gaddr k) (gaddr r) <=? a) && (a <? Z.min (gaddr k + size k) (gaddr r + size r)).

Lemma piece_containsb k r r' a :
  gaddr r' = Z.max (gaddr r) (gaddr k) -> gaddr r' + size r' = Z.min (gaddr r + size r) (gaddr k + size k) ->
  containsb a r' = piece k r a.
Proof. intros H1 H2. unfold containsb, piece. by rewrite H2, H1, Z.max_comm, Z.min_comm. Qed.

Lemma piece_cut k r a :
  (piece k r a = true /\ cut k r a = true) \/
  (piece k r a = false /\ (cut k r a = true -> Z.min (gaddr k + size k) (gaddr r + size r) <= a)).
Proof.
  unfold piece, cut. destruct (Z.leb_spec (Z.max (gaddr k) (gaddr r)) a); simpl; [|auto].
  zcases; auto; try lia. right. split; [done|]. lia.
Qed.

(** What is left of the range at the next region. *)
Lemma cut_rest k r rn a :
  0 < size k -> 0 < size r -> overlaps k r -> Z.min (gaddr k + size k) (gaddr r + size r) <= gaddr rn ->
  cut k rn a = cut k r a && negb (piece k r a) && (gaddr rn <=? a).
Proof. intros ? ? [? ?] ?. unfold cut, piece. zcases; simpl; try done; try (exfalso; lia). Qed.

(** One iteration: the part of the region inside the range goes, and the loop
    continues at the next region of the list, with nothing mapped in between. *)
Lemma munmap_body_ok w k x r l1 l2 :
  mm_ok (w_mm w) -> small_regions (w_mm w) -> range_ok k -> heap (w_mm w) !! x = Some r ->
  mm_regions (w_mm w) = l1 ++ x :: l2 -> overlaps k r ->
  exists w' next,
    (x' ← munmap_cut_head k x; munmap_cut_tail k x';; munmap_piece x') w = Done next w' /\
    mm_ok (w_mm w') /\ small_regions (w_mm w') /\ same_frame w w' /\
    (forall a, aspace (w_mm w') a = if piece k r a then None else aspace (w_mm w) a) /\
    (forall a, ept (w_trace w') a = if piece k r a then None else ept (w_trace w) a) /\
    (forall a, piece k r a = true -> is_Some (aspace (w_mm w) a)) /\
    match next with
    | None => forall a, Z.min (gaddr k + size k) (gaddr r + size r) <= a -> aspace (w_mm w) a = None
    | Some n => exists rn l1' l2', heap (w_mm w') !! n = Some rn /\
        mm_regions (w_mm w') = l1' ++ n :: l2' /\ gaddr k < gaddr rn + size rn /\
        Z.min (gaddr k + size k) (gaddr r + size r) <= gaddr rn /\
        (gaddr k + size k <= gaddr rn \/ S (length l2') = length l2) /\
        forall a, Z.min (gaddr k + size k) (gaddr r + size r) <= a < gaddr rn -> aspace (w_mm w) a = None
    end.
Proof.
  intros Hm Hs Hk Hx El HO. msimp.
  destruct (munmap_cut_head_ok w k x r l1 l2) as
    (w1 & x1 & r1 & l1' & -> & Hm1 & Hs1 & Hf1 & Ht1 & Hl1 & Hx1 & Hg1 & He1 & Ha1); [done..|].
  destruct (munmap_cut_tail_ok w1 k x1 r1 l1' l2) as
    (w2 & r2 & l2' & -> & Hm2 & Hs2 & Hf2 & Ht2 & Hl2 & Hx2 & Hg2 & He2 & Hl2' & Ha2); [done..|destruct HO, Hk as (? & ? & ? & ?); lia|].
  destruct (munmap_piece_ok w2 x1 r2 l1' l2') as
    (w3 & -> & Hm3 & Hs3 & Hf3 & Ht3 & Hl3 & Hh3 & Ha3); [done..|].
  assert (forall a, containsb a r2 = piece k r a) as Hp by (intros; apply piece_containsb; lia).
  assert (forall a, aspace (w_mm w) a = aspace (w_mm w2) a) as Has2 by (intros a; by rewrite Ha2, Ha1).
  exists w3, (head l2'). split_and!; try done; [by do 2 (etransitivity; [eassumption|])| | | |].
  - intros a. by rewrite Ha3, Ha2, Ha1, Hp.
  - intros a. rewrite Ht3, Ht2, Ht1, <- Hp. done.
  - intros a. rewrite <- Hp, Has2. intros Hc. rewrite (aspace_in _ Hm2 _ _ _ Hx2); [by eexists|by apply containsb_spec].
  - assert (gaddr r2 + size r2 = Z.min (gaddr k + size k) (gaddr r + size r)) as He by lia. rewrite <- He.
    destruct l2' as [|n l2']; simpl.
    + intros a Ha. rewrite Has2. by apply (aspace_gap _ x1 r2 l1' []).
    + assert (is_Some (heap (w_mm w2) !! n)) as [rn Hn]
        by (apply (ok_heap _ Hm2); rewrite Hl2; set_solver).
      pose proof (ok_later _ _ _ n rn _ _ Hm2 Hl2 Hx2 ltac:(set_solver) Hn) as Hbel.
      unfold below in Hbel. destruct (ok_reg _ Hm2 _ _ Hx2), (ok_reg _ Hm2 _ _ Hn).
      assert (n <> x1) as Hne by (intros ->; simplify_eq; lia).
      exists rn, l1', l2'. rewrite Hh3, lookup_delete_ne by done.
      assert (forall a, gaddr r2 + size r2 <= a < gaddr rn -> aspace (w_mm w) a = None) as Hgap.
      { intros a Ha. rewrite Has2. apply (aspace_gap _ x1 r2 l1' (n :: l2')); try done; [lia|].
        simpl. intros rn'. rewrite Hn. intros [= <-]. lia. }
      destruct Hl2' as [<-|(y & ry & [= -> ->] & Hy & Hgy & Hgy')].
      * split_and!; try done; [lia|by right].
      * simplify_eq. split_and!; try done; [lia|by left; lia].
Qed.

Lemma munmap_loop_ok fuel : forall w k x r l1 l2,
  mm_ok (w_mm w) -> small_regions (w_mm w) -> range_ok k -> heap (w_mm w) !! x = Some r ->
  mm_regions (w_mm w) = l1 ++ x :: l2 -> gaddr k < gaddr r + size r ->
  (length l2 + 2 <= fuel)%nat ->
  exists w', munmap_loop fuel k x w = Done tt w' /\ mm_ok (w_mm w') /\
    small_regions (w_mm w') /\ same_frame w w' /\
    (forall a, aspace (w_mm w') a = if cut k r a then None else aspace (w_mm w) a) /\
    (forall a, ept (w_trace w') a =
       if cut k r a && bool_decide (is_Some (aspace (w_mm w) a)) then None else ept (w_trace w) a).
Proof.
  induction fuel as [|fuel IH]; intros w k x r l1 l2 Hm Hs Hk Hx El Hgt Hfuel; [lia|].
  destruct (Z.le_gt_cases (gaddr k + size k) (gaddr r)) as [Hle|Hov].
  { exists w. rewrite (munmap_loop_beyond (S fuel) w k x r) by (done || lia || apply Hk).
    split_and!; try done; intros a; unfold cut; by zcases; simpl; try lia. }
  assert (overlaps k r) as HO by (split; lia).
  destruct (munmap_body_ok w k x r l1 l2) as
    (w3 & next & E & Hm3 & Hs3 & Hf3 & Ha3 & He3 & Hp3 & Hnext); [done..|].
  cbn [munmap_loop]. cbv [mbind M_bind] in *. rewrite (on_mm_region_at _ _ _ Hx).
  rewrite (proj2 (region_compare_overlap k r (proj1 Hk) (ok_reg _ Hm _ _ Hx)) HO). simpl.
  destruct (munmap_cut_head k x w) as [x1 w1|]; [|done].
  destruct (munmap_cut_tail k x1 w1) as [[] w2|]; [|done].
  destruct (munmap_piece x1 w2) as [? ?|]; [|done]. injection E as -> ->.
  destruct next as [n|].
  - destruct Hnext as (rn & l1' & l2' & Hn & El' & Hgt' & Hmin & Hlen & Hgap).
    assert (exists w', munmap_loop fuel k n w3 = Done tt w' /\ mm_ok (w_mm w') /\
      small_regions (w_mm w') /\ same_frame w3 w' /\
      (forall a, aspace (w_mm w') a = if cut k rn a then None else aspace (w_mm w3) a) /\
      (forall a, ept (w_trace w') a =
         if cut k rn a && bool_decide (is_Some (aspace (w_mm w3) a)) then None else ept (w_trace w3) a))
      as (w4 & -> & Hm4 & Hs4 & Hf4 & Ha4 & He4).
    { destruct Hlen as [Hb|Hlen]; [|eapply IH; eauto; lia].
      exists w3. rewrite (munmap_loop_beyond fuel w3 k n rn) by (done || lia || apply Hk).
      split_and!; try done; intros a; unfold cut; by zcases; simpl; try lia. }
    exists w4. split_and!; try done; [by etransitivity| |].
    + intros a. rewrite Ha4, Ha3, (cut_rest k r rn a) by (destruct Hk as (? & ? & ? & ?), (ok_reg _ Hm _ _ Hx); lia || done).
      specialize (Hgap a). destruct (piece_cut k r a) as [[-> ->]|[-> Hr]]; simpl; [done|].
      destruct (cut k r a); simpl; [|done]. destruct (Z.leb_spec (gaddr rn) a); [done|].
      apply Hgap. specialize (Hr eq_refl). lia.
    + intros a. rewrite He4, Ha3, He3, (cut_rest k r rn a) by (destruct Hk as (? & ? & ? & ?), (ok_reg _ Hm _ _ Hx); lia || done).
      specialize (Hgap a). specialize (Hp3 a).
      destruct (piece_cut k r a) as [[Ep ->]|[-> Hr]]; simpl; [destruct (Hp3 Ep) as [? ->]; by rewrite Ep|].
      destruct (cut k r a); simpl; [|done]. destruct (Z.leb_spec (gaddr rn) a); [done|].
      specialize (Hr eq_refl). by rewrite Hgap by lia.
  - exists w3. split_and!; try done; intros a; specialize (Hnext a); specialize (Hp3 a).
    + rewrite Ha3. destruct (piece_cut k r a) as [[-> ->]|[-> Hr]]; [done|].
      destruct (cut k r a); [|done]. auto.
    + rewrite He3. destruct (piece_cut k r a) as [[Ep ->]|[-> Hr]]; [destruct (Hp3 Ep) as [? ->]; by rewrite Ep|].
      destruct (cut k r a); [|done]. by rewrite Hnext by auto.
Qed.

(** The range of a request of [sz] bytes at [ga], as the code rounds it. *)
Definition req (ga sz : Z) : mm_region := key ga (roundup sz PAGE).

Definition req_ok (ga sz : Z) : Prop :=
  0 <= ga /\ ga mod 4096 = 0 /\ 0 < sz < 2 ^ 64 - 4096 /\ ga + roundup sz PAGE < 2 ^ 64 - 4096.

Lemma req_range ga sz : req_ok ga sz -> range_ok (req ga sz) /\ sz <= size (req ga sz) < sz + 4096.
Proof.
  intros (H1 & H2 & H3 & H4). unfold range_ok, key_ok, req. simpl. change PAGE with 4096 in *.
  destruct (roundup_spec sz 4096) as [Hr Hm]; lia.
Qed.

(** [find_region_range] answered with the lowest region that overlaps. *)
Definition lowest (m : mm) (k : mm_region) (r : mm_region) : Prop :=
  forall y ry, heap m !! y = Some ry -> overlaps k ry -> gaddr r <= gaddr ry.

Lemma cut_lowest_mapped m k r a :
  mm_ok m -> lowest m k r ->
  cut k r a && bool_decide (is_Some (aspace m a)) = containsb a k && bool_decide (is_Some (aspace m a)).
Proof.
  intros Hm Hlow. destruct (aspace m a) as [p|] eqn:E; [|by rewrite !andb_false_r].
  rewrite !andb_true_r. unfold cut, containsb.
  apply aspace_Some in E as (y & ry & Hy & [C1 C2] & _); [|done].
  zcases; simpl; try done; try lia.
  exfalso. assert (gaddr r <= gaddr ry) by (eapply Hlow; [done|split; lia]). lia.
Qed.

Lemma cut_lowest m k r a :
  mm_ok m -> lowest m k r ->
  (if cut k r a then None else aspace m a) = if containsb a k then None else aspace m a.
Proof.
  intros Hm Hlow. pose proof (cut_lowest_mapped m k r a Hm Hlow) as E.
  destruct (aspace m a); [|by repeat case_match].
  rewrite !andb_true_r in E. by rewrite E.
Qed.

Lemma do_munmap_ok w ga sz :
  mm_ok (w_mm w) -> small_regions (w_mm w) -> req_ok ga sz ->
  match find_region_range ga (roundup sz PAGE) (w_mm w) with
  | None => do_munmap ga sz w = Done (- LINUX_ENOMEM) w /\
      forall x r, heap (w_mm w) !! x = Some r -> ~ overlaps (req ga sz) r
  | Some x => exists r w', heap (w_mm w) !! x = Some r /\ overlaps (req ga sz) r /\
      do_munmap ga sz w = Done 0 w' /\ mm_ok (w_mm w') /\ small_regions (w_mm w') /\
      same_frame w w' /\
      (forall a, aspace (w_mm w') a = if cut (req ga sz) r a then None else aspace (w_mm w) a) /\
      (forall a, ept (w_trace w') a = if cut (req ga sz) r a && bool_decide (is_Some (aspace (w_mm w) a))
                                      then None else ept (w_trace w) a)
  end.
Proof.
  intros Hm Hs Hq. destruct (req_range _ _ Hq) as [Hk Hsz]. destruct Hq as (Q1 & Q2 & Q3 & Q4).
  pose proof (find_region_range_spec _ Hm ga (roundup sz PAGE)) as Hf.
  unfold do_munmap. rewrite (proj2 (is_page_aligned_spec ga) Q2). cbv [negb]. msimp.
  simpl in Hsz. specialize (Hf Q1 ltac:(lia) ltac:(lia)).
  destruct (find_region_range _ _ _) as [x|]; [|by split].
  destruct Hf as (r & Hx & Ho). exists r. destruct (ok_position _ _ _ Hm Hx) as (l1 & l2 & El & _ & _).
  destruct (munmap_loop_ok (S (length (mm_regions (w_mm w)))) w (req ga sz) x r l1 l2)
    as (w' & E & Hm' & Hs' & Hf' & Ha & Hsy); try done; [apply Ho|rewrite El, length_app; simpl; lia|].
  exists w'. change (key ga (roundup sz PAGE)) with (req ga sz). rewrite E. by split_and!.
Qed.

(** With nothing overlapping, or the lowest overlapping region found, the
    whole range is unmapped and nothing else. *)
Lemma do_munmap_exact w ga sz :
  mm_ok (w_mm w) -> small_regions (w_mm w) -> req_ok ga sz ->
  (forall x r, find_region_range ga (roundup sz PAGE) (w_mm w) = Some x ->
     heap (w_mm w) !! x = Some r -> lowest (w_mm w) (req ga sz) r) ->
  exists e w', do_munmap ga sz w = Done e w' /\ mm_ok (w_mm w') /\ small_regions (w_mm w') /\
    same_frame w w' /\
    (forall a, aspace (w_mm w') a = if containsb a (req ga sz) then None else aspace (w_mm w) a) /\
    (forall a, ept (w_trace w') a = if containsb a (req ga sz) && bool_decide (is_Some (aspace (w_mm w) a))
                                    then None else ept (w_trace w) a).
Proof.
  intros Hm Hs Hq Hlow. pose proof (do_munmap_ok w ga sz Hm Hs Hq) as H1.
  destruct (find_region_range _ _ _) as [x|].
  - destruct H1 as (r & w' & Hx & Ho & E & Hm' & Hs' & Hf & Ha & He).
    exists 0, w'. specialize (Hlow _ _ eq_refl Hx). split_and!; try done; intros a.
    + rewrite Ha. by apply cut_lowest.
    + rewrite He. by rewrite (cut_lowest_mapped (w_mm w)).
  - destruct H1 as [E Hno].
    assert (forall a, containsb a (req ga sz) = true -> aspace (w_mm w) a = None) as Hn.
    { intros a Ec. apply containsb_spec in Ec as [C1 C2]. apply aspace_None; [done|].
      intros x r Hx [D1 D2]. apply (Hno _ _ Hx). split; lia. }
    exists (- LINUX_ENOMEM), w. split_and!; try done; intros a; specialize (Hn a);
      destruct (containsb a (req ga sz)); simpl; try done; by rewrite Hn by done.
Qed.

(** Recording a region in free space and mapping it in the hypervisor. *)
Lemma record_map_ok w p ga sz pr fl fd off hvp :
  let rn := mk_region p ga sz pr fl fd off in
  mm_ok (w_mm w) -> reg_ok rn -> p mod 4096 = 0 ->
  (forall x r, heap (w_mm w) !! x = Some r -> ~ overlaps rn r) ->
  hv_vm_map_ok (HvUnmap ga sz :: w_trace w) = true ->
  exists w', (_ ← on_mm (record_region p ga sz pr fl fd off); vmm_mmap ga sz hvp p;; mret ga) w
      = Done ga w' /\ mm_ok (w_mm w') /\ same_frame w w' /\
    (forall x r, heap (w_mm w') !! x = Some r -> r = rn \/ exists y, heap (w_mm w) !! y = Some r) /\
    (forall a, aspace (w_mm w') a = if containsb a rn then Some (attr_at rn a) else aspace (w_mm w) a) /\
    (forall a, ept (w_trace w') a = if containsb a rn then Some (host_of (attr_at rn a)) else ept (w_trace w) a) /\
    w_trace w' = HvMap p ga sz hvp :: HvUnmap ga sz :: w_trace w.
Proof.
  intros rn Hm Hr Hp Hno Hhv.
  destruct (record_region_ok _ p ga sz pr fl fd off Hm Hr Hno) as (m' & E & Hm' & Hh & _ & ? & ? & ?).
  apply on_mm_Done in E. msimp. rewrite E. unfold vmm_mmap. msimp.
  rewrite !(proj2 (is_page_aligned_spec _)) by (done || destruct Hr; done).
  unfold call. msimp. simpl. rewrite Hhv. eexists; split; [done|]. simpl.
  pose proof (fun a => record_aspace _ _ _ rn a Hm Hm' (fresh_None _ Hm) Hh) as Ha.
  split_and!; try done.
  - intros x r. rewrite Hh, lookup_insert. case_decide; intros; simplify_eq; eauto.
  - intros a. simpl. unfold containsb. simpl. by destruct (_ && _).
Qed.

(** The range at [addr] is cleared, recorded for the host memory at [p] and mapped. *)
Lemma clear_map_ok w addr len pr fl fd off hvp p :
  let sz := roundup len PAGE in
  let rn := mk_region p addr sz pr fl fd off in
  mm_ok (w_mm w) -> small_regions (w_mm w) -> req_ok addr len -> 0 < addr -> sz <= 2 ^ 31 ->
  p mod 4096 = 0 -> (forall tr, hv_vm_map_ok tr = true) ->
  (forall x r, find_region_range addr sz (w_mm w) = Some x ->
     heap (w_mm w) !! x = Some r -> lowest (w_mm w) (req addr len) r) ->
  exists w', (_ ← do_munmap addr sz; _ ← on_mm (record_region p addr sz pr fl fd off); vmm_mmap addr sz hvp p;; mret addr) w =
      Done addr w' /\
    mm_ok (w_mm w') /\ small_regions (w_mm w') /\ same_frame w w' /\
    (forall a, aspace (w_mm w') a = if containsb a rn then Some (attr_at rn a) else aspace (w_mm w) a) /\
    (forall a, ept (w_trace w') a = if containsb a rn then Some (host_of (attr_at rn a)) else ept (w_trace w) a).
Proof.
  intros sz rn Hm Hs Hq Hpos Hsz Hp Hhv Hlow.
  destruct (req_range _ _ Hq) as [((K1 & K2 & K3) & Ka & Kb & Kc) Hszr].
  unfold req in *; simpl in *. fold sz in K2, K3, Kb, Kc, Hszr.
  assert (req addr sz = req addr len) as Hreq.
  { unfold req. f_equal. change PAGE with 4096 in *. destruct Hq as (? & ? & ? & Hb).
    apply roundup_aligned; [lia|unfold sz in *; lia|done]. }
  assert (roundup sz PAGE = sz) as Hrr by (injection Hreq; done).
  destruct (do_munmap_exact w addr sz) as (e & w2 & E & Hm2 & Hs2 & Hf2 & Ha2 & He2); try done.
  { destruct Hq as (? & ? & ? & Hb). fold sz in Hb. unfold req_ok. rewrite Hrr. lia. }
  { rewrite Hrr, Hreq. exact Hlow. }
  rewrite (bind_Done _ _ _ _ _ E). assert (reg_ok rn) as Hrn by (constructor; simpl; lia).
  assert (forall x r, heap (w_mm w2) !! x = Some r -> ~ overlaps rn r) as Hno.
  { intros x r Hx [O1 O2]. simpl in *. set (a := Z.max addr (gaddr r)).
    destruct (ok_reg _ Hm2 _ _ Hx).
    assert (contains r a) as Hc by (unfold contains, a; lia).
    specialize (Ha2 a). rewrite (aspace_in _ Hm2 _ _ _ Hx Hc), Hreq in Ha2.
    assert (containsb a (req addr len) = true) as Hca.
    { apply containsb_spec. unfold contains, req, a. simpl. fold sz. lia. }
    by rewrite Hca in Ha2. }
  destruct (record_map_ok w2 p addr sz pr fl fd off hvp Hm2 Hrn Hp Hno (Hhv _)) as (w3 & E3 & Hm3 & Hf3 & Hh3 & Ha3 & He3 & _).
  exists w3. split_and!; [exact E3|done| | | |].
  - intros x r Hx. destruct (Hh3 _ _ Hx) as [->|[y Hy]]; [done|eauto].
  - by etransitivity.
  - intros a. rewrite Ha3. fold rn. destruct (containsb a rn) eqn:Ec; [done|].
    rewrite Ha2, Hreq. unfold req. fold sz. unfold containsb in *. simpl in *. by rewrite Ec.
  - intros a. rewrite He3. fold rn. destruct (containsb a rn) eqn:Ec; [done|].
    rewrite He2, Hreq. unfold req. fold sz. unfold containsb in *. simpl in *. by rewrite Ec.
Qed.

(** From the host's answer on *)
Lemma mmap_at_ok w addr len d_prot l_prot fl fd off p :
  let sz := roundup len PAGE in
  let rn := mk_region p addr sz l_prot fl fd (s32 off) in
  mm_ok (w_mm w) -> small_regions (w_mm w) -> req_ok addr len -> 0 < addr -> sz <= 2 ^ 31 ->
  host_mmap (w_trace w) sz d_prot (linux_to_darwin_mflags fl) fd off = inl p ->
  p mod 4096 = 0 -> (forall tr, hv_vm_map_ok tr = true) ->
  (forall x r, find_region_range addr sz (w_mm w) = Some x ->
     heap (w_mm w) !! x = Some r -> lowest (w_mm w) (req addr len) r) ->
  exists w', mmap_at addr sz d_prot l_prot fl fd off w = Done addr w' /\
    mm_ok (w_mm w') /\ small_regions (w_mm w') /\ same_frame w w' /\
    (forall a, aspace (w_mm w') a = if containsb a rn then Some (attr_at rn a) else aspace (w_mm w) a) /\
    (forall a, ept (w_trace w') a = if containsb a rn then Some (host_of (attr_at rn a)) else ept (w_trace w) a).
Proof.
  intros sz rn Hm Hs Hq Hpos Hsz Hhost Hp Hhv Hlow. unfold mmap_at. rewrite (bind_Done _ _ w w w) by done. rewrite Hhost.
  set (w1 := mk_world (w_mm w) (w_vkern w) (noah_kern_brk w)
               (HMmap sz d_prot (linux_to_darwin_mflags fl) fd off (Some p) :: w_trace w)).
  rewrite (bind_Done _ _ w tt w1) by done.
  destruct (clear_map_ok w1 addr len l_prot fl fd (s32 off) (linux_mprot_to_hv_mflag l_prot) p)
    as (w' & E & Hm' & Hs' & Hf & Ha & He); try done.
  exists w'. split_and!; try done. etransitivity; [|exact Hf]. by constructor.
Qed.

End Munmap.
