(* ===== verification/MmInv.v ===== *)
(** * The invariant of the memory subsystem

    A step relation over the memory system calls and [kmap], and the invariant
    every reachable state satisfies: both [struct mm]s are well formed and the
    hypervisor's guest-physical map agrees with the regions, so the address
    translation the kernel computes in software ([guest_to_host]) is the one
    the guest runs with. *)

From S2P Require Import Prelude RBTree Const Errno Mm Mmap MmapFacts.

(** ** The invariant *)

(** The addresses the process uses end at [lim], which leaves two pages at the end
    of the address space.  The code means [user_addr_max], but checks it nowhere. *)
Class Limit (lim : Z) : Prop := {
  limit_low : user_addr_max <= lim;
  limit_high : lim <= 2 ^ 64 - 8192;
  limit_al : lim mod 4096 = 0;
}.
#[export] Instance user_limit : Limit user_addr_max.
Proof. constructor; unfold user_addr_max; [lia|lia|done]. Qed.
(** The largest one. *)
Definition addr_limit : Z := 2 ^ 64 - 8192.
#[export] Instance addr_limit_ok : Limit addr_limit.
Proof. constructor; unfold user_addr_max, addr_limit; [lia|lia|done]. Qed.

(** Both [struct mm]s are well formed, and the hypervisor was told what the regions
    say: at every address, or, when the process may have mapped addresses of the
    kernel, at every address without a kernel region. *)
Record winv_below (lim : Z) (w : world) : Prop := {
  inv_mm : mm_ok (w_mm w);
  inv_small : small_regions (w_mm w);
  inv_user a : is_Some (aspace (w_mm w) a) -> a < lim;
  inv_vkern : mm_ok (w_vkern w);
  inv_kern a : is_Some (aspace (w_vkern w) a) -> user_addr_max <= a < noah_kern_brk w;
  inv_kbrk : user_addr_max <= noah_kern_brk w;
  inv_kbrk_al : noah_kern_brk w mod 4096 = 0;
  inv_top : 0 < current_mmap_top (w_mm w) <= lim;
  inv_top_al : current_mmap_top (w_mm w) mod 4096 = 0;
  inv_brk : 0 <= current_brk (w_mm w) <= lim;
  inv_brk_al : current_brk (w_mm w) mod 4096 = 0;
  inv_sync_at a : lim <= user_addr_max \/ aspace (w_vkern w) a = None ->
    ept (w_trace w) a = host_of <$> match aspace (w_mm w) a with Some p => Some p | None => aspace (w_vkern w) a end;
}.
Arguments inv_mm {lim} _ _.
Arguments inv_small {lim} _ _.
Arguments inv_user {lim} _ _.
Arguments inv_vkern {lim} _ _.
Arguments inv_kern {lim} _ _.
Arguments inv_kbrk {lim} _ _.
Arguments inv_kbrk_al {lim} _ _.
Arguments inv_top {lim} _ _.
Arguments inv_top_al {lim} _ _.
Arguments inv_brk {lim} _ _.
Arguments inv_brk_al {lim} _ _.
Arguments inv_sync_at {lim} _ _.

(** For a process that stays in its own addresses. *)
Abbreviation winv := (winv_below user_addr_max).

Lemma inv_sync w : winv w -> forall a, ept (w_trace w) a =
  host_of <$> match aspace (w_mm w) a with Some p => Some p | None => aspace (w_vkern w) a end.
Proof. intros Hw a. apply (inv_sync_at _ Hw). by left. Qed.

(** Arithmetic with the bounds of [lim]. *)
Ltac limia := pose proof limit_low; pose proof limit_high; unfold user_addr_max in *; lia.

Section Inv.
Context {lim : Z}.
Implicit Types (w : world) (m : mm).

Lemma inv_user_kern w a : winv_below lim w -> a < user_addr_max -> aspace (w_vkern w) a = None.
Proof.
  intros Hw Ha. destruct (aspace (w_vkern w) a) eqn:E; [|done].
  destruct (inv_kern _ Hw a); [by rewrite E|lia].
Qed.

Lemma inv_region w x r : winv_below lim w -> heap (w_mm w) !! x = Some r -> gaddr r + size r <= lim.
Proof.
  intros Hw Hx. destruct (ok_reg _ (inv_mm _ Hw) _ _ Hx).
  assert (gaddr r + size r - 1 < lim); [|lia].
  apply (inv_user _ Hw). rewrite (aspace_in _ (inv_mm _ Hw) _ _ _ Hx); [by eexists|].
  unfold contains. lia.
Qed.

(** A step of the process's part of the state: each address either keeps its
    translation or is a user address whose new translation agrees. *)
Lemma winv_step w w' :
  winv_below lim w -> mm_ok (w_mm w') -> small_regions (w_mm w') ->
  w_vkern w' = w_vkern w -> noah_kern_brk w' = noah_kern_brk w ->
  (0 < current_mmap_top (w_mm w') <= lim /\ current_mmap_top (w_mm w') mod 4096 = 0) ->
  (0 <= current_brk (w_mm w') <= lim /\ current_brk (w_mm w') mod 4096 = 0) ->
  (forall a,
     (host_of <$> aspace (w_mm w') a = host_of <$> aspace (w_mm w) a /\
      ept (w_trace w') a = ept (w_trace w) a) \/
     (a < lim /\ ept (w_trace w') a = host_of <$> aspace (w_mm w') a)) ->
  winv_below lim w'.
Proof.
  intros Hw Hm Hs Hv Hk [Ht1 Ht2] [Hb1 Hb2] Ha. constructor; rewrite ?Hv, ?Hk; try (by destruct Hw).
  - intros a Hsome. destruct (Ha a) as [[E _]|[? _]]; [|done]. apply (inv_user _ Hw).
    destruct Hsome as [p Hp]. rewrite Hp in E. destruct (aspace (w_mm w) a); [by eexists|done].
  - intros a. destruct (Ha a) as [[E ->]|[Hlt ->]].
    + intros Hg. rewrite (inv_sync_at _ Hw) by done. destruct (aspace (w_mm w) a), (aspace (w_mm w') a); simpl in *; congruence.
    + intros Hg. assert (aspace (w_vkern w) a = None) as ->; [|by destruct (aspace (w_mm w') a)].
      destruct Hg; [|done]. apply inv_user_kern; [done|lia].
Qed.

Lemma winv_same_frame w w' :
  winv_below lim w -> mm_ok (w_mm w') -> small_regions (w_mm w') -> same_frame w w' ->
  (forall a,
     (host_of <$> aspace (w_mm w') a = host_of <$> aspace (w_mm w) a /\
      ept (w_trace w') a = ept (w_trace w) a) \/
     (a < lim /\ ept (w_trace w') a = host_of <$> aspace (w_mm w') a)) ->
  winv_below lim w'.
Proof.
  intros Hw Hm Hs [] Ha. eapply winv_step; try done; split;
    rewrite ?sf_top, ?sf_brk; by destruct Hw.
Qed.

(** The kernel's translation is the hypervisor's. *)
Lemma find_region_aspace m ga :
  mm_ok m -> 0 <= ga < 2 ^ 64 - 1 ->
  match find_region ga m with
  | Some x => exists r, heap m !! x = Some r /\ aspace m ga = Some (attr_at r ga)
  | None => aspace m ga = None
  end.
Proof.
  intros Hm Hg. pose proof (find_region_spec m Hm ga Hg) as Hf.
  destruct (find_region ga m) as [x|].
  - destruct Hf as (r & Hx & Hc). exists r. split; [done|]. by eapply aspace_in.
  - by apply aspace_None.
Qed.

Lemma guest_to_host_aspace m v ga :
  mm_ok m -> mm_ok v -> 0 <= ga < 2 ^ 64 - 1 ->
  guest_to_host m v ga = host_of <$> match aspace m ga with Some p => Some p | None => aspace v ga end.
Proof.
  intros Hm Hv Hg. unfold guest_to_host.
  pose proof (find_region_aspace m ga Hm Hg) as Hf. destruct (find_region ga m) as [x|].
  { destruct Hf as (r & -> & ->). done. }
  rewrite Hf. pose proof (find_region_aspace v ga Hv Hg) as Hf'. destruct (find_region ga v) as [x|].
  { destruct Hf' as (r & -> & ->). done. }
  by rewrite Hf'.
Qed.

End Inv.

(** ** The operations keep the invariant *)

(** [record_region] returns only for a region disjoint from the others. *)
Lemma record_region_ensures m ha ga sz pr fl fd off (Q : ptr -> mm -> Prop) :
  let rn := mk_region ha ga sz pr fl fd off in
  mm_ok m -> (ga = 0 \/ reg_ok rn) ->
  (forall m', reg_ok rn -> (forall x r, heap m !! x = Some r -> ~ overlaps rn r) -> mm_ok m' ->
     heap m' = <[brkptr m := rn]> (heap m) -> brkptr m' = Pos.succ (brkptr m) ->
     start_brk m' = start_brk m -> current_brk m' = current_brk m ->
     current_mmap_top m' = current_mmap_top m -> Q (brkptr m) m') ->
  ensures (record_region ha ga sz pr fl fd off) Q m.
Proof.
  intros rn Hm [->|Hr] HQ; [done|].
  pose proof (find_region_range_spec m Hm ga sz) as Hf. destruct (reg_key_ok _ Hr) as (? & ? & ?).
  simpl in *. destruct (find_region_range ga sz m) as [x|].
  - destruct Hf as (r & Hx & Ho); [lia..|].
    destruct (record_region_overlap m ha ga sz pr fl fd off x r) as [m' E]; try done.
    unfold ensures. by rewrite E.
  - destruct (record_region_ok m ha ga sz pr fl fd off) as (m' & E & ? & ? & ? & ? & ? & ?); try done.
    { intros x r. by apply Hf; lia. }
    eapply ensures_Done; [done|]. apply HQ; try done. intros x r. by apply Hf; lia.
Qed.

Lemma on_mm_ensures {A} (c : M mm A) (Q : A -> world -> Prop) w :
  ensures c (fun a m => Q a (mk_world m (w_vkern w) (noah_kern_brk w) (w_trace w))) (w_mm w) ->
  ensures (on_mm c) Q w.
Proof. unfold ensures, on_mm. by destruct (c (w_mm w)). Qed.

Lemma on_vkern_ensures {A} (c : M mm A) (Q : A -> world -> Prop) w :
  ensures c (fun a m => Q a (mk_world (w_mm w) m (noah_kern_brk w) (w_trace w))) (w_vkern w) ->
  ensures (on_vkern c) Q w.
Proof. unfold ensures, on_vkern. by destruct (c (w_vkern w)). Qed.

Lemma region_at_ensures x (Q : mm_region -> world -> Prop) w :
  (forall r, heap (w_mm w) !! x = Some r -> Q r w) -> ensures (on_mm (region_at x)) Q w.
Proof.
  intros HQ. destruct (heap (w_mm w) !! x) as [r|] eqn:E.
  - eapply ensures_Done; [by apply on_mm_region_at|eauto].
  - unfold ensures, on_mm, region_at. msimp. by rewrite E.
Qed.

(** Recording does not see an unlinked object that is still allocated. *)
Lemma insert_descend_ext {A} (f g : A -> Z) (t : rbtree A) p :
  (forall z, z ∈ elements t -> f z = g z) -> insert_descend f t p = insert_descend g t p.
Proof.
  revert p. induction t as [|c l IHl x r IHr]; intros p Hfg; [done|]. simpl.
  rewrite (Hfg x) by (simpl; set_solver).
  rewrite IHl by (intros; apply Hfg; simpl; set_solver).
  rewrite IHr by (intros; apply Hfg; simpl; set_solver). done.
Qed.

Lemma record_region_stale m x r ha ga sz pr fl fd off (Q : ptr -> mm -> Prop) :
  let m0 := set_heap (delete x (heap m)) m in
  heap m !! x = Some r -> mm_ok m0 -> x <> brkptr m ->
  ensures (record_region ha ga sz pr fl fd off)
    (fun n m' => Q n (set_heap (<[x := r]> (heap m')) m')) m0 ->
  ensures (record_region ha ga sz pr fl fd off) Q m.
Proof.
  intros m0 Hx Hm Hne. unfold ensures, record_region, RB_INSERT. msimp.
  destruct (negb (ga =? 0)); [|done]. simpl.
  set (rn := mk_region _ _ _ _ _ _ _).
  assert (forall z, z ∈ elements (mm_region_tree m) ->
    ptr_compare (<[brkptr m := rn]> (heap m)) (brkptr m) z =
    ptr_compare (<[brkptr m := rn]> (delete x (heap m))) (brkptr m) z) as Hc.
  { intros z Hz. unfold ptr_compare, probe. rewrite !lookup_insert_eq.
    assert (z <> x) as Hzx.
    { intros ->. apply (ok_in_heap _ Hm) in Hz. simpl in Hz. rewrite lookup_delete_eq in Hz. by destruct Hz. }
    rewrite !lookup_insert. case_decide; [done|]. by rewrite lookup_delete_ne. }
  rewrite (insert_descend_ext _ _ _ [] Hc).
  destruct (insert_descend _ _ []) as [y|p]; [done|].
  destruct (RB_INSERT_COLOR _ p) as [t|]; [|done]. simpl.
  destruct (locate (brkptr m) t []) as [[n p']|]; [|done]. simpl.
  unfold set_heap, set_tree, set_list. simpl.
  rewrite insert_insert_ne, insert_delete_eq by done. rewrite (insert_id (heap m)) by done. done.
Qed.

(** What is documented of the host: [mmap] refuses an empty mapping. *)
Class HostOk `{Host} : Prop := {
  host_mmap_empty tr p f fd off : exists e, host_mmap tr 0 p f fd off = inr e;
}.

Section Ops.
Context `{HostOk} `{DarwinErrno} {lim : Z} `{!Limit lim}.

(** Everything but the process's regions and the trace of calls. *)
Lemma do_munmap_inv w ga sz :
  winv_below lim w -> 0 <= ga -> 0 < sz < 2 ^ 64 - 4096 -> ga + roundup sz PAGE < 2 ^ 64 - 4096 ->
  exists e w', do_munmap ga sz w = Done e w' /\ winv_below lim w' /\ same_frame w w'.
Proof.
  intros Hw Hg Hs Hb. destruct (Z.eq_dec (ga mod 4096) 0) as [Hal|Hal].
  2: { exists (- LINUX_EINVAL), w. unfold do_munmap.
       destruct (is_page_aligned ga PAGE_4KB) eqn:E; [|done].
       by rewrite is_page_aligned_spec in E. }
  pose proof (do_munmap_ok w ga sz (inv_mm _ Hw) (inv_small _ Hw)) as Hd.
  destruct (find_region_range _ _ _) as [x|].
  - destruct Hd as (r & w' & _ & _ & E & Hm & Hsm & Hf & Ha & He); [done|].
    exists 0, w'. split_and!; try done. eapply winv_same_frame; try done.
    intros a. rewrite He, Ha. pose proof (inv_user _ Hw a) as Hu.
    destruct (cut _ r a); [|by left]. simpl. case_bool_decide as Hd; [|left; split; [|done]].
    + right. split; [by apply Hu|done].
    + destruct (aspace (w_mm w) a); [by destruct Hd|done].
  - destruct Hd as [E _]; [done|]. by eexists _, w.
Qed.

Lemma vmm_mmap_ensures ga sz pr ha (Q : unit -> world -> Prop) w :
  Q tt (mk_world (w_mm w) (w_vkern w) (noah_kern_brk w)
          (HvMap ha ga sz pr :: HvUnmap ga sz :: w_trace w)) ->
  ensures (vmm_mmap ga sz pr ha) Q w.
Proof.
  intros HQ. unfold vmm_mmap, call. repeat estep; done.
Qed.

Lemma vmm_munmap_ensures ga sz (Q : unit -> world -> Prop) w :
  Q tt (mk_world (w_mm w) (w_vkern w) (noah_kern_brk w) (HvUnmap ga sz :: w_trace w)) ->
  ensures (vmm_munmap ga sz) Q w.
Proof. intros HQ. unfold vmm_munmap. do 2 estep. by apply ensures_modify. Qed.

(** A new region of user addresses, recorded and mapped. *)
Lemma record_map_inv w p ga sz pr fl fd off hvp (Q : Z -> world -> Prop) :
  winv_below lim w -> 0 <= ga -> 0 < sz <= 2 ^ 31 -> ga mod 4096 = 0 -> sz mod 4096 = 0 ->
  ga + sz <= lim ->
  (forall w', winv_below lim w' -> same_frame w w' -> Q ga w') ->
  ensures (_ ← on_mm (record_region p ga sz pr fl fd off); vmm_mmap ga sz hvp p;; mret ga) Q w.
Proof.
  intros Hw Hg Hs Ha1 Ha2 Hb HQ. estep. apply on_mm_ensures, record_region_ensures; [apply Hw| |].
  { destruct (Z.eq_dec ga 0); [by left|right]. constructor; simpl; limia. }
  intros m' Hr Hno Hm' Hh _ Hst Hbrk Htop. estep. apply vmm_mmap_ensures, HQ; [|by constructor].
  pose proof (fun a => record_aspace _ _ _ _ a (inv_mm _ Hw) Hm' (fresh_None _ (inv_mm _ Hw)) Hh) as Ha.
  eapply winv_same_frame; [done|done| |by constructor|].
  - intros x r. simpl. rewrite Hh, lookup_insert. case_decide; intros; simplify_eq; [simpl; lia|].
    by eapply inv_small.
  - intros a. simpl. rewrite Ha. unfold containsb. simpl.
    destruct (_ && _) eqn:E; [right|by left]. split; [|done].
    apply andb_true_iff in E as [_ E]. apply Z.ltb_lt in E. lia.
Qed.

(** Host calls that do not touch the guest-physical map. *)
Definition silent (e : hostcall) : bool :=
  match e with HvVmCreate | HvMap _ _ _ _ | HvUnmap _ _ => false | _ => true end.

Lemma call_silent e (Q : unit -> world -> Prop) w :
  winv_below lim w -> silent e = true -> (forall w', winv_below lim w' -> same_frame w w' -> w_mm w' = w_mm w -> Q tt w') ->
  ensures (call e) Q w.
Proof.
  intros Hw He HQ. unfold call. estep. apply HQ; [|by constructor|done].
  apply (winv_same_frame w); [done|exact (inv_mm _ Hw)|exact (inv_small _ Hw)|by constructor|].
  intros a. left. by destruct e.
Qed.

Definition map_args_ok (addr len : Z) : Prop :=
  0 <= addr /\ 0 <= len <= 2 ^ 31 /\ addr mod 4096 = 0 /\ len mod 4096 = 0 /\
  addr + len <= lim.

Lemma mmap_at_inv w addr len d_prot l_prot fl fd off :
  winv_below lim w -> map_args_ok addr len ->
  ensures (mmap_at addr len d_prot l_prot fl fd off) (fun _ w' => winv_below lim w') w.
Proof.
  intros Hw (Ha & Hl & Ha1 & Ha2 & Hb). unfold mmap_at. do 2 estep.
  destruct (host_mmap _ _ _ _ _ _) as [p|e] eqn:Eh.
  2: { estep. apply call_silent; [done..|]. intros w' Hw' _ _. by estep. }
  assert (len <> 0) as Hl0.
  { intros ->. destruct (host_mmap_empty (w_trace w) d_prot (linux_to_darwin_mflags fl) fd off). congruence. }
  estep. apply call_silent; [done..|]. intros w1 Hw1 _ _. estep.
  destruct (do_munmap_inv w1 addr len) as (e & w2 & E & Hw2 & _); [done|done| | |].
  { limia. }
  { change PAGE with 4096. rewrite roundup_aligned; limia. }
  eapply ensures_Done; [exact E|]. apply record_map_inv; try done. lia.
Qed.

Lemma winv_top w t :
  winv_below lim w -> 0 < t <= lim -> t mod 4096 = 0 ->
  winv_below lim (mk_world (set_mmap_top t (w_mm w)) (w_vkern w) (noah_kern_brk w) (w_trace w)).
Proof.
  intros Hw Ht Hal. eapply winv_step; try done; simpl; try (by destruct Hw).
  - destruct (inv_mm _ Hw). by constructor.
  - intros a. by left.
Qed.

Lemma winv_brk w t :
  winv_below lim w -> 0 <= t <= lim -> t mod 4096 = 0 ->
  winv_below lim (mk_world (set_current_brk t (w_mm w)) (w_vkern w) (noah_kern_brk w) (w_trace w)).
Proof.
  intros Hw Ht Hal. eapply winv_step; try done; simpl; try (by destruct Hw).
  - destruct (inv_mm _ Hw). by constructor.
  - intros a. by left.
Qed.

(** The arguments for which a mapping stays within the user's addresses: the
    range of a fixed mapping, the next free range of another. *)
Definition mmap_guard (lim : Z) (w : world) (addr len flags : Z) : Prop :=
  0 <= len <= 2 ^ 31 - 4096 /\ 0 <= addr /\
  (if testf (mmap_flags flags) LINUX_MAP_FIXED then addr else current_mmap_top (w_mm w))
    + roundup len PAGE <= lim.

Lemma alloc_region_ensures w len (Q : Z -> world -> Prop) :
  winv_below lim w -> 0 <= len -> len mod 4096 = 0 -> current_mmap_top (w_mm w) + len <= lim ->
  (forall w', winv_below lim w' -> mm_region_tree (w_mm w') = mm_region_tree (w_mm w) ->
     heap (w_mm w') = heap (w_mm w) -> Q (current_mmap_top (w_mm w)) w') ->
  ensures (alloc_region len) Q w.
Proof.
  intros Hw Hl Hal Hb HQ. pose proof (inv_top _ Hw). pose proof (inv_top_al _ Hw).
  unfold alloc_region. change PAGE with 4096.
  rewrite (roundup_aligned len 4096) by limia. estep. apply on_mm_ensures. do 4 estep. simpl.
  rewrite (wrap_small 64 (_ + len)) by limia. rewrite wrap_small by limia.
  replace (current_mmap_top (w_mm w) + len - len) with (current_mmap_top (w_mm w)) by lia.
  apply HQ; [|done..]. apply winv_top; [done|lia|].
  rewrite Zplus_mod, Hal. by replace (current_mmap_top (w_mm w) mod 4096) with 0.
Qed.

Lemma do_mmap_inv w addr len d_prot l_prot fl fd off :
  winv_below lim w -> mmap_guard lim w addr len fl ->
  ensures (do_mmap addr len d_prot l_prot fl fd off) (fun _ w' => winv_below lim w') w.
Proof.
  intros Hw (Hl & Ha & Hg). unfold do_mmap. do 2 estep.
  assert (addr mod 4096 = 0) as Hal.
  { rewrite <- is_page_aligned_spec. done. }
  destruct (roundup_spec len PAGE) as [Hr Hrm]; [done|lia|change PAGE with 4096; lia|].
  change PAGE with 4096 in *.
  estep; [estep|]. estep. estep.
  - estep. apply mmap_at_inv; [done|]. unfold map_args_ok. lia.
  - pose proof (inv_top _ Hw). pose proof (inv_top_al _ Hw).
    apply alloc_region_ensures; try done; [lia|]. intros w' Hw' _ _. apply mmap_at_inv; [done|].
    unfold map_args_ok. lia.
Qed.

Definition brk_guard (lim : Z) (w : world) (brk : Z) : Prop :=
  0 <= brk <= lim /\ brk - current_brk (w_mm w) <= 2 ^ 31 - 4096.

Lemma set_brk_ensures w t (Q : Z -> world -> Prop) :
  winv_below lim w -> 0 <= t <= lim -> t mod 4096 = 0 ->
  (forall w', winv_below lim w' -> Q t w') ->
  ensures (on_mm (modify (set_current_brk t));; mret t) Q w.
Proof.
  intros Hw Ht Hal HQ. estep. apply on_mm_ensures. do 2 estep. apply HQ. by apply winv_brk.
Qed.

Lemma sys_brk_inv w brk :
  winv_below lim w -> brk_guard lim w brk -> ensures (sys_brk brk) (fun _ w' => winv_below lim w') w.
Proof.
  intros Hw [Hb Hg]. pose proof (inv_brk _ Hw) as Hc. pose proof (inv_brk_al _ Hw) as Hca.
  destruct (roundup_spec brk PAGE) as [Hr Hrm]; [done|lia|change PAGE with 4096; limia|].
  assert (roundup brk PAGE <= lim) as Hru.
  { pose proof limit_al. change PAGE with 4096 in *. Z.div_mod_to_equations. lia. }
  unfold sys_brk. set (b := roundup brk PAGE) in *. change PAGE with 4096 in *.
  assert ((b - current_brk (w_mm w)) mod 4096 = 0) as Hd by (Z.div_mod_to_equations; lia).
  assert ((current_brk (w_mm w) - b) mod 4096 = 0) as Hd' by (Z.div_mod_to_equations; lia).
  do 2 estep. estep; [by estep|]. estep.
  - apply Z.ltb_lt in Heqb1. estep. rewrite wrap_small by (limia).
    destruct (do_munmap_inv w b (current_brk (w_mm w) - b)) as (e & w' & E & Hw' & _);
      [done|lia|limia| |].
    { change PAGE with 4096. rewrite roundup_aligned; limia. }
    eapply ensures_Done; [exact E|]. apply set_brk_ensures; auto. lia.
  - apply Z.ltb_ge in Heqb1. estep. rewrite wrap_small by (limia).
    eapply ensures_mono; [|apply do_mmap_inv; [done|]].
    + intros ? w' Hw'. simpl. apply set_brk_ensures; auto. lia.
    + unfold mmap_guard. change PAGE with 4096. simpl.
      rewrite roundup_aligned by limia.
      assert (b - current_brk (w_mm w) <= 2 ^ 31 - 4096) by (Z.div_mod_to_equations; lia). lia.
Qed.

Lemma sys_msync_inv w addr len flags :
  winv_below lim w -> ensures (sys_msync addr len flags) (fun _ w' => winv_below lim w') w.
Proof.
  intros Hw. unfold sys_msync. do 2 estep. destruct (find_region addr (w_mm w)) as [x|]; [|by estep].
  estep. apply region_at_ensures. intros r Hr. estep; [by estep|]. estep; [by estep|].
  destruct (host_msync _ _ _ _) as [c e]. estep. apply call_silent; [done..|]. intros w' Hw' _ _. by estep.
Qed.

(** [kmap] hands out kernel addresses from the bottom up. *)
Lemma kmap_inv w p sz flags :
  winv_below lim w -> 0 < sz -> noah_kern_brk w + sz < 2 ^ 64 ->
  ensures (kmap p sz flags) (fun ga w' => winv_below lim w' /\ ga = noah_kern_brk w /\
    noah_kern_brk w' = noah_kern_brk w + sz /\ w_mm w' = w_mm w) w.
Proof.
  intros Hw Hs Hb. pose proof (inv_kbrk _ Hw) as Hk. pose proof (inv_kbrk_al _ Hw) as Hka.
  unfold kmap. do 4 estep.
  assert (sz mod 4096 = 0) as Hsz by (rewrite <- is_page_aligned_spec; done).
  do 2 estep. estep. apply on_vkern_ensures, record_region_ensures; [apply Hw| |].
  { right. unfold user_addr_max in *. constructor; simpl; lia. }
  intros m' Hr Hno Hm' Hh _ _ _ _. estep. apply vmm_mmap_ensures. simpl. do 5 estep. simpl.
  rewrite (wrap_small 64 (_ + sz)) by (limia).
  rewrite wrap_small by (limia).
  pose proof (fun a => record_aspace _ _ _ _ a (inv_vkern _ Hw) Hm' (fresh_None _ (inv_vkern _ Hw)) Hh) as Ha.
  split_and!; [|lia|done..]. constructor; simpl; try (by destruct Hw); [|lia| |].
  - intros a. rewrite Ha. pose proof (inv_kern _ Hw a) as Hka'. unfold containsb. simpl.
    zcases; simpl; intros Ho; try (specialize (Hka' Ho)); lia.
  - rewrite Zplus_mod, Hsz, Hka. done.
  - intros a. rewrite Ha. unfold containsb. simpl. pose proof (inv_user _ Hw a) as Hu.
    destruct (_ && _) eqn:E; [|by apply (inv_sync_at _ Hw)]. intros [Hlim|]; [|done].
    apply andb_true_iff in E as [E _]. apply Z.leb_le in E.
    destruct (aspace (w_mm w) a); [|done]. assert (a < lim) by auto. lia.
Qed.

Lemma winv_update w x r r' tr :
  winv_below lim w -> heap (w_mm w) !! x = Some r -> gaddr r' = gaddr r -> haddr r' = haddr r ->
  0 < size r' <= size r -> size r' mod 4096 = 0 ->
  (forall a, ept tr a = if containsb a r && negb (containsb a r') then None else ept (w_trace w) a) ->
  winv_below lim (mk_world (set_heap (<[x := r']> (heap (w_mm w))) (w_mm w)) (w_vkern w) (noah_kern_brk w) tr).
Proof.
  intros Hw Hx Hg Hh Hs Hal He. pose proof (inv_region _ _ _ Hw Hx) as Hu.
  apply (winv_same_frame w); [done|by eapply update_ok, Hal; eauto using inv_mm| |by constructor|].
  - intros y ry. simpl. rewrite lookup_insert. case_decide; [|by apply (inv_small _ Hw)].
    intros [= <-]. pose proof (inv_small _ Hw _ _ Hx). lia.
  - intros a. simpl. rewrite He. rewrite (update_aspace _ _ r r' (inv_mm _ Hw) Hx Hg Hs Hal).
    destruct (containsb a r) eqn:E; [|by left].
    assert (a < lim) as Hlt by (apply containsb_spec in E; unfold contains in E; lia).
    destruct (containsb a r') eqn:E'; simpl; [left|by right].
    rewrite (aspace_in _ (inv_mm _ Hw) x r) by (done || by apply containsb_spec). simpl.
    unfold host_of, attr_at. simpl. by rewrite Hg, Hh.
Qed.

Lemma call_silent_eq e (Q : unit -> world -> Prop) w :
  Q tt (mk_world (w_mm w) (w_vkern w) (noah_kern_brk w) (e :: w_trace w)) -> ensures (call e) Q w.
Proof. done. Qed.

Lemma protect_region_ensures w x hvprot pr (Q : unit -> world -> Prop) :
  winv_below lim w ->
  (forall w', winv_below lim w' -> Q tt w') -> ensures (protect_region x hvprot pr) Q w.
Proof.
  intros Hw HQ. unfold protect_region. estep. apply region_at_ensures. intros r Hx.
  do 2 (estep; apply call_silent_eq). apply on_mm_ensures. unfold region_upd. estep. apply HQ. simpl.
  destruct (ok_reg _ (inv_mm _ Hw) _ _ Hx).
  apply (winv_update w x r (region_set_prot hvprot r)); simpl; try done; try lia. intros a. simpl. unfold containsb. simpl.
  by rewrite andb_negb_r.
Qed.

Lemma split_ensures w x ga (Q : unit -> world -> Prop) :
  winv_below lim w -> (forall r, heap (w_mm w) !! x = Some r -> gaddr r < ga < gaddr r + size r /\ ga mod 4096 = 0) ->
  (forall w', winv_below lim w' -> same_frame w w' -> Q tt w') -> ensures (on_mm (split_region x ga)) Q w.
Proof.
  intros Hw Hr HQ. destruct (heap (w_mm w) !! x) as [r|] eqn:Hx.
  2: { unfold ensures, on_mm, split_region, region_at. msimp. destruct (is_page_aligned _ _); [|done].
       by rewrite Hx. }
  destruct (Hr r eq_refl) as [Hga Hal]. destruct (ok_position _ _ _ (inv_mm _ Hw) Hx) as (l1 & l2 & El & _).
  destruct (split_world w x r ga l1 l2) as (w' & y & E & Hm & Hs & Hf & Ht & _ & _ & _ & Ha);
    try done; [apply Hw..|].
  eapply ensures_Done; [exact E|]. apply HQ; [|done]. apply (winv_same_frame w); try done.
  intros a. left. by rewrite Ha, Ht.
Qed.

Lemma mprotect_loop_inv fuel : forall w x end_ hvprot pr (Q : Z + ptr -> world -> Prop),
  winv_below lim w ->
  (forall e w', winv_below lim w' -> Q (inl e) w') ->
  (forall y w', winv_below lim w' -> (forall r, heap (w_mm w') !! y = Some r -> end_ < gaddr r + size r) -> Q (inr y) w') ->
  ensures (mprotect_loop fuel x end_ hvprot pr) Q w.
Proof.
  induction fuel as [|fuel IH]; intros w x end_ hvprot pr Q Hw Q1 Q2; [done|]. simpl.
  estep. apply region_at_ensures. intros r Hx.
  destruct (ok_reg _ (inv_mm _ Hw) _ _ Hx). rewrite (wrap_small 64 (gaddr r + size r)) by lia. estep.
  - estep. apply protect_region_ensures; [done|]. intros w1 Hw1. do 2 estep.
    destruct (list_next x _) as [n|]; [|by estep; apply Q1]. estep.
    apply region_at_ensures. intros rn Hn. estep; [by estep; apply Q1|]. by apply IH.
  - estep. apply Q2; [done|]. intros r'. rewrite Hx. intros [= <-]. apply Z.leb_gt in Heqb. lia.
Qed.

Lemma sys_mprotect_inv w addr len pr :
  winv_below lim w -> 0 <= addr -> 0 <= len -> addr + len <= lim ->
  ensures (sys_mprotect addr len pr) (fun _ w' => winv_below lim w') w.
Proof.
  intros Hw Ha Hl Hb. unfold sys_mprotect. estep; [by estep|].
  apply orb_false_iff in Heqb as [Hal Hl0]. apply negb_false_iff, is_page_aligned_spec in Hal.
  destruct (roundup_spec len PAGE) as [Hr Hrm]; [done|done|change PAGE with 4096; limia|].
  change PAGE with 4096 in *. rewrite (wrap_small 64 (addr + _)) by (limia).
  set (e := addr + roundup len 4096) in *. assert (e mod 4096 = 0) as He by (unfold e; rewrite Zplus_mod, Hal, Hrm; done).
  do 2 estep.
  pose proof (find_region_spec _ (inv_mm _ Hw) addr) as Hf.
  destruct (find_region addr (w_mm w)) as [x|]; [|by estep].
  destruct Hf as (r & Hx & Hc); [limia|].
  estep. apply region_at_ensures. rewrite Hx. intros r' [= <-].
  assert (forall x w', winv_below lim w' -> ensures (w ← get;
      o ← mprotect_loop (length (mm_regions (w_mm w))) x e (linux_mprot_to_hv_mflag pr) pr;
      match o with
      | inl e => mret (u64 e)
      | inr x =>
        r ← on_mm (region_at x);
        when_ (gaddr r <? e) (
          on_mm (split_region x e);;
          protect_region x (linux_mprot_to_hv_mflag pr) pr);;
        mret (u64 0)
      end) (fun _ w' => winv_below lim w') w') as Hrest.
  { intros y w' Hw'. do 3 estep. apply mprotect_loop_inv; [done|by intros; estep|].
    intros z w2 Hw2 Hz. estep. apply region_at_ensures. intros rz Hrz. estep. estep; [|by estep].
    apply Z.ltb_lt in Heqb. specialize (Hz _ Hrz). estep. apply split_ensures; [done| |].
    - rewrite Hrz. by intros ? [= <-].
    - intros w3 Hw3 _. apply protect_region_ensures; [done|]. by intros; estep. }
  estep. estep; [|by estep; apply Hrest].
  unfold contains in Hc. rewrite Z.gtb_ltb in Heqb. apply Z.ltb_lt in Heqb.
  estep. apply split_ensures; [done| |].
  - rewrite Hx. intros ? [= <-]. split; [lia|done].
  - intros w1 Hw1 _. do 4 estep. estep. apply protect_region_ensures; [done|]. intros w2 Hw2. estep. by apply Hrest.
Qed.

(** A region of user addresses is recorded in [w] and mapped by the call that
    heads the trace. *)
Lemma winv_record w m' n rn hvp tr :
  winv_below lim w -> reg_ok rn -> size rn <= 2 ^ 31 -> gaddr rn + size rn <= lim ->
  mm_ok m' -> heap (w_mm w) !! n = None -> heap m' = <[n := rn]> (heap (w_mm w)) ->
  current_mmap_top m' = current_mmap_top (w_mm w) -> current_brk m' = current_brk (w_mm w) ->
  (forall a, ept tr a = ept (w_trace w) a) ->
  winv_below lim (mk_world m' (w_vkern w) (noah_kern_brk w) (HvMap (haddr rn) (gaddr rn) (size rn) hvp
                                                   :: HvUnmap (gaddr rn) (size rn) :: tr)).
Proof.
  intros Hw Hr Hs Hu Hm' Hn Hh Ht Hb He.
  apply (winv_step w); simpl; rewrite ?Ht, ?Hb; try (by destruct Hw).
  - intros x r. rewrite Hh, lookup_insert. case_decide; intros; simplify_eq; [lia|]. by eapply inv_small.
  - intros a. rewrite (record_aspace _ _ _ _ a (inv_mm _ Hw) Hm' Hn Hh), He. unfold containsb.
    destruct (_ && _) eqn:E; [right|by left]. split; [|done].
    apply andb_true_iff in E as [_ E]. apply Z.ltb_lt in E. lia.
Qed.

(** A region leaves the store and the guest-physical map. *)
Lemma winv_delete w m' x r tr :
  winv_below lim w -> heap (w_mm w) !! x = Some r -> mm_ok m' -> heap m' = delete x (heap (w_mm w)) ->
  current_mmap_top m' = current_mmap_top (w_mm w) -> current_brk m' = current_brk (w_mm w) ->
  (forall a, ept tr a = if containsb a r then None else ept (w_trace w) a) ->
  winv_below lim (mk_world m' (w_vkern w) (noah_kern_brk w) tr).
Proof.
  intros Hw Hx Hm' Hh Ht Hb He. pose proof (inv_region _ _ _ Hw Hx) as Hu.
  apply (winv_step w); simpl; rewrite ?Ht, ?Hb; try (by destruct Hw).
  - intros y ry. rewrite Hh, lookup_delete. case_decide; [done|]. apply (inv_small _ Hw).
  - intros a. rewrite (delete_aspace _ _ _ _ a (inv_mm _ Hw) Hm' Hx Hh), He.
    destruct (containsb a r) eqn:E; [right|by left]. split; [|done].
    apply containsb_spec in E. unfold contains in E. lia.
Qed.

Lemma unlink_region_heap x m : ensures (unlink_region x) (fun _ m' => heap m' = heap m) m.
Proof. unfold unlink_region. by repeat estep. Qed.

(** The end of [mremap]: unlink, unmap, allocate, record, map, free. *)
Lemma mremap_move_inv w x moved_to new_size :
  winv_below lim w -> 0 < new_size <= 2 ^ 31 -> new_size mod 4096 = 0 ->
  current_mmap_top (w_mm w) + new_size <= lim ->
  ensures (on_mm (unlink_region x);;
          region ← on_mm (region_at x);
          call (HMunmap (haddr region) (size region));;
          vmm_munmap (gaddr region) (size region);;
          ret ← alloc_region new_size;
          n ← on_mm (record_region moved_to ret new_size (prot region) (mm_flags region)
                       (mm_fd region) (pgoff region));
          new ← on_mm (region_at n);
          vmm_mmap (gaddr new) (size new) (prot new) (haddr new);;
          on_mm (free_region x);;
          mret ret) (fun _ w' => winv_below lim w') w.
Proof.
  intros Hw Hn Hal Hb. pose proof (inv_top _ Hw) as Ht. pose proof (inv_top_al _ Hw) as Hta.
  destruct (heap (w_mm w) !! x) as [r|] eqn:Hx.
  2: { estep. apply on_mm_ensures. eapply ensures_mono; [|apply (unlink_region_heap x)].
       intros [] m' Hm'. simpl in *. estep. apply region_at_ensures. simpl. rewrite Hm', Hx. done. }
  destruct (unlink_region_ok _ _ _ (inv_mm _ Hw) Hx) as (m1 & E & Hm1 & Hh1 & _ & Hb1 & _ & Hbrk1 & Ht1).
  estep. eapply ensures_Done; [by apply on_mm_Done|]. estep. apply region_at_ensures. simpl.
  rewrite Hh1, Hx. intros r' [= <-]. estep. apply call_silent_eq. estep. apply vmm_munmap_ensures. simpl.
  unfold alloc_region. change PAGE with 4096. rewrite (roundup_aligned new_size) by limia.
  do 2 estep. apply on_mm_ensures. do 4 estep. simpl.
  rewrite Ht1, (wrap_small 64 (_ + new_size)), wrap_small by limia.
  set (t := current_mmap_top (w_mm w)) in *. replace (t + new_size - new_size) with t by lia.
  set (m2 := set_mmap_top _ m1). set (m3 := set_heap (delete x (heap m2)) m2).
  assert (mm_ok m3) as Hm3 by (destruct Hm1; by constructor).
  assert (x <> brkptr m2) as Hxb by (simpl; rewrite Hb1; apply (fresh_ne _ (inv_mm _ Hw)); eauto).
  assert (winv_below lim (mk_world m3 (w_vkern w) (noah_kern_brk w)
    (HvUnmap (gaddr r) (size r) :: HMunmap (haddr r) (size r) :: w_trace w))) as Hw3.
  { assert (m3 = set_mmap_top (t + new_size) (set_heap (delete x (heap m1)) m1)) as -> by reflexivity.
    apply (winv_top (mk_world (set_heap (delete x (heap m1)) m1) (w_vkern w) (noah_kern_brk w)
      (HvUnmap (gaddr r) (size r) :: HMunmap (haddr r) (size r) :: w_trace w)) (t + new_size));
      try lia.
    - eapply winv_delete; try done. simpl. by rewrite Hh1.
    - rewrite Zplus_mod, Hal, Hta. done. }
  estep. apply on_mm_ensures. simpl. apply (record_region_stale m2 x r); [by rewrite <- Hx, <- Hh1|done|done|].
  apply record_region_ensures; [done|right; constructor; simpl; limia|].
  intros m4 Hr _ Hm4 Hh4 _ _ Hbrk4 Ht4. estep. apply region_at_ensures. simpl.
  rewrite lookup_insert_ne by done. rewrite Hh4, lookup_insert_eq. intros rn [= <-]. simpl.
  estep. apply vmm_mmap_ensures. estep. apply on_mm_ensures. unfold free_region. estep. simpl. estep.
  assert (delete x (<[x := r]> (heap m4)) = heap m4) as Hd.
  { rewrite delete_insert_eq. apply delete_id. rewrite Hh4, lookup_insert_ne by done.
    simpl. apply lookup_delete_eq. }
  match goal with |- winv_below lim (mk_world ?m' _ _ _) => replace m' with m4 end.
  2: { rewrite Hh4 in Hd. unfold set_heap. simpl in *. rewrite Hd, <- Hh4. by destruct m4. }
  apply (winv_record _ m4 (brkptr m3) (mk_region moved_to t new_size (prot r) (mm_flags r) (mm_fd r) (pgoff r))
    (prot r) _ Hw3); try done; [simpl; lia|]. by apply fresh_None.
Qed.

Definition mremap_guard (lim : Z) (w : world) (old_size new_size : Z) : Prop :=
  0 < old_size <= lim /\ 0 <= new_size <= 2 ^ 31 - 4096 /\
  current_mmap_top (w_mm w) + roundup new_size PAGE <= lim.

Lemma sys_mremap_inv w old_addr old_size new_size flags new_addr :
  winv_below lim w -> mremap_guard lim w old_size new_size ->
  ensures (sys_mremap old_addr old_size new_size flags new_addr) (fun _ w' => winv_below lim w') w.
Proof.
  intros Hw (Ho & Hn & Hb). unfold sys_mremap. do 5 (estep; [by estep|]).
  apply Z.eqb_neq in Heqb3. apply negb_false_iff, is_page_aligned_spec in Heqb1.
  destruct (roundup_spec old_size PAGE) as [Hro Hrom]; [done|lia|change PAGE with 4096; limia|].
  destruct (roundup_spec new_size PAGE) as [Hrn Hrnm]; [done|lia|change PAGE with 4096; lia|].
  set (osz := roundup old_size PAGE) in *. set (nsz := roundup new_size PAGE) in *. change PAGE with 4096 in *.
  do 2 estep. destruct (find_region old_addr (w_mm w)) as [x|]; [|by estep].
  estep. apply region_at_ensures. intros r Hx. estep; [by estep|]. estep; [by estep|].
  apply negb_false_iff, Z.eqb_eq in Heqb4. apply Z.ltb_ge in Heqb5.
  destruct (ok_reg _ (inv_mm _ Hw) _ _ Hx).
  estep.
  - apply Z.leb_le in Heqb6. estep. apply call_silent_eq. estep. apply vmm_munmap_ensures.
    estep. apply on_mm_ensures. unfold region_upd. estep. estep. simpl.
    apply (winv_update w x r (region_set_size nsz r)); simpl; try done; try lia.
    intros a. rewrite !wrap_small by (limia).
    unfold containsb. simpl. zcases; simpl; try done; lia.
  - apply Z.leb_gt in Heqb6. do 2 estep. destruct (host_mmap _ _ _ _ _ _) as [moved_to|]; [|by estep].
    estep. apply call_silent; [done..|]. intros w1 Hw1 [] Em1. estep.
    match goal with |- ensures _ ?Q _ => assert (forall w2, winv_below lim w2 -> w_mm w2 = w_mm w -> Q tt w2) as HQ end.
    { intros w2 Hw2 Em2. estep. estep.
      - apply split_ensures; [done| |].
        + rewrite Em2, Hx. intros ? [= <-]. apply Z.ltb_lt in Heqb7. rewrite wrap_small by lia.
          split; [lia|]. rewrite Zplus_mod, reg_galign, Hrom. done.
        + intros w3 Hw3 []. apply mremap_move_inv; try done; [lia|]. by rewrite sf_top0, Em2.
      - apply mremap_move_inv; try done; [lia|]. by rewrite Em2. }
    destruct (negb (testf (mm_flags r) LINUX_MAP_ANONYMOUS)).
    + apply call_silent; [done..|]. intros. apply HQ; congruence || done.
    + estep. apply call_silent; [done..|]. intros. apply call_silent; [done..|]. intros. apply HQ; congruence || done.
Qed.

(** ** Teardown *)

Definition covered (h : gmap ptr mm_region) (l : list ptr) (a : Z) : bool :=
  existsb (fun x => match h !! x with Some r => containsb a r | None => false end) l.

Definition delete_all (h : gmap ptr mm_region) (l : list ptr) : gmap ptr mm_region :=
  foldl (fun h x => delete x h) h l.

Lemma destroy_loop_ok l : forall w,
  NoDup l -> (forall x, x ∈ l -> exists r, heap (w_mm w) !! x = Some r /\ reg_ok r) ->
  exists tr, destroy_loop l w = Done tt (mk_world (set_heap (delete_all (heap (w_mm w)) l) (w_mm w))
                                           (w_vkern w) (noah_kern_brk w) tr) /\
    forall a, ept tr a = if covered (heap (w_mm w)) l a then None else ept (w_trace w) a.
Proof.
  induction l as [|x l IH]; intros w Hnd Hl.
  { exists (w_trace w). split; [|done]. destruct w as [[]]. done. }
  apply NoDup_cons in Hnd as [Hx Hnd]. destruct (Hl x) as (r & Hr & []); [set_solver|].
  cbn [destroy_loop]. msimp. rewrite (on_mm_region_at _ _ _ Hr). unfold vmm_munmap, call. msimp.
  rewrite (proj2 (is_page_aligned_spec _)) by done. unfold on_mm, free_region. msimp. simpl.
  match goal with |- context [destroy_loop l ?w1] => destruct (IH w1 Hnd) as (tr & -> & He) end.
  { intros y Hy. simpl. rewrite lookup_delete_ne by set_solver. apply Hl. set_solver. }
  exists tr. split; [done|]. intros a. rewrite He. simpl.
  assert (covered (delete x (heap (w_mm w))) l a = covered (heap (w_mm w)) l a) as ->.
  { unfold covered. clear -Hx. induction l as [|y l IH]; [done|]. simpl.
    rewrite lookup_delete_ne by set_solver. f_equal. apply IH. set_solver. }
  unfold covered. simpl. rewrite Hr. unfold containsb. destruct (_ && _); simpl; [|done].
  by destruct (existsb _ l).
Qed.

Lemma covered_aspace m a :
  mm_ok m -> covered (heap m) (mm_regions m) a = bool_decide (is_Some (aspace m a)).
Proof.
  intros Hm. symmetry. destruct (covered _ _ a) eqn:E.
  - apply existsb_exists in E as (x & _ & E). destruct (heap m !! x) as [r|] eqn:Hx; [|done].
    apply bool_decide_true. rewrite (aspace_in _ Hm _ _ _ Hx); [by eexists|by apply containsb_spec].
  - apply bool_decide_false. intros [p Hp]. apply aspace_Some in Hp as (x & r & Hx & Hc & _); [|done].
    assert (covered (heap m) (mm_regions m) a = true); [|congruence].
    apply existsb_exists. exists x. rewrite <- list_elem_of_In, (ok_heap _ Hm), Hx.
    split; [by eexists|by apply containsb_spec].
Qed.

Lemma delete_all_lookup l : forall h x, delete_all h l !! x = if bool_decide (x ∈ l) then None else h !! x.
Proof.
  induction l as [|y l IH]; intros h x; [done|]. simpl. fold (delete_all (delete y h) l). rewrite IH, lookup_delete.
  repeat case_bool_decide; repeat case_decide; set_solver.
Qed.

Lemma destroy_mm_inv w :
  winv_below lim w -> exists w', destroy_mm w = Done tt w' /\ winv_below lim w' /\ same_frame w w' /\
    heap (w_mm w') = ∅ /\ forall a, aspace (w_mm w') a = None.
Proof.
  intros Hw. pose proof (inv_mm _ Hw) as Hm. unfold destroy_mm. msimp.
  destruct (destroy_loop_ok (mm_regions (w_mm w)) w) as (tr & -> & He).
  { by apply ok_NoDup. }
  { intros x Hx. apply (ok_heap _ Hm) in Hx as [r Hr]. eauto using ok_reg. }
  assert (delete_all (heap (w_mm w)) (mm_regions (w_mm w)) = ∅) as Hh.
  { apply map_eq. intros x. rewrite delete_all_lookup, lookup_empty. case_bool_decide as Hn; [done|].
    rewrite (ok_heap _ Hm) in Hn. by apply eq_None_not_Some. }
  unfold on_mm. msimp. simpl. rewrite Hh. eexists. split; [done|]. simpl.
  match goal with |- winv_below _ ?w' /\ _ => set (w2 := w') end.
  assert (mm_ok (w_mm w2)) as Hm2.
  { constructor; simpl; try done; [by exists 0%nat; constructor| | |constructor].
    - intros x. rewrite lookup_empty. split; [by rewrite elem_of_nil|by intros []].
    - intros x. rewrite lookup_empty. by intros []. }
  split_and!; [|by constructor|done|done].
  apply (winv_same_frame w); [done|done|by intros ? ?|by constructor|].
  intros a. simpl. rewrite He, covered_aspace by done. pose proof (inv_user _ Hw a) as Hu.
  case_bool_decide as Hs; [right; auto|left]. destruct (aspace (w_mm w) a); [by destruct Hs|done].
Qed.

End Ops.
