(* ===== verification/MmSys.v ===== *)
(** * Properties of the memory subsystem

    The step relation of the memory system calls, its reachable states, and the
    theorems about them: the kernel's and the hypervisor's address translations
    agree, what [mmap] and [munmap] do to the address space, and the inputs on
    which the code departs from what it means to do. *)

From S2P Require Import Prelude RBTree Const Errno Mm Mmap MmapFacts MmInv.

Section Steps.
Context `{HostOk} `{DarwinErrno}.

(** One call of the memory subsystem that returns.  The requests are for a
    non-empty range, end at or below [lim], wherever they lie below it, and ask for less
    than 2 GB at a time: beyond that the code breaks ([split_offset_overflow],
    [wrapped_range]).  A [mmap] that leaves the address to the kernel, and [mremap],
    take the range at [current_mmap_top]. *)
Inductive mem_step (lim : Z) (w : world) : world -> Prop :=
| step_mmap addr len pr flags fd off ret w' :
    mmap_guard lim w addr len flags -> sys_mmap addr len pr flags fd off w = Done ret w' -> mem_step lim w w'
| step_munmap ga sz ret w' :
    0 <= ga -> 0 < sz -> ga + sz <= lim -> sys_munmap ga sz w = Done ret w' -> mem_step lim w w'
| step_brk brk ret w' :
    brk_guard lim w brk -> sys_brk brk w = Done ret w' -> mem_step lim w w'
| step_mremap old_addr old_size new_size flags new_addr ret w' :
    mremap_guard lim w old_size new_size ->
    sys_mremap old_addr old_size new_size flags new_addr w = Done ret w' -> mem_step lim w w'
| step_mprotect addr len pr ret w' :
    0 <= addr -> 0 <= len -> addr + len <= lim ->
    sys_mprotect addr len pr w = Done ret w' -> mem_step lim w w'
| step_msync addr len flags ret w' :
    sys_msync addr len flags w = Done ret w' -> mem_step lim w w'
| step_kmap p sz flags ret w' :
    0 < sz -> noah_kern_brk w + sz < 2 ^ 64 -> kmap p sz flags w = Done ret w' -> mem_step lim w w'
| step_destroy w' : destroy_mm w = Done tt w' -> mem_step lim w w'.

(** The state at start-up: [noah_kern_brk] is initialised to [user_addr_max]. *)
Definition init_world : world := mk_world init_mm init_mm user_addr_max [].

Inductive reach_below (lim : Z) : world -> Prop :=
| reach_init : reach_below lim init_world
| reach_step w w' : reach_below lim w -> mem_step lim w w' -> reach_below lim w'.

(** The process stays in the addresses meant for it. *)
Abbreviation reach := (reach_below user_addr_max).

Lemma init_mm_ok : mm_ok init_mm.
Proof.
  constructor; simpl; try done; [by exists 0%nat; constructor| | |constructor].
  - intros x. rewrite lookup_empty. split; [by rewrite elem_of_nil|by intros []].
  - intros x. rewrite lookup_empty. by intros [].
Qed.

Lemma init_winv_below lim : Limit lim -> winv_below lim init_world.
Proof.
  intros Hl. constructor; try done; try apply init_mm_ok; simpl; try limia; intros a; by intros [].
Qed.
Lemma init_winv : winv init_world.
Proof. apply init_winv_below, _. Qed.

Lemma ensures_elim {S A} (c : M S A) (Q : A -> S -> Prop) s a s' : ensures c Q s -> c s = Done a s' -> Q a s'.
Proof. unfold ensures. intros Hq E. by rewrite E in Hq. Qed.

Lemma mem_step_winv lim w w' : Limit lim -> winv_below lim w -> mem_step lim w w' -> winv_below lim w'.
Proof.
  intros Hlim Hw Hs. destruct Hs as [? ? ? ? ? ? ? ? ? E|ga sz ret ? ? ? ? E|? ? ? ? E|? ? ? ? ? ? ? ? E|? ? ? ? ? ? ? ? E|? ? ? ? ? E|? ? ? ? ? ? ? E|? E].
  - eapply ensures_elim in E; [|by apply do_mmap_inv]. done.
  - pose proof limit_high. destruct (roundup_spec sz PAGE) as [Hr _]; [done|lia|change PAGE with 4096; lia|].
    destruct (do_munmap_inv (lim := lim) w ga sz) as (e & w2 & E2 & Hw2 & _); try done; [lia|change PAGE with 4096 in *; lia|].
    unfold sys_munmap in E. cbv [mbind M_bind mret M_ret] in E. rewrite E2 in E. by simplify_eq.
  - eapply ensures_elim in E; [|by apply sys_brk_inv]. done.
  - eapply ensures_elim in E; [|by apply sys_mremap_inv]. done.
  - eapply ensures_elim in E; [|by apply sys_mprotect_inv]. done.
  - eapply ensures_elim in E; [|by apply (sys_msync_inv (lim := lim))]. done.
  - eapply ensures_elim in E; [|by apply (kmap_inv (lim := lim))]. by destruct E.
  - destruct (destroy_mm_inv w Hw) as (w2 & E2 & Hw2 & _). congruence.
Qed.

Lemma reach_below_winv lim w : Limit lim -> reach_below lim w -> winv_below lim w.
Proof. intros Hl. induction 1; eauto using init_winv_below, mem_step_winv. Qed.
Lemma reach_winv w : reach w -> winv w.
Proof. apply reach_below_winv, _. Qed.

(** The lowest region a range overlaps is the one found when it is the only one. *)
Lemma single_lowest w ga sz :
  winv w -> 0 <= ga -> 0 <= sz -> ga + roundup sz PAGE < 2 ^ 64 -> 0 <= roundup sz PAGE ->
  (forall x y rx ry, heap (w_mm w) !! x = Some rx -> heap (w_mm w) !! y = Some ry ->
     overlaps (req ga sz) rx -> overlaps (req ga sz) ry -> x = y) ->
  forall x r, find_region_range ga (roundup sz PAGE) (w_mm w) = Some x ->
     heap (w_mm w) !! x = Some r -> lowest (w_mm w) (req ga sz) r.
Proof.
  intros Hw Hg Hs Hb Hrp Hone x r Hfx Hx y ry Hy Hov.
  pose proof (find_region_range_spec _ (inv_mm _ Hw) ga (roundup sz PAGE)) as Hf.
  rewrite Hfx in Hf. destruct Hf as (r' & Hx' & Hov'); [lia..|].
  simplify_eq. assert (x = y) as -> by eauto. simplify_eq. lia.
Qed.

(** ** Theorems *)

(** C6: In every state the memory system calls can reach by requests for non-empty
    ranges, each for less than 2 GB and ending at or below [lim], the address
    translation the kernel computes from its region trees ([guest_to_host]) is the one
    the hypervisor was told to use for the guest, mapped or not: at every
    address, when the guest asks for none above [user_addr_max] ([lim] is
    [user_addr_max]); and otherwise, as [do_mmap] does not check, at every address
    outside the regions of the kernel ([kernel_range_unguarded] has what happens there). *)
Theorem translation_agrees lim w ga :
  user_addr_max <= lim <= 2 ^ 64 - 8192 -> lim mod 4096 = 0 -> reach_below lim w -> 0 <= ga < 2 ^ 64 - 1 ->
  lim = user_addr_max \/ aspace (w_vkern w) ga = None ->
  guest_to_host (w_mm w) (w_vkern w) ga = ept (w_trace w) ga.
Proof.
  intros Hl Hal Hr Hg Hor. apply reach_below_winv in Hr; [|constructor; lia]. rewrite (inv_sync_at _ Hr) by (destruct Hor; [left; lia|by right]).
  apply guest_to_host_aspace; [apply (inv_mm _ Hr)|apply (inv_vkern _ Hr)|done].
Qed.

(** C7: In every state the memory system calls can reach by requests for non-empty
    ranges anywhere below the last two pages of the address space, each for less than
    2 GB, the region tree of the process is a red-black tree whose in-order
    sequence is the region list, and the regions are page aligned, not empty, disjoint and
    sorted, and do not wrap around; the same holds of the regions of the kernel, which
    lie between [user_addr_max] and [noah_kern_brk]. *)
Theorem regions_invariant w :
  reach_below addr_limit w ->
  let well_formed m :=
    is_rb (mm_region_tree m) /\ elements (mm_region_tree m) = mm_regions m /\
    StronglySorted (ptr_below (heap m)) (mm_regions m) /\
    (forall x, x ∈ mm_regions m <-> is_Some (heap m !! x)) /\
    (forall x y r r' a, heap m !! x = Some r -> heap m !! y = Some r' -> contains r a -> contains r' a -> x = y) /\
    (forall x r, heap m !! x = Some r ->
       gaddr r mod 4096 = 0 /\ size r mod 4096 = 0 /\ 0 < gaddr r /\ 0 < size r /\ gaddr r + size r < 2 ^ 64) in
  well_formed (w_mm w) /\ well_formed (w_vkern w) /\
  (forall a, is_Some (aspace (w_vkern w) a) -> user_addr_max <= a < noah_kern_brk w).
Proof.
  intros Hr well_formed. apply reach_below_winv in Hr; [|apply _].
  assert (forall m, mm_ok m -> well_formed m) as Hwf.
  { intros m Hm. split_and!; [apply Hm|apply Hm|apply (ok_sorted _ Hm)|apply (ok_heap _ Hm)| |].
    - intros x y r r' a. by apply ok_contains_inj.
    - intros x r Hx. by destruct (ok_reg _ Hm _ _ Hx). }
  split; [apply Hwf, Hr|]. split; [apply Hwf, Hr|apply (inv_kern _ Hr)].
Qed.

(** [munmap] of a page-aligned range of user addresses always returns 0 or
    -ENOMEM, never maps anything or touches an address outside the range, and
    unmaps every address of the range from the overlapping region that
    [find_region_range] answers with on, in the regions and in the hypervisor. *)
Theorem munmap_effect w ga sz :
  reach w -> 0 <= ga -> ga mod 4096 = 0 -> 0 < sz -> ga + sz <= user_addr_max ->
  exists e w', do_munmap ga sz w = Done e w' /\ (e = 0 \/ e = - LINUX_ENOMEM) /\
    match find_region_range ga (roundup sz PAGE) (w_mm w) with
    | None => forall a, ga <= a < ga + roundup sz PAGE -> aspace (w_mm w') a = None
    | Some x => exists r, heap (w_mm w) !! x = Some r /\
        forall a, Z.max ga (gaddr r) <= a < ga + roundup sz PAGE ->
          aspace (w_mm w') a = None /\ ept (w_trace w') a = None
    end /\
    (forall a, ~ ga <= a < ga + roundup sz PAGE ->
       aspace (w_mm w') a = aspace (w_mm w) a /\ ept (w_trace w') a = ept (w_trace w) a).
Proof.
  intros Hr Hg Hal Hs Hb. apply reach_winv in Hr. unfold user_addr_max in Hb.
  destruct (roundup_spec sz PAGE) as [Hrs Hrm]; [done|lia|change PAGE with 4096; lia|].
  assert (req_ok ga sz) as Hq by (unfold req_ok; change PAGE with 4096 in *; lia).
  pose proof (do_munmap_ok w ga sz (inv_mm _ Hr) (inv_small _ Hr) Hq) as Hd.
  destruct (find_region_range _ _ _) as [x|].
  - destruct Hd as (r & w' & Hx & Ho & E & Hm & Hsm & Hf & Ha & He).
    exists 0, w'. split_and!; try done; [by left| |].
    + exists r. split; [done|]. intros a Hin.
      assert (cut (req ga sz) r a = true) as Hc by (unfold cut, req; simpl; zcases; simpl; lia || done).
      rewrite Ha, He, Hc. split; [done|]. simpl. case_bool_decide as Hd; [done|].
      assert (a < user_addr_max) as Hlt by (unfold user_addr_max; change PAGE with 4096 in *; Z.div_mod_to_equations; lia).
      rewrite (inv_sync _ Hr), (inv_user_kern _ _ Hr Hlt). destruct (aspace (w_mm w) a); [by destruct Hd|done].
    + intros a Hout. rewrite Ha, He.
      assert (cut (req ga sz) r a = false) as -> by (unfold cut, req; simpl; zcases; simpl; lia || done).
      done.
  - destruct Hd as [E Hno]. exists (- LINUX_ENOMEM), w. split_and!; try done; [by right|].
    intros a Hin. apply (aspace_None _ (inv_mm _ Hr)). intros x r Hx Hc.
    apply (Hno x r Hx). unfold overlaps, contains, req in *. simpl. lia.
Qed.

(** C8: [munmap] of a range that overlaps at most one region unmaps exactly
    that range, in the regions and in the hypervisor, and keeps the rest. *)
Theorem munmap_exact w ga sz :
  reach w -> 0 <= ga -> ga mod 4096 = 0 -> 0 < sz -> ga + sz <= user_addr_max ->
  (forall x y rx ry, heap (w_mm w) !! x = Some rx -> heap (w_mm w) !! y = Some ry ->
     overlaps (req ga sz) rx -> overlaps (req ga sz) ry -> x = y) ->
  exists e w', do_munmap ga sz w = Done e w' /\ mm_ok (w_mm w') /\
    (forall a, aspace (w_mm w') a =
       if (ga <=? a) && (a <? ga + roundup sz PAGE) then None else aspace (w_mm w) a) /\
    (forall a, a < user_addr_max -> ept (w_trace w') a = host_of <$> aspace (w_mm w') a).
Proof.
  intros Hr Hg Hal Hs Hb Hone. apply reach_winv in Hr. unfold user_addr_max in Hb.
  destruct (roundup_spec sz PAGE) as [Hrs Hrm]; [done|lia|change PAGE with 4096; lia|].
  assert (req_ok ga sz) as Hq by (unfold req_ok; change PAGE with 4096 in *; lia).
  destruct (do_munmap_exact w ga sz (inv_mm _ Hr) (inv_small _ Hr) Hq)
    as (e & w' & E & Hm & Hsm & Hf & Ha & He).
  { apply single_lowest; try done; change PAGE with 4096 in *; lia. }
  destruct (do_munmap_inv w ga sz Hr) as (e2 & w2 & E2 & Hw2 & _);
    [done|lia|change PAGE with 4096 in *; lia|].
  rewrite E in E2. injection E2 as <- <-.
  exists e, w'. split_and!; try done. intros a Hlt. rewrite (inv_sync _ Hw2), (inv_user_kern _ _ Hw2 Hlt).
  by destruct (aspace (w_mm w') a).
Qed.

(** The requests of [mmap] whose flags the code accepts. *)
Definition flags_ok (flags : Z) : Prop := clearf (mmap_flags flags) mmap_supported = 0.

Definition mmap_fd (flags fd : Z) : Z := if testf (mmap_flags flags) LINUX_MAP_ANON then -1 else fd.
Definition mmap_off (flags off : Z) : Z := if testf (mmap_flags flags) LINUX_MAP_ANON then 0 else off.

Lemma len_bounds addr len :
  addr mod 4096 = 0 -> 0 <= addr -> 0 < len <= 2 ^ 31 -> addr + roundup len PAGE <= user_addr_max ->
  0 <= roundup len PAGE /\ roundup len PAGE <= 2 ^ 31 /\ req_ok addr len.
Proof.
  intros Ha Hp Hl Hu. unfold req_ok, user_addr_max in *.
  destruct (roundup_spec len PAGE) as [Hr Hm]; [done|lia|change PAGE with 4096; lia|].
  change PAGE with 4096 in *. Z.div_mod_to_equations. lia.
Qed.

Lemma do_mmap_eq addr len d_prot l_prot flags fd off w :
  addr mod 4096 = 0 -> flags_ok flags ->
  do_mmap addr len d_prot l_prot flags fd off w =
  (addr ← (if testf (mmap_flags flags) LINUX_MAP_FIXED then mret addr else alloc_region (roundup len PAGE));
   mmap_at addr (roundup len PAGE) d_prot l_prot (mmap_flags flags) (mmap_fd flags fd) (mmap_off flags off)) w.
Proof.
  intros Ha Hf. apply is_page_aligned_spec in Ha. unfold do_mmap.
  change (Z.land addr 0xfff =? 0) with (is_page_aligned addr PAGE_4KB). rewrite Ha, Hf. done.
Qed.

(** C9: A [MAP_FIXED] [mmap] of a non-empty range of user addresses, of at most 2 GB,
    that overlaps at most one region (over several it may panic:
    [munmap_misses_lowest]), with flags the code knows and a host that provides the
    memory, returns the address asked for and makes exactly the pages of the
    range translate to the host memory with the protection asked for, replacing
    what was there, in the regions and in the hypervisor. *)
Theorem mmap_fixed w addr len d_prot l_prot flags fd off p :
  reach w -> 0 < addr -> addr mod 4096 = 0 -> 0 < len <= 2 ^ 31 ->
  addr + roundup len PAGE <= user_addr_max ->
  flags_ok flags -> testf (mmap_flags flags) LINUX_MAP_FIXED = true ->
  (forall x y rx ry, heap (w_mm w) !! x = Some rx -> heap (w_mm w) !! y = Some ry ->
     overlaps (req addr len) rx -> overlaps (req addr len) ry -> x = y) ->
  host_mmap (w_trace w) (roundup len PAGE) d_prot (linux_to_darwin_mflags (mmap_flags flags))
    (mmap_fd flags fd) (mmap_off flags off) = inl p ->
  p mod 4096 = 0 -> (forall tr, hv_vm_map_ok tr = true) ->
  exists w', do_mmap addr len d_prot l_prot flags fd off w = Done addr w' /\ mm_ok (w_mm w') /\
    (forall a, aspace (w_mm w') a =
       if (addr <=? a) && (a <? addr + roundup len PAGE)
       then Some (u64 (p + a - addr), l_prot, mmap_flags flags, mmap_fd flags fd)
       else aspace (w_mm w) a) /\
    (forall a, ept (w_trace w') a =
       if (addr <=? a) && (a <? addr + roundup len PAGE) then Some (u64 (p + a - addr))
       else ept (w_trace w) a).
Proof.
  intros Hr Ha Hal Hl Hu Hfl Hfix Hone Hh Hp Hhv. apply reach_winv in Hr.
  destruct (len_bounds addr len) as (Hl1 & Hl2 & Hq); [done|lia|done..|].
  destruct (mmap_at_ok w addr len d_prot l_prot (mmap_flags flags) (mmap_fd flags fd) (mmap_off flags off) p)
    as (w' & E & Hm & _ & _ & Has & He); try done; try by destruct Hr.
  { apply single_lowest; try done; unfold user_addr_max in *; lia. }
  exists w'. split_and!; try done. by rewrite (do_mmap_eq addr len) by done; rewrite Hfix.
Qed.

(** A non-fixed [mmap], when the range at [current_mmap_top] is free,
    returns that address and moves the mark past the range. *)
Theorem mmap_anywhere w addr len d_prot l_prot flags fd off p :
  let top := current_mmap_top (w_mm w) in
  reach w -> addr mod 4096 = 0 -> 0 < len <= 2 ^ 31 ->
  top + roundup len PAGE <= user_addr_max ->
  flags_ok flags -> testf (mmap_flags flags) LINUX_MAP_FIXED = false ->
  (forall x r, heap (w_mm w) !! x = Some r -> ~ overlaps (req top len) r) ->
  host_mmap (w_trace w) (roundup len PAGE) d_prot (linux_to_darwin_mflags (mmap_flags flags))
    (mmap_fd flags fd) (mmap_off flags off) = inl p ->
  p mod 4096 = 0 -> (forall tr, hv_vm_map_ok tr = true) ->
  exists w', do_mmap addr len d_prot l_prot flags fd off w = Done top w' /\ mm_ok (w_mm w') /\
    current_mmap_top (w_mm w') = top + roundup len PAGE /\
    (forall a, aspace (w_mm w') a =
       if (top <=? a) && (a <? top + roundup len PAGE)
       then Some (u64 (p + a - top), l_prot, mmap_flags flags, mmap_fd flags fd)
       else aspace (w_mm w) a).
Proof.
  intros top Hr Hal Hl Hu Hfl Hfix Hno Hh Hp Hhv. apply reach_winv in Hr.
  pose proof (inv_top _ Hr) as Ht. pose proof (inv_top_al _ Hr) as Hta. fold top in Ht, Hta.
  destruct (len_bounds top len) as (Hl1 & Hl2 & Hq); [done|lia|done..|].
  set (w1 := mk_world (set_mmap_top (top + roundup len PAGE) (w_mm w)) (w_vkern w) (noah_kern_brk w) (w_trace w)).
  assert (winv w1) as Hw1.
  { apply winv_top; [done|lia|]. destruct (roundup_spec len 4096) as [_ Hm]; [lia..|].
    change PAGE with 4096. rewrite Zplus_mod, Hm, Hta. done. }
  destruct (mmap_at_ok w1 top len d_prot l_prot (mmap_flags flags) (mmap_fd flags fd) (mmap_off flags off) p)
    as (w' & E & Hm & _ & Hsf & Has & He); try done; try (by destruct Hw1); [lia| |].
  { apply single_lowest; try done; unfold user_addr_max in *; try lia.
    intros x y rx ry Hx _ Hox. by destruct (Hno x rx). }
  exists w'. split_and!; try done; [|by rewrite (sf_top _ _ Hsf)].
  rewrite (do_mmap_eq addr len) by done. rewrite Hfix. unfold alloc_region. msimp. unfold on_mm. simpl.
  unfold user_addr_max in *. destruct (roundup_spec len 4096) as [_ Hrm]; [lia..|].
  change PAGE with 4096 in *. rewrite (roundup_aligned (roundup len 4096) 4096) by (done || lia).
  fold top. rewrite (wrap_small 64 (top + _)), wrap_small by lia.
  replace (top + roundup len 4096 - roundup len 4096) with top by lia. exact E.
Qed.

End Steps.

Abbreviation reach := (reach_below user_addr_max).

(** ** Concrete runs *)

Section Runs.
#[local] Existing Instance demo_host.
#[local] Existing Instance macos_errno.

#[local] Instance demo_host_ok : HostOk.
Proof. constructor. intros. by exists 22. Qed.

Definition final {A} (c : M world A) (w : world) : world :=
  match c w with Done _ w' => w' | Stop _ w' => w' end.

Definition fixed_anon : Z := Z.lor LINUX_MAP_PRIVATE (Z.lor LINUX_MAP_FIXED LINUX_MAP_ANON).
Definition map_at (addr len : Z) : M world Z := sys_mmap addr len 3 fixed_anon (-1) 0.

(** Three pages at 0x10000. *)
Definition w3p : world := final (map_at 0x10000 0x3000) init_world.

Lemma w3p_reach : reach w3p.
Proof.
  eapply reach_step; [constructor|].
  apply (step_mmap _ _ 0x10000 0x3000 3 fixed_anon (-1) 0 0x10000); [|vm_compute; reflexivity].
  unfold mmap_guard. vm_compute. repeat split; discriminate.
Qed.

(** One page each at 0x10000, 0x30000, 0x50000 and 0x20000, mapped in this order. *)
Definition four_pages : M world Z :=
  _ ← map_at 0x10000 0x1000; _ ← map_at 0x30000 0x1000; _ ← map_at 0x50000 0x1000;
  map_at 0x20000 0x1000.
Definition w4 : world := final four_pages init_world.

(** A property of all regions of a computed store. *)
Lemma heap_forall (h : gmap ptr mm_region) (P : mm_region -> bool) :
  forallb (fun p => P p.2) (map_to_list h) = true -> forall x r, h !! x = Some r -> P r = true.
Proof.
  intros Hf x r Hx. rewrite forallb_forall in Hf. apply (Hf (x, r)).
  by rewrite <- list_elem_of_In, elem_of_map_to_list.
Qed.

Lemma w3p_single x r : heap (w_mm w3p) !! x = Some r -> x = 1%positive.
Proof.
  replace (heap (w_mm w3p)) with ({[ 1%positive := mk_region 0x100000000 0x10000 0x3000 3 0x32 (-1) 0 ]} : gmap ptr mm_region)
    by (vm_compute; reflexivity).
  rewrite lookup_singleton_Some. by intros [-> _].
Qed.

(** A kernel page, and a page of the process above the kernel's addresses. *)
Definition w_high : world := final (_ ← kmap 0x7000000 0x1000 3; map_at 0x10000000000 0x1000) init_world.

Lemma w_high_reach : reach_below addr_limit w_high.
Proof.
  eapply reach_step; [eapply reach_step; [constructor|]|].
  - apply (step_kmap _ _ 0x7000000 0x1000 3 user_addr_max); [lia|vm_compute; reflexivity|vm_compute; reflexivity].
  - apply (step_mmap _ _ 0x10000000000 0x1000 3 fixed_anon (-1) 0 0x10000000000); [|vm_compute; reflexivity].
    unfold mmap_guard. vm_compute. repeat split; discriminate.
Qed.

(** Below [user_addr_max], and above it outside the kernel's page. *)
Lemma translation_agrees_witness :
  guest_to_host (w_mm w3p) (w_vkern w3p) 0x11234 = ept (w_trace w3p) 0x11234 /\
  ept (w_trace w3p) 0x11234 = Some 0x100001234 /\
  guest_to_host (w_mm w_high) (w_vkern w_high) 0x10000000234 = ept (w_trace w_high) 0x10000000234 /\
  is_Some (ept (w_trace w_high) 0x10000000234).
Proof.
  split; [apply (translation_agrees user_addr_max); [unfold user_addr_max; lia|reflexivity|apply w3p_reach|lia|by left]|].
  split; [vm_compute; reflexivity|]. split; [|vm_compute; by eexists].
  apply (translation_agrees addr_limit); [unfold user_addr_max, addr_limit; lia|reflexivity|apply w_high_reach|lia|right; vm_compute; reflexivity].
Defined.

Lemma regions_invariant_witness :
  (length (mm_regions (w_mm w_high)) = 1)%nat /\ is_rb (mm_region_tree (w_mm w_high)).
Proof. split; [vm_compute; reflexivity|]. apply (regions_invariant w_high w_high_reach). Defined.

Lemma munmap_effect_witness :
  exists e w', do_munmap 0x11000 0x1000 w3p = Done e w' /\ (e = 0 \/ e = - LINUX_ENOMEM).
Proof.
  destruct (munmap_effect w3p 0x11000 0x1000) as (e & w' & E & He & _);
    [apply w3p_reach|lia|reflexivity|lia|vm_compute; discriminate|].
  exists e, w'. split; assumption.
Defined.

Lemma munmap_exact_witness :
  exists e w', do_munmap 0x11000 0x1000 w3p = Done e w' /\ aspace (w_mm w') 0x11000 = None /\
    aspace (w_mm w') 0x12000 = aspace (w_mm w3p) 0x12000.
Proof.
  destruct (munmap_exact w3p 0x11000 0x1000) as (e & w' & E & _ & Ha & _);
    [apply w3p_reach|lia|reflexivity|lia|vm_compute; discriminate| |].
  - intros x y rx ry Hx Hy _ _. apply w3p_single in Hx, Hy. congruence.
  - exists e, w'. rewrite !Ha. split; [exact E|]. split; reflexivity.
Defined.

Lemma mmap_fixed_witness :
  exists w', do_mmap 0x11000 0x800 3 3 fixed_anon (-1) 0 w3p = Done 0x11000 w' /\
    aspace (w_mm w') 0x11fff = Some (0x130000fff, 3, 0x32, -1).
Proof.
  destruct (mmap_fixed w3p 0x11000 0x800 3 3 fixed_anon (-1) 0 0x130000000) as (w' & E & _ & Ha & _).
  - apply w3p_reach.
  - lia.
  - reflexivity.
  - lia.
  - vm_compute. discriminate.
  - reflexivity.
  - reflexivity.
  - intros x y rx ry Hx Hy _ _. apply w3p_single in Hx, Hy. congruence.
  - vm_compute. reflexivity.
  - reflexivity.
  - reflexivity.
  - exists w'. split; [exact E|]. rewrite Ha. vm_compute. reflexivity.
Defined.

Lemma mmap_anywhere_witness :
  exists w', do_mmap 0 0x800 3 3 0x22 (-1) 0 w3p = Done 0xc0000000 w' /\
    current_mmap_top (w_mm w') = 0xc0001000.
Proof.
  destruct (mmap_anywhere w3p 0 0x800 3 3 0x22 (-1) 0 0x130000000) as (w' & E & _ & Ht & _).
  - apply w3p_reach.
  - reflexivity.
  - lia.
  - vm_compute. discriminate.
  - reflexivity.
  - reflexivity.
  - intros x r Hx [Ho _].
    apply (heap_forall _ (fun r => gaddr r + size r <=? 0xc0000000)) in Hx; [|vm_compute; reflexivity]. simpl in Hx.
    apply Z.leb_le in Hx.
    replace (current_mmap_top (w_mm w3p)) with 0xc0000000 in Ho by (vm_compute; reflexivity).
    unfold req, key in Ho. cbn [gaddr] in Ho. lia.
  - vm_compute. reflexivity.
  - reflexivity.
  - reflexivity.
  - exists w'. split; [exact E|]. rewrite Ht. vm_compute. reflexivity.
Defined.

(** ** Departures *)

(** The outcome of a run: what it returns and what is left mapped at an address. *)
Definition outcome {A} (c : M world A) (a : Z) : option A * option (Z * Z * Z * Z) :=
  match c init_world with
  | Done v w => (Some v, aspace (w_mm w) a)
  | Stop _ w => (None, aspace (w_mm w) a)
  end.

(** [find_region_range] follows left children only, so it need not answer
    with the lowest overlapping region: with pages mapped at 0x10000, 0x30000,
    0x50000 and 0x20000, [munmap] of 0x20000-0x40000 returns 0 but leaves the
    page at 0x20000 mapped, and a [MAP_FIXED] [mmap] of that range panics with
    overlapping regions. *)
Theorem munmap_misses_lowest :
  outcome (_ ← four_pages; do_munmap 0x20000 0x20000) 0x20000
    = (Some 0, Some (0x190000000, 3, fixed_anon, -1)) /\
  outcome (_ ← four_pages; do_munmap 0x20000 0x20000) 0x30000 = (Some 0, None) /\
  match (_ ← four_pages; map_at 0x20000 0x20000) init_world with Stop Panic _ => True | _ => False end.
Proof. split; [|split]; vm_compute; [reflexivity|reflexivity|exact I]. Qed.

(** [mprotect] of exactly the last region reports -ENOMEM although it
    changed the protection, and [mprotect] of one page in the middle of a
    region changes the protection of the rest of the region too. *)
Theorem mprotect_departures :
  outcome (_ ← map_at 0x10000 0x3000; sys_mprotect 0x10000 0x3000 1) 0x10000
    = (Some (u64 (- LINUX_ENOMEM)), Some (0x100000000, 1, fixed_anon, -1)) /\
  outcome (_ ← map_at 0x10000 0x3000; sys_mprotect 0x11000 0x1000 1) 0x12000
    = (Some 0, Some (0x100002000, 1, fixed_anon, -1)).
Proof. split; vm_compute; reflexivity. Qed.

(** [mremap] that does not grow the mapping truncates the whole region:
    remapping the first of three pages to one page unmaps the other two. *)
Theorem mremap_truncates :
  outcome (_ ← map_at 0x10000 0x3000; sys_mremap 0x10000 0x1000 0x1000 LINUX_MREMAP_MAYMOVE 0) 0x11000
    = (Some 0x10000, None).
Proof. vm_compute. reflexivity. Qed.

(** Nothing keeps the process out of the kernel's addresses: a [MAP_FIXED] [mmap]
    over a page the kernel mapped, followed by a [munmap], takes the page from the
    guest's physical memory, while [guest_to_host] still answers with the kernel's page. *)
Theorem kernel_range_unguarded :
  match (_ ← kmap 0x7000000 0x1000 3; _ ← map_at user_addr_max 0x1000; sys_munmap user_addr_max 0x1000) init_world with
  | Done ret w => ret = 0 /\ guest_to_host (w_mm w) (w_vkern w) user_addr_max = Some 0x7000000 /\ ept (w_trace w) user_addr_max = None
  | Stop _ _ => False
  end.
Proof. vm_compute. split_and!; reflexivity. Qed.

(** A range that wraps around the address space is recorded as it is. *)
Theorem wrapped_range :
  match map_at (2 ^ 64 - 4096) 0x3000 init_world with
  | Done _ w => ((fun r => (gaddr r, size r)) <$> region_list (w_mm w)) = [(2 ^ 64 - 4096, 0x3000)]
  | Stop _ _ => False
  end.
Proof. vm_compute. reflexivity. Qed.

(** The [int] offset of [split_region] overflows beyond 2 GB: cutting a
    4 GB region more than 2 GB from its start leaves a head that wraps around
    the address space, and a tail that is in the list but not in the tree. *)
Theorem split_offset_overflow :
  match (_ ← map_at 0x10000 0x100000000; on_mm (split_region 1 0x90010000)) init_world with
  | Done _ w =>
      ((fun r => (gaddr r, size r)) <$> region_list (w_mm w))
        = [(0x10000, 0xffffffff90000000); (0x90010000, 0x170000000)] /\
      (length (elements (mm_region_tree (w_mm w))) = 1)%nat
  | Stop _ _ => False
  end.
Proof. vm_compute. split; reflexivity. Qed.

End Runs.
