(* ===== verification/UserMem.v ===== *)
(** * Access to guest memory ([src/base.c])

    [copy_from_user] and its kin walk the guest's pages: each step translates
    one guest address and then touches host memory up to the end of the page.
    Host memory is a function from addresses to bytes, on which [memcpy] always succeeds: the host's
    protection of the pages, which is the guest's ([do_mmap] passes it on), is not modelled, so a copy that
    would raise a fault on a read-only or inaccessible page of the host is done here. *)

From S2P Require Import Prelude RBTree Const Errno Mm Mmap MmapFacts MmInv MmSys.

(** What the routines see: the address spaces and host memory. *)
Record umem := mk_umem {
  u_mm : mm;
  u_vkern : mm;
  hmem : Z -> Z;
}.

Definition translate (u : umem) (ga : Z) : option Z := guest_to_host (u_mm u) (u_vkern u) ga.

(** Pointer arithmetic on a host address. *)
Definition host_add (h i : Z) : Z := u64 (h + i).

(** [memcpy] out of and into host memory. *)
Definition host_read (hm : Z -> Z) (h n : Z) : list Z := (fun i => hm (host_add h i)) <$> seqZ 0 n.
Fixpoint host_write (hm : Z -> Z) (h : Z) (bs : list Z) : Z -> Z :=
  match bs with
  | [] => hm
  | b :: bs => host_write (fun a => if a =? u64 h then b else hm a) (h + 1) bs
  end.

(** [MIN(rounddown(ptr + 4096, 4096) - ptr, n)] *)
Definition chunk (ptr n : Z) : Z := MIN (u64 (rounddown (u64 (ptr + 4096)) 4096 - ptr)) n.

(** The loops take fuel; [S n] rounds are enough (see [copy_from_user_spec]). *)
Fixpoint copy_from_user_loop (fuel : nat) (u : umem) (src_ptr n : Z) : option (Z * list Z) :=
  match fuel with
  | O => None
  | S fuel =>
    if negb (n >? 0) then Some (0, [])
    else match translate u src_ptr with
      | None => Some (n, [])
      | Some src =>
        let size := chunk src_ptr n in
        '(r, bs) ← copy_from_user_loop fuel u (u64 (src_ptr + size)) (n - size);
        Some (r, host_read (hmem u) src size ++ bs)
      end
  end.

(** Returns the number of bytes left and the bytes written to the buffer. *)
Definition copy_from_user (u : umem) (src_ptr n : Z) : option (Z * list Z) :=
  copy_from_user_loop (S (Z.to_nat n)) u src_ptr n.

Fixpoint copy_to_user_loop (fuel : nat) (u : umem) (to_ptr : Z) (src : list Z) (n : Z) : option (Z * umem) :=
  match fuel with
  | O => None
  | S fuel =>
    if negb (n >? 0) then Some (0, u)
    else match translate u to_ptr with
      | None => Some (n, u)
      | Some to =>
        let size := chunk to_ptr n in
        let u' := mk_umem (u_mm u) (u_vkern u) (host_write (hmem u) to (take (Z.to_nat size) src)) in
        copy_to_user_loop fuel u' (u64 (to_ptr + size)) (drop (Z.to_nat size) src) (n - size)
      end
  end.

(** [copy_to_user(to, src, n)] with the [n] bytes [src] points to. *)
Definition copy_to_user (u : umem) (to_ptr : Z) (src : list Z) : option (Z * umem) :=
  copy_to_user_loop (S (length src)) u to_ptr src (Z.of_nat (length src)).

(** [strnlen] *)
Fixpoint strnlen (hm : Z -> Z) (h : Z) (n : nat) : Z :=
  match n with
  | O => 0
  | S n => if hm (u64 h) =? 0 then 0 else 1 + strnlen hm (h + 1) n
  end.

Fixpoint strnlen_user_loop (fuel : nat) (u : umem) (src_ptr n len : Z) : option Z :=
  match fuel with
  | O => None
  | S fuel =>
    if negb (s64 n >? 0) then Some (len + 1)
    else match translate u src_ptr with
      | None => Some 0
      | Some str =>
        let size := chunk src_ptr n in
        let i := strnlen (hmem u) str (Z.to_nat size) in
        if i <? size then Some (len + i + 1)
        else strnlen_user_loop fuel u (u64 (src_ptr + size)) (n - size) (s32 (len + size))
      end
  end.

Definition strnlen_user (u : umem) (src_ptr n : Z) : option Z :=
  strnlen_user_loop (S (Z.to_nat n)) u src_ptr n 0.

(** Returns the result and the bytes written to the buffer. *)
Definition strncpy_from_user (u : umem) (src_ptr n : Z) : option (Z * list Z) :=
  len ← strnlen_user u src_ptr n;
  if len =? 0 then Some (- LINUX_EFAULT, [])
  else if n <? len then
    '(r, bs) ← copy_from_user u src_ptr n;
    Some (if negb (r =? 0) then - LINUX_EFAULT else n, bs)
  else
    '(r, bs) ← copy_from_user u src_ptr len;
    Some (if negb (r =? 0) then - LINUX_EFAULT else len - 1, bs).

(** ** Specification: byte by byte *)

(** The bytes readable from [a] on, at most [n]. *)
Fixpoint user_bytes (u : umem) (a : Z) (n : nat) : list Z :=
  match n with
  | O => []
  | S n => match translate u a with
           | None => []
           | Some h => hmem u h :: user_bytes u (a + 1) n
           end
  end.

(** Writing byte by byte, up to the first unmapped address. *)
Definition set_hmem (hm : Z -> Z) (u : umem) : umem := mk_umem (u_mm u) (u_vkern u) hm.

Fixpoint user_write (u : umem) (a : Z) (bs : list Z) : umem :=
  match bs with
  | [] => u
  | b :: bs => match translate u a with
               | None => u
               | Some h => user_write (set_hmem (fun x => if x =? h then b else hmem u x) u) (a + 1) bs
               end
  end.

(** The length of the mapped prefix of a range. *)
Fixpoint user_mapped (u : umem) (a : Z) (n : nat) : nat :=
  match n with
  | O => 0
  | S n => match translate u a with None => 0 | Some _ => S (user_mapped u (a + 1) n) end
  end.

(** The index of the first NUL. *)
Fixpoint find_nul (bs : list Z) : option Z :=
  match bs with
  | [] => None
  | b :: bs => if b =? 0 then Some 0 else Z.succ <$> find_nul bs
  end.

Definition umem_ok (u : umem) : Prop := mm_ok (u_mm u) /\ mm_ok (u_vkern u).

(** ** Pages *)

Lemma containsb_page r a b :
  reg_ok r -> a / 4096 = b / 4096 -> containsb a r = containsb b r.
Proof.
  intros [] Hab. unfold containsb. Z.div_mod_to_equations. zcases; simpl; try done; exfalso; lia.
Qed.

Lemma aspace_page m a b :
  mm_ok m -> a / 4096 = b / 4096 ->
  host_of <$> aspace m b = (fun h => host_add h (b - a)) <$> (host_of <$> aspace m a).
Proof.
  intros Hm Hab. destruct (aspace m a) as [p|] eqn:E; simpl.
  - apply aspace_Some in E as (x & r & Hx & Hc & ->); [|done].
    apply containsb_spec in Hc. rewrite (containsb_page r a b (ok_reg _ Hm _ _ Hx) Hab) in Hc.
    rewrite (aspace_in m Hm x r b Hx) by (by apply containsb_spec). simpl. f_equal.
    unfold host_of, attr_at, host_add. simpl. rewrite wrap_add_l. f_equal. lia.
  - rewrite aspace_None in E by done. rewrite (proj2 (aspace_None m Hm b)); [done|].
    intros x r Hx Hc. apply (E x r Hx). apply containsb_spec.
    rewrite (containsb_page r a b) by eauto using ok_reg. by apply containsb_spec.
Qed.

Section Page.
Context (u : umem) (Hu : umem_ok u).

Lemma translate_page a b :
  0 <= a < 2 ^ 64 - 1 -> 0 <= b < 2 ^ 64 - 1 -> a / 4096 = b / 4096 ->
  translate u b = (fun h => host_add h (b - a)) <$> translate u a.
Proof using Hu.
  intros Ha Hb Hab. destruct Hu as [Hm Hv]. unfold translate.
  rewrite !guest_to_host_aspace by done.
  pose proof (aspace_page _ _ _ Hm Hab) as E1. pose proof (aspace_page _ _ _ Hv Hab) as E2.
  destruct (aspace (u_mm u) a), (aspace (u_mm u) b); try done.
Qed.

Lemma chunk_spec a n :
  0 <= a -> a + n < 2 ^ 64 - 4096 -> 0 < n ->
  0 < chunk a n <= n /\ (forall i, 0 <= i < chunk a n -> (a + i) / 4096 = a / 4096).
Proof.
  intros Ha Hb Hn. unfold chunk, rounddown, MIN, wrap.
  rewrite (Z.mod_small (a + 4096)) by lia.
  assert ((a + 4096) / 4096 = a / 4096 + 1) as E by (Z.div_mod_to_equations; lia). rewrite E.
  assert (a / 4096 * 4096 <= a < a / 4096 * 4096 + 4096) by (Z.div_mod_to_equations; lia).
  rewrite (Z.mod_small (_ * 4096)) by lia. rewrite Z.mod_small by lia.
  split; [zcases; lia|]. intros i Hi.
  assert (a + i < a / 4096 * 4096 + 4096) by (revert Hi; zcases; lia). Z.div_mod_to_equations. lia.
Qed.

(** Translation is linear within the rest of the page. *)
Lemma translate_chunk a n h i :
  0 <= a -> a + n < 2 ^ 64 - 4096 -> 0 < n -> translate u a = Some h -> 0 <= i < chunk a n ->
  translate u (a + i) = Some (host_add h i).
Proof using Hu.
  intros Ha Hb Hn Ht Hi. destruct (chunk_spec a n Ha Hb Hn) as [Hc Hp].
  rewrite (translate_page a (a + i)) by (lia || by rewrite Hp). rewrite Ht. simpl. do 2 f_equal. lia.
Qed.

Lemma user_bytes_linear s k : forall a h,
  (forall i, 0 <= i < Z.of_nat s -> translate u (a + i) = Some (host_add h i)) ->
  user_bytes u a (s + k) = host_read (hmem u) h (Z.of_nat s) ++ user_bytes u (a + Z.of_nat s) k.
Proof.
  induction s as [|s IH]; intros a h Ht.
  { unfold host_read. simpl. by rewrite Z.add_0_r. }
  unfold host_read. rewrite seqZ_cons by lia. rewrite fmap_cons, Nat.add_succ_l. cbn [user_bytes app].
  replace (translate u a) with (Some (host_add h 0)) by (rewrite <- (Ht 0) by lia; f_equal; lia).
  f_equal. rewrite (IH (a + 1) (h + 1)).
  - unfold host_read. replace (a + 1 + Z.of_nat s) with (a + Z.of_nat (S s)) by lia. f_equal.
    replace (Z.pred (Z.of_nat (S s))) with (Z.of_nat s) by lia.
    change (Z.succ 0) with (1 + 0). rewrite <- fmap_add_seqZ, <- list_fmap_compose.
    apply list_fmap_ext. intros _ i _. simpl. f_equal. unfold host_add. f_equal. lia.
  - intros i Hi. replace (a + 1 + i) with (a + (i + 1)) by lia. rewrite Ht by lia.
    unfold host_add. do 2 f_equal. lia.
Qed.

Lemma user_bytes_chunk a n h :
  0 <= a -> a + n < 2 ^ 64 - 4096 -> 0 < n -> translate u a = Some h ->
  user_bytes u a (Z.to_nat n) =
    host_read (hmem u) h (chunk a n) ++ user_bytes u (a + chunk a n) (Z.to_nat (n - chunk a n)).
Proof using Hu.
  intros Ha Hb Hn Ht. destruct (chunk_spec a n Ha Hb Hn) as [Hc Hp].
  replace (Z.to_nat n) with (Z.to_nat (chunk a n) + Z.to_nat (n - chunk a n))%nat by lia.
  rewrite (user_bytes_linear _ _ a h); rewrite Z2Nat.id by lia; [done|].
  intros i Hi. by apply (translate_chunk a n).
Qed.

(** The loop returns the bytes of the byte-wise specification and counts what
    is left. *)
Lemma copy_from_user_loop_ok fuel : forall a n,
  (Z.to_nat n < fuel)%nat -> 0 <= a -> 0 <= n -> a + n < 2 ^ 64 - 4096 ->
  let bs := user_bytes u a (Z.to_nat n) in
  copy_from_user_loop fuel u a n = Some (n - Z.of_nat (length bs), bs).
Proof using Hu.
  induction fuel as [|fuel IH]; intros a n Hf Ha Hn Hb; [lia|]. simpl.
  rewrite Z.gtb_ltb. destruct (Z.ltb_spec 0 n) as [Hp|Hp]; simpl.
  2: { assert (n = 0) as -> by lia. done. }
  destruct (translate u a) as [h|] eqn:Ht.
  - rewrite (user_bytes_chunk a n h) by done. destruct (chunk_spec a n Ha Hb Hp) as [Hc _].
    rewrite wrap_small by lia. rewrite IH by lia. simpl. do 2 f_equal.
    rewrite length_app. unfold host_read. rewrite length_fmap, length_seqZ. lia.
  - destruct (Z.to_nat n) eqn:E; [lia|]. simpl. rewrite Ht. simpl. do 2 f_equal. lia.
Qed.

End Page.

Lemma user_bytes_length u a n : length (user_bytes u a n) = user_mapped u a n.
Proof.
  revert a. induction n as [|n IH]; intros a; [done|]. simpl.
  destruct (translate u a); [|done]. simpl. by rewrite IH.
Qed.

Lemma user_mapped_linear u s k : forall a,
  (forall i, 0 <= i < Z.of_nat s -> is_Some (translate u (a + i))) ->
  user_mapped u a (s + k) = (s + user_mapped u (a + Z.of_nat s) k)%nat.
Proof.
  induction s as [|s IH]; intros a Ht; [by rewrite Z.add_0_r|]. simpl.
  destruct (Ht 0) as [h Hh]; [lia|]. rewrite Z.add_0_r in Hh. rewrite Hh, IH.
  - do 2 f_equal. f_equal. lia.
  - intros i Hi. replace (a + 1 + i) with (a + (i + 1)) by lia. apply Ht. lia.
Qed.

Lemma user_write_linear s : forall u a h bs,
  (forall i, 0 <= i < Z.of_nat s -> translate u (a + i) = Some (host_add h i)) -> (s <= length bs)%nat ->
  user_write u a bs = user_write (set_hmem (host_write (hmem u) h (take s bs)) u) (a + Z.of_nat s) (drop s bs).
Proof.
  induction s as [|s IH]; intros u a h bs Ht Hl.
  { simpl. rewrite drop_0, Z.add_0_r. by destruct u. }
  destruct bs as [|b bs]; [simpl in Hl; lia|]. cbn [user_write take drop host_write].
  replace (translate u a) with (Some (host_add h 0)) by (rewrite <- (Ht 0) by lia; f_equal; lia).
  unfold host_add. rewrite Z.add_0_r. rewrite (IH _ (a + 1) (h + 1)).
  - unfold set_hmem. simpl. f_equal. lia.
  - intros i Hi. unfold translate, set_hmem. simpl. replace (a + 1 + i) with (a + (i + 1)) by lia.
    unfold translate in Ht. rewrite Ht by lia. unfold host_add. do 2 f_equal. lia.
  - simpl in Hl. lia.
Qed.

Lemma copy_to_user_loop_ok fuel : forall u a bs n,
  umem_ok u -> n = Z.of_nat (length bs) ->
  (length bs < fuel)%nat -> 0 <= a -> a + n < 2 ^ 64 - 4096 ->
  copy_to_user_loop fuel u a bs n = Some (n - Z.of_nat (user_mapped u a (length bs)), user_write u a bs).
Proof.
  induction fuel as [|fuel IH]; intros u a bs n Hu -> Hf Ha Hb; [lia|]. cbn [copy_to_user_loop].
  set (n := Z.of_nat (length bs)) in *. rewrite Z.gtb_ltb. destruct (Z.ltb_spec 0 n) as [Hp|Hp]; simpl.
  2: { destruct bs; [done|simpl in n; lia]. }
  destruct (translate u a) as [h|] eqn:Ht.
  2: { destruct bs as [|b bs]; [simpl in n; lia|]. simpl. rewrite Ht. repeat f_equal; lia. }
  destruct (chunk_spec a n Ha Hb Hp) as [Hc _]. set (c := chunk a n) in *.
  assert (forall i, 0 <= i < Z.of_nat (Z.to_nat c) -> translate u (a + i) = Some (host_add h i)) as Hlin.
  { intros i Hi. apply (translate_chunk u Hu a n); try done. fold c. lia. }
  rewrite wrap_small by lia. fold (set_hmem (host_write (hmem u) h (take (Z.to_nat c) bs)) u).
  rewrite (user_write_linear (Z.to_nat c) u a h bs) by (done || lia).
  replace (a + Z.of_nat (Z.to_nat c)) with (a + c) by lia.
  rewrite (IH _ (a + c)); [|done|rewrite length_drop; lia|rewrite length_drop; lia|lia|lia].
  do 2 f_equal. rewrite length_drop.
  replace (length bs) with (Z.to_nat c + (length bs - Z.to_nat c))%nat at 2 by lia.
  rewrite (user_mapped_linear u) by (intros i Hi; rewrite Hlin by done; by eexists).
  replace (a + Z.of_nat (Z.to_nat c)) with (a + c) by lia.
  assert (forall v a k, u_mm v = u_mm u -> u_vkern v = u_vkern u -> user_mapped v a k = user_mapped u a k) as Hext.
  { intros v b k E1 E2. revert b. induction k as [|k IHk]; intros b; [done|]. simpl.
    unfold translate. rewrite E1, E2, IHk. done. }
  rewrite Hext by done. lia.
Qed.

(** ** Strings *)

Lemma strnlen_read hm n : forall h,
  strnlen hm h n = match find_nul (host_read hm h (Z.of_nat n)) with Some i => i | None => Z.of_nat n end.
Proof.
  induction n as [|n IH]; intros h; [done|]. unfold host_read. rewrite seqZ_cons by lia.
  rewrite fmap_cons. cbn [find_nul strnlen]. unfold host_add at 1. rewrite Z.add_0_r.
  destruct (hm (u64 h) =? 0); [done|]. rewrite IH. unfold host_read.
  replace (Z.pred (Z.of_nat (S n))) with (Z.of_nat n) by lia.
  change (Z.succ 0) with (1 + 0). rewrite <- fmap_add_seqZ, <- list_fmap_compose.
  assert (((fun i => hm (host_add h i)) ∘ Z.add 1) <$> seqZ 0 (Z.of_nat n) =
          (fun i => hm (host_add (h + 1) i)) <$> seqZ 0 (Z.of_nat n)) as ->.
  { apply list_fmap_ext. intros _ i _. simpl. f_equal. unfold host_add. f_equal. lia. }
  destruct (find_nul _); simpl; lia.
Qed.

Lemma find_nul_app l1 l2 :
  find_nul (l1 ++ l2) =
  match find_nul l1 with Some i => Some i | None => Z.add (Z.of_nat (length l1)) <$> find_nul l2 end.
Proof.
  induction l1 as [|b l1 IH]; simpl; [by destruct (find_nul l2)|].
  destruct (b =? 0); [done|]. rewrite IH. destruct (find_nul l1); [done|].
  destruct (find_nul l2); simpl; [|done]. f_equal. lia.
Qed.

Lemma find_nul_bound l i : find_nul l = Some i -> 0 <= i < Z.of_nat (length l).
Proof.
  revert i. induction l as [|b l IH]; intros i; [done|]. simpl. destruct (b =? 0); [intros; simplify_eq; lia|].
  destruct (find_nul l) as [j|]; [|done]. specialize (IH j eq_refl). intros. simplify_eq/=. lia.
Qed.

(** What [strnlen_user] answers, from the bytes of the range. *)
Definition strnlen_spec (bs : list Z) (n : Z) : Z :=
  match find_nul bs with
  | Some i => i + 1
  | None => if Z.of_nat (length bs) <? n then 0 else n + 1
  end.

Lemma host_read_length hm h n : 0 <= n -> Z.of_nat (length (host_read hm h n)) = n.
Proof. intros. unfold host_read. rewrite length_fmap, length_seqZ. lia. Qed.

Lemma strnlen_user_loop_ok u fuel : forall a n len,
  umem_ok u -> (Z.to_nat n < fuel)%nat -> 0 <= a -> 0 <= n -> a + n < 2 ^ 64 - 4096 ->
  0 <= len -> len + n < 2 ^ 31 ->
  let bs := user_bytes u a (Z.to_nat n) in
  strnlen_user_loop fuel u a n len =
    Some (match find_nul bs with
          | Some i => len + i + 1
          | None => if Z.of_nat (length bs) <? n then 0 else len + n + 1
          end).
Proof.
  induction fuel as [|fuel IH]; intros a n len Hu Hf Ha Hn Hb Hl1 Hl2; [lia|]. simpl.
  rewrite (swrap_small 64 n) by lia. rewrite Z.gtb_ltb. destruct (Z.ltb_spec 0 n) as [Hp|Hp]; simpl.
  2: { assert (n = 0) as -> by lia. simpl. do 2 f_equal. lia. }
  destruct (translate u a) as [h|] eqn:Ht.
  2: { destruct (Z.to_nat n) eqn:E; [lia|]. cbn [user_bytes]. rewrite Ht. cbn [find_nul length]. by rewrite (proj2 (Z.ltb_lt (Z.of_nat 0) n)) by lia. }
  rewrite (user_bytes_chunk u Hu a n h) by done. destruct (chunk_spec a n Ha Hb Hp) as [Hc _].
  set (c := chunk a n) in *. rewrite strnlen_read, Z2Nat.id, find_nul_app by lia.
  destruct (find_nul (host_read (hmem u) h c)) as [i|] eqn:E.
  - apply find_nul_bound in E. rewrite host_read_length in E by lia.
    destruct (Z.ltb_spec i c); [done|lia].
  - rewrite Z.ltb_irrefl. rewrite (wrap_small 64), swrap_small by lia. rewrite IH; [|first [done|lia]..].
    rewrite length_app, Nat2Z.inj_add, host_read_length by lia.
    destruct (find_nul (user_bytes _ _ _)); simpl; [do 2 f_equal; lia|].
    zcases; f_equal; lia.
Qed.

Lemma strnlen_user_ok u a n :
  umem_ok u -> 0 <= a -> 0 <= n < 2 ^ 31 -> a + n < 2 ^ 64 - 4096 ->
  strnlen_user u a n = Some (strnlen_spec (user_bytes u a (Z.to_nat n)) n).
Proof.
  intros. unfold strnlen_user, strnlen_spec. by rewrite strnlen_user_loop_ok by (done || lia).
Qed.

(** ** Theorems *)

(** A copy of at least one byte whose start is mapped copies the mapped prefix. *)
Lemma user_bytes_take u a k n : (k <= n)%nat -> user_bytes u a k = take k (user_bytes u a n).
Proof.
  revert a n. induction k as [|k IH]; intros a [|n] Hk; try (done || lia). simpl.
  destruct (translate u a); [|done]. simpl. f_equal. apply IH. lia.
Qed.

Lemma user_write_bytes u a bs :
  (forall i, 0 <= i < Z.of_nat (length bs) -> is_Some (translate u (a + i))) ->
  (forall i j, 0 <= i < j -> j < Z.of_nat (length bs) -> translate u (a + i) <> translate u (a + j)) ->
  user_bytes (user_write u a bs) a (length bs) = bs /\
  (forall h, (forall i, 0 <= i < Z.of_nat (length bs) -> translate u (a + i) <> Some h) ->
     hmem (user_write u a bs) h = hmem u h) /\
  (forall b, translate (user_write u a bs) b = translate u b).
Proof.
  revert u a. induction bs as [|b bs IH]; intros u a Hm Hi; [done|]. cbn [user_write length user_bytes].
  destruct (Hm 0) as [h Hh]; [simpl; lia|]. rewrite Z.add_0_r in Hh. rewrite Hh.
  set (u1 := set_hmem _ u). assert (forall b, translate u1 b = translate u b) as Ht by done.
  destruct (IH u1 (a + 1)) as (IH1 & IH2 & IH3).
  { intros i Hr. rewrite Ht, <- Z.add_assoc. apply Hm. simpl. lia. }
  { intros i j H1 H2. rewrite !Ht, <- !Z.add_assoc. apply Hi; simpl; lia. }
  rewrite IH3, Ht, Hh. split_and!.
  - f_equal; [|done]. rewrite IH2.
    + simpl. by rewrite Z.eqb_refl.
    + intros i Hr. rewrite Ht, <- Z.add_assoc. intros E.
      apply (Hi 0 (1 + i)); [lia|simpl; lia|]. by rewrite E, Z.add_0_r.
  - intros g Hg. rewrite IH2.
    + simpl. destruct (Z.eqb_spec g h) as [->|]; [|done]. destruct (Hg 0); [simpl; lia|]. by rewrite Z.add_0_r.
    + intros i Hr. rewrite Ht, <- Z.add_assoc. apply Hg. simpl. lia.
  - intros c. by rewrite IH3, Ht.
Qed.

(** C16: [copy_from_user], which translates once per page, copies exactly the
    bytes a byte-by-byte translation would, stopping at the first unmapped
    address, and returns the number of bytes not copied; it always terminates. *)
Theorem copy_from_user_spec u a n :
  umem_ok u -> 0 <= a -> 0 <= n -> a + n < 2 ^ 64 - 4096 ->
  let bs := user_bytes u a (Z.to_nat n) in
  copy_from_user u a n = Some (n - Z.of_nat (length bs), bs).
Proof. intros. apply copy_from_user_loop_ok; [done|lia|done..]. Qed.

(** C17: What [copy_to_user] stores in a fully mapped guest buffer with distinct
    host bytes, [copy_from_user] reads back, both reporting no bytes left, and
    host memory outside the buffer is unchanged. *)
Theorem copy_roundtrip u a bs :
  umem_ok u -> 0 <= a -> a + Z.of_nat (length bs) < 2 ^ 64 - 4096 ->
  (forall i, 0 <= i < Z.of_nat (length bs) -> is_Some (translate u (a + i))) ->
  (forall i j, 0 <= i < j -> j < Z.of_nat (length bs) -> translate u (a + i) <> translate u (a + j)) ->
  exists u', copy_to_user u a bs = Some (0, u') /\
    copy_from_user u' a (Z.of_nat (length bs)) = Some (0, bs) /\
    (forall h, (forall i, 0 <= i < Z.of_nat (length bs) -> translate u (a + i) <> Some h) ->
       hmem u' h = hmem u h).
Proof.
  intros Hu Ha Hb Hm Hi. destruct (user_write_bytes u a bs Hm Hi) as (H1 & H2 & H3).
  exists (user_write u a bs). split_and!; [| |done].
  - unfold copy_to_user. rewrite copy_to_user_loop_ok by (done || lia). do 2 f_equal.
    rewrite <- user_bytes_length.
    assert (user_mapped (user_write u a bs) a (length bs) = user_mapped u a (length bs)) as E.
    { generalize (length bs). intros k. revert H3. generalize (user_write u a bs). intros v H3.
      generalize a. induction k as [|k IH]; intros b; [done|]. simpl. by rewrite H3, IH. }
    rewrite user_bytes_length, <- E, <- user_bytes_length, H1. lia.
  - assert (umem_ok (user_write u a bs)) as Hu'.
    { clear -Hu. revert u a Hu. induction bs as [|b bs IH]; intros u a Hu; simpl; [done|].
      destruct (translate u a); [|done]. by apply IH. }
    unfold copy_from_user. rewrite copy_from_user_loop_ok by (done || lia).
    rewrite Nat2Z.id, H1. do 2 f_equal. lia.
Qed.

(** [strncpy_from_user] of at most [n] bytes returns the length of the
    string and copies it with its NUL when a NUL is within reach; without a NUL
    it copies and returns [n]; and it returns -EFAULT when the first unmapped
    address comes before both. *)
Theorem strncpy_from_user_spec u a n :
  umem_ok u -> 0 <= a -> 0 < n < 2 ^ 31 -> a + n < 2 ^ 64 - 4096 ->
  let bs := user_bytes u a (Z.to_nat n) in
  strncpy_from_user u a n =
    Some (match find_nul bs with
          | Some i => (i, take (Z.to_nat (i + 1)) bs)
          | None => if Z.of_nat (length bs) <? n then (- LINUX_EFAULT, []) else (n, bs)
          end).
Proof.
  intros Hu Ha Hn Hb bs. unfold strncpy_from_user. rewrite strnlen_user_ok by (done || lia). cbn [mbind option_bind].
  fold bs. unfold strnlen_spec. assert (Z.of_nat (length bs) <= n) as Hlen.
  { unfold bs. rewrite user_bytes_length.
    enough (forall k a, (user_mapped u a k <= k)%nat) as Hk by (specialize (Hk (Z.to_nat n) a); lia).
    induction k as [|k IH]; intros b; simpl; [lia|]. destruct (translate u b); [|lia]. specialize (IH (b + 1)). lia. }
  destruct (find_nul bs) as [i|] eqn:E.
  - apply find_nul_bound in E. destruct (Z.eqb_spec (i + 1) 0); [lia|]. destruct (Z.ltb_spec n (i + 1)); [lia|].
    unfold copy_from_user. rewrite copy_from_user_loop_ok by (done || lia). cbn [mbind option_bind].
    rewrite (user_bytes_take u a (Z.to_nat (i + 1)) (Z.to_nat n)) by lia. fold bs.
    rewrite length_take, Nat.min_l by lia. rewrite Z2Nat.id by lia.
    destruct (Z.eqb_spec (i + 1 - (i + 1)) 0); [|lia]. simpl. do 2 f_equal. lia.
  - destruct (Z.ltb_spec (Z.of_nat (length bs)) n); [done|].
    destruct (Z.eqb_spec (n + 1) 0); [lia|]. destruct (Z.ltb_spec n (n + 1)); [|lia].
    unfold copy_from_user. rewrite copy_from_user_loop_ok by (done || lia). cbn [mbind option_bind]. fold bs.
    destruct (Z.eqb_spec (n - Z.of_nat (length bs)) 0); [done|lia].
Qed.

(** ** Concrete runs *)

#[local] Existing Instances demo_host macos_errno demo_host_ok.

Definition u3p : umem := mk_umem (w_mm w3p) (w_vkern w3p) (fun a => a mod 256).

Lemma u3p_ok : umem_ok u3p.
Proof. split; [apply (inv_mm _ (reach_winv _ w3p_reach))|apply (inv_vkern _ (reach_winv _ w3p_reach))]. Qed.

Lemma copy_from_user_witness :
  exists bs, copy_from_user u3p 0x12ffe 5 = Some (3, bs) /\ bs = [254; 255].
Proof.
  exists (user_bytes u3p 0x12ffe 5). split; [|vm_compute; reflexivity].
  apply (copy_from_user_spec u3p 0x12ffe 5); [apply u3p_ok|lia..].
Defined.

Lemma copy_roundtrip_witness :
  exists u', copy_to_user u3p 0x10fff [7; 8] = Some (0, u') /\
    copy_from_user u' 0x10fff 2 = Some (0, [7; 8]).
Proof.
  destruct (copy_roundtrip u3p 0x10fff [7; 8]) as (u' & H1 & H2 & _).
  - apply u3p_ok.
  - lia.
  - simpl. lia.
  - intros i Hi. simpl in Hi. assert (i = 0 \/ i = 1) as [-> | ->] by lia; vm_compute; eexists; reflexivity.
  - intros i j Hi Hj. simpl in Hj. assert (i = 0) as -> by lia. assert (j = 1) as -> by lia. vm_compute. discriminate.
  - exists u'. split; assumption.
Defined.

Lemma strncpy_from_user_witness :
  strncpy_from_user u3p 0x10ffe 64 = Some (2, [254; 255; 0]).
Proof.
  rewrite (strncpy_from_user_spec u3p 0x10ffe 64); [vm_compute; reflexivity|apply u3p_ok|lia..].
Defined.
