(* ===== verification/FdTable.v ===== *)
(** * File descriptor tables ([src/fs/fs.c], [include/noah.h])

    Two tables of the same shape, one for the guest's descriptors and one for
    the kernel's own, with a bitmap of open descriptors, a bitmap of
    close-on-exec ones and a two-level array of [struct file]. *)

From S2P Require Import Prelude Const Errno.

(** [struct file]; its [ops] are always [darwinfs]'s once set, [NULL] after
    [calloc]. *)
Record file := mk_file { f_ops : bool; f_fd : Z }.

Record fdtable := mk_fdtable {
  start : Z;
  size : Z;
  files : list (list file);
  open_fds : list Z;
  cloexec_fds : list Z;
}.

Definition user_fdtable_initsize : Z := 64.
Definition vkern_fdtable_maxsize : Z := 64.
Definition fdtable_alloc_unit : Z := 64.

Definition empty_fdtable (start : Z) : fdtable := mk_fdtable start 0 [] [] [].

Definition set_open_fds (l : list Z) (t : fdtable) : fdtable :=
  mk_fdtable (start t) (size t) (files t) l (cloexec_fds t).
Definition set_cloexec_fds (l : list Z) (t : fdtable) : fdtable :=
  mk_fdtable (start t) (size t) (files t) (open_fds t) l.
Definition set_files (l : list (list file)) (t : fdtable) : fdtable :=
  mk_fdtable (start t) (size t) l (open_fds t) (cloexec_fds t).

Definition div_ceil (x y : Z) : Z := Z.quot (x + y - 1) y.

(** The C library's allocator: whether a request of so many bytes succeeds; and
    whether so many bytes are left on the stack. *)
Class Heap := { heap_ok : Z -> bool; stack_ok : Z -> bool }.

Section Alloc.
Context `{Heap}.

Definition sizeof_ptr : Z := 8.
Definition sizeof_file : Z := 16.

Definition new_unit : list file := replicate (Z.to_nat fdtable_alloc_unit) (mk_file false 0).

(** The loop that allocates the units from [oldunit] on. *)
Fixpoint alloc_units (n : nat) (fs : list (list file)) : bool * list (list file) :=
  match n with
  | O => (true, fs)
  | S n =>
    if heap_ok (fdtable_alloc_unit * sizeof_file) then alloc_units n (fs ++ [new_unit])
    else (false, fs)
  end.

(** [realloc] of a bitmap to [newlen] bytes followed by the [bzero] of what is
    beyond the old words. *)
Definition grow_bits (bits : list Z) (oldunit newunit : Z) : list Z :=
  take (Z.to_nat oldunit) bits ++ replicate (Z.to_nat (newunit - oldunit)) 0.

Definition alloc_fdtable (t : fdtable) (newsize : Z) : Z * fdtable :=
  let newsize := div_ceil newsize fdtable_alloc_unit * fdtable_alloc_unit in
  let oldsize := size t in
  if newsize <=? oldsize then (0, t)
  else
    let newunit := Z.quot newsize fdtable_alloc_unit in
    let oldunit := Z.quot oldsize fdtable_alloc_unit in
    if negb (heap_ok (sizeof_ptr * newunit)) then (- LINUX_ENOMEM, set_files [] t)
    else
      let '(ok, fs) := alloc_units (Z.to_nat (newunit - oldunit)) (take (Z.to_nat oldunit) (files t)) in
      let t := set_files fs t in
      if negb ok then (- LINUX_ENOMEM, t)
      else
        let newfdslen := Z.quot newsize 8 in
        if negb (heap_ok newfdslen) then (- LINUX_ENOMEM, set_open_fds [] t)
        else
          (0, mk_fdtable (start t) newsize (files t)
                (grow_bits (open_fds t) oldunit newunit)
                (grow_bits (cloexec_fds t) oldunit newunit)).

End Alloc.

(** ** Bitmaps *)

Definition idx_table (t : fdtable) (fd : Z) : Z := Z.quot (fd - start t) 64.
Definition idx_bit (t : fdtable) (fd : Z) : Z := fd - start t - idx_table t fd * 64.

(** Access to a C array: an index out of range is a fault. *)
Definition aget {A} (l : list A) (i : Z) : option A := if i <? 0 then None else l !! Z.to_nat i.
Definition aset {A} (l : list A) (i : Z) (x : A) : option (list A) :=
  _ ← aget l i; Some (<[Z.to_nat i := x]> l).

Definition set_fdbit (t : fdtable) (fdbits : list Z) (fd : Z) : option (list Z) :=
  w ← aget fdbits (idx_table t fd); aset fdbits (idx_table t fd) (Z.lor w (Z.shiftl 1 (idx_bit t fd))).

Definition clear_fdbit (t : fdtable) (fdbits : list Z) (fd : Z) : option (list Z) :=
  w ← aget fdbits (idx_table t fd); aset fdbits (idx_table t fd) (Z.ldiff w (Z.shiftl 1 (idx_bit t fd))).

Definition test_fdbit (t : fdtable) (fdbits : list Z) (fd : Z) : option bool :=
  w ← aget fdbits (idx_table t fd); Some (testf w (Z.shiftl 1 (idx_bit t fd))).

(** [&table->files[offset / unit][offset % unit]] *)
Definition file_slot (t : fdtable) (fd : Z) : option file :=
  let offset := fd - start t in
  u ← aget (files t) (Z.quot offset fdtable_alloc_unit); aget u (Z.rem offset fdtable_alloc_unit).

Definition alloc_file (t : fdtable) (fd : Z) : option fdtable :=
  let offset := fd - start t in
  u ← aget (files t) (Z.quot offset fdtable_alloc_unit);
  u' ← aset u (Z.rem offset fdtable_alloc_unit) (mk_file true fd);
  fs ← aset (files t) (Z.quot offset fdtable_alloc_unit) u';
  Some (set_files fs t).

(** [ffs] of the C library takes an [int]: only the low 32 bits count. *)
Fixpoint ffs_from (n : nat) (i x : Z) : Z :=
  match n with
  | O => 0
  | S n => if Z.testbit x i then i + 1 else ffs_from n (i + 1) x
  end.
Definition ffs (x : Z) : Z := ffs_from 32 0 x.

(** [for (i = 0; i < table->size / 64; i++)] of [find_emptyfd] *)
Fixpoint find_emptyfd_loop (t : fdtable) (words : list Z) (i : Z) (n : nat) {struct n} : option Z :=
  match n with
  | O => Some (-1)
  | S n =>
    match words with
    | [] => None
    | w :: words =>
      let ret := ffs (Z.lnot w) in
      if ret >? 0 then Some (start t + ret - 1 + i * 64) else find_emptyfd_loop t words (i + 1) n
    end
  end.
Definition find_emptyfd (t : fdtable) : option Z :=
  find_emptyfd_loop t (open_fds t) 0 (Z.to_nat (Z.quot (size t) 64)).

(** [do_get_file]: the outer option is a fault, the inner one [NULL]. *)
Definition do_get_file (t : fdtable) (fd : Z) : option (option file) :=
  b ← test_fdbit t (open_fds t) fd;
  if negb b then Some None else f ← file_slot t fd; Some (Some f).

(** What [register_fd] and [vkern_dup_fd] do with a descriptor in the table. *)
Definition enter_fd (t : fdtable) (fd : Z) (is_cloexec : bool) : option fdtable :=
  o ← set_fdbit t (open_fds t) fd;
  let t := set_open_fds o t in
  c ← (if is_cloexec then set_fdbit t (cloexec_fds t) fd else clear_fdbit t (cloexec_fds t) fd);
  alloc_file (set_cloexec_fds c t) fd.

(** The two bits [do_close] clears. *)
Definition leave_fd (t : fdtable) (fd : Z) : option fdtable :=
  o ← clear_fdbit t (open_fds t) fd;
  let t := set_open_fds o t in
  c ← clear_fdbit t (cloexec_fds t) fd;
  Some (set_cloexec_fds c t).

(** ** Specification *)

(** Bit [k] of a bitmap. *)
Definition bitat (ws : list Z) (k : Z) : bool :=
  match aget ws (k / 64) with Some w => Z.testbit w (k mod 64) | None => false end.

(** A table as a partial function: the descriptors in use and whether they are
    close-on-exec. *)
Definition fds (t : fdtable) (fd : Z) : option bool :=
  if (start t <=? fd) && (fd <? start t + size t) && bitat (open_fds t) (fd - start t)
  then Some (bitat (cloexec_fds t) (fd - start t)) else None.

Definition words_ok (n : Z) (ws : list Z) : Prop :=
  Z.of_nat (length ws) = n /\ Forall (fun w => 0 <= w < 2 ^ 64) ws.

Record tbl_ok (t : fdtable) : Prop := {
  tbl_start : 0 <= start t;
  tbl_size : 0 <= size t;
  tbl_unit : size t mod 64 = 0;
  tbl_open : words_ok (size t / 64) (open_fds t);
  tbl_cloexec : words_ok (size t / 64) (cloexec_fds t);
  tbl_files : Z.of_nat (length (files t)) = size t / 64;
  tbl_units : Forall (fun u => length u = 64%nat) (files t);
  tbl_slots fd c : fds t fd = Some c -> file_slot t fd = Some (mk_file true fd);
  (** close-on-exec bits are set for open descriptors only *)
  tbl_sub fd : start t <= fd < start t + size t ->
    bitat (cloexec_fds t) (fd - start t) = true -> bitat (open_fds t) (fd - start t) = true;
}.

Definition in_table (t : fdtable) (fd : Z) : Prop := start t <= fd < start t + size t.

(** ** Arrays and bits *)

Lemma aget_lt {A} (l : list A) i : 0 <= i < Z.of_nat (length l) -> is_Some (aget l i).
Proof. intros Hi. unfold aget. destruct (Z.ltb_spec i 0); [lia|]. apply lookup_lt_is_Some. lia. Qed.

Lemma aget_Some {A} (l : list A) i x : aget l i = Some x -> 0 <= i < Z.of_nat (length l).
Proof.
  unfold aget. destruct (Z.ltb_spec i 0); [done|]. intros Hl. apply lookup_lt_Some in Hl. lia.
Qed.

Lemma aset_ok {A} (l : list A) i x :
  0 <= i < Z.of_nat (length l) ->
  exists l', aset l i x = Some l' /\ length l' = length l /\
    (forall j, aget l' j = if j =? i then Some x else aget l j) /\
    (forall P, Forall P l -> P x -> Forall P l').
Proof.
  intros Hi. unfold aset. destruct (aget_lt l i Hi) as [y ->]. simpl.
  exists (<[Z.to_nat i := x]> l). rewrite length_insert. split_and!; [done..| |].
  - intros j. unfold aget. destruct (Z.ltb_spec j 0), (Z.eqb_spec j i); try (done || lia).
    + subst. rewrite list_lookup_insert_eq by lia. done.
    + rewrite list_lookup_insert_ne by lia. done.
  - intros P Hl Hx. by apply Forall_insert.
Qed.

Lemma quot_div a : 0 <= a -> Z.quot a 64 = a / 64.
Proof. intros. apply Z.quot_div_nonneg; lia. Qed.

Lemma bits_range x : 0 <= x -> (forall n, 0 <= n -> Z.testbit x n = true -> n < 64) -> 0 <= x < 2 ^ 64.
Proof.
  intros Hx Hb. split; [done|]. destruct (Z.eq_dec x 0) as [->|]; [lia|].
  apply Z.log2_lt_pow2; [lia|]. apply Hb; [apply Z.log2_nonneg|]. apply Z.bit_log2. lia.
Qed.

Lemma range_bits w : 0 <= w < 2 ^ 64 -> forall n, 0 <= n -> Z.testbit w n = true -> n < 64.
Proof.
  intros Hw n Hn Ht. destruct (Z.lt_ge_cases n 64); [done|].
  rewrite Z.bits_above_log2 in Ht; [done|lia|].
  destruct (Z.eq_dec w 0) as [->|]; [by rewrite Z.bits_0 in Ht|].
  apply Z.log2_lt_pow2; [lia|]. assert (2 ^ 64 <= 2 ^ n) by (apply Z.pow_le_mono_r; lia). lia.
Qed.

Section Bits.
Context (t : fdtable) (fd : Z) (Hfd : in_table t fd).
Let off := fd - start t.

Lemma idx_table_eq : idx_table t fd = off / 64.
Proof using Hfd. unfold idx_table. apply quot_div. destruct Hfd. lia. Qed.

Lemma idx_bit_eq : idx_bit t fd = off mod 64.
Proof using Hfd. unfold idx_bit. rewrite idx_table_eq. unfold off. Z.div_mod_to_equations. lia. Qed.

Lemma word_at ws : words_ok (size t / 64) ws -> size t mod 64 = 0 ->
  exists w, aget ws (off / 64) = Some w /\ 0 <= w < 2 ^ 64 /\ 0 <= off / 64 < Z.of_nat (length ws).
Proof using Hfd.
  intros [Hl Hr] Hm. destruct Hfd. assert (0 <= off / 64 < Z.of_nat (length ws)) as Hi.
  { rewrite Hl. unfold off. Z.div_mod_to_equations. lia. }
  destruct (aget_lt ws _ Hi) as [w Hw]. exists w. split_and!; try done; try lia;
    unfold aget in Hw; destruct (Z.ltb_spec (off / 64) 0); try done;
    rewrite Forall_lookup in Hr; specialize (Hr _ _ Hw); lia.
Qed.

Lemma test_fdbit_ok ws :
  words_ok (size t / 64) ws -> size t mod 64 = 0 -> test_fdbit t ws fd = Some (bitat ws off).
Proof using Hfd.
  intros Hw Hm. destruct (word_at ws Hw Hm) as (w & Ew & Hr & _).
  unfold test_fdbit, bitat. rewrite idx_table_eq, idx_bit_eq, Ew. simpl. f_equal.
  unfold testf. destruct (Z.testbit w (off mod 64)) eqn:E.
  - destruct (Z.eqb_spec (Z.land w (Z.shiftl 1 (off mod 64))) 0) as [H0|]; [|done].
    apply (f_equal (fun z => Z.testbit z (off mod 64))) in H0.
    rewrite Z.land_spec, E, Z.shiftl_spec, Z.sub_diag, Z.bits_0 in H0 by (apply Z.mod_pos_bound; lia). done.
  - replace (Z.land w (Z.shiftl 1 (off mod 64))) with 0; [done|]. symmetry. apply Z.bits_inj'. intros n Hn.
    rewrite Z.land_spec, Z.bits_0, Z.shiftl_1_l, Z.pow2_bits_eqb by (apply Z.mod_pos_bound; lia).
    destruct (Z.eqb_spec (off mod 64) n) as [<-|]; [by rewrite E|by rewrite andb_false_r].
Qed.

(** The effect of writing one word, by a bitwise function with [1 << bit]. *)
Lemma write_bit ws f (b : bool) :
  words_ok (size t / 64) ws -> size t mod 64 = 0 ->
  (forall w n, 0 <= n -> Z.testbit (f w (Z.shiftl 1 (off mod 64))) n =
               if n =? off mod 64 then b else Z.testbit w n) ->
  (forall w, 0 <= w < 2 ^ 64 -> 0 <= f w (Z.shiftl 1 (off mod 64)) < 2 ^ 64) ->
  exists ws', (w ← aget ws (idx_table t fd); aset ws (idx_table t fd) (f w (Z.shiftl 1 (idx_bit t fd)))) = Some ws' /\
    words_ok (size t / 64) ws' /\ forall k, 0 <= k -> bitat ws' k = if k =? off then b else bitat ws k.
Proof using Hfd.
  intros Hw Hm Hf Hrange. destruct (word_at ws Hw Hm) as (w & Ew & Hr & Hi).
  rewrite idx_table_eq, idx_bit_eq, Ew. simpl.
  destruct (aset_ok ws (off / 64) (f w (Z.shiftl 1 (off mod 64))) Hi) as (ws' & -> & Hl & Hg & HP).
  exists ws'. split_and!; [done|split; [by rewrite Hl; apply Hw|by apply HP; [apply Hw|auto]]|].
  intros k Hk. unfold bitat. rewrite Hg. destruct (Z.eqb_spec (k / 64) (off / 64)) as [E|E].
  - rewrite Hf by (apply Z.mod_pos_bound; lia). rewrite E, Ew.
    destruct (Z.eqb_spec k off) as [->|Hne]; [by rewrite Z.eqb_refl|].
    destruct (Z.eqb_spec (k mod 64) (off mod 64)); [|done]. destruct Hne. Z.div_mod_to_equations. lia.
  - destruct (Z.eqb_spec k off) as [->|]; [done|done].
Qed.

Lemma set_fdbit_ok ws :
  words_ok (size t / 64) ws -> size t mod 64 = 0 ->
  exists ws', set_fdbit t ws fd = Some ws' /\ words_ok (size t / 64) ws' /\
    forall k, 0 <= k -> bitat ws' k = if k =? off then true else bitat ws k.
Proof using Hfd.
  intros Hw Hm. assert (0 <= off mod 64 < 64) as Hb by (apply Z.mod_pos_bound; lia).
  apply write_bit; [done|done| |].
  - intros w n Hn. rewrite Z.lor_spec, Z.shiftl_1_l, Z.pow2_bits_eqb by lia. rewrite (Z.eqb_sym n).
    destruct (_ =? n); [apply orb_true_r|apply orb_false_r].
  - intros w Hr. apply bits_range; [apply Z.lor_nonneg; split; [lia|apply Z.shiftl_nonneg; lia]|].
    intros n Hn. rewrite Z.lor_spec, Z.shiftl_1_l, Z.pow2_bits_eqb by lia.
    destruct (Z.eqb_spec (off mod 64) n); [lia|]. rewrite orb_false_r. by apply range_bits.
Qed.

Lemma clear_fdbit_ok ws :
  words_ok (size t / 64) ws -> size t mod 64 = 0 ->
  exists ws', clear_fdbit t ws fd = Some ws' /\ words_ok (size t / 64) ws' /\
    forall k, 0 <= k -> bitat ws' k = if k =? off then false else bitat ws k.
Proof using Hfd.
  intros Hw Hm. assert (0 <= off mod 64 < 64) as Hb by (apply Z.mod_pos_bound; lia).
  apply write_bit; [done|done| |].
  - intros w n Hn. rewrite Z.ldiff_spec, Z.shiftl_1_l, Z.pow2_bits_eqb by lia. rewrite (Z.eqb_sym n).
    destruct (_ =? n); [apply andb_false_r|apply andb_true_r].
  - intros w Hr. apply bits_range; [apply Z.ldiff_nonneg; lia|].
    intros n Hn. rewrite Z.ldiff_spec. intros Hb'. apply andb_true_iff in Hb' as [Hb' _]. by apply (range_bits w).
Qed.

End Bits.

(** ** The table operations *)

Lemma rem_mod a : 0 <= a -> Z.rem a 64 = a mod 64.
Proof. intros. apply Z.rem_mod_nonneg; lia. Qed.

Lemma file_slot_eq t fd :
  in_table t fd -> file_slot t fd = (u ← aget (files t) ((fd - start t) / 64); aget u ((fd - start t) mod 64)).
Proof.
  intros [? ?]. unfold file_slot, fdtable_alloc_unit. by rewrite quot_div, rem_mod by lia.
Qed.

Lemma alloc_file_ok t fd :
  in_table t fd -> size t mod 64 = 0 -> Z.of_nat (length (files t)) = size t / 64 ->
  Forall (fun u => length u = 64%nat) (files t) ->
  exists fs, alloc_file t fd = Some (set_files fs t) /\ length fs = length (files t) /\
    Forall (fun u => length u = 64%nat) fs /\
    forall fd', in_table t fd' ->
      file_slot (set_files fs t) fd' = if fd' =? fd then Some (mk_file true fd) else file_slot t fd'.
Proof.
  intros Hin Hm Hl Hu. pose proof Hin as [H1 H2]. unfold alloc_file, fdtable_alloc_unit.
  set (off := fd - start t). rewrite quot_div, rem_mod by (unfold off; lia).
  assert (0 <= off / 64 < Z.of_nat (length (files t))) as Hi.
  { rewrite Hl. unfold off. Z.div_mod_to_equations. lia. }
  destruct (aget_lt _ _ Hi) as [u Eu]. rewrite Eu. simpl.
  assert (length u = 64%nat) as Hlu.
  { unfold aget in Eu. destruct (off / 64 <? 0); [done|]. rewrite Forall_lookup in Hu. eauto. }
  destruct (aset_ok u (off mod 64) (mk_file true fd)) as (u' & -> & Hl' & Hg' & _).
  { rewrite Hlu. apply Z.mod_pos_bound. lia. }
  simpl. destruct (aset_ok (files t) (off / 64) u' Hi) as (fs & -> & Hlf & Hgf & HP). simpl.
  exists fs. split_and!; [done|done|by apply HP; [|rewrite Hl', Hlu]|].
  intros fd' Hin'. rewrite !file_slot_eq by done. simpl. rewrite Hgf.
  destruct (Z.eqb_spec fd' fd) as [->|Hne].
  - fold off. rewrite Z.eqb_refl. simpl. by rewrite Hg', Z.eqb_refl.
  - destruct (Z.eqb_spec ((fd' - start t) / 64) (off / 64)) as [E|]; [|done]. rewrite E, Eu. simpl. rewrite Hg'.
    destruct (Z.eqb_spec ((fd' - start t) mod 64) (off mod 64)); [|done].
    destruct Hne. unfold off in *. Z.div_mod_to_equations. lia.
Qed.

Lemma fds_in t fd c : fds t fd = Some c -> in_table t fd.
Proof. unfold fds, in_table. zcases; simpl; done || lia. Qed.

Lemma enter_fd_ok t fd cx :
  tbl_ok t -> in_table t fd ->
  exists t', enter_fd t fd cx = Some t' /\ tbl_ok t' /\ start t' = start t /\ size t' = size t /\
    forall fd', fds t' fd' = if fd' =? fd then Some cx else fds t fd'.
Proof.
  intros Ht Hin. pose proof Hin as [H1 H2]. destruct Ht as [T1 T2 T3 T4 T5 T6 T7 T8 T9].
  unfold enter_fd. destruct (set_fdbit_ok t fd Hin (open_fds t) T4 T3) as (o & -> & Ho & Hob). simpl.
  set (t1 := set_open_fds o t).
  assert (exists c, (if cx then set_fdbit t1 (cloexec_fds t) fd else clear_fdbit t1 (cloexec_fds t) fd) = Some c /\
    words_ok (size t / 64) c /\ forall k, 0 <= k -> bitat c k = if k =? fd - start t then cx else bitat (cloexec_fds t) k)
    as (c & -> & Hc & Hcb).
  { destruct cx; [apply (set_fdbit_ok t1 fd Hin)|apply (clear_fdbit_ok t1 fd Hin)]; done. }
  simpl. destruct (alloc_file_ok (set_cloexec_fds c t1) fd) as (fs & -> & Hl & Hu & Hs); try done.
  eexists. split; [done|]. set (t' := set_files fs _).
  assert (forall fd', fds t' fd' = if fd' =? fd then Some cx else fds t fd') as Hfds.
  { intros fd'. unfold fds. simpl. destruct (Z.leb_spec (start t) fd'), (Z.ltb_spec fd' (start t + size t));
      simpl; try (destruct (Z.eqb_spec fd' fd); done || (exfalso; lia)).
    rewrite Hob, Hcb by lia. destruct (Z.eqb_spec fd' fd) as [->|]; [by rewrite Z.eqb_refl|].
    destruct (Z.eqb_spec (fd' - start t) (fd - start t)); [exfalso; lia|done]. }
  split_and!; try done. constructor; try done.
  - simpl. by rewrite Hl.
  - intros fd' c' Hf. pose proof (fds_in _ _ _ Hf) as Hin'. rewrite Hfds in Hf. unfold t'.
    rewrite Hs by done. destruct (Z.eqb_spec fd' fd) as [->|]; [done|]. by apply (T8 fd' c').
  - intros fd' Hr. unfold t' in *. simpl in *. rewrite Hob, Hcb by lia. destruct (_ =? _); [done|]. apply T9. done.
Qed.

Lemma leave_fd_ok t fd :
  tbl_ok t -> in_table t fd ->
  exists t', leave_fd t fd = Some t' /\ tbl_ok t' /\ start t' = start t /\ size t' = size t /\
    forall fd', fds t' fd' = if fd' =? fd then None else fds t fd'.
Proof.
  intros Ht Hin. pose proof Hin as [H1 H2]. destruct Ht as [T1 T2 T3 T4 T5 T6 T7 T8 T9].
  unfold leave_fd. destruct (clear_fdbit_ok t fd Hin (open_fds t) T4 T3) as (o & -> & Ho & Hob). simpl.
  destruct (clear_fdbit_ok (set_open_fds o t) fd Hin (cloexec_fds t) T5 T3) as (c & -> & Hc & Hcb). simpl.
  simpl in Hcb. eexists. split; [done|]. set (t' := set_cloexec_fds c _).
  assert (forall fd', fds t' fd' = if fd' =? fd then None else fds t fd') as Hfds.
  { intros fd'. unfold fds. simpl. destruct (Z.leb_spec (start t) fd'), (Z.ltb_spec fd' (start t + size t));
      simpl; try (destruct (Z.eqb_spec fd' fd); done || (exfalso; lia)).
    rewrite Hob, Hcb by lia. destruct (Z.eqb_spec fd' fd) as [->|]; [by rewrite Z.eqb_refl|].
    destruct (Z.eqb_spec (fd' - start t) (fd - start t)); [exfalso; lia|done]. }
  split_and!; try done. constructor; try done.
  - intros fd' c' Hf. rewrite Hfds in Hf. destruct (fd' =? fd); [done|]. by apply (T8 fd' c').
  - intros fd' Hr. unfold t' in *. simpl in *. rewrite Hob, Hcb by lia. destruct (_ =? _); [done|]. apply T9. done.
Qed.

Lemma do_get_file_ok t fd :
  tbl_ok t -> in_table t fd ->
  do_get_file t fd = Some (match fds t fd with Some _ => Some (mk_file true fd) | None => None end).
Proof.
  intros Ht Hin. unfold do_get_file. rewrite (test_fdbit_ok t fd Hin) by apply Ht. simpl.
  destruct (fds t fd) as [c|] eqn:E.
  - rewrite (tbl_slots _ Ht _ _ E). unfold fds in E. destruct Hin.
    destruct (bitat (open_fds t) (fd - start t)); [done|]. by rewrite andb_false_r in E.
  - unfold fds in E. destruct Hin. destruct (bitat (open_fds t) (fd - start t)); [|done].
    rewrite (proj2 (Z.leb_le _ _)), (proj2 (Z.ltb_lt _ _)) in E by lia. done.
Qed.

(** A descriptor outside the bitmaps is not in use. *)
Lemma bitat_grow ws o n k :
  0 <= o <= n -> Z.of_nat (length ws) = o -> 0 <= k -> bitat (grow_bits ws o n) k = bitat ws k.
Proof.
  intros Hon Hl Hk. unfold bitat, grow_bits. rewrite take_ge by lia. unfold aget.
  destruct (Z.ltb_spec (k / 64) 0); [done|]. destruct (Z.lt_ge_cases (k / 64) o).
  - rewrite lookup_app_l by lia. done.
  - rewrite lookup_app_r by lia. rewrite (lookup_ge_None_2 ws) by lia.
    destruct (replicate _ _ !! _) eqn:E; [|done]. apply lookup_replicate in E as [-> _]. apply Z.bits_0.
Qed.

Section AllocOk.
Context `{Heap} (Hheap : forall n, heap_ok n = true).

Lemma alloc_units_ok n fs : alloc_units n fs = (true, fs ++ replicate n new_unit).
Proof using Hheap.
  revert fs. induction n as [|n IH]; intros fs; simpl; [by rewrite app_nil_r|].
  by rewrite Hheap, IH, <- app_assoc.
Qed.

Lemma alloc_fdtable_ok t n :
  tbl_ok t -> 0 <= n ->
  exists t', alloc_fdtable t n = (0, t') /\ tbl_ok t' /\ start t' = start t /\
    size t' = Z.max (size t) (div_ceil n 64 * 64) /\ n <= size t' /\ forall fd, fds t' fd = fds t fd.
Proof using Hheap.
  intros Ht Hn. pose proof Ht as [T1 T2 T3 T4 T5 T6 T7 T8 T9].
  unfold alloc_fdtable, fdtable_alloc_unit, div_ceil. rewrite quot_div by lia.
  set (ns := (n + 64 - 1) / 64 * 64). assert (n <= ns) by (unfold ns; Z.div_mod_to_equations; lia).
  destruct (Z.leb_spec ns (size t)).
  { exists t. split_and!; try done; lia. }
  assert (0 <= ns) by lia. rewrite (Hheap (_ * _)). cbn [negb]. rewrite !quot_div by lia.
  assert (ns / 64 * 64 = ns) as Hns by (unfold ns; Z.div_mod_to_equations; lia).
  rewrite alloc_units_ok, Hheap. cbn [negb set_files files open_fds cloexec_fds start]. rewrite take_ge by lia.
  eexists. split; [done|]. set (o := size t / 64) in *. assert (0 <= o <= ns / 64) as Ho.
  { unfold o. split; [apply Z.div_pos; lia|apply Z.div_le_mono; lia]. }
  assert (forall ws, words_ok o ws -> words_ok (ns / 64) (grow_bits ws o (ns / 64))) as Hgrow.
  { intros ws [Hl Hr]. unfold grow_bits. rewrite take_ge by lia. split.
    - rewrite length_app, length_replicate. lia.
    - apply Forall_app. split; [done|]. apply Forall_replicate. lia. }
  set (t' := mk_fdtable _ _ _ _ _).
  assert (forall fd, fds t' fd = fds t fd) as Hfds.
  { intros fd. unfold fds. simpl. destruct (Z.leb_spec (start t) fd); simpl; [|done].
    destruct T4 as [Hl4 _]. destruct T5 as [Hl5 _]. rewrite !bitat_grow by (done || lia).
    destruct (Z.ltb_spec fd (start t + size t)), (Z.ltb_spec fd (start t + ns)); simpl; try (done || lia).
    replace (bitat (open_fds t) (fd - start t)) with false; [done|]. unfold bitat.
    destruct (aget (open_fds t) ((fd - start t) / 64)) eqn:E; [|done]. apply aget_Some in E.
    exfalso. assert (o <= (fd - start t) / 64) by (apply Z.div_le_mono; lia). lia. }
  split_and!; try done; [|simpl; lia..]. constructor; simpl; try done; try lia.
  - unfold ns. apply Z.mod_mul. lia.
  - by apply Hgrow.
  - by apply Hgrow.
  - rewrite length_app, length_replicate. lia.
  - apply Forall_app. split; [done|]. apply Forall_replicate. done.
  - intros fd c Hf. rewrite Hfds in Hf. pose proof (T8 _ _ Hf) as Hs. pose proof (fds_in _ _ _ Hf) as [? ?].
    rewrite file_slot_eq in Hs |- * by (split; simpl; lia). simpl.
    destruct (aget (files t) ((fd - start t) / 64)) as [u|] eqn:E; [|done].
    pose proof (aget_Some _ _ _ E). unfold aget in *. destruct (Z.ltb_spec ((fd - start t) / 64) 0); [done|].
    rewrite lookup_app_l by lia. by rewrite E.
  - intros fd Hr. destruct T4 as [Hl4 _]. destruct T5 as [Hl5 _]. rewrite !bitat_grow by (done || lia).
    intros Hb. destruct (Z.lt_ge_cases fd (start t + size t)); [apply T9; [lia|done]|].
    exfalso. revert Hb. unfold bitat. destruct (aget (cloexec_fds t) _) eqn:E; [|done].
    apply aget_Some in E. assert (o <= (fd - start t) / 64) by (apply Z.div_le_mono; lia). lia.
Qed.

End AllocOk.

(** ** Finding a free descriptor *)

Lemma ffs_from_ok n : forall i x, 0 <= i ->
  (ffs_from n i x = 0 /\ forall j, i <= j < i + Z.of_nat n -> Z.testbit x j = false) \/
  (i < ffs_from n i x <= i + Z.of_nat n /\ Z.testbit x (ffs_from n i x - 1) = true /\
   forall j, i <= j < ffs_from n i x - 1 -> Z.testbit x j = false).
Proof.
  induction n as [|n IH]; intros i x Hi; simpl; [left; split; [done|lia]|].
  destruct (Z.testbit x i) eqn:E.
  - right. split_and!; [lia|lia|by replace (i + 1 - 1) with i by lia|lia].
  - destruct (IH (i + 1) x) as [[-> Hj]|(H1 & H2 & H3)]; [lia| |].
    + left. split; [done|]. intros j Hr. destruct (Z.eq_dec j i) as [->|]; [done|]. apply Hj. lia.
    + right. split_and!; [lia|lia|done|]. intros j Hr. destruct (Z.eq_dec j i) as [->|]; [done|]. apply H3. lia.
Qed.

Lemma find_emptyfd_loop_ok t n : forall ws i,
  (n <= length ws)%nat -> 0 <= i ->
  let free k := match aget ws (k / 64) with Some w => negb (Z.testbit w (k mod 64)) | None => false end in
  exists r, find_emptyfd_loop t ws i n = Some r /\
  ((r = -1 /\ forall k, 0 <= k < 64 * Z.of_nat n -> k mod 64 < 32 -> free k = false) \/
   (let k := r - start t - i * 64 in 0 <= k < 64 * Z.of_nat n /\ k mod 64 < 32 /\ free k = true /\
    forall j, 0 <= j < k -> j mod 64 < 32 -> free j = false)).
Proof.
  induction n as [|n IH]; intros ws i Hl Hi free; simpl.
  { exists (-1). split; [done|]. left. split; [done|lia]. }
  destruct ws as [|w ws]; [simpl in Hl; lia|].
  assert (forall k, 0 <= k < 64 -> free k = negb (Z.testbit w k)) as F0.
  { intros k Hk. unfold free. rewrite Z.div_small, Z.mod_small by lia. done. }
  assert (forall k, 64 <= k -> free k =
    match aget ws ((k - 64) / 64) with Some w => negb (Z.testbit w ((k - 64) mod 64)) | None => false end) as F1.
  { intros k Hk. unfold free. assert (k / 64 = (k - 64) / 64 + 1) as -> by (Z.div_mod_to_equations; lia).
    assert (k mod 64 = (k - 64) mod 64) as -> by (Z.div_mod_to_equations; lia). unfold aget.
    assert (0 <= (k - 64) / 64) by (apply Z.div_pos; lia).
    destruct (Z.ltb_spec ((k - 64) / 64 + 1) 0), (Z.ltb_spec ((k - 64) / 64) 0); try lia.
    by rewrite Z2Nat.inj_add, Nat.add_comm by lia. }
  unfold ffs. destruct (ffs_from_ok 32 0 (Z.lnot w) ltac:(lia)) as [[-> Hj]|(H1 & H2 & H3)].
  - simpl. destruct (IH ws (i + 1)) as (r & -> & Hr); [simpl in Hl; lia|lia|].
    assert (forall k, 0 <= k < 64 -> k mod 64 < 32 -> free k = false) as Hlow.
    { intros k Hk Hk'. rewrite F0 by lia. rewrite Z.mod_small in Hk' by lia.
      specialize (Hj k ltac:(lia)). rewrite Z.lnot_spec in Hj by lia. done. }
    exists r. split; [done|]. destruct Hr as [[-> Hr]|(Hr1 & Hr2 & Hr3 & Hr4)].
    + left. split; [done|]. intros k Hk Hk'. destruct (Z.lt_ge_cases k 64); [by apply Hlow; [lia|]|].
      rewrite F1 by lia. apply Hr; [lia|]. replace (k - 64) with (k + (-1) * 64) by lia. by rewrite Z.mod_add.
    + right. replace (r - start t - i * 64) with (r - start t - (i + 1) * 64 + 1 * 64) by lia.
      set (k := r - start t - (i + 1) * 64) in *. rewrite Z.mod_add by lia.
      split_and!; [lia|lia|done|rewrite F1 by lia; by replace (k + 1 * 64 - 64) with k by lia|].
      intros j Hj1 Hj2. destruct (Z.lt_ge_cases j 64); [by apply Hlow; [lia|]|].
      rewrite F1 by lia. apply Hr4; [lia|]. replace (j - 64) with (j + (-1) * 64) by lia. by rewrite Z.mod_add.
  - set (r := ffs_from 32 0 (Z.lnot w)) in *. rewrite Z.gtb_ltb. destruct (Z.ltb_spec 0 r); [|lia].
    eexists. split; [done|]. right. replace (start t + r - 1 + i * 64 - start t - i * 64) with (r - 1) by lia.
    rewrite (Z.mod_small (r - 1)) by lia. split_and!; [lia..| |].
    + rewrite F0 by lia. rewrite Z.lnot_spec in H2 by lia. done.
    + intros j Hj Hj'. rewrite F0 by lia. specialize (H3 j ltac:(lia)). rewrite Z.lnot_spec in H3 by lia. done.
Qed.

(** [find_emptyfd] only looks at the lower half of every word. *)
Lemma find_emptyfd_ok t :
  tbl_ok t -> exists r, find_emptyfd t = Some r /\
  ((r = -1 /\ forall fd, in_table t fd -> (fd - start t) mod 64 < 32 -> is_Some (fds t fd)) \/
   (in_table t r /\ (r - start t) mod 64 < 32 /\ fds t r = None /\
    forall fd, in_table t fd -> fd < r -> (fd - start t) mod 64 < 32 -> is_Some (fds t fd))).
Proof.
  intros Ht. destruct Ht as [T1 T2 T3 T4 T5 T6 T7 T8 T9]. unfold find_emptyfd. rewrite quot_div by lia.
  destruct T4 as [Hl Hr].
  destruct (find_emptyfd_loop_ok t (Z.to_nat (size t / 64)) (open_fds t) 0) as (r & -> & Hf); [lia|lia|].
  assert (64 * Z.of_nat (Z.to_nat (size t / 64)) = size t) as Hsz by (Z.div_mod_to_equations; lia).
  rewrite Hsz in Hf. cbv zeta in Hf.
  assert (forall fd, in_table t fd ->
    match aget (open_fds t) ((fd - start t) / 64) with
    | Some w => negb (Z.testbit w ((fd - start t) mod 64)) | None => false end =
    match fds t fd with Some _ => false | None => true end) as Hfds.
  { intros fd [? ?]. unfold fds, bitat. rewrite (proj2 (Z.leb_le _ _)), (proj2 (Z.ltb_lt _ _)) by lia. simpl.
    destruct (aget_lt (open_fds t) ((fd - start t) / 64)) as [w ->]; [Z.div_mod_to_equations; lia|].
    by destruct (Z.testbit w _). }
  exists r. split; [done|]. replace (r - start t - 0 * 64) with (r - start t) in Hf by lia.
  destruct Hf as [[-> Hf]|(H1 & H2 & H3 & H4)]; [left|right].
  - split; [done|]. intros fd Hin Hm. specialize (Hf (fd - start t)). rewrite Hfds in Hf by done.
    destruct Hin. destruct (fds t fd); [by eexists|]. discriminate Hf; lia.
  - assert (in_table t r) as Hin by (split; lia). rewrite Hfds in H3 by done. split_and!; try done.
    + by destruct (fds t r).
    + intros fd Hin' Hlt Hm. specialize (H4 (fd - start t)). rewrite Hfds in H4 by done.
      destruct Hin'. destruct (fds t fd); [by eexists|]. discriminate H4; lia.
Qed.
