(* ===== verification/Kernel.v ===== *)
(** * The state of the kernel and its calls of the host

    A system call handler reads its arguments from guest memory, calls Darwin,
    and writes results back.  A call of Darwin is an event with its arguments
    and answer; the answers are a parameter, a function of the events before. *)

From S2P Require Import Prelude RBTree Const Errno Mm UserMem FdTable.

(** Arguments of a host call: numbers, strings (without the NUL) and buffers. *)
Inductive harg :=
| HI (z : Z)
| HS (s : list Z)
| HB (bs : list Z).

#[global] Instance harg_eq : EqDecision harg.
Proof. solve_decision. Defined.

(** The answer: the return value, [errno], and the buffers filled in. *)
Record hres := mk_hres { h_ret : Z; h_errno : Z; h_out : list (list Z) }.

Record event := mk_event { ev_call : string; ev_args : list harg; ev_res : hres }.

Class OS := {
  os : list event -> string -> list harg -> hres;
  (** the contents of memory that was never written, such as a stack buffer *)
  uninit : list event -> list Z;
}.

(** [struct fileinfo] without its lock. *)
Record fileinfo := mk_fileinfo { rootfd : Z; fdt : fdtable; vkern_fdt : fdtable }.

(** [struct cred] *)
Record cred := mk_cred { c_uid : Z; c_euid : Z; c_suid : Z }.

Record kstate := mk_kstate {
  k_um : umem;
  k_fi : fileinfo;
  k_cred : cred;
  k_trace : list event;
}.

Definition set_um (u : umem) (k : kstate) : kstate := mk_kstate u (k_fi k) (k_cred k) (k_trace k).
Definition set_fi (f : fileinfo) (k : kstate) : kstate := mk_kstate (k_um k) f (k_cred k) (k_trace k).
Definition set_cred (c : cred) (k : kstate) : kstate := mk_kstate (k_um k) (k_fi k) c (k_trace k).
Definition add_event (e : event) (k : kstate) : kstate :=
  mk_kstate (k_um k) (k_fi k) (k_cred k) (e :: k_trace k).
Definition set_fdt (t : fdtable) (k : kstate) : kstate :=
  set_fi (mk_fileinfo (rootfd (k_fi k)) t (vkern_fdt (k_fi k))) k.
Definition set_vkern_fdt (t : fdtable) (k : kstate) : kstate :=
  set_fi (mk_fileinfo (rootfd (k_fi k)) (fdt (k_fi k)) t) k.

(** [if (x < 0) return x;] and other early returns. *)
Inductive flow (A : Type) := Ret (r : Z) | Go (a : A).
Arguments Ret {A} r.
Arguments Go {A} a.

Section Kernel.
Context `{OS} `{DarwinErrno}.

Definition K (A : Type) : Type := M kstate A.

(** A call of the host. *)
Definition hcall (name : string) (args : list harg) : K hres := fun k =>
  let r := os (k_trace k) name args in Done r (add_event (mk_event name args r) k).

(** [syswrap(name(args))] *)
Definition sysw (name : string) (args : list harg) : K Z :=
  r ← hcall name args; mret (syswrap (h_ret r) (h_errno r)).

(** [syswrap] of a call that fills buffers. *)
Definition sysw_out (name : string) (args : list harg) : K (Z * list (list Z)) :=
  r ← hcall name args; mret (syswrap (h_ret r) (h_errno r), h_out r).

(** The [i]-th buffer a call filled in. *)
Definition outbuf (o : list (list Z)) (i : nat) : list Z := default [] (o !! i).

(** Guest memory *)
Definition total {A} (o : option A) : K A := match o with Some a => mret a | None => halt Diverge end.

Definition k_copy_from_user (src_ptr n : Z) : K (Z * list Z) :=
  k ← get; total (copy_from_user (k_um k) src_ptr n).
Definition k_copy_to_user (to_ptr : Z) (bs : list Z) : K Z :=
  k ← get;
  '(r, u) ← total (copy_to_user (k_um k) to_ptr bs);
  put (set_um u k);;
  mret r.

(** [strncpy_from_user(buf, ptr, n)] into an uninitialised stack buffer, whose
    contents it returns up to the first NUL with the result of the call. *)
Fixpoint until_nul (bs : list Z) : list Z :=
  match bs with
  | [] => []
  | b :: bs => if b =? 0 then [] else b :: until_nul bs
  end.

Definition k_strncpy_from_user (ptr n : Z) : K (Z * list Z) :=
  k ← get;
  '(r, bs) ← total (strncpy_from_user (k_um k) ptr n);
  mret (r, until_nul (bs ++ uninit (k_trace k))).

(** [if (copy_to_user(...)) return -LINUX_EFAULT; return r;] *)
Definition copy_out (ptr : Z) (bs : list Z) (r : Z) : K Z :=
  e ← k_copy_to_user ptr bs;
  mret (if negb (e =? 0) then - LINUX_EFAULT else r).

(** [if (copy_from_user(...)) return -LINUX_EFAULT;] and the rest. *)
Definition copy_in (ptr n : Z) (rest : list Z -> K Z) : K Z :=
  '(e, bs) ← k_copy_from_user ptr n;
  if negb (e =? 0) then mret (- LINUX_EFAULT) else rest bs.

End Kernel.

(** ** Strings *)

(** The bytes of a string literal. *)
Fixpoint str (s : string) : list Z :=
  match s with
  | EmptyString => []
  | String a s => Z.of_nat (Ascii.nat_of_ascii a) :: str s
  end.

(** ** Structures in guest memory: little-endian fields *)

Fixpoint le_encode (n : nat) (v : Z) : list Z :=
  match n with
  | O => []
  | S n => v mod 256 :: le_encode n (v / 256)
  end.
Fixpoint le_decode (bs : list Z) : Z :=
  match bs with
  | [] => 0
  | b :: bs => b + 256 * le_decode bs
  end.

(** A structure is a list of (width in bytes, value). *)
Definition enc (fields : list (nat * Z)) : list Z := fields ≫= (fun f => le_encode f.1 f.2).

(** The [n]-byte field at an offset of a buffer. *)
Definition field (bs : list Z) (off n : nat) : Z := le_decode (take n (drop off bs)).

Lemma le_decode_encode n v : 0 <= v < 256 ^ Z.of_nat n -> le_decode (le_encode n v) = v.
Proof.
  revert v. induction n as [|n IH]; intros v Hv; [simpl in *; lia|]. simpl.
  rewrite IH; [Z.div_mod_to_equations; lia|].
  rewrite Nat2Z.inj_succ, Z.pow_succ_r in Hv by lia. split; [apply Z.div_pos; lia|].
  apply Z.div_lt_upper_bound; lia.
Qed.

Lemma le_encode_length n v : length (le_encode n v) = n.
Proof. revert v. induction n as [|n IH]; intros v; simpl; [done|by rewrite IH]. Qed.

(** ** The copies on a well-formed address space *)

Lemma hcall_run `{OS} name args k :
  hcall name args k =
  Done (os (k_trace k) name args) (add_event (mk_event name args (os (k_trace k) name args)) k).
Proof. done. Qed.

Lemma k_copy_from_user_ok k a n :
  umem_ok (k_um k) -> 0 <= a -> 0 <= n -> a + n < 2 ^ 64 - 4096 ->
  let bs := user_bytes (k_um k) a (Z.to_nat n) in
  k_copy_from_user a n k = Done (n - Z.of_nat (length bs), bs) k.
Proof.
  intros Hu Ha Hn Hb bs. unfold k_copy_from_user, copy_from_user. msimp.
  rewrite copy_from_user_loop_ok by (done || lia). done.
Qed.

Lemma k_copy_to_user_ok k a bs :
  umem_ok (k_um k) -> 0 <= a -> a + Z.of_nat (length bs) < 2 ^ 64 - 4096 ->
  k_copy_to_user a bs k =
  Done (Z.of_nat (length bs) - Z.of_nat (user_mapped (k_um k) a (length bs))) (set_um (user_write (k_um k) a bs) k).
Proof.
  intros Hu Ha Hb. unfold k_copy_to_user, copy_to_user. msimp.
  rewrite copy_to_user_loop_ok by (done || lia). done.
Qed.

Lemma user_mapped_le u a n : (user_mapped u a n <= n)%nat.
Proof. revert a. induction n as [|n IH]; intros a; simpl; [lia|]. destruct (translate u a); [|lia]. specialize (IH (a + 1)). lia. Qed.

(** [copy_out]: the value returned says whether the whole range was mapped. *)
Lemma copy_out_ok k a bs r :
  umem_ok (k_um k) -> 0 <= a -> a + Z.of_nat (length bs) < 2 ^ 64 - 4096 ->
  copy_out a bs r k =
  Done (if bool_decide (user_mapped (k_um k) a (length bs) = length bs) then r else - LINUX_EFAULT)
    (set_um (user_write (k_um k) a bs) k).
Proof.
  intros Hu Ha Hb. unfold copy_out. msimp. rewrite k_copy_to_user_ok by done. f_equal.
  pose proof (user_mapped_le (k_um k) a (length bs)).
  case_bool_decide; destruct (Z.eqb_spec (Z.of_nat (length bs) - Z.of_nat (user_mapped (k_um k) a (length bs))) 0); simpl; done || lia.
Qed.
