(* ===== verification/Files.v ===== *)
(** * Descriptor bookkeeping ([src/fs/fs.c])

    Entering, looking up and closing descriptors in the guest's and in the
    kernel's table, and the agreement of the guest's table with the descriptors
    that are open in the host process.  The lock of the tables is in [Locks.v]. *)

From S2P Require Import Prelude RBTree Const Errno Mm UserMem FdTable Kernel.

Section Files.
Context `{OS} `{DarwinErrno} `{DarwinConst} `{Heap}.

(** Which of the two tables of [struct fileinfo] a routine works on. *)
Inductive which := User | Vkern.

Definition table_of (wh : which) (k : kstate) : fdtable :=
  match wh with User => fdt (k_fi k) | Vkern => vkern_fdt (k_fi k) end.
Definition set_table (wh : which) (t : fdtable) : kstate -> kstate :=
  match wh with User => set_fdt t | Vkern => set_vkern_fdt t end.

Definition in_userfd (k : kstate) (fd : Z) : bool :=
  (fd >=? 0) && (fd <? start (vkern_fdt (k_fi k))).

(** The three statements that put a descriptor into a table. *)
Definition put_fd (wh : which) (fd : Z) (is_cloexec : bool) : K unit :=
  k ← get;
  t ← deref (enter_fd (table_of wh k) fd is_cloexec);
  put (set_table wh t k).

Definition register_fd (fd : Z) (is_cloexec : bool) : K Z :=
  k ← get;
  if fd >=? start (vkern_fdt (k_fi k)) then mret (- LINUX_EMFILE)
  else
    err ← (if size (fdt (k_fi k)) <=? fd then
             let '(err, t) := alloc_fdtable (fdt (k_fi k)) (fd + 1) in
             put (set_fdt t k);; mret err
           else mret 0);
    if err <? 0 then mret err
    else put_fd User fd is_cloexec;; mret 0.

Definition vkern_dup_fd (fd : Z) (is_cloexec : bool) : K Z :=
  k ← get;
  vkern_fd ← deref (find_emptyfd (vkern_fdt (k_fi k)));
  if vkern_fd =? -1 then halt Panic
  else
    _ ← hcall "dup2" [HI fd; HI vkern_fd];
    put_fd Vkern vkern_fd is_cloexec;;
    mret vkern_fd.

Definition get_file (fd : Z) : K (option file) :=
  k ← get;
  let table := fdt (k_fi k) in
  if (fd <? 0) || (fd >=? size table) then mret None
  else deref (do_get_file table fd).

Definition darwinfs_close (f : file) : K Z := sysw "close" [HI (f_fd f)].

(** [file->ops->close(file)]: [ops] is [NULL] in a slot that was never filled. *)
Definition with_ops {A} (f : file) (c : K A) : K A := if f_ops f then c else halt Fault.

Definition do_close (wh : which) (fd : Z) : K Z :=
  k ← get;
  let table := table_of wh k in
  if (fd <? start table) || (fd >=? start table + size table) then mret (- LINUX_EBADF)
  else
    b ← deref (test_fdbit table (open_fds table) fd);
    if negb b then mret (- LINUX_EBADF)
    else
      f ← deref (do_get_file table fd);
      match f with
      | None => mret (- LINUX_EBADF)
      | Some file =>
        n ← with_ops file (darwinfs_close file);
        k ← get;
        t ← deref (leave_fd (table_of wh k) fd);
        put (set_table wh t k);;
        mret n
      end.

Definition user_close (fd : Z) : K Z := do_close User fd.
Definition vkern_close (fd : Z) : K Z := do_close Vkern fd.

(** The inner loop of [close_cloexec], on bit [j] of word [i]. *)
Fixpoint close_word (n : nat) (i j : Z) : K unit :=
  match n with
  | O => mret tt
  | S n =>
    k ← get;
    w ← deref (aget (cloexec_fds (fdt (k_fi k))) i);
    if w =? 0 then mret tt
    else
      when_ (testf (Z.shiftr w j) 1) (_ ← do_close User (j + i * 64); mret tt);;
      close_word n i (j + 1)
  end.
Fixpoint close_words (n : nat) (i : Z) : K unit :=
  match n with
  | O => mret tt
  | S n => close_word 64 i 0;; close_words n (i + 1)
  end.
Definition close_cloexec : K unit :=
  k ← get; close_words (Z.to_nat (Z.quot (size (fdt (k_fi k))) 64)) 0.

(** [for (i = 0; i < limit.rlim_cur; i++)] of [init_fileinfo] *)
Fixpoint adopt_fds (n : nat) (i rootfd : Z) : K unit :=
  match n with
  | O => mret tt
  | S n =>
    (if i =? rootfd then mret tt
     else
       r ← hcall "fcntl" [HI i; HI (D "F_GETFD")];
       let flag := h_ret r in
       if flag <? 0 then mret tt
       else
         k ← get;
         if in_userfd k i then _ ← register_fd i (testf flag (D "FD_CLOEXEC")); mret tt
         else _ ← hcall "close" [HI i]; mret tt);;
    adopt_fds n (i + 1) rootfd
  end.

Definition init_fileinfo (rootfd : Z) : K unit :=
  r ← hcall "getrlimit" [HI (D "RLIMIT_NOFILE")];
  let rlim_cur := field (outbuf (h_out r) 0) 0 8 in
  let '(_, vt) := alloc_fdtable (empty_fdtable (s32 (rlim_cur - vkern_fdtable_maxsize))) vkern_fdtable_maxsize in
  let '(_, ut) := alloc_fdtable (empty_fdtable 0) user_fdtable_initsize in
  k ← get;
  put (set_fi (mk_fileinfo (Kernel.rootfd (k_fi k)) ut vt) k);;
  adopt_fds (Z.to_nat (s32 rlim_cur)) 0 rootfd;;
  fd ← vkern_dup_fd rootfd false;
  k ← get;
  put (set_fi (mk_fileinfo fd (fdt (k_fi k)) (vkern_fdt (k_fi k))) k).

(** The limit the guest is told. *)
Definition darwin_to_linux_rlimit_nofile (rlim : Z * Z) : Z * Z :=
  (rlim.1, u64 (rlim.2 - vkern_fdtable_maxsize)).

End Files.

(** ** Invariant and operations *)

Record files_ok (f : fileinfo) : Prop := {
  fo_user : tbl_ok (fdt f);
  fo_start : start (fdt f) = 0;
  fo_vkern : tbl_ok (vkern_fdt f);
  fo_below fd c : fds (fdt f) fd = Some c -> fd < start (vkern_fdt f);
}.

Section FilesFacts.
Context `{OS} `{DarwinErrno} `{DarwinConst} `{Heap}.

Lemma files_ok_set_user f t :
  files_ok f -> tbl_ok t -> start t = 0 -> (forall fd c, fds t fd = Some c -> fd < start (vkern_fdt f)) ->
  files_ok (mk_fileinfo (rootfd f) t (vkern_fdt f)).
Proof. intros [] ? ? ?. by constructor. Qed.

Lemma put_fd_user k fd cx :
  files_ok (k_fi k) -> 0 <= fd < size (fdt (k_fi k)) -> fd < start (vkern_fdt (k_fi k)) ->
  exists t, put_fd User fd cx k = Done tt (set_fdt t k) /\ files_ok (k_fi (set_fdt t k)) /\
    size t = size (fdt (k_fi k)) /\ forall fd', fds t fd' = if fd' =? fd then Some cx else fds (fdt (k_fi k)) fd'.
Proof.
  intros Hf Hr Hv. pose proof (fo_start _ Hf) as Hs.
  destruct (enter_fd_ok (fdt (k_fi k)) fd cx (fo_user _ Hf)) as (t & E & Ht & A1 & A2 & Hfds);
    [split; lia|].
  exists t. unfold put_fd. msimp. simpl. rewrite E. split_and!; try done.
  apply files_ok_set_user; [done|done|lia|]. intros fd' c. rewrite Hfds.
  destruct (Z.eqb_spec fd' fd) as [->|]; [done|]. apply (fo_below _ Hf).
Qed.

Lemma register_fd_ok k fd cx :
  (forall n, heap_ok n = true) -> files_ok (k_fi k) -> 0 <= fd < start (vkern_fdt (k_fi k)) ->
  exists t, register_fd fd cx k = Done 0 (set_fdt t k) /\ files_ok (k_fi (set_fdt t k)) /\
    forall fd', fds t fd' = if fd' =? fd then Some cx else fds (fdt (k_fi k)) fd'.
Proof.
  intros Hheap Hf Hr. unfold register_fd. msimp. rewrite Z.geb_leb.
  destruct (Z.leb_spec (start (vkern_fdt (k_fi k))) fd); [lia|].
  destruct (Z.leb_spec (size (fdt (k_fi k))) fd) as [Hsz|Hsz].
  - destruct (alloc_fdtable_ok Hheap (fdt (k_fi k)) (fd + 1) (fo_user _ Hf)) as (t & -> & Ht & Hs & _ & Hn & Hfds); [lia|].
    simpl. destruct (put_fd_user (set_fdt t k) fd cx) as (t' & E & Hok & _ & Hfds').
    { apply files_ok_set_user; [done|done|by rewrite Hs; apply Hf|]. intros fd' c. rewrite Hfds. apply (fo_below _ Hf). }
    { simpl. lia. } { simpl. lia. }
    rewrite E. exists t'. split_and!; [done|done|]. intros fd'. rewrite Hfds'. simpl. by rewrite Hfds.
  - simpl. destruct (put_fd_user k fd cx Hf) as (t' & -> & Hok & _ & Hfds'); [lia|lia|].
    by exists t'.
Qed.

Lemma do_close_user k fd :
  files_ok (k_fi k) ->
  match fds (fdt (k_fi k)) fd with
  | None => do_close User fd k = Done (- LINUX_EBADF) k
  | Some _ =>
    let r := os (k_trace k) "close" [HI fd] in
    exists t, do_close User fd k = Done (syswrap (h_ret r) (h_errno r))
                (set_fdt t (add_event (mk_event "close" [HI fd] r) k)) /\
      files_ok (mk_fileinfo (rootfd (k_fi k)) t (vkern_fdt (k_fi k))) /\
      size t = size (fdt (k_fi k)) /\
      (forall fd', fds t fd' = if fd' =? fd then None else fds (fdt (k_fi k)) fd')
  end.
Proof.
  intros Hf. pose proof (fo_user _ Hf) as Ht. unfold do_close. msimp. simpl.
  destruct (fds (fdt (k_fi k)) fd) as [c|] eqn:E.
  - pose proof (fds_in _ _ _ E) as Hin. pose proof Hin as [A3 A4]. rewrite Z.geb_leb.
    destruct (Z.ltb_spec fd (start (fdt (k_fi k)))); [lia|].
    destruct (Z.leb_spec (start (fdt (k_fi k)) + size (fdt (k_fi k))) fd); [lia|]. simpl.
    rewrite (test_fdbit_ok _ _ Hin) by (apply (tbl_open _ Ht) || apply (tbl_unit _ Ht)).
    assert (bitat (open_fds (fdt (k_fi k))) (fd - start (fdt (k_fi k))) = true) as ->.
    { unfold fds in E. destruct (bitat (open_fds _) _); [done|]. by rewrite andb_false_r in E. }
    simpl. rewrite (do_get_file_ok _ _ Ht Hin), E. simpl.
    destruct (leave_fd_ok _ _ Ht Hin) as (t & -> & Ht' & Hs & Hsz & Hfds).
    exists t. split_and!; try done. apply files_ok_set_user; [done|done|rewrite Hs; apply Hf|].
    intros fd' c'. rewrite Hfds. destruct (fd' =? fd); [done|]. apply (fo_below _ Hf).
  - rewrite Z.geb_leb. destruct (Z.ltb_spec fd (start (fdt (k_fi k)))); [done|].
    destruct (Z.leb_spec (start (fdt (k_fi k)) + size (fdt (k_fi k))) fd); [done|]. simpl.
    rewrite (test_fdbit_ok _ fd) by (first [by split; lia|apply (tbl_open _ Ht)|apply (tbl_unit _ Ht)]).
    unfold fds in E. rewrite (proj2 (Z.leb_le _ _)), (proj2 (Z.ltb_lt _ _)) in E by lia. simpl in E.
    by destruct (bitat (open_fds _) _).
Qed.

(** ** [close_cloexec] *)

(** The effect of closing one descriptor on a table seen as a function. *)
Definition closes (k k' : kstate) (l : list Z) : Prop :=
  (exists res, k_trace k' = rev (zip_with (fun fd r => mk_event "close" [HI fd] r) l res) ++ k_trace k /\
               length res = length l) /\
  k_um k' = k_um k /\ k_cred k' = k_cred k /\ rootfd (k_fi k') = rootfd (k_fi k) /\
  vkern_fdt (k_fi k') = vkern_fdt (k_fi k) /\ size (fdt (k_fi k')) = size (fdt (k_fi k)) /\
  files_ok (k_fi k') /\
  (forall fd, fds (fdt (k_fi k')) fd = if bool_decide (fd ∈ l) then None else fds (fdt (k_fi k)) fd).

Lemma closes_nil k : files_ok (k_fi k) -> closes k k [].
Proof. intros. split_and!; try done. by exists []. Qed.

Lemma closes_one k fd c :
  files_ok (k_fi k) -> fds (fdt (k_fi k)) fd = Some c ->
  exists n k', do_close User fd k = Done n k' /\ closes k k' [fd].
Proof.
  intros Hf E. pose proof (do_close_user k fd Hf) as Hd. rewrite E in Hd. destruct Hd as (t & -> & Hok & Hsz & Hfds).
  eexists _, _. split; [done|]. split_and!; try done.
  - by exists [os (k_trace k) "close" [HI fd]].
  - intros fd'. simpl. rewrite Hfds. destruct (Z.eqb_spec fd' fd) as [->|Hn].
    + by rewrite bool_decide_true by set_solver.
    + by rewrite bool_decide_false by set_solver.
Qed.

Lemma closes_trans k1 k2 k3 l1 l2 : closes k1 k2 l1 -> closes k2 k3 l2 -> closes k1 k3 (l1 ++ l2).
Proof.
  intros ([r1 [T1 L1]] & ? & ? & ? & ? & ? & ? & F1) ([r2 [T2 L2]] & ? & ? & ? & ? & ? & ? & F2).
  split_and!; try congruence.
  - exists (r1 ++ r2). rewrite T2, T1, zip_with_app by done. rewrite rev_app_distr, app_assoc, !length_app. split; [done|lia].
  - intros fd. rewrite F2, F1. repeat case_bool_decide; set_solver.
Qed.

(** The close-on-exec descriptors among [n] from [a] on, in order. *)
Definition cx (t : fdtable) (a n : Z) : list Z :=
  filter (fun fd => fds t fd = Some true) (seqZ a n).

Lemma cx_ext t t' a n :
  (forall fd, a <= fd < a + n -> fds t' fd = fds t fd) -> cx t' a n = cx t a n.
Proof.
  intros He. unfold cx.
  assert (forall fd, fd ∈ seqZ a n -> fds t' fd = fds t fd) as Hl
    by (intros fd Hin; apply elem_of_seqZ in Hin; auto).
  induction (seqZ a n) as [|x l IH]; [done|]. rewrite !filter_cons, IH by (intros; apply Hl; set_solver).
  rewrite (Hl x) by set_solver. done.
Qed.

Lemma cx_cons t a n :
  0 < n -> cx t a n = (if bool_decide (fds t a = Some true) then [a] else []) ++ cx t (a + 1) (n - 1).
Proof.
  intros Hn. unfold cx. rewrite seqZ_cons by done. rewrite filter_cons.
  replace (Z.succ a) with (a + 1) by lia. replace (Z.pred n) with (n - 1) by lia.
  repeat case_decide; case_bool_decide; done.
Qed.

Lemma cx_split t a n m : 0 <= n -> 0 <= m -> cx t a (n + m) = cx t a n ++ cx t (a + n) m.
Proof. intros. unfold cx. rewrite seqZ_app by lia. by rewrite filter_app. Qed.

(** A close-on-exec bit of a well-formed table. *)
Lemma cloexec_bit t i j w :
  tbl_ok t -> start t = 0 -> 0 <= j < 64 -> 0 <= i -> i * 64 + j < size t ->
  aget (cloexec_fds t) i = Some w ->
  (fds t (j + i * 64) = Some true <-> Z.testbit w j = true).
Proof.
  intros Ht Hs Hj Hi Hlt Hw. pose proof (tbl_sub _ Ht (j + i * 64)) as Hsub.
  assert (bitat (cloexec_fds t) (j + i * 64 - start t) = Z.testbit w j) as Hb.
  { rewrite Hs, Z.sub_0_r. unfold bitat. rewrite Z.div_add, Z.mod_add by lia.
    rewrite Z.div_small, Z.mod_small by lia. by rewrite Z.add_0_l, Hw. }
  unfold fds. rewrite Hb in *. rewrite Hs in *.
  rewrite (proj2 (Z.leb_le _ _)), (proj2 (Z.ltb_lt _ _)) by lia. simpl.
  destruct (Z.testbit w j).
  - rewrite Hsub by (done || lia). done.
  - destruct (bitat (open_fds t) _); done.
Qed.

Lemma testf_bit w j : 0 <= j -> testf (Z.shiftr w j) 1 = Z.testbit w j.
Proof.
  intros. unfold testf. change 1 with (Z.ones 1). rewrite Z.land_ones by lia.
  rewrite Z.testbit_eqb, Z.shiftr_div_pow2 by lia. change (2 ^ 1) with 2.
  assert (0 <= (w / 2 ^ j) mod 2 < 2) by (apply Z.mod_pos_bound; lia).
  destruct (Z.eqb_spec ((w / 2 ^ j) mod 2) 0), (Z.eqb_spec ((w / 2 ^ j) mod 2) 1); try done; lia.
Qed.

Lemma close_word_ok n : forall i j k,
  files_ok (k_fi k) -> 0 <= i -> i * 64 + 64 <= size (fdt (k_fi k)) -> 0 <= j -> j + Z.of_nat n = 64 ->
  exists k', close_word n i j k = Done tt k' /\ closes k k' (cx (fdt (k_fi k)) (j + i * 64) (Z.of_nat n)).
Proof.
  induction n as [|n IH]; intros i j k Hf Hi Hsz Hj Hn.
  { exists k. split; [done|]. by apply closes_nil. }
  pose proof (fo_user _ Hf) as Ht. pose proof (fo_start _ Hf) as Hs. cbn [close_word]. msimp.
  destruct (aget_lt (cloexec_fds (fdt (k_fi k))) i) as [w Hw].
  { destruct (tbl_cloexec _ Ht) as [-> _]. Z.div_mod_to_equations. lia. }
  rewrite Hw. destruct (Z.eqb_spec w 0) as [->|Hw0].
  { exists k. split; [done|]. replace (cx _ _ _) with (@nil Z); [by apply closes_nil|].
    symmetry. apply elem_of_nil_inv. intros fd Hin. apply list_elem_of_filter in Hin as [Hc Hin].
    apply elem_of_seqZ in Hin. replace fd with (fd - i * 64 + i * 64) in Hc by lia.
    apply (cloexec_bit _ i _ 0 Ht Hs) in Hc; try (done || lia). by rewrite Z.bits_0 in Hc. }
  rewrite testf_bit by done. rewrite cx_cons by lia.
  pose proof (cloexec_bit _ i j w Ht Hs ltac:(lia) Hi ltac:(lia) Hw) as Hbit.
  destruct (Z.testbit w j) eqn:Eb.
  - rewrite bool_decide_true by (by apply Hbit).
    destruct (closes_one k (j + i * 64) true Hf) as (m & k1 & E & Hc); [by apply Hbit|]. rewrite E.
    pose proof Hc as (_ & _ & _ & _ & _ & Hsz1 & Hf1 & Hfds1).
    destruct (IH i (j + 1) k1) as (k' & -> & Hc'); [done|done|lia|lia|lia|].
    exists k'. split; [done|]. eapply closes_trans; [exact Hc|].
    replace (j + i * 64 + 1) with (j + 1 + i * 64) by lia. replace (Z.of_nat (S n) - 1) with (Z.of_nat n) by lia.
    rewrite (cx_ext (fdt (k_fi k)) (fdt (k_fi k1))) in Hc'; [done|].
    intros fd Hr. rewrite Hfds1, bool_decide_false; [done|]. rewrite list_elem_of_singleton. lia.
  - rewrite bool_decide_false by (rewrite Hbit; done).
    destruct (IH i (j + 1) k) as (k' & E & Hc'); [done|done|lia|lia|lia|].
    exists k'. rewrite E. split; [done|]. simpl.
    by replace (j + i * 64 + 1) with (j + 1 + i * 64) by lia; replace (Z.of_nat (S n) - 1) with (Z.of_nat n) by lia.
Qed.

Lemma close_words_ok n : forall i k,
  files_ok (k_fi k) -> 0 <= i -> (i + Z.of_nat n) * 64 <= size (fdt (k_fi k)) ->
  exists k', close_words n i k = Done tt k' /\ closes k k' (cx (fdt (k_fi k)) (i * 64) (64 * Z.of_nat n)).
Proof.
  induction n as [|n IH]; intros i k Hf Hi Hsz.
  { exists k. split; [done|]. by apply closes_nil. }
  cbn [close_words]. msimp. destruct (close_word_ok 64 i 0 k) as (k1 & -> & Hc); [done|done|lia|lia|lia|].
  pose proof Hc as (_ & _ & _ & _ & _ & Hsz1 & Hf1 & Hfds1).
  destruct (IH (i + 1) k1) as (k' & -> & Hc'); [done|lia|lia|].
  exists k'. split; [done|]. replace (64 * Z.of_nat (S n)) with (64 + 64 * Z.of_nat n) by lia.
  rewrite cx_split by lia. eapply closes_trans; [exact Hc|].
  replace (i * 64 + 64) with ((i + 1) * 64) by lia.
  rewrite (cx_ext (fdt (k_fi k)) (fdt (k_fi k1))) in Hc'; [done|].
  intros fd Hr. rewrite Hfds1, bool_decide_false; [done|]. intros Hin.
  apply list_elem_of_filter in Hin as [_ Hin]. apply elem_of_seqZ in Hin. lia.
Qed.

Lemma close_cloexec_ok k :
  files_ok (k_fi k) ->
  exists k', close_cloexec k = Done tt k' /\ closes k k' (cx (fdt (k_fi k)) 0 (size (fdt (k_fi k)))).
Proof.
  intros Hf. pose proof (fo_user _ Hf) as Ht. unfold close_cloexec. msimp. rewrite quot_div by apply (tbl_size _ Ht).
  pose proof (tbl_unit _ Ht). pose proof (tbl_size _ Ht).
  assert (64 * (size (fdt (k_fi k)) / 64) = size (fdt (k_fi k))) as E by (Z.div_mod_to_equations; lia).
  assert (0 <= size (fdt (k_fi k)) / 64) by (apply Z.div_pos; lia).
  destruct (close_words_ok (Z.to_nat (size (fdt (k_fi k)) / 64)) 0 k) as (k' & -> & Hc); [done|lia|lia|].
  exists k'. split; [done|]. rewrite Z2Nat.id, E in Hc by done. done.
Qed.

(** ** Theorems *)

(** C26: [register_fd] refuses a descriptor of the kernel's range with -EMFILE
    and no effect, and otherwise makes exactly that descriptor open in the
    guest's table with the close-on-exec flag given, growing the table when
    needed; [get_file] then finds its [struct file]. *)
Theorem register_fd_spec k fd cx :
  (forall n, heap_ok n = true) -> files_ok (k_fi k) -> 0 <= fd ->
  if fd <? start (vkern_fdt (k_fi k)) then
    exists t, register_fd fd cx k = Done 0 (set_fdt t k) /\ files_ok (k_fi (set_fdt t k)) /\
      (forall fd', fds t fd' = if fd' =? fd then Some cx else fds (fdt (k_fi k)) fd') /\
      get_file fd (set_fdt t k) = Done (Some (mk_file true fd)) (set_fdt t k)
  else register_fd fd cx k = Done (- LINUX_EMFILE) k.
Proof.
  intros Hheap Hf Hp. destruct (Z.ltb_spec fd (start (vkern_fdt (k_fi k)))).
  - destruct (register_fd_ok k fd cx) as (t & E & Hok & Hfds); [done|done|lia|].
    exists t. split_and!; try done. pose proof (fo_user _ Hok) as Ht. pose proof (fo_start _ Hok) as Hs.
    simpl in Ht, Hs. assert (fds t fd = Some cx) as Hfd by (by rewrite Hfds, Z.eqb_refl).
    pose proof (fds_in _ _ _ Hfd) as Hin. pose proof Hin as [? ?]. unfold get_file. msimp. simpl.
    rewrite Z.geb_leb. destruct (Z.ltb_spec fd 0); [lia|]. destruct (Z.leb_spec (size t) fd); [lia|]. simpl.
    by rewrite (do_get_file_ok t fd Ht Hin), Hfd.
  - unfold register_fd. msimp. rewrite Z.geb_leb. by destruct (Z.leb_spec (start (vkern_fdt (k_fi k))) fd); [|lia].
Qed.

(** [close] of a descriptor the guest has open closes the host's
    descriptor of the same number, returns what the host answered and frees
    exactly that descriptor; on any other number it returns -EBADF and neither
    the tables nor the host see anything. *)
Theorem user_close_spec k fd :
  files_ok (k_fi k) ->
  match fds (fdt (k_fi k)) fd with
  | None => user_close fd k = Done (- LINUX_EBADF) k
  | Some _ =>
    let r := os (k_trace k) "close" [HI fd] in
    exists k', user_close fd k = Done (syswrap (h_ret r) (h_errno r)) k' /\
      k_trace k' = mk_event "close" [HI fd] r :: k_trace k /\ files_ok (k_fi k') /\
      vkern_fdt (k_fi k') = vkern_fdt (k_fi k) /\
      (forall fd', fds (fdt (k_fi k')) fd' = if fd' =? fd then None else fds (fdt (k_fi k)) fd')
  end.
Proof.
  intros Hf. pose proof (do_close_user k fd Hf) as Hd. destruct (fds (fdt (k_fi k)) fd); [|done].
  destruct Hd as (t & E & Hok & _ & Hfds). eexists. split; [exact E|]. by split_and!.
Qed.

(** C27: [close_cloexec] closes exactly the close-on-exec descriptors, in
    ascending order, one host [close] each, and leaves the others open. *)
Theorem close_cloexec_spec k :
  files_ok (k_fi k) ->
  exists k' res, close_cloexec k = Done tt k' /\ files_ok (k_fi k') /\
    let l := filter (fun fd => fds (fdt (k_fi k)) fd = Some true) (seqZ 0 (size (fdt (k_fi k)))) in
    length res = length l /\
    k_trace k' = rev (zip_with (fun fd r => mk_event "close" [HI fd] r) l res) ++ k_trace k /\
    (forall fd, fds (fdt (k_fi k')) fd =
       match fds (fdt (k_fi k)) fd with Some true => None | o => o end).
Proof.
  intros Hf. destruct (close_cloexec_ok k Hf) as (k' & E & Hc).
  destruct Hc as ([res [Htr Hl]] & _ & _ & _ & _ & _ & Hok & Hfds).
  exists k', res. cbv zeta. split_and!; try done. intros fd. rewrite Hfds. unfold cx.
  case_bool_decide as Hin; rewrite list_elem_of_filter in Hin.
  - destruct Hin as [-> _]. done.
  - destruct (fds (fdt (k_fi k)) fd) as [[]|] eqn:Eo; try done.
    destruct Hin. split; [done|]. apply elem_of_seqZ. apply fds_in in Eo. unfold in_table in Eo.
    pose proof (fo_start _ Hf). lia.
Qed.

(** [vkern_dup_fd] duplicates onto a kernel descriptor that was free, in
    the lower half of a 64-descriptor word, and marks it open; it panics when
    the lower halves are in use even though the upper halves are free, because
    [ffs] looks at the low 32 bits of a word only. *)
Theorem vkern_dup_fd_spec k fd cx :
  files_ok (k_fi k) ->
  let vt := vkern_fdt (k_fi k) in
  (exists v k', vkern_dup_fd fd cx k = Done v k' /\ in_table vt v /\ fds vt v = None /\
     (v - start vt) mod 64 < 32 /\ files_ok (k_fi k') /\ fdt (k_fi k') = fdt (k_fi k) /\
     (exists r, k_trace k' = mk_event "dup2" [HI fd; HI v] r :: k_trace k) /\
     forall fd', fds (vkern_fdt (k_fi k')) fd' = if fd' =? v then Some cx else fds vt fd') \/
  (vkern_dup_fd fd cx k = Stop Panic k /\
   forall fd', in_table vt fd' -> (fd' - start vt) mod 64 < 32 -> is_Some (fds vt fd')).
Proof.
  intros Hf vt. pose proof (fo_vkern _ Hf) as Ht. destruct (find_emptyfd_ok vt Ht) as (r & E & Hr).
  unfold vkern_dup_fd. msimp. fold vt. rewrite E. destruct Hr as [[-> Hall]|(Hin & Hm & Hfree & _)].
  - right. by split.
  - left. pose proof (tbl_start _ Ht). pose proof Hin as [? ?].
    destruct (Z.eqb_spec r (-1)); [unfold vt in *; lia|]. unfold hcall. simpl.
    destruct (enter_fd_ok vt r cx Ht Hin) as (t & Et & Ht' & Hs & Hsz & Hfds).
    unfold put_fd. msimp. simpl. fold vt. rewrite Et. eexists r, _. split; [done|]. simpl.
    split_and!; try done; [|by eexists]. destruct Hf. constructor; simpl; try done.
    rewrite Hs. done.
Qed.

End FilesFacts.

(** ** Concrete runs *)

(** A host where every call succeeds with 0, and an allocator that never fails. *)
Definition quiet_os : OS := {| os _ _ _ := mk_hres 0 0 []; uninit _ := [] |}.
Definition roomy_heap : Heap := {| heap_ok _ := true; stack_ok _ := true |}.

Section Runs.
#[local] Existing Instances quiet_os roomy_heap macos_errno.

Lemma roomy n : @heap_ok roomy_heap n = true.
Proof. done. Qed.

Lemma empty_fdtable_ok s : 0 <= s -> tbl_ok (empty_fdtable s).
Proof.
  intros Hs. constructor; simpl; try done; try lia.
  - intros fd c. unfold fds. simpl. zcases; simpl; done || lia.
Qed.

(** The tables as [init_fileinfo] allocates them with a limit of 256 descriptors. *)
Definition fi0 : fileinfo :=
  mk_fileinfo 0 (alloc_fdtable (empty_fdtable 0) user_fdtable_initsize).2
    (alloc_fdtable (empty_fdtable 192) vkern_fdtable_maxsize).2.
Definition k0 : kstate := mk_kstate u3p fi0 (mk_cred 501 501 501) [].

Lemma fi0_ok : files_ok fi0.
Proof.
  assert (forall n : Z, heap_ok n = true) as Hh by done.
  destruct (alloc_fdtable_ok Hh (empty_fdtable 0) 64) as (t & E & Ht & Hs & _ & _ & Hf); [by apply empty_fdtable_ok|lia|].
  destruct (alloc_fdtable_ok Hh (empty_fdtable 192) 64) as (v & E' & Hv & Hsv & _); [by apply empty_fdtable_ok|lia|].
  unfold fi0, user_fdtable_initsize, vkern_fdtable_maxsize. rewrite E, E'. constructor; simpl; try done.
  intros fd c. rewrite Hf. unfold fds. simpl. zcases; simpl; done || lia.
Qed.

Lemma register_fd_spec_witness :
  exists t, register_fd 100 true k0 = Done 0 (set_fdt t k0) /\ fds t 100 = Some true.
Proof.
  pose proof (register_fd_spec k0 100 true roomy fi0_ok ltac:(lia)) as Hs.
  change (100 <? start (vkern_fdt (k_fi k0))) with true in Hs. cbv iota in Hs.
  destruct Hs as (t & E & _ & Hf & _). exists t. split; [exact E|]. rewrite Hf. reflexivity.
Defined.

(** Descriptors 3 (close-on-exec) and 4 open. *)
Definition k34 : kstate :=
  match (_ ← register_fd 3 true; register_fd 4 false) k0 with Done _ k => k | Stop _ k => k end.

Lemma k34_ok : files_ok (k_fi k34).
Proof.
  destruct (register_fd_ok k0 3 true roomy fi0_ok) as (t & E & Hok & _); [split; [lia|reflexivity]|].
  assert (vkern_fdt (k_fi (set_fdt t k0)) = vkern_fdt fi0) as Ev by done.
  destruct (register_fd_ok (set_fdt t k0) 4 false roomy Hok) as (t' & E' & Hok' & _); [split; [lia|reflexivity]|].
  unfold k34. msimp. rewrite E, E'. done.
Qed.

Lemma user_close_spec_witness :
  (exists k', user_close 3 k34 = Done 0 k' /\ fds (fdt (k_fi k')) 3 = None) /\
  user_close 9 k34 = Done (- LINUX_EBADF) k34.
Proof.
  split.
  - pose proof (user_close_spec k34 3 k34_ok) as Hs.
    replace (fds (fdt (k_fi k34)) 3) with (Some true) in Hs by (vm_compute; reflexivity).
    destruct Hs as (k' & E & _ & _ & _ & Hf). exists k'. split; [exact E|]. rewrite Hf. reflexivity.
  - pose proof (user_close_spec k34 9 k34_ok) as Hs.
    replace (fds (fdt (k_fi k34)) 9) with (@None bool) in Hs by (vm_compute; reflexivity). exact Hs.
Defined.

Lemma close_cloexec_spec_witness :
  exists k', close_cloexec k34 = Done tt k' /\ fds (fdt (k_fi k')) 3 = None /\
    fds (fdt (k_fi k')) 4 = Some false.
Proof.
  destruct (close_cloexec_spec k34 k34_ok) as (k' & res & E & _ & _ & _ & Hf).
  exists k'. rewrite !Hf. split; [exact E|]. split; vm_compute; reflexivity.
Defined.

(** The 33rd kernel descriptor cannot be allocated although 32 are free. *)
Fixpoint dups (n : nat) : K unit :=
  match n with O => mret tt | S n => _ ← vkern_dup_fd 0 false; dups n end.

Lemma vkern_dup_fd_spec_witness :
  (exists v k', vkern_dup_fd 5 false k0 = Done v k' /\ in_table (vkern_fdt fi0) v) /\
  match dups 33 k0 with Stop Panic k => fds (vkern_fdt (k_fi k)) 250 = None | _ => False end.
Proof.
  split; [|vm_compute; reflexivity].
  destruct (vkern_dup_fd_spec k0 5 false fi0_ok) as [(v & k' & E & Hin & _)|[_ Hall]].
  - exists v, k'. split; [exact E|exact Hin].
  - exfalso. destruct (Hall 192) as [c Hc]; [split; vm_compute; [discriminate|reflexivity]|reflexivity|].
    vm_compute in Hc. discriminate Hc.
Defined.

End Runs.
