(* ===== verification/Path.v ===== *)
(** * Path resolution ([src/fs/fs.c], [resolve_path], [vfs_grab_dir])

    Guest paths are resolved component by component, expanding symbolic links,
    against the guest's root directory.  The buffer [path->subpath] is the list
    of the bytes before its NUL, the pointer [sp] its end. *)

From S2P Require Import Prelude RBTree Const Errno Mm UserMem Conv FdTable Kernel Files.

Definition LINUX_PATH_MAX : Z := 4096.

Definition LOOKUP_NOFOLLOW : Z := 0x0001.
Definition LOOKUP_DIRECTORY : Z := 0x0002.
Definition LOOP_MAX : Z := 20.

Definition SLASH : Z := 47.

(** [strncmp(name, p, strlen(p)) == 0] *)
Fixpoint has_prefix (p name : list Z) : bool :=
  match p, name with
  | [], _ => true
  | x :: p, y :: name => (x =? y) && has_prefix p name
  | _ :: _, [] => false
  end.

(** The host directories that are not looked up in the guest's root. *)
Definition host_prefixes : list string := ["/Users"; "/Volumes"; "/dev"; "/tmp"; "/private"]%string.
Definition is_host_path (name : list Z) : bool := existsb (fun p => has_prefix (str p) name) host_prefixes.

(** [while ( *c && *c != '/')]: the bytes before the next slash, and the rest. *)
Fixpoint take_component (c : list Z) : list Z * list Z :=
  match c with
  | [] => ([], [])
  | x :: c' => if x =? SLASH then ([], c) else let '(a, b) := take_component c' in (x :: a, b)
  end.

(** [while (sp >= path->subpath && *--sp != '/'); *++sp = 0;] *)
Fixpoint drop_last_component (rsp : list Z) : list Z :=
  match rsp with
  | [] => []
  | x :: r => if x =? SLASH then x :: r else drop_last_component r
  end.
Definition remove_last (sp : list Z) : list Z := rev (drop_last_component (rev sp)).

(** A string stored with its NUL in an array of [n] bytes. *)
Definition fits {S} (n : Z) (bs : list Z) : M S unit :=
  if Z.of_nat (length bs) <? n then mret tt else halt Overflow.

Section Path.
Context `{OS} `{DarwinErrno} `{DarwinConst} `{Heap}.

Definition darwinfs_readlinkat (dirfd : Z) (path : list Z) (bufsize : Z) : K (Z * list Z) :=
  '(r, o) ← sysw_out "readlinkat" [HI dirfd; HS path; HI bufsize];
  mret (r, take (Z.to_nat r) (outbuf o 0)).

(** The loop over the components; [rec] is the recursive call with [loop + 1].
    The result is an error or the directory and the path below it.  [buf] and
    [buf2] are the buffers of the link's contents and of the path it stands for. *)
Fixpoint walk (n : nat) (rec : Z -> list Z -> K (flow (Z * list Z))) (dirfd flags : Z) (c sp : list Z) :
    K (flow (Z * list Z)) :=
  match n, c with
  | _, [] => mret (Go (dirfd, sp))
  | O, _ => halt Diverge
  | S n, _ =>
    let '(comp, c) := take_component c in
    let sp := sp ++ comp in
    fits LINUX_PATH_MAX sp;;
    link ← (if Z.land flags LOOKUP_NOFOLLOW =? 0 then
              '(n, buf) ← darwinfs_readlinkat dirfd sp LINUX_PATH_MAX;
              mret (if n >? 0 then Some buf else None)
            else mret None);
    match link with
    | Some buf =>
        let buf := buf ++ c in
        fits LINUX_PATH_MAX buf;;
        if (match buf with x :: _ => x =? SLASH | [] => false end)
        then rec dirfd buf
        else
          let buf2 := remove_last sp ++ buf in
          fits LINUX_PATH_MAX buf2;;
          rec dirfd buf2
    | None =>
      match c with
      | [] => mret (Go (dirfd, sp))
      | x :: c => fits LINUX_PATH_MAX (sp ++ [x]);; walk n rec dirfd flags c (sp ++ [x])
      end
    end
  end.

(** Resolving mount points: the directory to start from and the name left. *)
Definition start_dir (root parent : Z) (name : list Z) : Z * list Z :=
  match name with
  | x :: name' =>
    if x =? SLASH then if is_host_path name then (parent, name) else (root, name')
    else (parent, name)
  | [] => (parent, name)
  end.

Fixpoint resolve_path_fuel (fuel : nat) (parent : Z) (name : list Z) (flags loop : Z) :
    K (flow (Z * list Z)) :=
  match fuel with
  | O => halt Diverge
  | S fuel =>
    if loop >? LOOP_MAX then mret (Ret (- LINUX_ELOOP))
    else
      k ← get;
      let root := rootfd (k_fi k) in
      if bool_decide (name = str "/") then mret (Go (root, str "."))
      else
        let '(dirfd, name) := start_dir root parent name in
        assert_ (negb (bool_decide (name = [])));;
        walk (length name) (fun d nm => resolve_path_fuel fuel d nm flags (loop + 1)) dirfd flags name []
  end.

(** [LOOP_MAX] bounds the recursion, so this much fuel is enough (see
    [resolve_path_total]). *)
Definition resolve_path (parent : Z) (name : list Z) (flags loop : Z) : K (flow (Z * list Z)) :=
  resolve_path_fuel (Z.to_nat (LOOP_MAX - loop) + 2) parent name flags loop.

Definition vfs_grab_dir (dirfd : Z) (name : list Z) (flags : Z) : K (flow (Z * list Z)) :=
  if negb (clearf flags (Z.lor LOOKUP_NOFOLLOW LOOKUP_DIRECTORY) =? 0) then mret (Ret (- LINUX_EINVAL))
  else if bool_decide (name = []) then mret (Ret (- LINUX_ENOENT))
  else if dirfd =? LINUX_AT_FDCWD then resolve_path (D "AT_FDCWD") name flags 0
  else
    k ← get;
    if negb (in_userfd k dirfd) then mret (Ret (- LINUX_EBADF))
    else resolve_path dirfd name flags 0.

End Path.

(** ** Facts *)

(** Documented behaviour of [readlinkat]: a positive result is the number of
    bytes stored, at most [L], the length of the host's longest link; a failed
    call returns -1 and sets one of the error numbers the manual lists, which
    are all in the table. *)
Class ReadlinkOk `{OS} `{DarwinErrno} (L : Z) : Prop := {
  readlink_ok tr args : let r := os tr "readlinkat" args in
    0 < h_ret r -> h_ret r <= L <= LINUX_PATH_MAX /\
    exists bs rest, h_out r = bs :: rest /\ Z.of_nat (length bs) = h_ret r;
  readlink_fails tr args : let r := os tr "readlinkat" args in
    h_ret r <= 0 -> h_ret r = 0 \/ h_ret r = -1 /\ h_errno r <> 0 /\
    h_errno r ∈ (darwin_to_linux_cases darwin_errno LINUX_ERRNO errno_ctr_d2l LINUX_ERRNO).*1;
}.

Section PathFacts.
Context `{OS} `{DarwinErrno} `{DarwinConst} `{Heap}.

(** Only [readlinkat] calls separate two states. *)
Definition reads (k k' : kstate) : Prop :=
  k_um k' = k_um k /\ k_fi k' = k_fi k /\ k_cred k' = k_cred k /\
  exists evs, k_trace k' = evs ++ k_trace k /\ Forall (fun e => ev_call e = "readlinkat"%string) evs.

#[global] Instance reads_preorder : PreOrder reads.
Proof.
  split.
  - intros k. split_and!; try done. by exists [].
  - intros k1 k2 k3 (? & ? & ? & e1 & T1 & F1) (? & ? & ? & e2 & T2 & F2). split_and!; try congruence.
    exists (e2 ++ e1). rewrite T2, T1, app_assoc. split; [done|]. by apply Forall_app.
Qed.

(** What a resolution may end in: too many links, or a path below the
    directory given or below the root. *)
Definition resolved (parent : Z) (k : kstate) (r : result kstate (flow (Z * list Z))) : Prop :=
  match r with
  | Done (Ret e) k' => e = - LINUX_ELOOP /\ reads k k'
  | Done (Go (d, p)) k' => (d = parent \/ d = rootfd (k_fi k)) /\ p <> [] /\ reads k k'
  | Stop _ _ => False
  end.

Lemma resolved_reads parent d k k1 r :
  reads k k1 -> (d = parent \/ d = rootfd (k_fi k)) -> resolved d k1 r -> resolved parent k r.
Proof.
  intros Hr Hd. pose proof Hr as (_ & Hf & _). destruct r as [[e|[d' p]] k'|]; simpl; [| |done].
  - intros [-> ?]. split; [done|by etransitivity].
  - rewrite Hf. intros (Hd' & ? & ?). split_and!; [|done|by etransitivity].
    destruct Hd' as [-> | ->]; auto.
Qed.

Lemma take_component_ok c : c = (take_component c).1 ++ (take_component c).2 /\
  (match (take_component c).2 with x :: _ => x = SLASH | [] => True end).
Proof.
  induction c as [|x c [IH1 IH2]]; [done|]. simpl. destruct (Z.eqb_spec x SLASH); [by split|].
  destruct (take_component c) as [a b]. simpl in *. by rewrite IH1 at 1.
Qed.

Lemma take_component_length c : (length (take_component c).2 <= length c)%nat.
Proof. destruct (take_component_ok c) as [E _]. rewrite E at 2. rewrite length_app. lia. Qed.

Context (L : Z) `{!ReadlinkOk L}.

Lemma readlinkat_ok dirfd sp n k :
  exists r buf k', darwinfs_readlinkat dirfd sp n k = Done (r, buf) k' /\ reads k k' /\
  (0 < r -> buf <> [] /\ Z.of_nat (length buf) <= L).
Proof.
  unfold darwinfs_readlinkat, sysw_out, hcall. msimp. simpl. eexists _, _, _. split; [done|]. split.
  - split_and!; try done. eexists [_]. split; [done|]. by constructor.
  - intros Hp. pose proof (readlink_ok (k_trace k) [HI dirfd; HS sp; HI n]) as Hrl. simpl in Hrl.
    pose proof (readlink_fails (k_trace k) [HI dirfd; HS sp; HI n]) as Hrf. simpl in Hrf.
    set (r := os (k_trace k) "readlinkat" [HI dirfd; HS sp; HI n]) in *.
    destruct (Z.lt_ge_cases 0 (h_ret r)) as [Hlt|Hge].
    + destruct Hrl as (Hle & bs & rest & Ho & Hl); [done|]. rewrite Ho. unfold outbuf. simpl.
      unfold LINUX_PATH_MAX in *. rewrite syswrap_nonneg in Hp |- * by lia.
      rewrite take_ge by lia. split; [|lia]. intros ->. simpl in Hl. lia.
    + destruct (Hrf Hge) as [E|(E & Hn & Hin)].
      * rewrite syswrap_nonneg in Hp; lia.
      * pose proof (syswrap_label (h_ret r) (h_errno r) ltac:(lia) Hn Hin). lia.
Qed.

Lemma fits_ok {S} n bs (s : S) : Z.of_nat (length bs) < n -> fits n bs s = Done tt s.
Proof. intros. unfold fits. by destruct (Z.ltb_spec (Z.of_nat (length bs)) n); [|lia]. Qed.

Lemma remove_last_length sp : (length (remove_last sp) <= length sp)%nat.
Proof.
  unfold remove_last. rewrite length_rev, <- (length_rev sp). generalize (rev sp).
  intros r. induction r as [|x r IH]; simpl; [lia|]. destruct (x =? SLASH); simpl; lia.
Qed.

(** The components are visited one by one; every link leads to one call of
    [rec] on a path at most [L] bytes longer. *)
Lemma walk_total n rec d flags c sp k :
  (length c <= n)%nat -> sp ++ c <> [] ->
  Z.of_nat (length (sp ++ c)) + Z.max 0 L < LINUX_PATH_MAX ->
  (forall nm k', nm <> [] -> Z.of_nat (length nm) <= Z.of_nat (length (sp ++ c)) + Z.max 0 L ->
    reads k k' -> resolved d k' (rec d nm k')) ->
  resolved d k (walk n rec d flags c sp k).
Proof.
  revert c sp k. induction n as [|n IH]; intros c sp k Hn Hne Hlen Hrec.
  { destruct c; [|simpl in Hn; lia]. rewrite app_nil_r in Hne. split_and!; auto; reflexivity. }
  destruct c as [|x c]; [rewrite app_nil_r in Hne; split_and!; auto; reflexivity|].
  cbn [walk]. destruct (take_component_ok (x :: c)) as [E Hs].
  destruct (take_component (x :: c)) as [comp c'] eqn:Etc. simpl in E, Hs.
  rewrite E in Hlen, Hrec, Hne. rewrite !app_assoc in Hlen, Hrec, Hne.
  assert (length c' <= S n)%nat as Hc'.
  { rewrite E, length_app in Hn. lia. }
  pose proof Hlen as Hlen'. rewrite length_app in Hlen'.
  msimp. rewrite fits_ok by lia.
  assert (forall k', reads k k' -> resolved d k'
    (match c' with
     | [] => mret (Go (d, sp ++ comp))
     | x0 :: c0 => fits LINUX_PATH_MAX ((sp ++ comp) ++ [x0]);; walk n rec d flags c0 ((sp ++ comp) ++ [x0])
     end k')) as Hnext.
  { intros k' Hr. destruct c' as [|x' c'']; [rewrite app_nil_r in Hne; split_and!; auto; reflexivity|].
    simpl in Hlen', Hc'. msimp. rewrite fits_ok by (rewrite length_app; simpl; lia).
    rewrite (cons_middle x' _ c''), (app_assoc (sp ++ comp) [x'] c'') in Hne, Hlen, Hrec.
    apply IH; [lia|done|done|]. intros nm k1 ???. apply Hrec; [done|done|by etransitivity]. }
  destruct (Z.land flags LOOKUP_NOFOLLOW =? 0); [|apply (Hnext k); reflexivity].
  destruct (readlinkat_ok d (sp ++ comp) LINUX_PATH_MAX k) as (r & buf & k' & -> & Hr & Hb).
  rewrite Z.gtb_ltb. destruct (Z.ltb_spec 0 r) as [Hpos|]; [|].
  2: { eapply (resolved_reads d d k k'); [done|by left|]. by apply Hnext. }
  destruct (Hb Hpos) as [Hbne Hbl]. eapply (resolved_reads d d k k'); [done|by left|].
  rewrite fits_ok by (rewrite length_app; lia).
  assert (buf ++ c' <> []) as Hbc by (by destruct buf).
  pose proof (remove_last_length (sp ++ comp)).
  destruct (match buf ++ c' with x0 :: _ => x0 =? SLASH | [] => false end).
  - apply Hrec; [done| |done]. rewrite !length_app in *. lia.
  - rewrite fits_ok by (rewrite !length_app in *; lia).
    apply Hrec; [by destruct (remove_last _)| |done]. rewrite !length_app in *. lia.
Qed.

Lemma start_dir_ok root parent name d nm :
  name <> [] -> name <> str "/" -> start_dir root parent name = (d, nm) ->
  (d = parent \/ d = root) /\ nm <> [] /\ (length nm <= length name)%nat.
Proof.
  destruct name as [|x name]; [done|]. unfold start_dir. intros _ Hs.
  destruct (Z.eqb_spec x SLASH) as [->|]; [|intros [= <- <-]; auto].
  destruct (is_host_path _); intros [= <- <-]; [auto|]. split_and!; [auto| |simpl; lia].
  intros ->. by apply Hs.
Qed.

Lemma resolve_path_fuel_total fuel parent name flags loop k :
  loop + Z.of_nat fuel >= LOOP_MAX + 2 -> loop <= LOOP_MAX + 1 -> name <> [] ->
  Z.of_nat (length name) + (LOOP_MAX + 1 - loop) * Z.max 0 L < LINUX_PATH_MAX ->
  resolved parent k (resolve_path_fuel fuel parent name flags loop k).
Proof.
  revert parent name loop k. induction fuel as [|fuel IH]; intros parent name loop k Hf Hl Hne Hlen; [lia|].
  cbn [resolve_path_fuel]. rewrite Z.gtb_ltb. destruct (Z.ltb_spec LOOP_MAX loop); [split; reflexivity|].
  msimp. case_bool_decide as Hs; [split_and!; [by right|done|reflexivity]|].
  destruct (start_dir _ _ _) as [d nm] eqn:Esd.
  destruct (start_dir_ok _ _ _ _ _ Hne Hs Esd) as (Hd & Hnm & Hln).
  rewrite bool_decide_false by done. cbn [negb].
  eapply (resolved_reads parent d k k); [reflexivity|done|].
  apply walk_total; [done|by rewrite app_nil_l|rewrite app_nil_l; nia|].
  intros nm' k' Hne' Hlen' Hr. rewrite app_nil_l in Hlen'. apply IH; [lia|lia|done|nia].
Qed.

(** Whatever the host answers, even if links change meanwhile: when the path and
    the longest link leave room in the buffers, [resolve_path] returns, with
    [-LINUX_ELOOP] or with a non-empty path and the descriptor of the directory it
    started from or of the guest's root.  It changes nothing and only reads
    links; in particular its [assert] never fails. *)
Theorem resolve_path_total parent name flags k :
  name <> [] -> Z.of_nat (length name) + (LOOP_MAX + 1) * Z.max 0 L < LINUX_PATH_MAX ->
  match resolve_path parent name flags 0 k with
  | Done (Ret e) k' => e = - LINUX_ELOOP /\ reads k k'
  | Done (Go (d, p)) k' => (d = parent \/ d = rootfd (k_fi k)) /\ p <> [] /\ reads k k'
  | Stop _ _ => False
  end.
Proof.
  intros Hne Hlen. apply (resolve_path_fuel_total _ parent name flags 0 k); [unfold LOOP_MAX; lia|unfold LOOP_MAX; lia|done|].
  by rewrite Z.sub_0_r.
Qed.

End PathFacts.

(** ** Symbolic links

    What a path stands for, without buffers, fuel or the loop over bytes.  [lnk d p]
    is the target when [p], looked up in the directory [d], is a link. *)
(** [p] is the name [nm] up to the end of one of its components, [rest] what
    follows; nothing follows the slash at the end of a name. *)
Definition point (nm p rest : list Z) : Prop :=
  nm = p ++ rest /\ match rest with x :: _ => x = SLASH | [] => p <> [] /\ last p <> Some SLASH end.

Lemma remove_last_spec sp :
  exists comp, sp = remove_last sp ++ comp /\ SLASH ∉ comp /\ (remove_last sp = [] \/ last (remove_last sp) = Some SLASH).
Proof.
  unfold remove_last. pattern sp at 1. rewrite <- (rev_involutive sp). generalize (rev sp). intros r.
  induction r as [|x r (comp & E & Hs & Hl)]; simpl; [exists []; split_and!; [done|apply not_elem_of_nil|by left]|].
  destruct (Z.eqb_spec x SLASH) as [->|Hx].
  - exists []. rewrite app_nil_r. split_and!; [done|apply not_elem_of_nil|]. right. simpl. by rewrite last_snoc.
  - exists (comp ++ [x]). rewrite E at 1. rewrite app_assoc. split_and!; [done| |done]. set_solver.
Qed.

Lemma take_component_no_slash c : SLASH ∉ (take_component c).1.
Proof.
  induction c as [|x c IH]; simpl; [apply not_elem_of_nil|]. destruct (Z.eqb_spec x SLASH); [apply not_elem_of_nil|].
  destruct (take_component c). simpl in *. set_solver.
Qed.

(** Between two ends of components there is none. *)
Lemma point_next sp comp c p rest : SLASH ∉ comp -> sp = [] \/ last sp = Some SLASH ->
  point (sp ++ comp ++ c) p rest -> (length p < length sp)%nat \/ p = sp ++ comp \/ (length (sp ++ comp) < length p)%nat.
Proof.
  intros Hc Hsp [E Hp]. destruct (decide (length p < length sp)%nat) as [|Hge]; [by left|right].
  destruct (decide (length (sp ++ comp) < length p)%nat) as [|Hle]; [by right|left]. rewrite app_assoc in E.
  rewrite length_app in Hle. apply app_eq_inv in E as [(k & E1 & E2)|(k & -> & _)].
  2: { rewrite !length_app in Hle. destruct k; [by rewrite app_nil_r|simpl in Hle; lia]. }
  symmetry in E1. destruct k as [|x k]; [by rewrite app_nil_r in E1|]. exfalso. rewrite E2 in Hp. simpl in Hp. subst x.
  apply app_eq_inv in E1 as [(k' & -> & E1)|(k' & -> & E1)].
  - apply Hc. rewrite E1. set_solver.
  - destruct k' as [|y k']; [|rewrite length_app in Hge; simpl in Hge; lia]. simpl in E1. apply Hc. rewrite <- E1. set_solver.
Qed.

Lemma point_last sp p rest : sp = [] \/ last sp = Some SLASH -> point sp p rest -> (length p < length sp)%nat.
Proof.
  intros Hsp [-> Hp]. rewrite length_app. destruct rest as [|x rest]; [|simpl; lia].
  rewrite app_nil_r in Hsp. destruct Hp as [Hne Hl]. by destruct Hsp.
Qed.

Section Links.
Context (lnk : Z -> list Z -> option (list Z)) (root flags : Z).

Definition follow : Prop := Z.land flags LOOKUP_NOFOLLOW = 0.

Definition no_link (d : Z) (nm : list Z) : Prop := forall p rest, point nm p rest -> lnk d p = None.
(** [p] is the first part of [nm] that is a link; it leads to [t]. *)
Definition first_link (d : Z) (nm p rest t : list Z) : Prop :=
  point nm p rest /\ lnk d p = Some t /\
  forall p' rest', point nm p' rest' -> (length p' < length p)%nat -> lnk d p' = None.

(** The name without the link: an absolute target takes the place of [p], a
    relative one the place of its last component. *)
Definition expansion (p t rest nm : list Z) : Prop :=
  match t with
  | x :: _ => if x =? SLASH then nm = t ++ rest
              else exists dir comp, p = dir ++ comp /\ SLASH ∉ comp /\ (dir = [] \/ last dir = Some SLASH) /\ nm = dir ++ t ++ rest
  | [] => False
  end.

(** One link of the path [name], looked up from [parent], is followed. *)
Inductive follows (parent : Z) (name : list Z) (d : Z) (nm : list Z) : Prop :=
| follows_link nm0 p rest t : name <> str "/" -> start_dir root parent name = (d, nm0) -> follow ->
    first_link d nm0 p rest t -> expansion p t rest nm -> follows parent name d nm.

(** The path leads, after [n] links, to the name [q] in the directory [d]. *)
Inductive resolves : nat -> Z -> list Z -> Z -> list Z -> Prop :=
| resolves_root parent : resolves 0 parent (str "/") root (str ".")
| resolves_here parent name d nm : name <> str "/" -> start_dir root parent name = (d, nm) ->
    (follow -> no_link d nm) -> resolves 0 parent name d nm
| resolves_next n parent name d nm e q : follows parent name d nm -> resolves n d nm e q -> resolves (S n) parent name e q.

(** The path leads through at least [n] links. *)
Inductive leads : nat -> Z -> list Z -> Prop :=
| leads_here parent name : leads 0 parent name
| leads_next n parent name d nm : follows parent name d nm -> leads n d nm -> leads (S n) parent name.

End Links.

(** The host's links are [lnk], none of them longer than [L], and do not change
    during the call; a failed call is as [ReadlinkOk] says. *)
Class LinksOk `{OS} `{DarwinErrno} (lnk : Z -> list Z -> option (list Z)) (L : Z) : Prop := {
  links_readlink :: ReadlinkOk L;
  links_answer tr d p n : let r := os tr "readlinkat" [HI d; HS p; HI n] in
    match lnk d p with
    | Some t => t <> [] /\ h_ret r = Z.of_nat (length t) /\ exists rest, h_out r = t :: rest
    | None => h_ret r <= 0
    end;
}.

Section LinkFacts.
Context `{OS} `{DarwinErrno} `{DarwinConst} `{Heap}.
Context (lnk : Z -> list Z -> option (list Z)) (L : Z) `{!LinksOk lnk L}.

Lemma readlinkat_lnk d sp n k :
  exists r buf k', darwinfs_readlinkat d sp n k = Done (r, buf) k' /\ reads k k' /\
  match lnk d sp with Some t => 0 < r /\ buf = t /\ t <> [] /\ Z.of_nat (length t) <= L | None => r <= 0 end.
Proof.
  unfold darwinfs_readlinkat, sysw_out, hcall. msimp. simpl. eexists _, _, _. split; [done|]. split.
  { split_and!; try done. eexists [_]. split; [done|]. by constructor. }
  pose proof (links_answer (k_trace k) d sp n) as Ha. simpl in Ha.
  pose proof (readlink_ok (k_trace k) [HI d; HS sp; HI n]) as Hrl. simpl in Hrl.
  pose proof (readlink_fails (k_trace k) [HI d; HS sp; HI n]) as Hrf. simpl in Hrf.
  set (r := os (k_trace k) "readlinkat" [HI d; HS sp; HI n]) in *. destruct (lnk d sp) as [t|].
  - destruct Ha as (Hne & Er & rest & Eo). assert (0 < h_ret r) as Hpos by (destruct t; [done|simpl in Er; lia]).
    destruct (Hrl Hpos) as [Hle _]. unfold LINUX_PATH_MAX in Hle. rewrite syswrap_nonneg by lia.
    rewrite Eo. unfold outbuf. simpl. rewrite take_ge by lia. split_and!; [done|done|done|lia].
  - destruct (Hrf Ha) as [E|(E & Hn & Hin)]; [rewrite syswrap_nonneg; lia|].
    pose proof (syswrap_label (h_ret r) (h_errno r) ltac:(lia) Hn Hin). lia.
Qed.

(** The loop either comes to the end without a link, or makes one recursive
    call on the name with its first link expanded. *)
Definition walked (rec : Z -> list Z -> K (flow (Z * list Z))) (d flags : Z) (nm : list Z) (k : kstate)
    (r : result kstate (flow (Z * list Z))) : Prop :=
  exists k', reads k k' /\
  (r = Done (Go (d, nm)) k' /\ (follow flags -> no_link lnk d nm) \/
   exists p rest t nm', r = rec d nm' k' /\ follow flags /\ first_link lnk d nm p rest t /\ expansion p t rest nm' /\
     nm' <> [] /\ Z.of_nat (length nm') <= Z.of_nat (length nm) + Z.max 0 L).

Lemma walked_reads rec d flags nm k k1 r : reads k k1 -> walked rec d flags nm k1 r -> walked rec d flags nm k r.
Proof. intros Hr (k' & Hr' & Hw). exists k'. split; [by etransitivity|done]. Qed.

(** The call on the name with a link expanded. *)
Lemma walked_link rec d flags sp comp c k t : follow flags -> SLASH ∉ comp -> comp ++ c <> [] ->
  match c with x :: _ => x = SLASH | [] => True end ->
  (forall p rest, point (sp ++ comp ++ c) p rest -> (length p < length (sp ++ comp))%nat -> lnk d p = None) ->
  lnk d (sp ++ comp) = Some t -> t <> [] -> Z.of_nat (length t) <= L ->
  Z.of_nat (length (sp ++ comp ++ c)) + Z.max 0 L < LINUX_PATH_MAX ->
  walked rec d flags (sp ++ comp ++ c) k
    ((fits LINUX_PATH_MAX (t ++ c);;
      if (match t ++ c with x :: _ => x =? SLASH | [] => false end) then rec d (t ++ c)
      else fits LINUX_PATH_MAX (remove_last (sp ++ comp) ++ t ++ c);; rec d (remove_last (sp ++ comp) ++ t ++ c)) k).
Proof.
  intros Hf Hns Hne Hc Hb Hl Ht HtL Hlen. pose proof (remove_last_length (sp ++ comp)) as Hrl. rewrite !length_app in Hlen. rewrite length_app in Hrl.
  exists k. split; [reflexivity|]. right. exists (sp ++ comp), c, t. msimp. rewrite fits_ok by (rewrite length_app; lia).
  assert (first_link lnk d (sp ++ comp ++ c) (sp ++ comp) c t) as Hfl.
  { split_and!; [|done|done]. split; [by rewrite app_assoc|]. destruct c; [|done]. rewrite app_nil_r in Hne.
    split; [by destruct sp|]. rewrite last_app. destruct (last comp) as [y|] eqn:Ey; [|by apply last_None in Ey].
    apply last_Some_elem_of in Ey. intros [= ->]. done. }
  destruct t as [|y t]; [done|]. cbn [app]. destruct (y =? SLASH) eqn:Ey.
  - exists (y :: t ++ c). split_and!; try done; [by simpl; rewrite Ey|]. rewrite !length_app. simpl in *. rewrite length_app. lia.
  - rewrite fits_ok by (rewrite length_app; simpl in *; rewrite length_app; lia).
    exists (remove_last (sp ++ comp) ++ y :: t ++ c). split_and!; try done; [|by destruct (remove_last _)|].
    + simpl. rewrite Ey. destruct (remove_last_spec (sp ++ comp)) as (cm & E & ? & ?). exists (remove_last (sp ++ comp)), cm. done.
    + rewrite !length_app. simpl in *. rewrite length_app. lia.
Qed.

Lemma walk_links n rec d flags c sp k :
  (length c <= n)%nat -> sp = [] \/ last sp = Some SLASH -> Z.of_nat (length (sp ++ c)) + Z.max 0 L < LINUX_PATH_MAX ->
  (follow flags -> forall p rest, point (sp ++ c) p rest -> (length p < length sp)%nat -> lnk d p = None) ->
  walked rec d flags (sp ++ c) k (walk n rec d flags c sp k).
Proof.
  revert c sp k. induction n as [|n IH]; intros c sp k Hn Hsp Hlen Hbefore.
  1: destruct c; [|simpl in Hn; lia].
  2: destruct c as [|x c]; cycle 1.
  1, 3: rewrite app_nil_r in *; exists k; split; [reflexivity|]; left; split; [done|];
    intros Hf p rest Hp; by apply (Hbefore Hf p rest Hp), (point_last sp p rest).
  cbn [walk]. destruct (take_component_ok (x :: c)) as [E Hs]. pose proof (take_component_no_slash (x :: c)) as Hns.
  destruct (take_component (x :: c)) as [comp c'] eqn:Etc. cbn [fst snd] in *.
  assert (comp ++ c' <> []) as Hne by (by rewrite <- E). rewrite E in *. clear E Etc x c.
  pose proof Hlen as Hlen'. rewrite !length_app in Hlen'. rewrite !length_app in Hn. msimp. rewrite fits_ok by (rewrite length_app; lia).
  assert (follow flags -> forall p rest, point (sp ++ comp ++ c') p rest -> (length p < length (sp ++ comp))%nat -> lnk d p = None) as Hb.
  { intros Hf p rest Hp Hlt. destruct (point_next sp comp c' p rest Hns Hsp Hp) as [|[->|]]; [by apply (Hbefore Hf p rest)|lia|lia]. }
  assert (forall k1, (follow flags -> lnk d (sp ++ comp) = None) -> walked rec d flags (sp ++ comp ++ c') k1
    (match c' with
     | [] => mret (Go (d, sp ++ comp))
     | x0 :: c0 => fits LINUX_PATH_MAX ((sp ++ comp) ++ [x0]);; walk n rec d flags c0 ((sp ++ comp) ++ [x0])
     end k1)) as Hnext.
  { intros k1 Hnl. assert (follow flags -> forall p rest, point (sp ++ comp ++ c') p rest -> (length p <= length (sp ++ comp))%nat -> lnk d p = None) as Hb'.
    { intros Hf p rest Hp Hle. destruct (point_next sp comp c' p rest Hns Hsp Hp) as [|[->|]]; [by apply (Hbefore Hf p rest)|auto|lia]. }
    destruct c' as [|x' c''].
    - exists k1. split; [reflexivity|]. left. rewrite app_nil_r in *. split; [done|]. intros Hf p rest Hp. apply (Hb' Hf p rest Hp).
      destruct Hp as [-> _]. rewrite length_app. lia.
    - subst x'. simpl in Hlen', Hn. msimp. rewrite fits_ok by (rewrite !length_app; simpl; lia).
      rewrite (cons_middle SLASH _ c''), !app_assoc in *.
      apply IH; [lia|right; by rewrite last_snoc|done|]. intros Hf p rest Hp Hlt. apply (Hb' Hf p rest Hp).
      rewrite !length_app in *. simpl in Hlt. lia. }
  destruct (Z.eqb_spec (Z.land flags LOOKUP_NOFOLLOW) 0) as [Hf|Hf]; [|by apply Hnext].
  destruct (readlinkat_lnk d (sp ++ comp) LINUX_PATH_MAX k) as (r & buf & k' & -> & Hr & Hm).
  apply (walked_reads _ _ _ _ _ k'); [done|]. rewrite Z.gtb_ltb.
  destruct (lnk d (sp ++ comp)) as [t|] eqn:Elnk.
  - destruct Hm as (Hpos & -> & Ht & HtL). destruct (Z.ltb_spec 0 r); [|lia].
    apply (walked_link rec d flags sp comp c' k' t); try done. by apply Hb.
  - destruct (Z.ltb_spec 0 r); [lia|]. by apply Hnext.
Qed.

(** What [resolve_path] ends in, [loop] links having been followed. *)
Definition resolution (loop : Z) (parent : Z) (name : list Z) (flags : Z) (k : kstate) (r : result kstate (flow (Z * list Z))) : Prop :=
  match r with
  | Done (Ret e) k' => e = - LINUX_ELOOP /\ leads lnk (rootfd (k_fi k)) flags (Z.to_nat (LOOP_MAX + 1 - loop)) parent name /\ reads k k'
  | Done (Go (d, p)) k' => (exists n, loop + Z.of_nat n <= LOOP_MAX /\ resolves lnk (rootfd (k_fi k)) flags n parent name d p) /\ reads k k'
  | Stop _ _ => False
  end.

Lemma resolution_next loop parent name d nm flags k k1 r : loop <= LOOP_MAX -> reads k k1 ->
  follows lnk (rootfd (k_fi k)) flags parent name d nm -> resolution (loop + 1) d nm flags k1 r -> resolution loop parent name flags k r.
Proof.
  intros Hl Hr Hfo. pose proof Hr as (_ & Hfi & _). destruct r as [[e|[d' p]] k'|]; simpl; rewrite ?Hfi; [| |done].
  - intros (-> & Hle & Hr'). split_and!; [done| |by etransitivity].
    replace (Z.to_nat (LOOP_MAX + 1 - loop)) with (S (Z.to_nat (LOOP_MAX + 1 - (loop + 1)))) by lia. by econstructor.
  - intros ((n & Hn & Hres) & Hr'). split; [|by etransitivity]. exists (S n). split; [lia|]. by econstructor.
Qed.

Lemma resolve_path_fuel_spec fuel parent name flags loop k :
  loop + Z.of_nat fuel >= LOOP_MAX + 2 -> loop <= LOOP_MAX + 1 -> name <> [] ->
  Z.of_nat (length name) + (LOOP_MAX + 1 - loop) * Z.max 0 L < LINUX_PATH_MAX ->
  resolution loop parent name flags k (resolve_path_fuel fuel parent name flags loop k).
Proof.
  revert parent name loop k. induction fuel as [|fuel IH]; intros parent name loop k Hf Hl Hne Hlen; [lia|].
  cbn [resolve_path_fuel]. rewrite Z.gtb_ltb. destruct (Z.ltb_spec LOOP_MAX loop).
  { split_and!; [done| |reflexivity]. replace (Z.to_nat (LOOP_MAX + 1 - loop)) with 0%nat by lia. constructor. }
  msimp. case_bool_decide as Hs.
  { rewrite Hs. split; [|reflexivity]. exists 0%nat. split; [lia|constructor]. }
  destruct (start_dir _ _ _) as [d nm] eqn:Esd.
  destruct (start_dir_ok _ _ _ _ _ Hne Hs Esd) as (_ & Hnm & Hln).
  rewrite bool_decide_false by done. cbn [negb].
  destruct (walk_links (length nm) (fun d nm => resolve_path_fuel fuel d nm flags (loop + 1)) d flags nm [] k)
    as (k' & Hr & [[E Hno]|(p & rest & t & nm' & E & Hfo & Hfl & Hex & Hne' & Hlen')]);
    [done|by left|rewrite app_nil_l; nia|intros _ p rest _ Hp; simpl in Hp; lia| |]; rewrite E, ?app_nil_l in *.
  - split; [|done]. exists 0%nat. split; [lia|]. by constructor.
  - apply (resolution_next loop parent name d nm' flags k k'); [lia|done|by econstructor|].
    apply IH; [lia|lia|done|nia].
Qed.

(** C28: Path resolution does what following links means.  On a host whose links
    do not change during the call, when the path and the longest link leave room in
    the buffers, [resolve_path] always returns.  Either with a directory and a
    path in it: those the name stands for once the links in it, at most [LOOP_MAX],
    have been expanded one after the other, always the first one, an absolute
    target replacing the path so far and a relative one the component; an absolute path starts
    at the guest's root unless it starts with a directory that is the host's.  Or
    with [-LINUX_ELOOP], and the path leads through more than [LOOP_MAX]
    links.  Nothing is changed and only links are read. *)
Theorem resolve_path_spec parent name flags k :
  name <> [] -> Z.of_nat (length name) + (LOOP_MAX + 1) * Z.max 0 L < LINUX_PATH_MAX ->
  match resolve_path parent name flags 0 k with
  | Done (Go (d, p)) k' =>
      (exists n, Z.of_nat n <= LOOP_MAX /\ resolves lnk (rootfd (k_fi k)) flags n parent name d p) /\ reads k k'
  | Done (Ret e) k' =>
      e = - LINUX_ELOOP /\ leads lnk (rootfd (k_fi k)) flags (Z.to_nat (LOOP_MAX + 1)) parent name /\ reads k k'
  | Stop _ _ => False
  end.
Proof.
  intros Hne Hlen. pose proof (resolve_path_fuel_spec (Z.to_nat (LOOP_MAX - 0) + 2) parent name flags 0 k) as Hs.
  apply Hs; [unfold LOOP_MAX; lia|unfold LOOP_MAX; lia|done|by rewrite Z.sub_0_r].
Qed.

End LinkFacts.

(** Paths without links *)
Section NoLinks.
Context `{OS} `{DarwinErrno} `{DarwinConst}.

(** No name is a link, as far as the flags let the resolution look. *)
Definition no_links (flags : Z) : Prop :=
  Z.land flags LOOKUP_NOFOLLOW = 0 ->
  forall tr args, let r := os tr "readlinkat" args in syswrap (h_ret r) (h_errno r) <= 0.

Definition quiet (flags : Z) (k k' : kstate) : Prop :=
  reads k k' /\ (Z.land flags LOOKUP_NOFOLLOW <> 0 -> k' = k).

Lemma readlinkat_no_link flags d sp n k : no_links flags -> Z.land flags LOOKUP_NOFOLLOW = 0 ->
  exists r buf k', darwinfs_readlinkat d sp n k = Done (r, buf) k' /\ reads k k' /\ r <= 0.
Proof.
  intros Hl Hf. unfold darwinfs_readlinkat, sysw_out, hcall. msimp. simpl. eexists _, _, _.
  split; [done|]. split; [|by apply Hl]. split_and!; try done. eexists [_]. split; [done|]. by constructor.
Qed.

Lemma walk_no_links n rec d flags c sp k :
  no_links flags -> (length c <= n)%nat -> Z.of_nat (length (sp ++ c)) < LINUX_PATH_MAX ->
  exists k', walk n rec d flags c sp k = Done (Go (d, sp ++ c)) k' /\ quiet flags k k'.
Proof.
  intros Hl. revert c sp k. induction n as [|n IH]; intros c sp k Hn Hlen.
  { destruct c; [|simpl in Hn; lia]. rewrite app_nil_r. exists k. split; [done|]. split; [reflexivity|done]. }
  destruct c as [|x c]; [rewrite app_nil_r; exists k; split; [done|]; split; [reflexivity|done]|].
  cbn [walk]. destruct (take_component_ok (x :: c)) as [E _].
  destruct (take_component (x :: c)) as [comp c'] eqn:Etc. simpl in E.
  rewrite E in Hlen |- *. rewrite app_assoc in Hlen |- *.
  assert (length c' <= S n)%nat as Hc' by (rewrite E, length_app in Hn; lia).
  pose proof Hlen as Hlen'. rewrite length_app in Hlen'. msimp. rewrite fits_ok by lia.
  assert (forall k1, reads k k1 -> (Z.land flags LOOKUP_NOFOLLOW <> 0 -> k1 = k) -> exists k',
    (match c' with
     | [] => mret (Go (d, sp ++ comp))
     | x0 :: c0 => fits LINUX_PATH_MAX ((sp ++ comp) ++ [x0]);; walk n rec d flags c0 ((sp ++ comp) ++ [x0])
     end k1) = Done (Go (d, (sp ++ comp) ++ c')) k' /\ quiet flags k k') as Hnext.
  { intros k1 Hr Hk. destruct c' as [|x' c''].
    - rewrite app_nil_r. by exists k1.
    - simpl in Hlen', Hc'. msimp. rewrite fits_ok by (rewrite length_app; simpl; lia).
      rewrite (cons_middle x' _ c''), (app_assoc (sp ++ comp) [x'] c'') in Hlen |- *.
      destruct (IH c'' ((sp ++ comp) ++ [x']) k1) as (k' & -> & Hr' & Hk'); [lia|done|].
      exists k'. split; [done|]. split; [by etransitivity|]. intros Hf. by rewrite Hk', Hk. }
  destruct (Z.eqb_spec (Z.land flags LOOKUP_NOFOLLOW) 0) as [Hf|Hf].
  - destruct (readlinkat_no_link flags d (sp ++ comp) LINUX_PATH_MAX k Hl Hf) as (r & buf & k1 & -> & Hr & Hr0).
    rewrite Z.gtb_ltb. destruct (Z.ltb_spec 0 r); [lia|]. apply Hnext; [done|]. by intros ?.
  - by apply (Hnext k).
Qed.

(** Where no component is a symbolic link, or with [LOOKUP_NOFOLLOW], the
    path is not rewritten: it is looked up below the directory given, except that an absolute
    path outside the host's directories loses its slash and is looked up below
    the guest's root.  With [LOOKUP_NOFOLLOW] no host call is made. *)
Theorem resolve_path_plain parent name flags k :
  no_links flags -> name <> [] -> name <> str "/" -> Z.of_nat (length name) < LINUX_PATH_MAX ->
  exists k', resolve_path parent name flags 0 k =
    Done (Go (if has_prefix (str "/") name && negb (is_host_path name)
              then (rootfd (k_fi k), drop 1 name) else (parent, name))) k' /\
  reads k k' /\ (Z.land flags LOOKUP_NOFOLLOW <> 0 -> k' = k).
Proof.
  intros Hl Hne Hs Hlen. unfold resolve_path.
  change (Z.to_nat (LOOP_MAX - 0) + 2)%nat with 22%nat. cbn [resolve_path_fuel]. msimp.
  change (0 >? LOOP_MAX) with false. cbv iota. rewrite bool_decide_false by done.
  destruct (start_dir _ _ _) as [d nm] eqn:Esd.
  destruct (start_dir_ok _ _ _ _ _ Hne Hs Esd) as (Hd & Hnm & Hln).
  rewrite bool_decide_false by done. cbn [negb].
  edestruct (walk_no_links (length nm)) as (k' & -> & Hq); [done|done|rewrite app_nil_l; lia|].
  exists k'. split; [|done]. rewrite app_nil_l. f_equal. f_equal. rewrite <- Esd.
  destruct name as [|x name]; [done|]. unfold start_dir. change (str "/") with [SLASH]. cbn [has_prefix].
  rewrite (Z.eqb_sym SLASH). destruct (x =? SLASH); [|done]. by destruct (is_host_path (x :: name)).
Qed.

End NoLinks.

(** ** Concrete resolutions *)

(** The host has the links [a -> b/c] and [x -> x]. *)
Definition link_os : OS := {|
  os _ call args :=
    match args with
    | [HI _; HS p; HI _] =>
        if bool_decide (p = str "a") then mk_hres 3 0 [str "b/c"]
        else if bool_decide (p = str "x") then mk_hres 1 0 [str "x"]
        else mk_hres (-1) 22 []
    | _ => mk_hres (-1) 22 []
    end;
  uninit _ := [] |}.

Section Resolutions.
#[local] Existing Instances link_os macos_errno macos_const.

#[local] Instance link_os_ok : ReadlinkOk 3.
Proof.
  constructor; intros tr args; simpl; repeat case_match; simpl; intros; try lia;
    try (split; [unfold LINUX_PATH_MAX; lia|]; eexists _, _; split; reflexivity).
  all: right; split_and!; [done|done|]; apply (bool_decide_unpack _); vm_compute; exact I.
Qed.

Definition link_of (d : Z) (p : list Z) : option (list Z) :=
  if bool_decide (p = str "a") then Some (str "b/c") else if bool_decide (p = str "x") then Some (str "x") else None.

#[local] Instance link_of_ok : LinksOk link_of 3.
Proof.
  split; [apply _|]. intros tr d p n. unfold link_of. simpl.
  repeat case_bool_decide; try done; simpl; try lia; (split_and!; [done|done|by exists []]).
Qed.

Lemma resolve_path_total_witness :
  match resolve_path 7 (str "/a/d") 0 0 k0 with Done (Go (d, p)) k' => p <> [] | Done (Ret _) _ => True | _ => False end.
Proof.
  pose proof (resolve_path_total 3 7 (str "/a/d") 0 k0 ltac:(done) ltac:(vm_compute; reflexivity)) as Ht.
  destruct (resolve_path 7 (str "/a/d") 0 0 k0) as [[e|[d p]] k'|]; [exact I|exact (proj1 (proj2 Ht))|exact Ht].
Defined.

(** One link is followed; or one that leads to itself, until there were too many. *)
Lemma resolve_path_spec_witness :
  (exists k' n, resolve_path 7 (str "a/d") 0 0 k0 = Done (Go (7, str "b/c/d")) k' /\
    resolves link_of (rootfd (k_fi k0)) 0 n 7 (str "a/d") 7 (str "b/c/d")) /\
  (exists k', resolve_path 7 (str "x") 0 0 k0 = Done (Ret (- LINUX_ELOOP)) k' /\
    leads link_of (rootfd (k_fi k0)) 0 21 7 (str "x")).
Proof.
  split.
  - pose proof (resolve_path_spec link_of 3 7 (str "a/d") 0 k0 ltac:(done) ltac:(vm_compute; reflexivity)) as Ht.
    destruct (resolve_path 7 (str "a/d") 0 0 k0) as [f k'|w k'] eqn:E; [|destruct Ht].
    assert (f = Go (7, str "b/c/d")) as -> by (vm_compute in E; injection E as <- _; vm_compute; reflexivity).
    destruct Ht as [(n & _ & Hr) _]. exists k', n. split; [reflexivity|exact Hr].
  - pose proof (resolve_path_spec link_of 3 7 (str "x") 0 k0 ltac:(done) ltac:(vm_compute; reflexivity)) as Ht.
    destruct (resolve_path 7 (str "x") 0 0 k0) as [f k'|w k'] eqn:E; [|destruct Ht].
    assert (f = Ret (- LINUX_ELOOP)) as -> by (vm_compute in E; injection E as <- _; vm_compute; reflexivity).
    destruct Ht as (_ & Hl & _). exists k'. split; [reflexivity|exact Hl].
Defined.

Lemma resolve_path_plain_witness :
  resolve_path 7 (str "/a/d") LOOKUP_NOFOLLOW 0 k0 = Done (Go (rootfd (k_fi k0), str "a/d")) k0.
Proof.
  destruct (resolve_path_plain 7 (str "/a/d") LOOKUP_NOFOLLOW k0) as (k' & E & _ & Hk).
  - intros Hf. discriminate Hf.
  - done.
  - done.
  - vm_compute. reflexivity.
  - rewrite Hk in E; [|discriminate]. exact E.
Defined.

End Resolutions.

(** One link of 4,000 bytes. *)
Definition long_os : OS := {| os _ _ _ := mk_hres 4000 0 [repeat 97 4000]; uninit _ := [] |}.

(** Departures of path resolution from Linux: a name that only starts with
    the letters of a host directory is looked up on the host ([/devel]); [..] at
    the root leaves the guest's root; and a link whose target and rest of the path
    exceed [LINUX_PATH_MAX] writes past the end of [buf]. *)
Theorem resolve_path_departures :
  (exists k', @resolve_path link_os macos_errno (-2) (str "/devel/x") 0 0 k0 = Done (Go (-2, str "/devel/x")) k') /\
  (exists k', @resolve_path link_os macos_errno (-2) (str "/../etc") 0 0 k0 =
    Done (Go (rootfd (k_fi k0), str "../etc")) k') /\
  (exists k', @resolve_path long_os macos_errno (-2) (str "a/" ++ repeat 98 200) 0 0 k0 = Stop Overflow k').
Proof. split_and!; eexists; vm_compute; reflexivity. Qed.
