(* ===== verification/FileOps.v ===== *)
(** * Operations on open files ([src/fs/fs.c], [darwinfs_*] and the system
    calls on a descriptor)

    The locks of the descriptor tables are not modelled: a handler runs from
    its start to its end.  A structure Darwin fills in is answered as the list of
    its fields, a buffer as the bytes stored in it; what a buffer holds beyond
    them is whatever the memory held before ([uninit]). *)

From S2P Require Import Prelude RBTree Const Errno Conv Mm UserMem FdTable Kernel Files.

(** [LINUX_TC*], [LINUX_TIOC*], [LINUX_FIO*] ([include/linux/ioctl.h]) *)
Definition LINUX_TCGETS : Z := 0x5401.
Definition LINUX_TCSETS : Z := 0x5402.
Definition LINUX_TCSETSW : Z := 0x5403.
Definition LINUX_TCXONC : Z := 0x540A.
Definition LINUX_TCFLSH : Z := 0x540B.
Definition LINUX_TIOCGPGRP : Z := 0x540F.
Definition LINUX_TIOCSPGRP : Z := 0x5410.
Definition LINUX_TIOCGWINSZ : Z := 0x5413.
Definition LINUX_TIOCSWINSZ : Z := 0x5414.
Definition LINUX_FIONREAD : Z := 0x541B.
Definition LINUX_FIONBIO : Z := 0x5421.
Definition LINUX_FIOCLEX : Z := 0x5451.
Definition LINUX_TCOOFF : Z := 0.
Definition LINUX_TCOON : Z := 1.
Definition LINUX_TCIOFF : Z := 2.
Definition LINUX_TCION : Z := 3.
Definition LINUX_TCIFLUSH : Z := 0.
Definition LINUX_TCOFLUSH : Z := 1.
Definition LINUX_TCIOFLUSH : Z := 2.

(** [LINUX_F_*] ([include/linux/fs.h]) *)
Definition LINUX_F_DUPFD : Z := 0.
Definition LINUX_F_GETFD : Z := 1.
Definition LINUX_F_SETFD : Z := 2.
Definition LINUX_F_GETFL : Z := 3.
Definition LINUX_F_SETFL : Z := 4.
Definition LINUX_F_GETLK : Z := 5.
Definition LINUX_F_SETLK : Z := 6.
Definition LINUX_F_SETLKW : Z := 7.
Definition LINUX_F_DUPFD_CLOEXEC : Z := 1030.

(** ** Structures in memory *)

(** The [i]-th field of a structure answered by the host. *)
Definition fld (l : list Z) (i : nat) : Z := default 0 (l !! i).

Definition stat_of (l : list Z) : stat :=
  mk_stat (fld l 0) (fld l 1) (fld l 2) (fld l 3) (fld l 4) (fld l 5) (fld l 6) (fld l 7)
    (fld l 8, fld l 9) (fld l 10, fld l 11) (fld l 12, fld l 13) (fld l 14) (fld l 15).
Definition statfs_of (l : list Z) : statfs :=
  mk_statfs (fld l 0) (fld l 1) (fld l 2) (fld l 3) (fld l 4) (fld l 5) (fld l 6, fld l 7) (fld l 8).
Definition termios_of (l : list Z) : termios :=
  mk_termios (fld l 0) (fld l 1) (fld l 2) (fld l 3) (drop 6 l) (fld l 4) (fld l 5).
Definition of_termios (t : termios) : list Z :=
  [c_iflag t; c_oflag t; c_cflag t; c_lflag t; c_ispeed t; c_ospeed t] ++ c_cc t.
Definition winsize_of (l : list Z) : winsize := mk_winsize (fld l 0) (fld l 1) (fld l 2) (fld l 3).
Definition of_winsize (w : winsize) : list Z := [ws_row w; ws_col w; ws_xpixel w; ws_ypixel w].
Definition flock_of (l : list Z) : flock := mk_flock (fld l 0) (fld l 1) (fld l 2) (fld l 3) (fld l 4).
Definition of_flock (f : flock) : list Z := [l_type f; l_whence f; l_start f; l_len f; l_pid f].

(** [struct l_newstat]; [pad] is what the memory held in the fields that are
    not set. *)
Definition enc_newstat (pad : list Z) (st : l_newstat) : list Z :=
  enc [(8%nat, l_st_dev st); (8%nat, l_st_ino st); (8%nat, l_st_nlink st); (4%nat, l_st_mode st);
       (4%nat, l_st_uid st); (4%nat, l_st_gid st)] ++
  resize 4 0 pad ++
  enc [(8%nat, l_st_rdev st); (8%nat, l_st_size st); (8%nat, l_st_blksize st); (8%nat, l_st_blocks st);
       (8%nat, (st_atim st).1); (8%nat, (st_atim st).2); (8%nat, (st_mtim st).1); (8%nat, (st_mtim st).2);
       (8%nat, (st_ctim st).1); (8%nat, (st_ctim st).2)] ++
  resize 24 0 (drop 4 pad).

Definition enc_statfs (pad : list Z) (st : l_statfs) : list Z :=
  enc [(8%nat, lf_type st); (8%nat, lf_bsize st); (8%nat, lf_blocks st); (8%nat, lf_bfree st);
       (8%nat, lf_bavail st); (8%nat, lf_files st); (8%nat, lf_ffree st); (4%nat, (lf_fsid st).1);
       (4%nat, (lf_fsid st).2); (8%nat, lf_namelen st); (8%nat, lf_frsize st); (8%nat, lf_flags st)] ++
  resize 32 0 pad.

Definition sizeof_linux_termios : Z := 36.
Definition enc_termios (t : linux_termios) : list Z :=
  enc [(4%nat, lc_iflag t); (4%nat, lc_oflag t); (4%nat, lc_cflag t); (4%nat, lc_lflag t); (1%nat, lc_line t)] ++
  lc_cc t.
Definition dec_termios (bs : list Z) : linux_termios :=
  mk_linux_termios (field bs 0 4) (field bs 4 4) (field bs 8 4) (field bs 12 4) (field bs 16 1) (drop 17 bs).

Definition sizeof_linux_winsize : Z := 8.
Definition enc_winsize (w : linux_winsize) : list Z :=
  enc [(2%nat, lws_row w); (2%nat, lws_col w); (2%nat, lws_xpixel w); (2%nat, lws_ypixel w)].
Definition dec_winsize (bs : list Z) : linux_winsize :=
  mk_linux_winsize (field bs 0 2) (field bs 2 2) (field bs 4 2) (field bs 6 2).

(** [struct l_flock]: two shorts, padding, two longs, an int, padding. *)
Definition sizeof_l_flock : Z := 32.
Definition dec_flock (bs : list Z) : l_flock :=
  mk_l_flock (swrap 16 (field bs 0 2)) (swrap 16 (field bs 2 2)) (s64 (field bs 8 8)) (s64 (field bs 16 8))
    (s32 (field bs 24 4)).
(** [old] holds the padding: the structure was read from the guest. *)
Definition enc_flock (old : list Z) (f : l_flock) : list Z :=
  enc [(2%nat, ll_type f); (2%nat, ll_whence f)] ++ take 4 (drop 4 old) ++
  enc [(8%nat, ll_start f); (8%nat, ll_len f); (4%nat, ll_pid f)] ++ take 4 (drop 28 old).

(** [struct l_iovec] *)
Definition sizeof_l_iovec : Z := 16.
Definition dec_iovec (bs : list Z) (i : nat) : Z * Z := (field bs (16 * i) 8, field bs (16 * i + 8) 8).

Section FileOps.
Context `{OS} `{DarwinErrno} `{DarwinConst} `{Heap}.

(** The bytes of the [i]-th buffer, [n] of them. *)
Definition bufbytes (k : kstate) (o : list (list Z)) (i : nat) (n : Z) : list Z :=
  resize (Z.to_nat n) 0 (outbuf o i ++ uninit (k_trace k)).

Definition alloca (n : Z) : K unit := if stack_ok n then mret tt else halt Overflow.

(** [file = get_file(fd); if (file == NULL) return -LINUX_EBADF;] and a call
    through [file->ops]. *)
Definition with_file (fd : Z) (op : file -> K Z) : K Z :=
  f ← get_file fd;
  match f with
  | None => mret (- LINUX_EBADF)
  | Some file => with_ops file (op file)
  end.

(** ** [darwinfs] *)

Definition darwinfs_writev (f : file) (iov : list (list Z)) : K Z :=
  sysw "writev" (HI (f_fd f) :: (HB <$> iov)).

(** The lengths of the buffers; the first one may be [NULL] ([nonnull] false). *)
Definition darwinfs_readv (f : file) (nonnull : bool) (lens : list Z) : K (Z * list (list Z)) :=
  sysw_out "readv" (HI (f_fd f) :: HI (Z.b2z nonnull) :: (HI <$> lens)).

Definition darwinfs_lseek (f : file) (offset whence : Z) : K Z :=
  sysw "lseek" [HI (f_fd f); HI offset; HI whence].
Definition darwinfs_fsync (f : file) : K Z := sysw "fsync" [HI (f_fd f)].
Definition darwinfs_fchown (f : file) (uid gid : Z) : K Z := sysw "fchown" [HI (f_fd f); HI uid; HI gid].
Definition darwinfs_fchmod (f : file) (mode : Z) : K Z := sysw "fchmod" [HI (f_fd f); HI mode].

Definition darwinfs_fstat (f : file) : K (flow (Z * l_newstat)) :=
  '(ret, o) ← sysw_out "fstat" [HI (f_fd f)];
  mret (if ret <? 0 then Ret ret else Go (ret, stat_darwin_to_linux (stat_of (outbuf o 0)))).

Definition darwinfs_fstatfs (f : file) : K (flow (Z * l_statfs)) :=
  '(r, o) ← sysw_out "fstatfs" [HI (f_fd f)];
  mret (if r <? 0 then Ret r else Go (r, statfs_darwin_to_linux (statfs_of (outbuf o 0)))).

(** A descriptor made by the host: registered, or closed when that fails. *)
Definition register_or_close (r : Z) (cloexec : bool) : K Z :=
  if r >=? 0 then
    err ← register_fd r cloexec;
    if err <? 0 then _ ← hcall "close" [HI r]; mret err else mret r
  else mret r.

(** [set_fdbit] or [clear_fdbit] of the guest's close-on-exec bitmap. *)
Definition set_cloexec (fd : Z) (on : bool) : K unit :=
  k ← get;
  let t := fdt (k_fi k) in
  c ← deref (if on then set_fdbit t (cloexec_fds t) fd else clear_fdbit t (cloexec_fds t) fd);
  put (set_fdt (set_cloexec_fds c t) k).

Definition darwinfs_fcntl (f : file) (cmd arg : Z) : K Z :=
  let fd := f_fd f in
  if cmd =? LINUX_F_DUPFD then
    r ← sysw "fcntl" [HI fd; HI (D "F_DUPFD"); HI arg];
    register_or_close r false
  else if cmd =? LINUX_F_DUPFD_CLOEXEC then
    r ← sysw "fcntl" [HI fd; HI (D "F_DUPFD_CLOEXEC"); HI arg];
    register_or_close r true
  else if cmd =? LINUX_F_GETFD then sysw "fcntl" [HI fd; HI (D "F_GETFD")]
  else if cmd =? LINUX_F_SETFD then
    r ← sysw "fcntl" [HI fd; HI (D "F_SETFD"); HI arg];
    when_ (r >=? 0) (set_cloexec fd (testf arg (D "FD_CLOEXEC")));;
    mret r
  else if cmd =? LINUX_F_GETFL then
    r ← sysw "fcntl" [HI fd; HI (D "F_GETFL")];
    if r <? 0 then mret r
    else match darwin_to_linux_o_flags r with Some l => mret l | None => halt AssertFail end
  else if cmd =? LINUX_F_SETFL then
    sysw "fcntl" [HI fd; HI (D "F_SETFL"); HI (linux_to_darwin_o_flags (s32 arg))]
  else if cmd =? LINUX_F_GETLK then
    copy_in arg sizeof_l_flock (fun bs =>
      let l := dec_flock bs in
      '(r, o) ← sysw_out "fcntl" [HI fd; HI (D "F_GETLK"); HB (of_flock (linux_to_darwin_flock l))];
      if r <? 0 then mret r
      else copy_out arg (enc_flock bs (darwin_to_linux_flock (flock_of (outbuf o 0)) (ll_type l))) 0)
  else if (cmd =? LINUX_F_SETLK) || (cmd =? LINUX_F_SETLKW) then
    copy_in arg sizeof_l_flock (fun bs =>
      sysw "fcntl" [HI fd; HI (if cmd =? LINUX_F_SETLK then D "F_SETLK" else D "F_SETLKW");
                    HB (of_flock (linux_to_darwin_flock (dec_flock bs)))])
  else mret (- LINUX_EINVAL).

Definition sys_fcntl (fd cmd arg : Z) : K Z := with_file (s32 fd) (fun f => darwinfs_fcntl f cmd arg).

(** The names of a [switch] that selects a Darwin constant. *)
Fixpoint select_const (tbl : list (Z * string)) (val : Z) : option Z :=
  match tbl with
  | [] => None
  | (l, n) :: t => if val =? l then Some (D n) else select_const t val
  end.

Definition darwinfs_ioctl (f : file) (cmd val0 : Z) : K Z :=
  let fd := f_fd f in
  if cmd =? LINUX_TCGETS then
    '(r, o) ← sysw_out "tcgetattr" [HI fd];
    if r <? 0 then mret r
    else copy_out val0 (enc_termios (darwin_to_linux_termios (termios_of (outbuf o 0)))) r
  else if cmd =? LINUX_TCSETS then
    copy_in val0 sizeof_linux_termios (fun bs =>
      sysw "tcsetattr" [HI fd; HI (D "TCSANOW"); HB (of_termios (linux_to_darwin_termios (dec_termios bs)))])
  else if cmd =? LINUX_TCSETSW then
    copy_in val0 sizeof_linux_termios (fun bs =>
      sysw "tcsetattr" [HI fd; HI (D "TCSADRAIN"); HB (of_termios (linux_to_darwin_termios (dec_termios bs)))])
  else if cmd =? LINUX_TIOCGPGRP then
    '(r, o) ← sysw_out "ioctl" [HI fd; HI (D "TIOCGPGRP")];
    if r <? 0 then mret r else copy_out val0 (le_encode 4 (fld (outbuf o 0) 0)) r
  else if cmd =? LINUX_TIOCSPGRP then
    copy_in val0 4 (fun bs =>
      r ← sysw "ioctl" [HI fd; HI (D "TIOCSPGRP"); HI (s32 (field bs 0 4))];
      mret (if r <? 0 then r else 0))
  else if cmd =? LINUX_TIOCGWINSZ then
    '(r, o) ← sysw_out "ioctl" [HI fd; HI (D "TIOCGWINSZ")];
    if r <? 0 then mret r
    else copy_out val0 (enc_winsize (darwin_to_linux_winsize (winsize_of (outbuf o 0)))) r
  else if cmd =? LINUX_TIOCSWINSZ then
    copy_in val0 sizeof_linux_winsize (fun bs =>
      sysw "ioctl" [HI fd; HI (D "TIOCSWINSZ"); HB (of_winsize (linux_to_darwin_winsize (dec_winsize bs)))])
  else if cmd =? LINUX_TCXONC then
    match select_const [(LINUX_TCOOFF, "TCOOFF"); (LINUX_TCOON, "TCOON"); (LINUX_TCIOFF, "TCIOFF");
                        (LINUX_TCION, "TCION")]%string val0 with
    | None => mret (- LINUX_EINVAL)
    | Some sel => sysw "tcflow" [HI fd; HI sel]
    end
  else if cmd =? LINUX_TCFLSH then
    match select_const [(LINUX_TCIFLUSH, "TCIFLUSH"); (LINUX_TCOFLUSH, "TCOFLUSH");
                        (LINUX_TCIOFLUSH, "TCIOFLUSH")]%string val0 with
    | None => mret (- LINUX_EINVAL)
    | Some sel => sysw "tcflush" [HI fd; HI sel]
    end
  else if cmd =? LINUX_FIONREAD then
    '(r, o) ← sysw_out "ioctl" [HI fd; HI (D "FIONREAD")];
    if r <? 0 then mret r else copy_out val0 (le_encode 4 (fld (outbuf o 0) 0)) r
  else if cmd =? LINUX_FIONBIO then
    copy_in val0 4 (fun bs => sysw "ioctl" [HI fd; HI (D "FIONBIO"); HI (s32 (field bs 0 4))])
  else if cmd =? LINUX_FIOCLEX then
    r ← sys_fcntl fd LINUX_F_SETFD 1;
    when_ (r >=? 0) (set_cloexec fd true);;
    mret r
  else mret (- LINUX_EPERM).

(** *** Directory entries *)

(** Darwin's [struct dirent]. *)
Record dirent := mk_dirent { d_ino : Z; d_seekoff : Z; d_type : Z; d_name : list Z }.
Definition d_namlen (d : dirent) : Z := Z.of_nat (length (d_name d)).

(** [offsetof(struct l_dirent64, d_name)] and [offsetof(struct l_dirent, d_name)] *)
Definition offsetof_d_name64 : Z := 19.
Definition offsetof_d_name : Z := 18.

(** The [?:] binds weaker than [+]: the name's length counts only in the second
    form. *)
Definition reclen_of (d : dirent) (is64 : bool) : Z :=
  roundup (if is64 then offsetof_d_name64 else offsetof_d_name + d_namlen d + 2) 8.

(** The bytes stored at the start of the record. *)
Definition dent_bytes (d : dirent) (is64 : bool) (reclen : Z) : list Z :=
  enc [(8%nat, d_ino d); (8%nat, d_seekoff d); (2%nat, reclen)] ++
  (if is64 then [d_type d] else []) ++ d_name d ++ [0].

(** [memcpy] into the buffer at [pos]. *)
Definition blit (buf : list Z) (pos : Z) (bs : list Z) : K (list Z) :=
  if Z.of_nat (length buf) <? pos + Z.of_nat (length bs) then halt Overflow
  else mret (take (Z.to_nat pos) buf ++ bs ++ drop (Z.to_nat pos + length bs) buf).

(** [darwin_to_linux_dent(d, buf + pos, buflen, is64)]: the length of the record
    or -1, and the buffer. *)
Definition darwin_to_linux_dent (d : dirent) (buf : list Z) (pos buflen : Z) (is64 : bool) : K (Z * list Z) :=
  let reclen := reclen_of d is64 in
  if reclen >? buflen then mret (-1, buf)
  else
    buf ← blit buf pos (dent_bytes d is64 reclen);
    buf ← (if is64 then mret buf else blit buf (pos + reclen - 1) [d_type d]);
    mret (reclen, buf).

Definition dirent_of (o : list (list Z)) : dirent :=
  mk_dirent (fld (outbuf o 0) 0) (fld (outbuf o 0) 1) (fld (outbuf o 0) 2) (outbuf o 1).

(** [errno] keeps the last error set. *)
Definition upd_errno (errno : Z) (r : hres) : Z := if h_errno r =? 0 then errno else h_errno r.

(** The loop over [readdir]; [count] bounds the records (see [getdents_returns]). *)
Fixpoint getdents_loop (fuel : nat) (dir : Z) (buf : list Z) (count pos loc errno : Z) (is64 : bool) :
    K (Z * list Z) :=
  match fuel with
  | O => halt Diverge
  | S fuel =>
    dent ← hcall "readdir" [HI dir];
    let errno := upd_errno errno dent in
    if h_ret dent =? 0 then
      if negb (errno =? 0) then mret (- darwin_to_linux_errno errno, buf)
      else _ ← hcall "closedir" [HI dir]; mret (s32 pos, buf)
    else
      '(reclen, buf) ← darwin_to_linux_dent (dirent_of (h_out dent)) buf pos (count - pos) is64;
      if reclen <? 0 then
        _ ← hcall "seekdir" [HI dir; HI loc];
        _ ← hcall "closedir" [HI dir];
        mret (s32 pos, buf)
      else
        l ← hcall "telldir" [HI dir];
        getdents_loop fuel dir buf count (pos + reclen) (h_ret l) (upd_errno errno l) is64
  end.

Definition darwinfs_getdents (f : file) (buf : list Z) (count : Z) (is64 : bool) : K (Z * list Z) :=
  fd ← hcall "dup" [HI (f_fd f)];
  dir ← hcall "fdopendir" [HI (h_ret fd)];
  if h_ret dir =? 0 then mret (- darwin_to_linux_errno (h_errno dir), buf)
  else
    loc ← hcall "telldir" [HI (h_ret dir)];
    getdents_loop (S (Z.to_nat count)) (h_ret dir) buf count 0 (h_ret loc) 0 is64.

(** ** System calls *)

(** [file->ops->writev] etc. are checked against [NULL]; [darwinfs] has them all. *)
Definition sys_write (fd buf_ptr size : Z) : K Z :=
  let buf := heap_ok size in
  '(e, bs) ← k_copy_from_user buf_ptr size;
  if negb buf && negb (bool_decide (bs = [])) then halt Fault
  else if negb (e =? 0) then mret (- LINUX_EFAULT)
  else with_file fd (fun f => darwinfs_writev f [bs]).

Definition sys_read (fd buf_ptr size : Z) : K Z :=
  let buf := heap_ok size in
  with_file fd (fun f =>
    '(r, o) ← darwinfs_readv f buf [size];
    if r <? 0 then mret r
    else if negb buf && (0 <? r) then halt Fault
    else k ← get; copy_out buf_ptr (bufbytes k o 0 r) r).

(** The loop of [writev] that reads the buffers. *)
Fixpoint gather (liov : list (Z * Z)) : K (flow (list (list Z))) :=
  match liov with
  | [] => mret (Go [])
  | (base, len) :: liov =>
    alloca len;;
    '(e, bs) ← k_copy_from_user base len;
    if negb (e =? 0) then mret (Ret (- LINUX_EFAULT))
    else
      rest ← gather liov;
      mret (match rest with Ret r => Ret r | Go iov => Go (bs :: iov) end)
  end.

Definition dec_iovecs (bs : list Z) (iovcnt : Z) : list (Z * Z) :=
  dec_iovec bs <$> seq 0 (Z.to_nat iovcnt).

Definition sys_writev (fd iov_ptr iovcnt : Z) : K Z :=
  alloca (u64 (sizeof_l_iovec * iovcnt));;
  copy_in iov_ptr (u64 (sizeof_l_iovec * iovcnt)) (fun bs =>
    alloca (u64 (sizeof_l_iovec * iovcnt));;
    iov ← gather (dec_iovecs bs iovcnt);
    match iov with
    | Ret r => mret r
    | Go iov => with_file fd (fun f => darwinfs_writev f iov)
    end).

(** The loop of [readv] that writes the buffers: the [i]-th and following ones,
    [size] bytes left. *)
Fixpoint scatter (o : list (list Z)) (i : nat) (liov : list (Z * Z)) (size r : Z) : K Z :=
  match liov with
  | [] => mret r
  | (base, len) :: liov =>
    let s := MIN size len in
    k ← get;
    e ← k_copy_to_user base (bufbytes k o i s);
    if negb (e =? 0) then mret (- LINUX_EFAULT)
    else if size - s =? 0 then mret r
    else scatter o (S i) liov (size - s) r
  end.

Fixpoint alloca_all (lens : list Z) : K unit :=
  match lens with [] => mret tt | n :: lens => alloca n;; alloca_all lens end.

Definition sys_readv (fd iov_ptr iovcnt : Z) : K Z :=
  alloca (u64 (sizeof_l_iovec * iovcnt));;
  copy_in iov_ptr (u64 (sizeof_l_iovec * iovcnt)) (fun bs =>
    alloca (u64 (sizeof_l_iovec * iovcnt));;
    let liov := dec_iovecs bs iovcnt in
    alloca_all liov.*2;;
    with_file fd (fun f =>
      '(r, o) ← darwinfs_readv f true liov.*2;
      if r <? 0 then mret r else scatter o 0 liov r r)).

Definition sys_fstat (fd st_ptr : Z) : K Z :=
  with_file fd (fun f =>
    n ← darwinfs_fstat f;
    k ← get;
    match n with
    | Ret n => mret n
    | Go (n, st) => copy_out st_ptr (enc_newstat (uninit (k_trace k)) st) n
    end).

Definition sys_fstatfs (fd buf_ptr : Z) : K Z :=
  with_file fd (fun f =>
    n ← darwinfs_fstatfs f;
    k ← get;
    match n with
    | Ret n => mret n
    | Go (n, st) => copy_out buf_ptr (enc_statfs (uninit (k_trace k)) st) n
    end).

Definition sys_fchown (fd uid gid : Z) : K Z := with_file fd (fun f => darwinfs_fchown f uid gid).
Definition sys_fchmod (fd mode : Z) : K Z := with_file fd (fun f => darwinfs_fchmod f mode).
Definition sys_ioctl (fd cmd val0 : Z) : K Z := with_file fd (fun f => darwinfs_ioctl f cmd val0).
Definition sys_lseek (fd offset whence : Z) : K Z := with_file fd (fun f => darwinfs_lseek f offset whence).
Definition sys_fsync (fd : Z) : K Z := with_file fd darwinfs_fsync.

(** [getdents] and [getdents64]: the whole buffer is copied out.  A [NULL] buffer
    is modelled as an empty one, in which nothing can be stored. *)
Definition do_getdents (fd dirent_ptr count : Z) (is64 : bool) : K Z :=
  with_file (s32 fd) (fun f =>
    k ← get;
    let buf := if heap_ok count then resize (Z.to_nat count) 0 (uninit (k_trace k)) else [] in
    '(r, buf) ← darwinfs_getdents f buf count is64;
    if r <? 0 then mret r
    else if negb (heap_ok count) && (0 <? count) then halt Fault
    else copy_out dirent_ptr buf r).
Definition sys_getdents64 (fd dirent_ptr count : Z) : K Z := do_getdents fd dirent_ptr count true.
Definition sys_getdents (fd dirent_ptr count : Z) : K Z := do_getdents fd dirent_ptr count false.

End FileOps.

(** ** Facts *)

Section FileFacts.
Context `{OS} `{DarwinErrno} `{DarwinConst} `{Heap}.

Lemma get_file_ok k fd : files_ok (k_fi k) ->
  get_file fd k = Done (match fds (fdt (k_fi k)) fd with Some _ => Some (mk_file true fd) | None => None end) k.
Proof.
  intros Hf. unfold get_file. msimp. rewrite Z.geb_leb.
  pose proof (fo_start _ Hf) as Hs. pose proof (fo_user _ Hf) as Ht.
  destruct (Z.ltb_spec fd 0); simpl.
  { unfold fds. rewrite Hs. zcases; simpl; done || lia. }
  destruct (Z.leb_spec (size (fdt (k_fi k))) fd); simpl.
  { unfold fds. rewrite Hs. zcases; simpl; done || lia. }
  rewrite (do_get_file_ok (fdt (k_fi k)) fd) by (done || (unfold in_table; lia)). by destruct (fds _ fd).
Qed.

Lemma with_file_ok k fd op : files_ok (k_fi k) ->
  with_file fd op k =
  match fds (fdt (k_fi k)) fd with Some _ => op (mk_file true fd) k | None => Done (- LINUX_EBADF) k end.
Proof. intros Hf. unfold with_file. msimp. rewrite (get_file_ok k fd Hf). by destruct (fds _ fd). Qed.

(** [write] hands the host exactly the guest's bytes, in one call, and only
    for a readable buffer and an open descriptor of the guest; it changes nothing else. *)
Theorem write_spec k fd ptr n :
  files_ok (k_fi k) -> umem_ok (k_um k) -> 0 <= ptr -> 0 <= n -> ptr + n < 2 ^ 64 - 4096 -> heap_ok n = true ->
  let bs := user_bytes (k_um k) ptr (Z.to_nat n) in
  sys_write fd ptr n k =
  if Z.of_nat (length bs) <? n then Done (- LINUX_EFAULT) k
  else match fds (fdt (k_fi k)) fd with
       | None => Done (- LINUX_EBADF) k
       | Some _ =>
         let r := os (k_trace k) "writev" [HI fd; HB bs] in
         Done (syswrap (h_ret r) (h_errno r)) (add_event (mk_event "writev" [HI fd; HB bs] r) k)
       end.
Proof.
  intros Hf Hu Hp Hn Hb Hh bs. unfold sys_write. msimp. rewrite k_copy_from_user_ok by done.
  fold bs. rewrite Hh. simpl.
  assert (Z.of_nat (length bs) <= n) as Hle.
  { unfold bs. rewrite user_bytes_length. pose proof (user_mapped_le (k_um k) ptr (Z.to_nat n)). lia. }
  destruct (Z.eqb_spec (n - Z.of_nat (length bs)) 0), (Z.ltb_spec (Z.of_nat (length bs)) n); simpl; try lia; [|done].
  rewrite with_file_ok by done. by destruct (fds _ fd).
Qed.

(** C29: [read] stores the bytes the host returned at the guest's address, as far
    as it is mapped, and returns their number, or [-LINUX_EFAULT] when not all of
    the range is mapped; the host's error, or [-LINUX_EBADF] with no host call, leaves memory alone. *)
Theorem read_spec k fd ptr n :
  files_ok (k_fi k) -> umem_ok (k_um k) -> 0 <= ptr -> ptr + 2 ^ 31 < 2 ^ 64 - 4096 -> heap_ok n = true ->
  sys_read fd ptr n k =
  match fds (fdt (k_fi k)) fd with
  | None => Done (- LINUX_EBADF) k
  | Some _ =>
    let args := [HI fd; HI 1; HI n] in
    let r := os (k_trace k) "readv" args in
    let k1 := add_event (mk_event "readv" args r) k in
    let ret := syswrap (h_ret r) (h_errno r) in
    if ret <? 0 then Done ret k1
    else
      let data := bufbytes k1 (h_out r) 0 ret in
      Done (if bool_decide (user_mapped (k_um k) ptr (Z.to_nat ret) = Z.to_nat ret) then ret else - LINUX_EFAULT)
        (set_um (user_write (k_um k) ptr data) k1)
  end.
Proof.
  intros Hf Hu Hp Hb Hh. unfold sys_read. rewrite with_file_ok by done. destruct (fds _ fd); [|done].
  unfold darwinfs_readv, sysw_out, hcall. msimp. cbn [f_fd fmap list_fmap]. rewrite Hh. change (Z.b2z true) with 1.
  set (r := os (k_trace k) "readv" [HI fd; HI 1; HI n]). cbn zeta.
  set (ret := syswrap (h_ret r) (h_errno r)). destruct (Z.ltb_spec ret 0); [done|]. simpl.
  assert (ret < 2 ^ 31) as Hr by apply syswrap_bound.
  assert (length (bufbytes (add_event (mk_event "readv" [HI fd; HI 1; HI n] r) k) (h_out r) 0 ret) = Z.to_nat ret) as Hl
    by (unfold bufbytes; apply length_resize).
  rewrite copy_out_ok by (done || (rewrite Hl; lia)). by rewrite Hl.
Qed.

End FileFacts.

(** ** [getdents] *)

(** How the guest reads the buffer: records of [struct l_dirent], each with its
    own length, the type in the last byte. *)
Fixpoint parse_dents (fuel : nat) (bs : list Z) : list dirent :=
  match fuel, bs with
  | S fuel, _ :: _ =>
    let n := Z.to_nat (field bs 16 2) in
    mk_dirent (field bs 0 8) (field bs 8 8) (default 0 (bs !! (n - 1)%nat)) (until_nul (drop 18 bs)) ::
    parse_dents fuel (drop n bs)
  | _, _ => []
  end.

(** A directory entry as Darwin documents it. *)
Record dirent_ok (d : dirent) : Prop := {
  do_ino : 0 <= d_ino d < 2 ^ 64;
  do_off : 0 <= d_seekoff d < 2 ^ 64;
  do_name : Forall (fun b => b <> 0) (d_name d);
  do_namlen : d_namlen d <= 1024;
}.

(** The record of an entry. *)
Record is_rec (bs : list Z) (d : dirent) : Prop := {
  ir_length : Z.of_nat (length bs) = reclen_of d false;
  ir_head : exists m, bs = dent_bytes d false (reclen_of d false) ++ m ++ [d_type d];
}.

Lemma reclen_bounds d : dirent_ok d ->
  d_namlen d + 20 <= reclen_of d false < 2 ^ 16 /\ 0 <= d_namlen d.
Proof.
  intros [_ _ _ Hn]. assert (0 <= d_namlen d) by (unfold d_namlen; lia).
  unfold reclen_of, roundup, offsetof_d_name, wrap. split; [|done].
  rewrite (Z.mod_small (18 + d_namlen d + 2 + 8 - 1)) by lia.
  rewrite Z.mod_small; Z.div_mod_to_equations; lia.
Qed.

Lemma dent_bytes_length d n : Z.of_nat (length (dent_bytes d false n)) = d_namlen d + 19.
Proof.
  unfold dent_bytes, enc, d_namlen. cbn [mbind list_bind]. rewrite !length_app, !le_encode_length. simpl. lia.
Qed.

Section Getdents.
Context `{OS} `{DarwinErrno}.

Lemma blit_ok buf pos bs (k : kstate) :
  0 <= pos -> pos + Z.of_nat (length bs) <= Z.of_nat (length buf) ->
  blit buf pos bs k = Done (take (Z.to_nat pos) buf ++ bs ++ drop (Z.to_nat pos + length bs) buf) k.
Proof. intros Hp Hl. unfold blit. destruct (Z.ltb_spec (Z.of_nat (length buf)) (pos + Z.of_nat (length bs))); [lia|done]. Qed.

(** An entry that fits: its record replaces the bytes at [pos]. *)
Lemma dent_fits d buf pos k :
  dirent_ok d -> 0 <= pos -> pos + reclen_of d false <= Z.of_nat (length buf) ->
  exists rec, darwin_to_linux_dent d buf pos (Z.of_nat (length buf) - pos) false k =
    Done (reclen_of d false, take (Z.to_nat pos) buf ++ rec ++ drop (Z.to_nat (pos + reclen_of d false)) buf) k /\
    is_rec rec d.
Proof.
  intros Hd Hp Hl. destruct (reclen_bounds d Hd) as [Hr Hn]. set (r := reclen_of d false) in *.
  pose proof (dent_bytes_length d r) as Hdb. set (db := dent_bytes d false r) in *.
  unfold darwin_to_linux_dent. fold r. fold db. rewrite Z.gtb_ltb. destruct (Z.ltb_spec (Z.of_nat (length buf) - pos) r); [lia|].
  msimp. rewrite blit_ok by lia. set (A := take (Z.to_nat pos) buf). set (B := drop (Z.to_nat pos + length db) buf).
  assert (length A = Z.to_nat pos) as HA by (unfold A; rewrite length_take; lia).
  assert (Z.of_nat (length B) = Z.of_nat (length buf) - pos - d_namlen d - 19) as HB by (unfold B; rewrite length_drop; lia).
  rewrite blit_ok; [|lia|rewrite !length_app; change (length [d_type d]) with 1%nat; lia].
  set (m := Z.to_nat (r - 1 - (d_namlen d + 19))).
  exists (db ++ take m B ++ [d_type d]). split.
  - f_equal. f_equal. rewrite <- !app_assoc.
    assert (Z.to_nat (pos + r - 1) = length A + (length db + m))%nat as E1 by lia.
    rewrite E1. rewrite take_app_add, take_app_add, <- !app_assoc. do 4 f_equal.
    rewrite <- !Nat.add_assoc, drop_app_add, drop_app_add. unfold B. rewrite drop_drop. f_equal. change (length [d_type d]) with 1%nat. lia.
  - constructor; [|eauto]. rewrite !length_app, length_take. change (length [d_type d]) with 1%nat. lia.
Qed.

Lemma until_nul_app l r : Forall (fun b => b <> 0) l -> until_nul (l ++ 0 :: r) = l.
Proof. induction 1 as [|b l Hb _ IH]; simpl; [done|]. destruct (Z.eqb_spec b 0); [done|]. by rewrite IH. Qed.

Lemma field_here v n rest : 0 <= v < 256 ^ Z.of_nat n -> field (le_encode n v ++ rest) 0 n = v.
Proof.
  intros Hv. unfold field. rewrite drop_0, take_app_length' by (by rewrite le_encode_length).
  by apply le_decode_encode.
Qed.

Lemma field_skip n v rest off m : field (le_encode n v ++ rest) (n + off) m = field rest off m.
Proof. unfold field. rewrite drop_app_add' by (by rewrite le_encode_length). done. Qed.

(** The guest reads back the entry, and the next record follows it. *)
Lemma parse_rec rec d rest fuel : is_rec rec d -> dirent_ok d ->
  parse_dents (S fuel) (rec ++ rest) = d :: parse_dents fuel rest.
Proof.
  intros [Hl [m ->]] Hd. destruct (reclen_bounds d Hd) as [Hr Hn]. set (r := reclen_of d false) in *.
  assert ((dent_bytes d false r ++ m ++ [d_type d]) ++ rest =
    le_encode 8 (d_ino d) ++ le_encode 8 (d_seekoff d) ++ le_encode 2 r ++ d_name d ++ 0 :: m ++ d_type d :: rest) as E.
  { unfold dent_bytes, enc. cbn [mbind list_bind fst snd]. by rewrite ?app_nil_r, <- !app_assoc. }
  set (bs := (dent_bytes d false r ++ m ++ [d_type d]) ++ rest) in *.
  assert (field bs 16 2 = r) as Er.
  { rewrite E. change 16%nat with (8 + 8)%nat. rewrite field_skip. change 8%nat with (8 + 0)%nat at 2.
    rewrite field_skip, field_here; [done|]. change (256 ^ Z.of_nat 2) with (2 ^ 16). lia. }
  assert (exists b bs', bs = b :: bs') as (b & bs' & Eb) by (rewrite E; simpl; eauto).
  cbn [parse_dents]. rewrite Eb at 1. rewrite Er. f_equal.
  - destruct d as [ino off ty nm]. cbn [d_ino d_seekoff d_type d_name] in *. f_equal.
    + rewrite E. apply field_here. apply (do_ino _ Hd).
    + rewrite E. change (field (le_encode 8 ino ++ le_encode 8 off ++ le_encode 2 r ++ nm ++ 0 :: m ++ ty :: rest) (8 + 0) 8 = off).
      rewrite field_skip. apply field_here. apply (do_off _ Hd).
    + unfold bs. rewrite lookup_app_l by lia. rewrite !length_app in Hl. change (length [ty]) with 1%nat in Hl.
      rewrite app_assoc, lookup_app_r by (rewrite length_app; lia).
      replace (Z.to_nat r - 1 - _)%nat with 0%nat; [done|]. rewrite length_app. lia.
    + rewrite E. change 18%nat with (8 + (8 + 2))%nat. rewrite !drop_app_add' by (by rewrite le_encode_length).
      rewrite drop_app_length' by (by rewrite le_encode_length). apply until_nul_app, Hd.
  - unfold bs. rewrite drop_app_length'; [done|]. lia.
Qed.

Lemma parse_recs recs ds : Forall2 is_rec recs ds -> Forall dirent_ok ds ->
  forall fuel, (length ds <= fuel)%nat -> parse_dents fuel (concat recs) = ds.
Proof.
  induction 1 as [|rec d recs ds Hr _ IH]; intros Hok fuel Hf; [by destruct fuel|].
  apply Forall_cons in Hok as [Hd Hok]. destruct fuel as [|fuel]; [simpl in Hf; lia|]. simpl concat.
  rewrite (parse_rec rec d) by done. rewrite IH; [done|done|]. simpl in Hf. lia.
Qed.

(** The host returns well-formed entries. *)
Class ReaddirOk : Prop := {
  readdir_ok tr args : let r := os tr "readdir" args in h_ret r <> 0 -> dirent_ok (dirent_of (h_out r));
}.
Context `{!ReaddirOk}.

(** The entries [readdir] returned, in order, of a list of events (the last one first). *)
Definition dents_read (evs : list event) : list dirent :=
  omap (fun e => if String.eqb (ev_call e) "readdir" && negb (h_ret (ev_res e) =? 0)
                 then Some (dirent_of (h_out (ev_res e))) else None) (rev evs).

Lemma dents_read_app e1 e2 : dents_read (e1 ++ e2) = dents_read e2 ++ dents_read e1.
Proof. unfold dents_read. by rewrite rev_app_distr, omap_app. Qed.

(** The part of the state the calls on directories do not touch. *)
Definition only_calls (k k' : kstate) (evs : list event) : Prop :=
  k_um k' = k_um k /\ k_fi k' = k_fi k /\ k_cred k' = k_cred k /\ k_trace k' = evs ++ k_trace k.

(** What the loop leaves: an error of the host, or the records of the entries
    read, without the last one if it did not fit. *)
Definition getdents_post (buf : list Z) (k : kstate) (res : result kstate (Z * list Z)) : Prop :=
  match res with
  | Done (r, buf') k' => length buf' = length buf /\ exists evs, only_calls k k' evs /\
      ((exists e, e <> 0 /\ r = - darwin_to_linux_errno e) \/
       exists recs ds rest, 0 <= r <= Z.of_nat (length buf) /\ take (Z.to_nat r) buf' = concat recs /\
         Forall2 is_rec recs ds /\ Forall dirent_ok ds /\ dents_read evs = ds ++ rest /\ (length rest <= 1)%nat)
  | Stop _ _ => False
  end.

Lemma getdents_loop_ok fuel : forall dir buf pos loc errno k recs ds evs0 k0,
  Z.of_nat (length buf) < 2 ^ 31 -> 0 <= pos <= Z.of_nat (length buf) ->
  Z.of_nat (length buf) - pos < Z.of_nat fuel -> take (Z.to_nat pos) buf = concat recs ->
  Forall2 is_rec recs ds -> Forall dirent_ok ds -> only_calls k0 k evs0 -> dents_read evs0 = ds ->
  getdents_post buf k0 (getdents_loop fuel dir buf (Z.of_nat (length buf)) pos loc errno false k).
Proof.
  induction fuel as [|fuel IH]; intros dir buf pos loc errno k recs ds evs0 k0 Hb Hp Hf Ht Hr Hok Hc Hds; [lia|].
  cbn [getdents_loop]. msimp. rewrite hcall_run.
  set (dent := os (k_trace k) "readdir" [HI dir]). set (k1 := add_event _ k).
  assert (forall e k', k_um k' = k_um k -> k_fi k' = k_fi k -> k_cred k' = k_cred k -> k_trace k' = e ++ k_trace k ->
    only_calls k0 k' (e ++ evs0)) as Hcall.
  { destruct Hc as (E1 & E2 & E3 & E4). intros e k' A1 A2 A3 A4. split_and!; try congruence.
    by rewrite A4, E4, app_assoc. }
  destruct (Z.eqb_spec (h_ret dent) 0) as [Hz|Hz].
  - destruct (upd_errno errno dent =? 0) eqn:He; simpl.
    + split; [done|]. eexists ([_; _] ++ evs0). split; [by apply Hcall|]. right. exists recs, ds, [].
      rewrite swrap_small by lia. split_and!; try done; try (simpl; lia). rewrite dents_read_app, Hds.
      unfold dents_read. simpl. by rewrite Hz.
    + split; [done|]. eexists ([_] ++ evs0). split; [by apply Hcall|]. left. exists (upd_errno errno dent).
      split; [|done]. by apply Z.eqb_neq.
  - assert (dirent_ok (dirent_of (h_out dent))) as Hd by (by apply readdir_ok).
    set (d := dirent_of (h_out dent)) in *. destruct (reclen_bounds d Hd) as [Hrl Hn].
    destruct (Z.le_gt_cases (reclen_of d false) (Z.of_nat (length buf) - pos)) as [Hfit|Hno].
    + destruct (dent_fits d buf pos k1 Hd) as (rec & E & Hrec); [lia|lia|]. rewrite E. cbn [fst snd].
      destruct (Z.ltb_spec (reclen_of d false) 0); [lia|]. rewrite hcall_run. cbv beta iota.
      set (buf' := take (Z.to_nat pos) buf ++ rec ++ drop (Z.to_nat (pos + reclen_of d false)) buf).
      pose proof (ir_length _ _ Hrec) as Hlr.
      assert (length buf' = length buf) as Hlb.
      { unfold buf'. rewrite !length_app, length_take, length_drop. lia. }
      rewrite <- Hlb. set (k2 := add_event _ k1).
      assert (getdents_post buf' k0 (getdents_loop fuel dir buf' (Z.of_nat (length buf')) (pos + reclen_of d false)
        (h_ret (os (k_trace k1) "telldir" [HI dir]))
        (upd_errno (upd_errno errno dent) (os (k_trace k1) "telldir" [HI dir])) false k2)) as Hpost.
      { eapply (IH _ _ _ _ _ _ (recs ++ [rec]) (ds ++ [d]) ([_; _] ++ evs0)); rewrite ?Hlb; [lia|lia|lia| | | | |].
        - unfold buf'. rewrite concat_app, <- Ht. simpl. rewrite app_nil_r, app_assoc.
          rewrite take_app_length'; [done|]. rewrite length_app, length_take. lia.
        - by apply Forall2_app; [|constructor].
        - apply Forall_app. split; [done|by constructor].
        - by apply Hcall.
        - rewrite dents_read_app, Hds. f_equal. unfold dents_read. simpl.
          fold dent. apply Z.eqb_neq in Hz. rewrite Hz. done. }
      destruct (getdents_loop fuel dir buf' _ _ _ _ false k2) as [[r b] k'|]; [|done].
      simpl in *. rewrite <- Hlb. exact Hpost.
    + unfold darwin_to_linux_dent. rewrite Z.gtb_ltb. destruct (Z.ltb_spec (Z.of_nat (length buf) - pos) (reclen_of d false)); [|lia].
      simpl. split; [done|]. eexists ([_; _; _] ++ evs0). split; [by apply Hcall|]. right. exists recs, ds, [d].
      rewrite swrap_small by lia. split_and!; try done; try (simpl; lia). rewrite dents_read_app, Hds.
      f_equal. unfold dents_read. simpl. fold dent. apply Z.eqb_neq in Hz. by rewrite Hz.
Qed.

(** C30: [getdents] always returns, with the host's error or with a buffer in
    which the guest finds exactly the entries the host's [readdir] returned, in
    order, except the last one when it did not fit; nothing else of the state changes. *)
Theorem getdents_roundtrip f buf k :
  Z.of_nat (length buf) < 2 ^ 31 ->
  match darwinfs_getdents f buf (Z.of_nat (length buf)) false k with
  | Done (r, buf') k' => exists evs, only_calls k k' evs /\
      ((exists e, r = - darwin_to_linux_errno e) \/
       exists rest, 0 <= r <= Z.of_nat (length buf) /\ (length rest <= 1)%nat /\
         dents_read evs = parse_dents (length buf) (take (Z.to_nat r) buf') ++ rest)
  | Stop _ _ => False
  end.
Proof.
  intros Hb. unfold darwinfs_getdents. msimp. rewrite !hcall_run. cbv beta iota zeta.
  set (k1 := add_event _ k). set (fd := os (k_trace k) "dup" [HI (f_fd f)]).
  set (dir := os (k_trace k1) "fdopendir" [HI (h_ret fd)]). set (k2 := add_event _ k1).
  destruct (Z.eqb_spec (h_ret dir) 0).
  { eexists [_; _]. split; [by split_and!|]. left. eauto. }
  rewrite hcall_run. cbv beta iota. set (k3 := add_event _ k2).
  assert (getdents_post buf k (getdents_loop (S (Z.to_nat (Z.of_nat (length buf)))) (h_ret dir) buf
    (Z.of_nat (length buf)) 0 (h_ret (os (k_trace k2) "telldir" [HI (h_ret dir)])) 0 false k3)) as Hl.
  { eapply (getdents_loop_ok _ _ _ _ _ _ _ [] [] [_; _; _]); try done; lia. }
  unfold getdents_post in Hl.
  destruct (getdents_loop _ _ buf _ _ _ _ _ k3) as [[r buf'] k'|] eqn:El.
  - destruct Hl as (Hlb & evs & Hc & Hl). exists evs. split; [done|].
    destruct Hl as [(e & _ & ->)|(recs & ds & rest & Hr & Ht & Hrec & Hok & Hds & Hrest)]; [left; eauto|].
    right. exists rest. split_and!; try done; try lia. rewrite Ht, (parse_recs _ _ Hrec Hok); [done|].
    assert (length ds <= length (concat recs))%nat as Hle.
    { clear - Hrec. induction Hrec as [|rec d recs ds Hr _ IH]; simpl; [lia|].
      rewrite length_app. destruct Hr as [_ [m ->]]. rewrite !length_app. simpl. lia. }
    rewrite <- Ht, length_take in Hle. lia.
  - done.
Qed.

End Getdents.

(** A host with a directory of two entries. *)
Definition dir_entries : list (list Z) := [str "longfilename"; str "b"].
Definition dir_os : OS := {|
  os tr call _ :=
    if String.eqb call "readdir" then
      match dir_entries !! length (filter (fun e => ev_call e = "readdir"%string) tr) with
      | Some nm => mk_hres 1 0 [[7; 9; 8]; nm]
      | None => mk_hres 0 0 []
      end
    else mk_hres 5 0 [];
  uninit _ := [] |}.

Section GetdentsRuns.
#[local] Existing Instances dir_os macos_errno.

#[local] Instance dir_os_ok : ReaddirOk.
Proof.
  constructor. intros tr args. simpl.
  destruct (length (filter (fun e => ev_call e = "readdir"%string) tr)) as [|[|n]]; simpl; try done;
    intros _; constructor; vm_compute; try (split; [discriminate|reflexivity]); try discriminate;
    repeat constructor; discriminate.
Qed.

Lemma getdents_roundtrip_witness :
  match darwinfs_getdents (mk_file true 3) (repeat 0 100) 100 false k0 with
  | Done (r, buf') k' => r = 56 /\
      parse_dents 100 (take 56 buf') = [mk_dirent 7 9 8 (str "longfilename"); mk_dirent 7 9 8 (str "b")] /\
      exists evs, k_trace k' = evs ++ k_trace k0
  | Stop _ _ => False
  end.
Proof.
  pose proof (getdents_roundtrip (mk_file true 3) (repeat 0 100) k0 ltac:(reflexivity)) as Hg.
  change (Z.of_nat (length (repeat 0 100))) with 100 in Hg.
  destruct (darwinfs_getdents (mk_file true 3) (repeat 0 100) 100 false k0) as [[r buf'] k'|] eqn:E; [|exact Hg].
  destruct Hg as (evs & Hc & _). vm_compute in E. injection E as <- <- <-.
  split; [reflexivity|]. split; [vm_compute; reflexivity|]. exists evs. apply Hc.
Defined.

(** [getdents64] gives every record 24 bytes whatever the name's length:
    a long name is overwritten by the record that follows it, and at the end of the
    buffer it is written past its end. *)
Theorem getdents64_overlap :
  (exists buf k', darwinfs_getdents (mk_file true 3) (repeat 0 100) 100 true k0 = Done (48, buf) k' /\
     until_nul (drop 19 buf) <> str "longfilename") /\
  (exists k', darwinfs_getdents (mk_file true 3) (repeat 0 24) 24 true k0 = Stop Overflow k').
Proof.
  split; [|eexists; vm_compute; reflexivity].
  eexists _, _. split; [vm_compute; reflexivity|]. vm_compute. discriminate.
Qed.

End GetdentsRuns.

(** ** Reads and writes of a guest with descriptors 3 and 4 *)

(** A host whose [readv] returns two bytes. *)
Definition io_os : OS := {|
  os _ call _ := if String.eqb call "readv" then mk_hres 2 0 [[65; 66]] else mk_hres 3 0 [];
  uninit _ := [] |}.

Section IoRuns.
#[local] Existing Instances io_os macos_errno macos_const roomy_heap.

Lemma write_spec_witness :
  (exists k', sys_write 4 0x10ffe 3 k34 = Done 3 k' /\
     option_map ev_args (head (k_trace k')) = Some [HI 4; HB [254; 255; 0]]) /\
  sys_write 4 0x12ffe 5 k34 = Done (- LINUX_EFAULT) k34.
Proof.
  split.
  - eexists. split.
    + rewrite (write_spec k34 4 0x10ffe 3 k34_ok u3p_ok); [|lia|lia|lia|reflexivity].
      vm_compute. reflexivity.
    + vm_compute. reflexivity.
  - rewrite (write_spec k34 4 0x12ffe 5 k34_ok u3p_ok); [|lia|lia|lia|reflexivity].
    vm_compute. reflexivity.
Defined.

Lemma read_spec_witness :
  exists k', sys_read 4 0x10fff 100 k34 = Done 2 k' /\ user_bytes (k_um k') 0x10fff 2 = [65; 66].
Proof.
  pose proof (read_spec k34 4 0x10fff 100 k34_ok u3p_ok ltac:(lia) ltac:(lia) (roomy 100)) as E.
  eexists. split; [rewrite E; vm_compute; reflexivity|]. vm_compute. reflexivity.
Defined.

End IoRuns.
