(* ===== verification/PathOps.v ===== *)
(** * Operations on paths ([src/fs/fs.c], [darwinfs_*at] and the system calls
    that take a path) *)

From S2P Require Import Prelude RBTree Const Errno Conv Mm UserMem FdTable Kernel Files Path FileOps.

Section PathOps.
Context `{OS} `{DarwinErrno} `{DarwinConst} `{Heap}.

(** ** [darwinfs]; a [struct dir] is its descriptor. *)

Definition darwinfs_openat (dir : Z) (path : list Z) (l_flags mode : Z) : K Z :=
  sysw "openat" [HI dir; HS path; HI (linux_to_darwin_o_flags l_flags); HI mode].
Definition darwinfs_symlinkat (target : list Z) (dir : Z) (name : list Z) : K Z :=
  sysw "symlinkat" [HS target; HI dir; HS name].
Definition darwinfs_faccessat (dir : Z) (path : list Z) (mode : Z) : K Z :=
  sysw "faccessat" [HI dir; HS path; HI mode; HI 0].
Definition darwinfs_renameat (dir1 : Z) (from : list Z) (dir2 : Z) (to : list Z) : K Z :=
  sysw "renameat" [HI dir1; HS from; HI dir2; HS to].
Definition darwinfs_linkat (dir1 : Z) (from : list Z) (dir2 : Z) (to : list Z) (l_flags : Z) : K Z :=
  sysw "linkat" [HI dir1; HS from; HI dir2; HS to; HI (linux_to_darwin_at_flags l_flags)].
Definition darwinfs_unlinkat (dir : Z) (path : list Z) (l_flags : Z) : K Z :=
  let flags := linux_to_darwin_at_flags l_flags in
  let flags := if testf flags (D "AT_EACCESS")
               then Z.lor (clearf flags (D "AT_EACCESS")) (D "AT_REMOVEDIR") else flags in
  sysw "unlinkat" [HI dir; HS path; HI flags].
Definition darwinfs_mkdirat (dir : Z) (path : list Z) (mode : Z) : K Z :=
  sysw "mkdirat" [HI dir; HS path; HI mode].
Definition darwinfs_fchownat (dir : Z) (path : list Z) (uid gid l_flags : Z) : K Z :=
  sysw "fchownat" [HI dir; HS path; HI uid; HI gid; HI (linux_to_darwin_at_flags l_flags)].
Definition darwinfs_fchmodat (dir : Z) (path : list Z) (mode : Z) : K Z :=
  sysw "fchmodat" [HI dir; HS path; HI mode; HI 0].

Definition darwinfs_fstatat (dir : Z) (path : list Z) (l_flags : Z) : K (flow (Z * l_newstat)) :=
  '(ret, o) ← sysw_out "fstatat" [HI dir; HS path; HI (linux_to_darwin_at_flags l_flags)];
  mret (if ret <? 0 then Ret ret else Go (ret, stat_darwin_to_linux (stat_of (outbuf o 0)))).

Definition darwinfs_statfs (dir : Z) (path : list Z) : K (flow (Z * l_statfs)) :=
  path_to_statfs ← (if negb (dir =? D "AT_FDCWD") then
      r ← hcall "fcntl" [HI dir; HI (D "F_GETPATH")];
      if negb (h_ret r =? 0) then halt Panic
      else
        let full_path := until_nul (outbuf (h_out r) 0) ++ str "/" ++ path in
        mret (if Z.of_nat (length full_path) >=? D "PATH_MAX" then Ret (- LINUX_ENAMETOOLONG) else Go full_path)
    else mret (Go path));
  match path_to_statfs with
  | Ret r => mret (Ret r)
  | Go p =>
    '(r, o) ← sysw_out "statfs" [HS p];
    mret (if r <? 0 then Ret r else Go (r, statfs_darwin_to_linux (statfs_of (outbuf o 0))))
  end.

(** ** Opening *)

(** [vfs_grab_dir], the operation, [vfs_ungrab_dir] (which frees [path.dir]). *)
Definition with_path (dirfd : Z) (name : list Z) (flags : Z) (op : Z -> list Z -> K Z) : K Z :=
  r ← vfs_grab_dir dirfd name flags;
  match r with Ret r => mret r | Go (dir, subpath) => op dir subpath end.

Definition do_openat (dirfd : Z) (name : list Z) (flags mode : Z) : K Z :=
  let lkflag := convert 0 [(LINUX_O_NOFOLLOW, LOOKUP_NOFOLLOW); (LINUX_O_DIRECTORY, LOOKUP_DIRECTORY)] flags in
  with_path dirfd name lkflag (fun dir subpath => darwinfs_openat dir subpath flags mode).
Definition do_open (path : list Z) (l_flags mode : Z) : K Z := do_openat LINUX_AT_FDCWD path l_flags mode.

Definition vkern_openat (atdirfd : Z) (name : list Z) (flags mode : Z) : K Z :=
  fd ← do_openat atdirfd name flags mode;
  if fd <? 0 then mret fd
  else
    ret ← vkern_dup_fd fd (testf flags LINUX_O_CLOEXEC);
    _ ← hcall "close" [HI fd];
    mret ret.
Definition vkern_open (path : list Z) (l_flags mode : Z) : K Z := vkern_openat LINUX_AT_FDCWD path l_flags mode.

(** When [register_fd] fails, [fd] is overwritten before it is closed. *)
Definition user_openat (atdirfd : Z) (name : list Z) (flags mode : Z) : K Z :=
  fd ← do_openat atdirfd name flags mode;
  if fd <? 0 then mret fd
  else
    err ← register_fd fd (testf flags LINUX_O_CLOEXEC);
    if err <? 0 then _ ← hcall "close" [HI err]; mret err else mret fd.
Definition user_open (path : list Z) (l_flags mode : Z) : K Z := user_openat LINUX_AT_FDCWD path l_flags mode.

(** ** System calls *)

(** [char path[LINUX_PATH_MAX]; strncpy_from_user(path, ptr, sizeof path);] with
    the result ignored. *)
Definition path_arg (ptr : Z) : K (list Z) :=
  '(_, p) ← k_strncpy_from_user ptr LINUX_PATH_MAX; mret p.

Definition sys_openat (dirfd path_ptr flags mode : Z) : K Z :=
  path ← path_arg path_ptr; user_openat dirfd path flags mode.
Definition sys_open (path_ptr flags mode : Z) : K Z := sys_openat LINUX_AT_FDCWD path_ptr flags mode.
Definition sys_close (fd : Z) : K Z := user_close fd.
Definition sys_creat (path_ptr mode : Z) : K Z :=
  sys_open path_ptr (Z.lor (Z.lor LINUX_O_CREAT LINUX_O_TRUNC) LINUX_O_WRONLY) mode.

Definition sys_symlinkat (path1_ptr dirfd path2_ptr : Z) : K Z :=
  path1 ← path_arg path1_ptr;
  path2 ← path_arg path2_ptr;
  with_path dirfd path2 0 (fun dir subpath => darwinfs_symlinkat path1 dir subpath).
Definition sys_symlink (path1_ptr path2_ptr : Z) : K Z := sys_symlinkat path1_ptr LINUX_AT_FDCWD path2_ptr.

(** [flags & LINUX_AT_SYMLINK_NOFOLLOW ? LOOKUP_NOFOLLOW : 0] *)
Definition nofollow (flags : Z) : Z := if testf flags LINUX_AT_SYMLINK_NOFOLLOW then LOOKUP_NOFOLLOW else 0.

Definition sys_newfstatat (dirfd path_ptr st_ptr flags : Z) : K Z :=
  pathname ← path_arg path_ptr;
  if negb (clearf flags LINUX_AT_SYMLINK_NOFOLLOW =? 0) then mret (- LINUX_EINVAL)
  else with_path dirfd pathname (nofollow flags) (fun dir subpath =>
    r ← darwinfs_fstatat dir subpath flags;
    k ← get;
    match r with
    | Ret r => mret r
    | Go (r, st) => copy_out st_ptr (enc_newstat (uninit (k_trace k)) st) r
    end).
Definition sys_stat (path st : Z) : K Z := sys_newfstatat LINUX_AT_FDCWD path st 0.
Definition sys_lstat (path st : Z) : K Z := sys_newfstatat LINUX_AT_FDCWD path st LINUX_AT_SYMLINK_NOFOLLOW.

Definition sys_fchownat (dirfd path_ptr user group flags : Z) : K Z :=
  pathname ← path_arg path_ptr;
  if negb (clearf flags LINUX_AT_SYMLINK_NOFOLLOW =? 0) then mret (- LINUX_EINVAL)
  else with_path dirfd pathname (nofollow flags) (fun dir subpath =>
    darwinfs_fchownat dir subpath user group flags).
Definition sys_chown (path uid gid : Z) : K Z := sys_fchownat LINUX_AT_FDCWD path uid gid 0.
Definition sys_lchown (path uid gid : Z) : K Z :=
  sys_fchownat LINUX_AT_FDCWD path uid gid LINUX_AT_SYMLINK_NOFOLLOW.

Definition sys_fchmodat (dirfd path_ptr mode : Z) : K Z :=
  pathname ← path_arg path_ptr;
  with_path dirfd pathname 0 (fun dir subpath => darwinfs_fchmodat dir subpath mode).
Definition sys_chmod (path mode : Z) : K Z := sys_fchmodat LINUX_AT_FDCWD path mode.

Definition sys_statfs (path_ptr buf_ptr : Z) : K Z :=
  pathname ← path_arg path_ptr;
  with_path LINUX_AT_FDCWD pathname 0 (fun dir subpath =>
    r ← darwinfs_statfs dir subpath;
    k ← get;
    match r with
    | Ret r => mret r
    | Go (r, st) => copy_out buf_ptr (enc_statfs (uninit (k_trace k)) st) r
    end).

Definition do_faccessat (dirfd : Z) (name : list Z) (mode : Z) : K Z :=
  with_path dirfd name 0 (fun dir subpath => darwinfs_faccessat dir subpath mode).
Definition do_access (path : list Z) (mode : Z) : K Z := do_faccessat LINUX_AT_FDCWD path mode.
Definition sys_faccessat (dirfd path_ptr mode : Z) : K Z :=
  '(r, path) ← k_strncpy_from_user path_ptr LINUX_PATH_MAX;
  if r <? 0 then mret (- LINUX_EFAULT) else do_faccessat dirfd path mode.
Definition sys_access (path_ptr mode : Z) : K Z := sys_faccessat LINUX_AT_FDCWD path_ptr mode.

(** The two file systems are the same, so the check for [LINUX_EXDEV] passes. *)
Definition sys_renameat (oldfd oldpath_ptr newfd newpath_ptr : Z) : K Z :=
  oldname ← path_arg oldpath_ptr;
  newname ← path_arg newpath_ptr;
  with_path oldfd oldname LOOKUP_NOFOLLOW (fun olddir oldpath =>
    with_path newfd newname LOOKUP_NOFOLLOW (fun newdir newpath =>
      darwinfs_renameat olddir oldpath newdir newpath)).
Definition sys_rename (oldpath_ptr newpath_ptr : Z) : K Z :=
  sys_renameat LINUX_AT_FDCWD oldpath_ptr LINUX_AT_FDCWD newpath_ptr.

Definition S_ISDIR (mode : Z) : bool := Z.land mode (D "S_IFMT") =? D "S_IFDIR".

Definition sys_unlinkat (dirfd path_ptr flags : Z) : K Z :=
  name ← path_arg path_ptr;
  with_path dirfd name LOOKUP_NOFOLLOW (fun dir subpath =>
    r ← darwinfs_unlinkat dir subpath flags;
    if r =? - LINUX_EPERM then
      r2 ← darwinfs_fstatat dir subpath LINUX_AT_SYMLINK_NOFOLLOW;
      mret (match r2 with
            | Go (r2, st) => if (r2 =? 0) && S_ISDIR (l_st_mode st) then - LINUX_EISDIR else r
            | Ret _ => r
            end)
    else mret r).
Definition sys_unlink (path : Z) : K Z := sys_unlinkat LINUX_AT_FDCWD path 0.
Definition sys_rmdir (path : Z) : K Z := sys_unlinkat LINUX_AT_FDCWD path LINUX_AT_REMOVEDIR.

Definition sys_linkat (oldfd oldpath_ptr newfd newpath_ptr flags : Z) : K Z :=
  oldname ← path_arg oldpath_ptr;
  newname ← path_arg newpath_ptr;
  if negb (clearf flags LINUX_AT_SYMLINK_FOLLOW =? 0) then mret (- LINUX_EINVAL)
  else
    let lkflag := if testf flags LINUX_AT_SYMLINK_FOLLOW then 0 else LOOKUP_NOFOLLOW in
    with_path oldfd oldname lkflag (fun olddir oldpath =>
      with_path newfd newname 0 (fun newdir newpath =>
        darwinfs_linkat olddir oldpath newdir newpath flags)).
Definition sys_link (oldpath newpath : Z) : K Z := sys_linkat LINUX_AT_FDCWD oldpath LINUX_AT_FDCWD newpath 0.

(** The whole buffer is copied out, not only the bytes of the link. *)
Definition sys_readlinkat (dirfd path_ptr buf_ptr bufsize : Z) : K Z :=
  name ← path_arg path_ptr;
  with_path dirfd name LOOKUP_NOFOLLOW (fun dir subpath =>
    if negb (heap_ok (u64 bufsize)) then mret (- LINUX_ENOMEM)
    else
      '(r, o) ← sysw_out "readlinkat" [HI dir; HS subpath; HI bufsize];
      k ← get;
      if r <? 0 then mret r else copy_out buf_ptr (bufbytes k o 0 (u64 bufsize)) r).
Definition sys_readlink (path_ptr buf_ptr bufsize : Z) : K Z :=
  sys_readlinkat LINUX_AT_FDCWD path_ptr buf_ptr bufsize.

Definition sys_mkdirat (dirfd path_ptr mode : Z) : K Z :=
  name ← path_arg path_ptr;
  with_path dirfd name 0 (fun dir subpath => darwinfs_mkdirat dir subpath mode).
Definition sys_mkdir (path_ptr mode : Z) : K Z := sys_mkdirat LINUX_AT_FDCWD path_ptr mode.

(** [getcwd] of the host answers 0 for [NULL]. *)
Definition vfs_getcwd (size : Z) : K (flow (list Z)) :=
  r ← hcall "getcwd" [HI size];
  mret (if h_ret r =? 0 then Ret (- darwin_to_linux_errno (h_errno r)) else Go (outbuf (h_out r) 0)).

Definition sys_getcwd (buf_ptr size : Z) : K Z :=
  if negb (heap_ok size) then mret (- LINUX_ENOMEM)
  else
    r ← vfs_getcwd size;
    match r with
    | Ret r =>
      (* only a negative result is taken for a failure *)
      if r <? 0 then mret r else copy_out buf_ptr (replicate (Z.to_nat size) 0) 1
    | Go p =>
      let buf := resize (Z.to_nat size) 0 p in
      copy_out buf_ptr buf (Z.of_nat (length (until_nul buf)) + 1)
    end.

Definition vfs_fchdir (fd : Z) : K Z :=
  k ← get;
  if negb (in_userfd k fd) then mret (- LINUX_EBADF) else sysw "fchdir" [HI fd].
Definition vfs_umask (mask : Z) : K Z := sysw "umask" [HI mask].
Definition sys_fchdir (fd : Z) : K Z := vfs_fchdir fd.
Definition sys_chdir (path_ptr : Z) : K Z :=
  path ← path_arg path_ptr;
  fd ← user_openat LINUX_AT_FDCWD path LINUX_O_DIRECTORY 0;
  if fd <? 0 then mret fd
  else
    r ← sys_fchdir fd;
    _ ← user_close fd;
    mret r.
Definition sys_umask (mask : Z) : K Z := vfs_umask mask.

(** When the path cannot be grabbed, [vfs_ungrab_dir] frees a pointer that was
    never set; the FIFO is made relative to the working directory. *)
Definition sys_mknodat (dirfd path_ptr mode dev : Z) : K Z :=
  '(r, name) ← k_strncpy_from_user path_ptr LINUX_PATH_MAX;
  if r <? 0 then mret (- LINUX_EFAULT)
  else if Z.land mode (D "S_IFMT") =? D "S_IFIFO" then
    p ← vfs_grab_dir dirfd name 0;
    match p with
    | Ret _ => halt Fault
    | Go (_, subpath) => sysw "mkfifo" [HS subpath; HI mode]
    end
  else mret (- LINUX_EINVAL).
Definition sys_mknod (path_ptr mode dev : Z) : K Z := sys_mknodat LINUX_AT_FDCWD path_ptr mode dev.

Definition sys_chroot (path_ptr : Z) : K Z :=
  '(len, path) ← k_strncpy_from_user path_ptr (D "PATH_MAX");
  if len =? D "PATH_MAX" then mret (- LINUX_ENAMETOOLONG)
  else if len <? 0 then mret (- LINUX_EFAULT)
  else
    uid ← hcall "getuid" [];
    if negb (h_ret uid =? 0) then mret (- LINUX_EPERM)
    else if negb (bool_decide (path = str "/")) then mret (- LINUX_EACCES)
    else mret 0.

End PathOps.

(** ** Facts *)

Section OpenFacts.
Context `{OS} `{DarwinErrno} `{DarwinConst} `{Heap}.

(** [open] registers exactly the descriptor the host opened, with its
    close-on-exec flag, when it is below the kernel's range; a failed open
    registers nothing.  When the descriptor is in the kernel's range the guest
    gets [-LINUX_EMFILE], and the descriptor is leaked: what is closed is the error code. *)
Theorem user_openat_spec k k1 atdirfd name flags mode fd :
  (forall n, heap_ok n = true) -> do_openat atdirfd name flags mode k = Done fd k1 -> files_ok (k_fi k1) ->
  let cx := testf flags LINUX_O_CLOEXEC in
  if fd <? 0 then user_openat atdirfd name flags mode k = Done fd k1
  else if fd <? start (vkern_fdt (k_fi k1)) then
    exists t, user_openat atdirfd name flags mode k = Done fd (set_fdt t k1) /\
      files_ok (k_fi (set_fdt t k1)) /\
      forall fd', fds t fd' = if fd' =? fd then Some cx else fds (fdt (k_fi k1)) fd'
  else
    let e := - LINUX_EMFILE in
    user_openat atdirfd name flags mode k =
    Done e (add_event (mk_event "close" [HI e] (os (k_trace k1) "close" [HI e])) k1).
Proof.
  intros Hh E Hf cx. unfold user_openat. msimp. rewrite E.
  destruct (Z.ltb_spec fd 0); [done|]. destruct (Z.ltb_spec fd (start (vkern_fdt (k_fi k1)))).
  - destruct (register_fd_ok k1 fd cx Hh Hf) as (t & E' & Hok & Hfds); [lia|]. exists t. split; [|done].
    fold cx. rewrite E'. done.
  - unfold register_fd. msimp. rewrite Z.geb_leb. destruct (Z.leb_spec (start (vkern_fdt (k_fi k1))) fd); [|lia].
    done.
Qed.

End OpenFacts.

(** The host opens descriptor [n]. *)
Definition open_os (n : Z) : OS := {|
  os _ call _ := if String.eqb call "readlinkat" then mk_hres (-1) 22 [] else mk_hres n 0 [];
  uninit _ := [] |}.

Section OpenRuns.
#[local] Existing Instances macos_errno macos_const roomy_heap.

Lemma user_openat_spec_witness :
  (exists k', @user_openat (open_os 7) _ _ _ LINUX_AT_FDCWD (str "/etc/passwd") LINUX_O_CLOEXEC 0 k0 = Done 7 k' /\
     fds (fdt (k_fi k')) 7 = Some true) /\
  (exists k', @user_openat (open_os 200) _ _ _ LINUX_AT_FDCWD (str "/etc/passwd") 0 0 k0 = Done (- LINUX_EMFILE) k').
Proof.
  split.
  - set (k1 := match @do_openat (open_os 7) _ _ LINUX_AT_FDCWD (str "/etc/passwd") LINUX_O_CLOEXEC 0 k0 with Done _ k => k | Stop _ k => k end).
    pose proof (@user_openat_spec (open_os 7) _ _ _ k0 k1 LINUX_AT_FDCWD (str "/etc/passwd") LINUX_O_CLOEXEC 0 7 roomy) as Hs.
    destruct Hs as (t & E & _ & Hfds); [vm_compute; reflexivity|exact fi0_ok|].
    exists (set_fdt t k1). split; [exact E|]. change (fds t 7 = Some true). rewrite (Hfds 7). reflexivity.
  - set (k1 := match @do_openat (open_os 200) _ _ LINUX_AT_FDCWD (str "/etc/passwd") 0 0 k0 with Done _ k => k | Stop _ k => k end).
    pose proof (@user_openat_spec (open_os 200) _ _ _ k0 k1 LINUX_AT_FDCWD (str "/etc/passwd") 0 0 200 roomy) as Hs.
    eexists. apply Hs; [vm_compute; reflexivity|exact fi0_ok].
Defined.

End OpenRuns.
