(* ===== verification/FdSys.v ===== *)
(** * Pipes, duplication, multiplexing ([src/fs/fs.c], from [pipe] on)

    The system calls that work on descriptors directly instead of through
    [struct file]. *)

From S2P Require Import Prelude RBTree Const Errno Conv Mm UserMem FdTable Kernel Files Path FileOps.

Definition LINUX_ENOTSUP : Z := Eval vm_compute in default 0 (constant LINUX_ERRNO "ENOTSUP").
Definition LINUX_O_DIRECT : Z := 0x4000.
Definition LINUX_POLLNVAL : Z := 0x0020.

Section FdSys.
Context `{OS} `{DarwinErrno} `{DarwinConst} `{Heap}.

(** [int fildes[2]] as the guest sees it. *)
Definition enc_fildes (fd0 fd1 : Z) : list Z := enc [(4%nat, fd0); (4%nat, fd1)].

(** The descriptors reach the guest before they are registered; on failure it is
    the error codes that are closed. *)
Definition sys_pipe (fildes_ptr : Z) : K Z :=
  '(r, o) ← sysw_out "pipe" [];
  if r <? 0 then mret r
  else
    let fd0 := fld (outbuf o 0) 0 in
    let fd1 := fld (outbuf o 0) 1 in
    e ← k_copy_to_user fildes_ptr (enc_fildes fd0 fd1);
    if negb (e =? 0) then mret (- LINUX_EFAULT)
    else
      err0 ← register_fd fd0 false;
      err1 ← register_fd fd1 false;
      if (err0 <? 0) || (err1 <? 0) then
        _ ← hcall "close" [HI err0];
        _ ← hcall "close" [HI err1];
        mret (if err0 <? 0 then err0 else err1)
      else mret r.

(** One of the [fcntl] pairs of [pipe2]: the two results. *)
Definition pipe_fcntl (fd0 fd1 cmd arg : Z) : K (Z * Z) :=
  err0 ← sysw "fcntl" [HI fd0; HI cmd; HI arg];
  err1 ← sysw "fcntl" [HI fd1; HI cmd; HI arg];
  mret (err0, err1).
Definition either_fails (errs : Z * Z) : bool := (errs.1 <? 0) || (errs.2 <? 0).

Definition close_by_fail (fd0 fd1 : Z) (errs : Z * Z) : K Z :=
  _ ← hcall "close" [HI fd0];
  _ ← hcall "close" [HI fd1];
  mret (if errs.1 <? 0 then errs.1 else errs.2).

(** [pipe] itself is not wrapped: its failure is returned as -1. *)
Definition sys_pipe2 (fildes_ptr flags : Z) : K Z :=
  if negb (clearf flags (Z.lor (Z.lor LINUX_O_NONBLOCK LINUX_O_CLOEXEC) LINUX_O_DIRECT) =? 0)
  then mret (- LINUX_EINVAL)
  else
    p ← hcall "pipe" [];
    let ret := s32 (h_ret p) in
    if ret <? 0 then mret ret
    else
      let fd0 := fld (outbuf (h_out p) 0) 0 in
      let fd1 := fld (outbuf (h_out p) 0) 1 in
      errs ← (if testf flags LINUX_O_CLOEXEC
              then pipe_fcntl fd0 fd1 (D "F_SETFD") (D "FD_CLOEXEC") else mret (0, 0));
      if either_fails errs then close_by_fail fd0 fd1 errs
      else
        errs ← (if testf flags LINUX_O_NONBLOCK
                then pipe_fcntl fd0 fd1 (D "F_SETFL") (D "O_NONBLOCK") else mret (0, 0));
        if either_fails errs then close_by_fail fd0 fd1 errs
        else
          errs ← (if testf flags LINUX_O_DIRECT then pipe_fcntl fd0 fd1 (D "F_NOCACHE") 1 else mret (0, 0));
          if either_fails errs then close_by_fail fd0 fd1 errs
          else
            err0 ← register_fd fd0 (testf flags LINUX_O_CLOEXEC);
            err1 ← register_fd fd1 (testf flags LINUX_O_CLOEXEC);
            if either_fails (err0, err1) then close_by_fail fd0 fd1 (err0, err1)
            else copy_out fildes_ptr (enc_fildes fd0 fd1) ret.

(** ** Duplication *)

(** [fcntl] has registered the new descriptor already. *)
Definition sys_dup (fd : Z) : K Z :=
  ret ← sys_fcntl fd LINUX_F_DUPFD 0;
  register_or_close ret false.

Definition sys_dup2 (fd1 fd2 : Z) : K Z :=
  k ← get;
  if negb (in_userfd k (s32 fd1)) || negb (in_userfd k (s32 fd2)) then mret (- LINUX_EBADF)
  else
    ret ← sysw "dup2" [HI (s32 fd1); HI (s32 fd2)];
    register_or_close ret false.

(** Neither descriptor is checked. *)
Definition sys_dup3 (oldfd newfd flags : Z) : K Z :=
  if negb (clearf flags LINUX_O_CLOEXEC =? 0) then mret (- LINUX_EINVAL)
  else if oldfd =? newfd then mret (- LINUX_EINVAL)
  else
    ret ← sysw "dup2" [HI (s32 oldfd); HI (s32 newfd)];
    if ret <? 0 then mret ret
    else
      fcntl_err ← (if testf flags LINUX_O_CLOEXEC
                   then sysw "fcntl" [HI (s32 newfd); HI (D "F_SETFD"); HI (D "FD_CLOEXEC")] else mret 0);
      if fcntl_err <? 0 then _ ← hcall "close" [HI ret]; mret fcntl_err
      else register_or_close ret (testf flags LINUX_O_CLOEXEC).

(** ** Positioned reads and writes *)

Definition sys_pread64 (fd buf_ptr count pos : Z) : K Z :=
  k ← get;
  if negb (in_userfd k (s32 fd)) then mret (- LINUX_EBADF)
  else
    let buf := heap_ok count in
    '(r, o) ← sysw_out "pread" [HI (s32 fd); HI (Z.b2z buf); HI count; HI pos];
    k ← get;
    if r <? 0 then mret r
    else if negb buf && (0 <? r) then halt Fault
    else copy_out buf_ptr (bufbytes k o 0 r) r.

Definition sys_pwrite64 (fd buf_ptr count pos : Z) : K Z :=
  k ← get;
  if negb (in_userfd k (s32 fd)) then mret (- LINUX_EBADF)
  else
    let buf := heap_ok count in
    '(e, bs) ← k_copy_from_user buf_ptr count;
    if negb buf && negb (bool_decide (bs = [])) then halt Fault
    else if negb (e =? 0) then mret (- LINUX_EFAULT)
    else sysw "pwrite" [HI (s32 fd); HB bs; HI pos].

(** ** Unimplemented and pass-through calls *)

Definition sys_getxattr (path_ptr name_ptr value size : Z) : K Z := mret (- LINUX_ENOTSUP).
Definition sys_fgetxattr (fd name value size : Z) : K Z := mret (- LINUX_ENOTSUP).
Definition sys_setxattr (pathname name value size flags : Z) : K Z := mret 0.
Definition sys_fsetxattr (fd name value size flags : Z) : K Z := mret 0.
Definition sys_fadvise64 (fd offset len advice : Z) : K Z := mret 0.
Definition sys_flistxattr (fd list size : Z) : K Z := assert_ (size =? 0);; mret 0.
Definition sys_ftruncate (fd length : Z) : K Z := sysw "ftruncate" [HI (s32 fd); HI length].
Definition sys_flock (fd operation : Z) : K Z := sysw "flock" [HI fd; HI operation].

(** The host's [ENOSYS] is returned, not Linux's. *)
Definition sys_fallocate (fd mode offset len : Z) : K Z :=
  if negb (mode =? 0) then mret (- darwin_errno "ENOSYS")
  else
    assert_ (offset =? 0);;
    sysw "fcntl" [HI fd; HI (D "F_PREALLOCATE");
                  HB [D "F_ALLOCATEALL"; D "F_PEOFPOSMODE"; 0; len; 0]].
Definition sys_sync : K Z := _ ← hcall "sync" []; mret 0.

(** ** [select] and [poll] *)

Definition sizeof_fd_set : Z := 128.
Definition sizeof_timeval : Z := 16.

(** A set or time that is absent when its pointer is 0. *)
Definition opt_in (ptr n : Z) (rest : harg -> K Z) : K Z :=
  if ptr =? 0 then rest (HI 0) else copy_in ptr n (fun bs => rest (HB bs)).

(** [if (ptr != 0 && copy_to_user(...)) return -LINUX_EFAULT;] and the rest. *)
Definition opt_out (ptr : Z) (bs : list Z) (rest : K Z) : K Z :=
  if ptr =? 0 then rest
  else e ← k_copy_to_user ptr bs; if negb (e =? 0) then mret (- LINUX_EFAULT) else rest.

Definition do_select (call : string) (nfds readfds_ptr writefds_ptr errorfds_ptr timeout_ptr : Z) : K Z :=
  k ← get;
  if s32 (nfds - 1) >=? start (vkern_fdt (k_fi k)) then mret (- LINUX_EBADF)
  else
    opt_in timeout_ptr sizeof_timeval (fun to =>
    opt_in readfds_ptr sizeof_fd_set (fun rfds =>
    opt_in writefds_ptr sizeof_fd_set (fun wfds =>
    opt_in errorfds_ptr sizeof_fd_set (fun efds =>
      '(r, o) ← sysw_out call [HI nfds; rfds; wfds; efds; to];
      if r <? 0 then mret r
      else
        opt_out readfds_ptr (outbuf o 0) (
        opt_out writefds_ptr (outbuf o 1) (
        opt_out errorfds_ptr (outbuf o 2) (mret r))))))).
Definition sys_select (nfds readfds_ptr writefds_ptr errorfds_ptr timeout_ptr : Z) : K Z :=
  do_select "select" nfds readfds_ptr writefds_ptr errorfds_ptr timeout_ptr.
(** The signal mask is ignored. *)
Definition sys_pselect6 (nfds readfds_ptr writefds_ptr errorfds_ptr timeout_ptr sigmask_ptr : Z) : K Z :=
  do_select "pselect" nfds readfds_ptr writefds_ptr errorfds_ptr timeout_ptr.

(** [struct pollfd] *)
Record pollfd := mk_pollfd { p_fd : Z; p_events : Z; p_revents : Z }.
Definition sizeof_pollfd : Z := 8.
Definition dec_pollfd (bs : list Z) (i : nat) : pollfd :=
  mk_pollfd (s32 (field bs (8 * i) 4)) (swrap 16 (field bs (8 * i + 4) 2)) (swrap 16 (field bs (8 * i + 6) 2)).
Definition dec_pollfds (bs : list Z) (nfds : Z) : list pollfd := dec_pollfd bs <$> seq 0 (Z.to_nat nfds).
Definition enc_pollfd (p : pollfd) : list Z := enc [(4%nat, p_fd p); (2%nat, p_events p); (2%nat, p_revents p)].

(** Descriptors outside the guest's range are hidden from the host. *)
Definition poll_hide (k : kstate) (p : pollfd) : pollfd :=
  if negb (in_userfd k (p_fd p)) then mk_pollfd (-1) (p_events p) (p_revents p) else p.
Definition of_pollfds (ps : list pollfd) : list Z := ps ≫= (fun p => [p_fd p; p_events p; p_revents p]).

(** The second loop: [revents] of each entry and the count. *)
Definition poll_merge (k : kstate) (l_fds : list pollfd) (revents : list Z) (r : Z) : list pollfd * Z :=
  fold_left (fun st ip =>
    let '(out, r) := st in let '(i, p) := ip in
    if in_userfd k (p_fd p) || (p_fd p <? 0) || (p_events p =? 0)
    then (out ++ [mk_pollfd (p_fd p) (p_events p) (fld revents i)], r)
    else (out ++ [mk_pollfd (p_fd p) (p_events p) LINUX_POLLNVAL], r + 1))
    (imap (fun i p => (i, p)) l_fds) ([], r).

(** The host answers the [revents] of the entries. *)
Definition sys_poll (fds_ptr nfds timeout : Z) : K Z :=
  let bytes := u64 (u64 nfds * sizeof_pollfd) in
  if negb (heap_ok bytes) then mret (- LINUX_ENOMEM)
  else if nfds >? D "OPEN_MAX" then mret (- LINUX_EINVAL)
  else copy_in fds_ptr bytes (fun bs =>
    let l_fds := dec_pollfds bs nfds in
    k ← get;
    '(r, o) ← sysw_out "poll" [HB (of_pollfds (poll_hide k <$> l_fds)); HI nfds; HI timeout];
    if r <? 0 then mret r
    else
      k ← get;
      let '(l_fds, r) := poll_merge k l_fds (outbuf o 0) r in
      copy_out fds_ptr (l_fds ≫= enc_pollfd) r).

End FdSys.

(** ** Facts *)

Section FdSysFacts.
Context `{OS} `{DarwinErrno} `{DarwinConst} `{Heap}.

(** A descriptor that is not open in the guest's table, in particular every
    descriptor of the kernel, is refused by the calls that go through [struct file]: they
    return [-LINUX_EBADF] without calling the host and without any change. *)
Theorem closed_fd_refused k fd :
  files_ok (k_fi k) -> fds (fdt (k_fi k)) fd = None \/ start (vkern_fdt (k_fi k)) <= fd ->
  let ebadf := Done (- LINUX_EBADF) k in
  (forall ptr n, sys_read fd ptr n k = ebadf) /\ (forall ptr, sys_fstat fd ptr k = ebadf) /\
  (forall ptr, sys_fstatfs fd ptr k = ebadf) /\ (forall uid gid, sys_fchown fd uid gid k = ebadf) /\
  (forall mode, sys_fchmod fd mode k = ebadf) /\ (forall cmd val, sys_ioctl fd cmd val k = ebadf) /\
  (forall off whence, sys_lseek fd off whence k = ebadf) /\ sys_fsync fd k = ebadf /\ user_close fd k = ebadf /\
  (- 2 ^ 31 <= fd < 2 ^ 31 ->
    (forall cmd arg, sys_fcntl fd cmd arg k = ebadf) /\ sys_dup fd k = ebadf /\
    (forall ptr n is64, do_getdents fd ptr n is64 k = ebadf)).
Proof.
  intros Hf Hfd0 ebadf. assert (fds (fdt (k_fi k)) fd = None) as Hfd.
  { destruct Hfd0 as [|Hge]; [done|]. destruct (fds (fdt (k_fi k)) fd) as [c|] eqn:E; [|done].
    apply (fo_below _ Hf) in E. lia. }
  assert (forall op, with_file fd op k = ebadf) as Hw.
  { intros op. rewrite with_file_ok by done. by rewrite Hfd. }
  split_and!; intros; try apply Hw.
  - unfold user_close. pose proof (do_close_user k fd Hf) as Hc. by rewrite Hfd in Hc.
  - assert (s32 fd = fd) as Es.
    { destruct (Z.le_gt_cases 0 fd); [apply swrap_small|apply swrap_neg]; lia. }
    assert (forall cmd arg, sys_fcntl fd cmd arg k = ebadf) as Hfc.
    { intros. unfold sys_fcntl. by rewrite Es. }
    split_and!; [done| |].
    + unfold sys_dup. msimp. rewrite Hfc. done.
    + intros. unfold do_getdents. by rewrite Es.
Qed.

(** *** [poll] *)

(** Whether the kernel answers an entry itself and counts it: its descriptor is not in
    the guest's range and not negative, and it asks for some event. What the guest then
    finds in an entry. *)
Definition poll_hidden (k : kstate) (p : pollfd) : bool :=
  negb (in_userfd k (p_fd p)) && (0 <=? p_fd p) && negb (p_events p =? 0).
Definition poll_answer (k : kstate) (revents : list Z) (i : nat) (p : pollfd) : pollfd :=
  mk_pollfd (p_fd p) (p_events p) (if poll_hidden k p then LINUX_POLLNVAL else fld revents i).

Lemma poll_merge_ok k l revents r :
  poll_merge k l revents r =
  (imap (poll_answer k revents) l, r + Z.of_nat (length (filter (fun p => poll_hidden k p = true) l))).
Proof.
  unfold poll_merge.
  assert (forall l f out r, fold_left (fun st ip =>
    let '(out, r) := st in let '(i, p) := ip in
    if in_userfd k (p_fd p) || (p_fd p <? 0) || (p_events p =? 0)
    then (out ++ [mk_pollfd (p_fd p) (p_events p) (fld revents i)], r)
    else (out ++ [mk_pollfd (p_fd p) (p_events p) LINUX_POLLNVAL], r + 1))
    (imap (fun i p => (f i, p)) l) (out, r) =
    (out ++ imap (fun i => poll_answer k revents (f i)) l,
     r + Z.of_nat (length (filter (fun p => poll_hidden k p = true) l)))) as Hgen.
  { clear l r. induction l as [|p l IH]; intros f out r; simpl; [by rewrite app_nil_r, Z.add_0_r|].
    change (imap ((λ i p0, (f i, p0)) ∘ S) l) with (imap (fun i p0 => ((f ∘ S) i, p0)) l).
    rewrite filter_cons. unfold poll_answer at 1, poll_hidden at 1.
    assert (negb (in_userfd k (p_fd p) || (p_fd p <? 0) || (p_events p =? 0)) = poll_hidden k p) as Hb.
    { unfold poll_hidden. rewrite Z.ltb_antisym. destruct (in_userfd k (p_fd p)), (0 <=? p_fd p), (p_events p =? 0); done. }
    fold (poll_hidden k p). rewrite <- Hb. destruct (in_userfd k (p_fd p) || (p_fd p <? 0) || (p_events p =? 0)); simpl.
    - rewrite IH, <- app_assoc. done.
    - rewrite IH, <- app_assoc. simpl. f_equal. lia. }
  rewrite (Hgen l (fun i => i)). done.
Qed.

Lemma enc_pollfds_length ps : length (ps ≫= enc_pollfd) = (8 * length ps)%nat.
Proof.
  induction ps as [|p ps IH]; [done|]. change ((p :: ps) ≫= enc_pollfd) with (enc_pollfd p ++ (ps ≫= enc_pollfd)).
  rewrite length_app, IH. change (length (enc_pollfd p)) with 8%nat. simpl. lia.
Qed.

(** C31: [poll] on at most [OPEN_MAX] entries in memory of the guest shows the host
    only descriptors of the guest (others as -1). A failure of the host is returned and
    nothing is written. When the host answers, an entry that asks for some event on a
    descriptor outside the guest's range gets [POLLNVAL] and is counted; every other
    entry, also one on such a descriptor that asks for no event, gets what the host
    answered for it and is not counted again; and the entries are written back to where
    they were read. *)
Theorem poll_spec k ptr nfds timeout :
  umem_ok (k_um k) -> 0 <= ptr -> 0 <= nfds <= D "OPEN_MAX" -> D "OPEN_MAX" < 2 ^ 31 ->
  ptr + 2 ^ 34 < 2 ^ 64 - 4096 -> heap_ok (8 * nfds) = true ->
  user_mapped (k_um k) ptr (Z.to_nat (8 * nfds)) = Z.to_nat (8 * nfds) ->
  let l := dec_pollfds (user_bytes (k_um k) ptr (Z.to_nat (8 * nfds))) nfds in
  let args := [HB (of_pollfds (poll_hide k <$> l)); HI nfds; HI timeout] in
  let r := os (k_trace k) "poll" args in
  let ret := syswrap (h_ret r) (h_errno r) in
  let k1 := add_event (mk_event "poll" args r) k in
  Forall (fun p => p_fd p = -1 \/ in_userfd k (p_fd p) = true) (poll_hide k <$> l) /\
  sys_poll ptr nfds timeout k =
  if ret <? 0 then Done ret k1
  else Done (ret + Z.of_nat (length (filter (fun p => poll_hidden k p = true) l)))
         (set_um (user_write (k_um k) ptr (imap (poll_answer k (outbuf (h_out r) 0)) l ≫= enc_pollfd)) k1).
Proof.
  intros Hu Hp Hn Ho Hb Hh Hm l args r ret k1. split.
  { apply Forall_fmap, Forall_forall. intros p _. simpl. unfold poll_hide.
    destruct (in_userfd k (p_fd p)) eqn:E; simpl; auto. }
  unfold sys_poll. assert (u64 (u64 nfds * sizeof_pollfd) = 8 * nfds) as En.
  { unfold sizeof_pollfd. rewrite (wrap_small 64 nfds), wrap_small by lia. lia. }
  rewrite En, Hh. simpl. rewrite Z.gtb_ltb. destruct (Z.ltb_spec (D "OPEN_MAX") nfds); [lia|].
  unfold copy_in. msimp. rewrite k_copy_from_user_ok by (done || lia).
  rewrite user_bytes_length, Hm. replace (8 * nfds - Z.of_nat (Z.to_nat (8 * nfds)) =? 0) with true
    by (symmetry; apply Z.eqb_eq; lia).
  simpl. fold l. unfold sysw_out, hcall. msimp. fold args. fold r. fold ret. fold k1.
  destruct (Z.ltb_spec ret 0); [done|]. rewrite poll_merge_ok.
  assert (length (imap (poll_answer k1 (outbuf (h_out r) 0)) l ≫= enc_pollfd) = Z.to_nat (8 * nfds)) as Hl.
  { rewrite enc_pollfds_length, length_imap. unfold l, dec_pollfds. rewrite length_fmap, length_seq. lia. }
  change (list_bind pollfd Z enc_pollfd) with (mbind (M:=list) enc_pollfd).
  rewrite copy_out_ok by (done || (rewrite Hl; lia)). rewrite Hl. simpl. rewrite bool_decide_true by done. done.
Qed.

End FdSysFacts.

(** ** Runs *)

(** [dup2] answers its second argument; [poll] reports events on one entry. *)
Definition dup_os : OS := {|
  os _ call args :=
    match args with
    | [_; HI fd2] => if String.eqb call "dup2" then mk_hres fd2 0 [] else mk_hres 0 0 []
    | _ => if String.eqb call "poll" then mk_hres 1 0 [[4; 0]] else mk_hres 0 0 []
    end;
  uninit _ := [] |}.

(** [OPEN_MAX] is 10240 on macOS. *)
Definition fdsys_const : DarwinConst := {|
  D n := if String.eqb n "OPEN_MAX" then 10240 else macos_const_of n;
  major x := x; minor x := x; counter _ := 0 |}.

(** Two entries in guest memory: descriptor 4 for reading and descriptor 200, in
    the kernel's range. *)
Definition kpoll : kstate :=
  set_um (user_write u3p 0x10000 (enc_pollfd (mk_pollfd 4 1 0) ++ enc_pollfd (mk_pollfd 200 1 0))) k34.

(** A kernel whose own descriptor 192, as for its root directory, is open. *)
Definition kroot : kstate :=
  set_fi (match @vkern_dup_fd quiet_os 5 false k0 with Done _ k => k_fi k | Stop _ k => k_fi k end) k0.

Section FdSysRuns.
#[local] Existing Instances dup_os macos_errno fdsys_const roomy_heap.

Lemma closed_fd_refused_witness : sys_read 192 0x10000 4 k34 = Done (- LINUX_EBADF) k34.
Proof.
  destruct (closed_fd_refused k34 192 k34_ok) as (Hr & _); [right; vm_compute; discriminate|]. apply Hr.
Defined.

Lemma user_write_ok u a bs : umem_ok u -> umem_ok (user_write u a bs).
Proof.
  revert u a. induction bs as [|b bs IH]; intros u a Hu; [done|]. simpl.
  destruct (translate u a); [|done]. apply IH. exact Hu.
Qed.

Lemma poll_spec_witness :
  exists k', sys_poll 0x10000 2 0 kpoll = Done 2 k' /\
    user_bytes (k_um k') 0x10000 16 = enc_pollfd (mk_pollfd 4 1 4) ++ enc_pollfd (mk_pollfd 200 1 32).
Proof.
  pose proof (poll_spec kpoll 0x10000 2 0) as Hp. destruct Hp as [_ E].
  - apply (user_write_ok u3p 0x10000 _ u3p_ok).
  - lia.
  - vm_compute. split; discriminate.
  - vm_compute. reflexivity.
  - lia.
  - reflexivity.
  - vm_compute. reflexivity.
  - eexists. split; [rewrite E; vm_compute; reflexivity|]. vm_compute. reflexivity.
Defined.

(** An entry on a descriptor of the kernel that asks for no event is not answered with
    [POLLNVAL], and not counted, although the host never saw the descriptor. *)
Theorem poll_no_events :
  match sys_poll 0x10000 1 0 (set_um (user_write u3p 0x10000 (enc_pollfd (mk_pollfd 200 0 0))) k34) with
  | Done r k' => r = 1 /\ user_bytes (k_um k') 0x10000 8 = enc_pollfd (mk_pollfd 200 0 4)
  | Stop _ _ => False
  end.
Proof. vm_compute. split; reflexivity. Qed.

(** [dup3] checks neither descriptor: a guest that asks for a descriptor of
    the kernel replaces it in the host process and then, since it cannot be registered,
    closes it; [ftruncate] and [flock] reach the kernel's descriptors as well. [dup2] refuses them. *)
Theorem kernel_fd_exposed :
  fds (vkern_fdt (k_fi kroot)) 192 = Some false /\ in_userfd kroot 192 = false /\
  sys_dup2 3 192 kroot = Done (- LINUX_EBADF) kroot /\
  (exists k', sys_dup3 3 192 0 kroot = Done (- LINUX_EMFILE) k' /\
    (fun e => (ev_call e, ev_args e)) <$> k_trace k' = [("close", [HI 192]); ("dup2", [HI 3; HI 192])]%string) /\
  (exists k', sys_ftruncate 192 0 kroot = Done 0 k' /\ ev_args <$> k_trace k' = [[HI 192; HI 0]]) /\
  (exists k', sys_flock 192 2 kroot = Done 0 k' /\ ev_args <$> k_trace k' = [[HI 192; HI 2]]).
Proof.
  split; [vm_compute; reflexivity|]. split; [vm_compute; reflexivity|]. split; [vm_compute; reflexivity|].
  split; [|split]; eexists; (split; vm_compute; reflexivity).
Qed.

End FdSysRuns.
