(* ===== verification/ShmMalloc.v ===== *)
(** * The allocator of memory shared between processes ([src/mm/malloc.c])

    A circular list of free blocks in address order, starting from the empty
    block [base], in an arena of one gigabyte.  A pointer is an address; the
    headers in the arena are a map from addresses; memory is counted in units of
    a header.  The lock is not modelled: the two entry points run one at a time. *)

From S2P Require Import Prelude.

(** [struct header] *)
Record header := mk_header { h_next : Z; h_size : Z }.
Definition sizeof_Header : Z := 16.
Definition MEMORY_ARENA_SIZE : Z := 1 * 1024 * 1024 * 1024.
Definition NALLOC : Z := 1024.

(** Where the host maps the arena, and the size of its [pthread_rwlock_t]. *)
Class Arena := { arena_start : Z; sizeof_lock : Z }.

(** [struct malloc_data]: the lock, [base], [freep], [brkp] and what follows. *)
Record malloc_data := mk_malloc_data {
  mem : gmap Z header;
  freep : Z;
  brkp : Z;
}.

Section Malloc.
Context `{Arena}.

Definition base : Z := arena_start + sizeof_lock.
Definition brk_start : Z := base + sizeof_Header + 8 + 8.

(** [p + n] on [Header *]; sums that leave the arena are not used by the theorems. *)
Definition hadd (p n : Z) : Z := p + n * sizeof_Header.

Definition load (p : Z) : M malloc_data header := d ← get; deref (mem d !! p).
Definition set_mem (m : gmap Z header) (d : malloc_data) : malloc_data := mk_malloc_data m (freep d) (brkp d).
(** Stores to a header; the arena is filled with zeros at first. *)
Definition at_header (p : Z) (f : header -> header) : M malloc_data unit :=
  modify (fun d => set_mem (<[p := f (default (mk_header 0 0) (mem d !! p))]> (mem d)) d).
Definition set_next (p v : Z) : M malloc_data unit := at_header p (fun h => mk_header v (h_size h)).
Definition set_size (p n : Z) : M malloc_data unit := at_header p (fun h => mk_header (h_next h) n).
Definition set_freep (p : Z) : M malloc_data unit := modify (fun d => mk_malloc_data (mem d) p (brkp d)).
Definition set_brkp (p : Z) : M malloc_data unit := modify (fun d => mk_malloc_data (mem d) (freep d) p).

(** The state after [init_shm_malloc]: [base] and [freep] are zeroed. *)
Definition init_shm_malloc : malloc_data := mk_malloc_data {[ base := mk_header 0 0 ]} 0 brk_start.

Definition __shm_sbrk (s : Z) : M malloc_data Z :=
  d ← get;
  if u64 (brkp d + s) >=? arena_start + MEMORY_ARENA_SIZE then mret 0
  else set_brkp (u64 (brkp d + s));; mret (brkp d).

(** The loop of [__shm_free] that looks for the block before [bp]. *)
Fixpoint free_loop (fuel : nat) (p bp : Z) : M malloc_data Z :=
  match fuel with
  | O => halt Diverge
  | S fuel =>
    h ← load p;
    let next := h_next h in
    if (p <? bp) && (bp <? next) then mret p
    else if (next <=? p) && ((p <? bp) || (bp <? next)) then mret p
    else free_loop fuel next bp
  end.

Definition __shm_free (fuel : nat) (ap : Z) : M malloc_data unit :=
  if ap =? 0 then mret tt
  else
    let bp := ap - sizeof_Header in
    d ← get;
    p ← free_loop fuel (freep d) bp;
    hb ← load bp;
    hp ← load p;
    (if hadd bp (h_size hb) =? h_next hp then
       hn ← load (h_next hp);
       set_size bp (h_size hb + h_size hn);;
       set_next bp (h_next hn)
     else set_next bp (h_next hp));;
    hp ← load p;
    (if hadd p (h_size hp) =? bp then
       hb ← load bp;
       set_size p (h_size hp + h_size hb);;
       set_next p (h_next hb)
     else set_next p bp);;
    set_freep p.

Definition morecore (fuel : nat) (nunits : Z) : M malloc_data Z :=
  let nunits := u64 (u64 (nunits + NALLOC - 1) / NALLOC * NALLOC) in
  p ← __shm_sbrk (u64 (nunits * sizeof_Header));
  if p =? 0 then mret 0
  else
    set_size p nunits;;
    __shm_free fuel (hadd p 1);;
    d ← get; mret (freep d).

(** The loop of [__shm_malloc]. *)
Fixpoint malloc_loop (fuel : nat) (nunits p prevp : Z) : M malloc_data Z :=
  match fuel with
  | O => halt Diverge
  | S fuel' =>
    h ← load p;
    if h_size h >=? nunits then
      q ← (if h_size h =? nunits then set_next prevp (h_next h);; mret p
           else
             set_size p (h_size h - nunits);;
             let q := hadd p (h_size h - nunits) in
             set_size q nunits;;
             mret q);
      set_freep prevp;;
      mret (hadd q 1)
    else
      d ← get;
      p ← (if p =? freep d then morecore fuel nunits else mret p);
      if p =? 0 then mret 0
      else
        h ← load p;
        malloc_loop fuel' nunits (h_next h) p
  end.

Definition __shm_malloc (fuel : nat) (nbytes : Z) : M malloc_data Z :=
  let nunits := u64 (nbytes + sizeof_Header - 1) / sizeof_Header + 1 in
  d ← get;
  when_ (freep d =? 0) (set_freep base;; set_next base base;; set_size base 0);;
  d ← get;
  h ← load (freep d);
  malloc_loop fuel nunits (h_next h) (freep d).

(** Twice the number of headers, and a few more, bounds every loop. *)
Definition list_fuel (d : malloc_data) : nat := 2 * size (mem d) + 4.

Definition shm_malloc (nbytes : Z) : M malloc_data Z := d ← get; __shm_malloc (list_fuel d) nbytes.
Definition shm_free (ptr : Z) : M malloc_data unit := d ← get; __shm_free (list_fuel d) ptr.

End Malloc.

(** ** The invariant *)

(** [mmap] returns a non-null address with room for the arena. *)
Class ArenaOk `{Arena} : Prop := {
  arena_pos : 0 < arena_start;
  arena_room : arena_start + 2 ^ 40 < 2 ^ 64;
  lock_small : 0 <= sizeof_lock < 4096;
}.

(** A block: its address and its size in units, header included. *)
Abbreviation block := (Z * Z)%type.

Definition bend (x : block) : Z := hadd x.1 x.2.

(** [x] ends before [y] starts. *)
Definition before (x y : block) : Prop := x.1 < y.1 /\ bend x <= y.1.
Definition apart (x y : block) : Prop := bend x <= y.1 \/ bend y <= x.1.
(** [x] ends before [y] starts, and something lies between them. *)
Definition gap (x y : block) : Prop := bend x < y.1.
Definition gaps (L : list block) : Prop := StronglySorted gap L.

(** The address [p] lies in a block of [L]. *)
Definition covers (L : list block) (p : Z) : Prop := exists y, y ∈ L /\ y.1 <= p < bend y.
(** [L'] holds the memory of [L] and of the block [x]. *)
Definition adds (L : list block) (x : block) (L' : list block) : Prop :=
  forall p, covers L' p <-> covers L p \/ covers [x] p.

Definition head_addr (L : list block) (e : Z) : Z := match L with [] => e | x :: _ => x.1 end.

(** The headers of the blocks [L], each pointing to the next one, the last to [e]. *)
Fixpoint links (m : gmap Z header) (L : list block) (e : Z) : Prop :=
  match L with
  | [] => True
  | x :: L => m !! x.1 = Some (mk_header (head_addr L e) x.2) /\ links m L e
  end.

Section Inv.
Context `{Arena}.

(** A block between the start of the arena's heap and [top]. *)
Definition in_heap (top : Z) (x : block) : Prop := 1 <= x.2 /\ brk_start <= x.1 /\ bend x <= top.

(** [L] are the free blocks in list order, [base] first; [live] the allocated ones. *)
Record heap_inv (d : malloc_data) (L live : list block) : Prop := {
  hi_base : head L = Some (base, 0);
  hi_links : links (mem d) L base;
  hi_sorted : StronglySorted before L;
  hi_free : Forall (in_heap (brkp d)) (tail L);
  hi_live : Forall (in_heap (brkp d)) live;
  hi_headers x : x ∈ live -> exists nx, mem d !! x.1 = Some (mk_header nx x.2);
  hi_apart : ForallOrdPairs apart live;
  hi_sep x y : x ∈ live -> y ∈ tail L -> apart x y;
  hi_freep : freep d ∈ L.*1;
  hi_brk : brk_start <= brkp d < arena_start + MEMORY_ARENA_SIZE;
}.

(** Moreover free blocks that touch have been joined, and every byte up to the
    break is free or allocated: nothing leaks. *)
Record heap_full (d : malloc_data) (L live : list block) : Prop := {
  hf_inv : heap_inv d L live;
  hf_gaps : gaps L;
  hf_tiled p : brk_start <= p < brkp d -> covers L p \/ covers live p;
}.

(** The state the first call of [__shm_malloc] makes: [base] alone on the list. *)
Definition first_list : malloc_data := mk_malloc_data {[ base := mk_header base 0 ]} base brk_start.

(** Before the first allocation, or afterwards. *)
Definition heap_ok (d : malloc_data) (live : list block) : Prop :=
  (d = init_shm_malloc /\ live = []) \/ exists L, heap_full d L live.

End Inv.

(** ** Lists of headers *)

Lemma links_app m L1 L2 e : links m (L1 ++ L2) e <-> links m L1 (head_addr L2 e) /\ links m L2 e.
Proof.
  induction L1 as [|x L1 IH]; simpl; [naive_solver|]. rewrite IH.
  assert (head_addr (L1 ++ L2) e = head_addr L1 (head_addr L2 e)) as -> by (by destruct L1). naive_solver.
Qed.

Lemma links_insert m L e p h : p ∉ L.*1 -> links (<[p:=h]> m) L e <-> links m L e.
Proof.
  induction L as [|x L IH]; simpl; [done|]. intros Hp.
  rewrite lookup_insert_ne by (intros ->; apply Hp; by left). rewrite IH; [done|]. intros ?. apply Hp. by right.
Qed.

Lemma links_lookup m L e i x : links m L e -> L !! i = Some x ->
  m !! x.1 = Some (mk_header (match L !! S i with Some y => y.1 | None => e end) x.2).
Proof.
  revert i. induction L as [|y L IH]; intros [|i] Hl Hi; simpl in *; try done.
  - destruct Hl as [Hl _]. simplify_eq. rewrite Hl. by destruct L.
  - apply IH; tauto.
Qed.

Lemma sorted_lookup L i j x y : StronglySorted before L -> (i < j)%nat ->
  L !! i = Some x -> L !! j = Some y -> before x y.
Proof.
  intros Hs. revert i j. induction Hs as [|z L Hs IH Hf]; intros i j Hij Hi Hj; [done|].
  destruct j as [|j]; [lia|]. destruct i as [|i]; simpl in *.
  - simplify_eq. rewrite Forall_forall in Hf. apply Hf. by eapply list_elem_of_lookup_2.
  - eapply IH; [|done|done]. lia.
Qed.

Lemma sorted_app L1 L2 : StronglySorted before (L1 ++ L2) <->
  StronglySorted before L1 /\ StronglySorted before L2 /\ (forall x y, x ∈ L1 -> y ∈ L2 -> before x y).
Proof.
  induction L1 as [|z L1 IH]; simpl.
  - split; [intros; split_and!; [constructor|done|set_solver]|tauto].
  - split.
    + intros Hs. apply StronglySorted_inv in Hs as [Hs Hf]. apply IH in Hs as (H1 & H2 & H3).
      apply Forall_app in Hf as [Hf1 Hf2]. split_and!; [by constructor|done|].
      intros x y Hx Hy. apply elem_of_cons in Hx as [->|Hx]; [|by apply H3].
      rewrite Forall_forall in Hf2. by apply Hf2.
    + intros (H1 & H2 & H3). apply StronglySorted_inv in H1 as [H1 Hf]. constructor.
      * apply IH. split_and!; [done|done|]. intros. apply H3; [by right|done].
      * apply Forall_app. split; [done|]. apply Forall_forall. intros y Hy. apply H3; [by left|done].
Qed.

Lemma blocks_NoDup L : StronglySorted before L -> NoDup L.*1.
Proof.
  induction 1 as [|x L Hs IH Hf]; simpl; constructor; [|done].
  intros Hin. apply list_elem_of_fmap in Hin as (y & E & Hy). rewrite Forall_forall in Hf.
  destruct (Hf y Hy). lia.
Qed.

(** The free blocks below and above an address that starts none of them. *)
Lemma blocks_split L bp : StronglySorted before L -> bp ∉ L.*1 ->
  exists L1 L2, L = L1 ++ L2 /\ Forall (fun x => x.1 < bp) L1 /\ Forall (fun x => bp < x.1) L2.
Proof.
  induction 1 as [|x L Hs IH Hf]; intros Hbp; [by exists [], []|].
  destruct (Z.lt_trichotomy x.1 bp) as [Hlt|[Heq|Hgt]].
  - destruct IH as (L1 & L2 & -> & H1 & H2); [set_solver|]. exists (x :: L1), L2. split_and!; [done|by constructor|done].
  - destruct Hbp. subst bp. by left.
  - exists [], (x :: L). split_and!; [done|constructor|]. constructor; [done|].
    eapply Forall_impl; [exact Hf|]. intros y [Hb _]. lia.
Qed.

Lemma covers_nil p : covers [] p <-> False.
Proof. split; [|done]. intros (y & Hy & _). by apply elem_of_nil in Hy. Qed.
Lemma covers_cons x L p : covers (x :: L) p <-> x.1 <= p < bend x \/ covers L p.
Proof.
  unfold covers. setoid_rewrite elem_of_cons. split.
  - intros (y & [->|Hy] & Hp); eauto.
  - intros [Hp|(y & Hy & Hp)]; eauto.
Qed.
Lemma covers_app L1 L2 p : covers (L1 ++ L2) p <-> covers L1 p \/ covers L2 p.
Proof. unfold covers. setoid_rewrite elem_of_app. naive_solver. Qed.
#[local] Hint Rewrite covers_nil covers_cons covers_app : covers.

(** A block cut in two, or two that touch made one. *)
Lemma covers_cut a n m p : 0 <= n -> 0 <= m ->
  a <= p < bend (a, n + m) <-> a <= p < bend (a, n) \/ hadd a n <= p < bend (hadd a n, m).
Proof. unfold bend, hadd, sizeof_Header. cbn [fst snd]. lia. Qed.

(** Replacing the end of a list by blocks that do not start before it. *)
Lemma gaps_suffix L0 a L2 Y : gaps (L0 ++ a :: L2) -> gaps Y -> Forall (fun y => a.1 <= y.1) Y -> gaps (L0 ++ Y).
Proof.
  unfold gaps. rewrite !StronglySorted_app, Forall_forall. intros (H0 & H1 & _) HY Ha. split_and!; try done.
  intros x y Hx Hy. specialize (H0 x a Hx ltac:(by left)). specialize (Ha y Hy). unfold gap in *. lia.
Qed.

Lemma gaps_cons x L : gaps (x :: L) <-> Forall (gap x) L /\ gaps L.
Proof. unfold gaps. rewrite StronglySorted_cons. tauto. Qed.

(** ** Walking round the list *)

(** The position after [i] in a circle of [n], and the number of steps from [i] to [j]. *)
Definition nxt (n i : nat) : nat := if decide (S i = n) then 0%nat else S i.
Definition steps (n i j : nat) : nat := if decide (i <= j)%nat then (j - i)%nat else (n - i + j)%nat.

Lemma nxt_lt n i : (i < n)%nat -> (nxt n i < n)%nat.
Proof. unfold nxt. case_decide; lia. Qed.

Lemma steps_nxt n i j : (i < n)%nat -> (j < n)%nat -> i <> j -> steps n i j = S (steps n (nxt n i) j).
Proof. intros. unfold steps, nxt. repeat case_decide; lia. Qed.

Lemma steps_lt n i j : (i < n)%nat -> (j < n)%nat -> (steps n i j < n)%nat.
Proof. intros. unfold steps. repeat case_decide; lia. Qed.

Lemma steps_same n i : steps n i i = 0%nat.
Proof. unfold steps. case_decide; lia. Qed.

(** Starting after [j], every position comes before [j] is reached. *)
Lemma steps_all n j k : (j < n)%nat -> (k < n)%nat -> (steps n (nxt n j) k <= steps n (nxt n j) j)%nat.
Proof. intros. unfold steps, nxt. repeat case_decide; lia. Qed.

Section Walk.
Context `{Arena}.
Implicit Types (d : malloc_data) (L live : list block).

Lemma load_ok d p h : mem d !! p = Some h -> load p d = Done h d.
Proof. intros E. unfold load. msimp. by rewrite E. Qed.

(** The next block round the circle. *)
Lemma next_ok d L live i x : heap_inv d L live -> L !! i = Some x ->
  exists y, L !! nxt (length L) i = Some y /\ mem d !! x.1 = Some (mk_header y.1 x.2).
Proof.
  intros Hi E. pose proof (links_lookup _ _ _ _ _ (hi_links _ _ _ Hi) E) as Hl.
  pose proof (hi_base _ _ _ Hi) as Hb. pose proof (lookup_lt_Some _ _ _ E).
  unfold nxt. case_decide as Hd.
  - rewrite (lookup_ge_None_2 L (S i)) in Hl by lia. exists (base, 0). split; [|done].
    destruct L as [|z L]; [done|]. simpl in Hb |- *. congruence.
  - destruct (lookup_lt_is_Some_2 L (S i)) as [y Hy]; [lia|]. rewrite Hy in Hl. by exists y.
Qed.

Lemma base_lookup d L live : heap_inv d L live -> L !! 0%nat = Some (base, 0).
Proof. intros Hi. pose proof (hi_base _ _ _ Hi). destruct L; simpl in *; congruence. Qed.

(** [free_loop] stops at the last free block below [bp]. *)
Lemma free_loop_ok d L live bp j a : heap_inv d L live -> base < bp ->
  L !! j = Some a -> a.1 < bp -> (forall b, L !! S j = Some b -> bp < b.1) ->
  forall fuel i p, L !! i = Some p -> (steps (length L) i j < fuel)%nat -> free_loop fuel p.1 bp d = Done a.1 d.
Proof.
  intros Hi Hbase Ej Ha Hb. pose proof (hi_sorted _ _ _ Hi) as Hs.
  pose proof (lookup_lt_Some _ _ _ Ej) as Hj.
  induction fuel as [|fuel IH]; intros i p Ei Hf; [lia|]. pose proof (lookup_lt_Some _ _ _ Ei) as Hil.
  destruct (next_ok d L live i p Hi Ei) as (y & Ey & Em). cbn [free_loop]. msimp.
  rewrite (load_ok _ _ _ Em). cbn [h_next].
  destruct (decide (i = j)) as [->|Hne].
  - assert (a = p) as <- by congruence. unfold nxt in Ey. case_decide as Hd.
    + rewrite (base_lookup _ _ _ Hi) in Ey. simplify_eq/=.
      destruct (Z.ltb_spec a.1 bp); [|lia]. destruct (Z.ltb_spec bp base); [lia|]. simpl.
      assert (base <= a.1) as Hle.
      { destruct j; [rewrite (base_lookup _ _ _ Hi) in Ej; by simplify_eq/=|].
        destruct (sorted_lookup L 0 (S j) (base, 0) a Hs) as [Hlt _]; [lia|by apply (base_lookup _ _ _ Hi)|done|]. simpl in Hlt. lia. }
      destruct (Z.leb_spec base a.1); [done|lia].
    + specialize (Hb y Ey). destruct (Z.ltb_spec a.1 bp); [|lia]. by destruct (Z.ltb_spec bp y.1); [|lia].
  - assert (steps (length L) (nxt (length L) i) j < fuel)%nat as Hf' by (rewrite (steps_nxt _ i j) in Hf by done; lia).
    destruct (decide (i < j)%nat) as [Hlt|Hge].
    + assert (nxt (length L) i = S i) as En by (unfold nxt; case_decide; [lia|done]).
      rewrite En in *. assert (y.1 <= a.1) as Hya.
      { destruct (decide (S i = j)) as [E|]; [assert (y = a) as -> by congruence; lia|].
        destruct (sorted_lookup L (S i) j y a Hs) as [Hl _]; [lia|done|done|lia]. }
      destruct (sorted_lookup L i (S i) p y Hs) as [Hpy _]; [lia|done|done|].
      destruct (Z.ltb_spec bp y.1); [lia|]. rewrite andb_false_r. destruct (Z.leb_spec y.1 p.1); [lia|]. simpl.
      by apply (IH (S i)).
    + assert (bp < p.1) as Hp.
      { destruct (lookup_lt_is_Some_2 L (S j)) as [b Eb]; [lia|]. specialize (Hb b Eb).
        destruct (decide (S j = i)) as [E|]; [assert (b = p) as -> by congruence; lia|].
        destruct (sorted_lookup L (S j) i b p Hs) as [Hl _]; [lia|done|done|lia]. }
      destruct (Z.ltb_spec p.1 bp); [lia|]. simpl. unfold nxt in *. case_decide as Hd.
      * rewrite (base_lookup _ _ _ Hi) in Ey. simplify_eq/=.
        destruct (Z.ltb_spec bp base); [lia|]. rewrite andb_false_r.
        apply (IH 0%nat (base, 0)); [by apply (base_lookup _ _ _ Hi)|done].
      * destruct (sorted_lookup L i (S i) p y Hs) as [Hpy _]; [lia|done|done|].
        destruct (Z.leb_spec y.1 p.1); [lia|]. simpl. by apply (IH (S i)).
Qed.

End Walk.

(** ** Freeing a block *)

Section Free.
Context `{Arena} `{!ArenaOk}.
Implicit Types (d : malloc_data) (L live : list block).

(** A block that is neither free nor live. *)
Record floating d L live (x : block) : Prop := {
  fl_heap : in_heap (brkp d) x;
  fl_header : exists nx, mem d !! x.1 = Some (mk_header nx x.2);
  fl_free y : y ∈ tail L -> apart x y;
  fl_live y : y ∈ live -> apart y x;
}.

Lemma base_below : base < brk_start.
Proof. unfold brk_start, sizeof_Header. lia. Qed.

Lemma tail_elem L x : head L = Some (base, 0) -> x ∈ L -> x = (base, 0) \/ x ∈ tail L.
Proof. destruct L as [|y L]; [done|]. simpl. intros [= ->]. by rewrite elem_of_cons. Qed.

(** The state with its map of headers replaced by [m] and [freep] by [p]. *)
Definition upd d (m : gmap Z header) (p : Z) : malloc_data := mk_malloc_data m p (brkp d).

(** Rewriting the list from the block [a] on: [X] starts at the same address. *)
Lemma replace_suffix d L0 a L2 sa X live m p :
  heap_inv d (L0 ++ a :: L2) live -> (L0 = [] -> sa = 0) ->
  (forall x, x ∈ L0 \/ x ∈ live -> m !! x.1 = mem d !! x.1) ->
  links m ((a.1, sa) :: X) base -> StronglySorted before ((a.1, sa) :: X) ->
  Forall (in_heap (brkp d)) X -> (L0 <> [] -> in_heap (brkp d) (a.1, sa)) ->
  (forall y z, y ∈ live -> z ∈ X -> apart y z) -> (forall y, y ∈ live -> L0 <> [] -> apart y (a.1, sa)) ->
  p ∈ (L0 ++ (a.1, sa) :: X).*1 ->
  heap_inv (upd d m p) (L0 ++ (a.1, sa) :: X) live.
Proof.
  intros Hi Hsa0 Hm Hl Hs Hf Ha Hap Hapa Hp. pose proof (hi_base _ _ _ Hi) as Hb.
  pose proof (hi_sorted _ _ _ Hi) as Hsort. apply sorted_app in Hsort as (Hs0 & _ & Hs0a).
  pose proof (hi_links _ _ _ Hi) as Hlk. apply links_app in Hlk as [Hl0 _]. cbn [head_addr] in Hl0.
  assert (forall z, z ∈ tail (L0 ++ (a.1, sa) :: X) -> z ∈ tail L0 \/ z ∈ X \/ L0 <> [] /\ z = (a.1, sa)) as Htl.
  { intros z. destruct L0 as [|c L0]; simpl; [by auto|]. rewrite elem_of_app, elem_of_cons. naive_solver. }
  assert (forall z, z ∈ tail L0 -> z ∈ tail (L0 ++ a :: L2)) as Htl0.
  { intros z. destruct L0; simpl; [by intros ?%elem_of_nil|]. rewrite elem_of_app. auto. }
  pose proof (hi_free _ _ _ Hi) as Hfr. rewrite Forall_forall in Hfr, Hf.
  constructor; unfold upd; cbn [mem brkp freep]; try apply Hi.
  - destruct L0 as [|c L0]; simpl in *; [|done]. rewrite Hsa0 by done. injection Hb as ->. done.
  - apply links_app. split; [|done]. cbn [head_addr fst]. clear - Hl0 Hm. revert Hl0 Hm. generalize a.1. intros e.
    induction L0 as [|c L0 IH]; simpl; [done|]. intros [E Hl] Hm. split.
    + rewrite Hm by (left; by left). done.
    + apply IH; [done|]. intros x [Hx|Hx]; apply Hm; [left; by right|by right].
  - apply sorted_app. split_and!; [done|done|]. intros x y Hx Hy. destruct (Hs0a x a Hx) as [A1 A2]; [by left|].
    assert (a.1 <= y.1); [|split; lia]. apply elem_of_cons in Hy as [->|Hy]; [done|].
    apply StronglySorted_inv in Hs as [_ Hs]. rewrite Forall_forall in Hs. destruct (Hs y Hy) as [A3 _]. simpl in A3. lia.
  - apply Forall_forall. intros z Hz. apply Htl in Hz as [Hz|[Hz|[Hne ->]]]; auto.
  - intros x Hx. rewrite Hm by (by right). by apply (hi_headers _ _ _ Hi).
  - intros x y Hx Hy. apply Htl in Hy as [Hy|[Hy|[Hne ->]]]; auto. apply (hi_sep _ _ _ Hi); auto.
  - done.
Qed.

(** Where a floating block belongs in the list. *)
Lemma floating_place d L live x : heap_inv d L live -> floating d L live x ->
  exists L0 a L2, L = L0 ++ a :: L2 /\ a.1 < x.1 /\ bend a <= x.1 /\ Forall (fun y => before x y) L2.
Proof.
  intros Hi Hx. destruct (fl_heap _ _ _ _ Hx) as (Hs1 & Hs2 & Hs3). pose proof base_below.
  pose proof (hi_base _ _ _ Hi) as Hb.
  assert (forall y, y ∈ L -> bend y <= x.1 /\ y.1 < x.1 \/ bend x <= y.1 /\ x.1 < y.1) as Hcmp.
  { intros y Hy. apply (tail_elem L y Hb) in Hy as [->|Hy].
    - left. unfold bend, hadd, sizeof_Header. simpl. lia.
    - pose proof (fl_free _ _ _ _ Hx y Hy) as Ha. pose proof (hi_free _ _ _ Hi) as Hf.
      rewrite Forall_forall in Hf. destruct (Hf y Hy) as (? & ? & ?).
      unfold apart, bend, hadd, sizeof_Header in *. lia. }
  destruct (blocks_split L x.1) as (L1 & L2 & -> & A1 & A2); [apply Hi| |].
  { intros Hin. apply list_elem_of_fmap in Hin as (y & E & Hy). destruct (Hcmp y Hy); lia. }
  destruct L1 as [|a L1 _] using rev_ind.
  { destruct L2 as [|z L2]; [done|]. simpl in Hb. simplify_eq. apply Forall_cons in A2 as [A2 _]. simpl in A2. lia. }
  exists L1, a, L2. rewrite <- app_assoc. split; [done|]. apply Forall_app in A1 as [_ A1].
  apply Forall_cons in A1 as [A1 _]. split; [done|]. split.
  - destruct (Hcmp a); [set_solver|lia|lia].
  - apply Forall_forall. intros y Hy. rewrite Forall_forall in A2. specialize (A2 y Hy).
    destruct (Hcmp y); [set_solver|lia|]. split; lia.
Qed.

(** The first half: the block is joined with the one that follows it, or linked to it. *)
Definition join_next (bp : Z) (hb hp : header) : M malloc_data unit :=
  if hadd bp (h_size hb) =? h_next hp then
    hn ← load (h_next hp);
    set_size bp (h_size hb + h_size hn);;
    set_next bp (h_next hn)
  else set_next bp (h_next hp).

Lemma join_next_ok d L0 a L2 live x nx : heap_inv d (L0 ++ a :: L2) live ->
  floating d (L0 ++ a :: L2) live x -> mem d !! x.1 = Some (mk_header nx x.2) -> Forall (fun y => before x y) L2 ->
  exists s1 L2x, join_next x.1 (mk_header nx x.2) (mk_header (head_addr L2 base) a.2) d =
    Done tt (upd d (<[x.1 := mk_header (head_addr L2x base) s1]> (mem d)) (freep d)) /\
    (L2x = L2 /\ s1 = x.2 /\ bend x <> head_addr L2 base \/ exists b, L2 = b :: L2x /\ bend x = b.1 /\ s1 = x.2 + b.2 /\ 1 <= b.2).
Proof.
  intros Hi Hx Em Hbf. destruct (fl_heap _ _ _ _ Hx) as (Hs1 & Hs2 & Hs3). pose proof base_below.
  unfold join_next, set_size, set_next, at_header, set_mem, upd. cbn [h_size h_next]. msimp.
  destruct (Z.eqb_spec (hadd x.1 x.2) (head_addr L2 base)) as [E|E].
  - destruct L2 as [|b L2]; simpl in E; [unfold hadd, sizeof_Header in E; lia|].
    pose proof (hi_links _ _ _ Hi) as Hl. apply links_app in Hl as [_ (_ & Hl & _)].
    unfold load. msimp. cbn [head_addr]. rewrite Hl. cbn [h_size h_next mem freep brkp]. rewrite Em. cbn [h_size h_next default].
    rewrite lookup_insert_eq. cbn [default h_size]. rewrite insert_insert_eq. exists (x.2 + b.2), L2. split; [done|].
    right. exists b. split_and!; try done. pose proof (hi_free _ _ _ Hi) as Hf. rewrite Forall_forall in Hf.
    apply (Hf b). destruct L0; simpl; set_solver.
  - exists x.2, L2. split; [by rewrite Em|by left].
Qed.

(** The list after the first half: the block, with what it absorbed, still apart
    from everything. *)
Lemma joined d L0 a L2 L2x live x s1 :
  heap_inv d (L0 ++ a :: L2) live -> floating d (L0 ++ a :: L2) live x -> Forall (fun y => before x y) L2 ->
  (L2x = L2 /\ s1 = x.2 /\ bend x <> head_addr L2 base \/ exists b, L2 = b :: L2x /\ bend x = b.1 /\ s1 = x.2 + b.2 /\ 1 <= b.2) ->
  in_heap (brkp d) (x.1, s1) /\ x.2 <= s1 /\ Forall (fun y => before (x.1, s1) y) L2x /\
  (forall y, y ∈ live -> apart y (x.1, s1)) /\ (length L2x <= length L2)%nat /\
  links (mem d) L2x base /\ StronglySorted before L2x /\ Forall (in_heap (brkp d)) L2x /\ (forall y, y ∈ L2x -> y ∈ L2).
Proof.
  intros Hi Hx Hbf Hj. destruct (fl_heap _ _ _ _ Hx) as (Hs1 & Hs2 & Hs3).
  pose proof (hi_links _ _ _ Hi) as Hl. apply links_app in Hl as [_ (_ & Hl)].
  pose proof (hi_sorted _ _ _ Hi) as Hs. apply sorted_app in Hs as (_ & Hs & _).
  apply StronglySorted_inv in Hs as [Hs _].
  assert (Forall (in_heap (brkp d)) L2) as Hf.
  { pose proof (hi_free _ _ _ Hi) as Hf. destruct L0; simpl in Hf; [done|]. apply Forall_app in Hf as [_ Hf].
    by apply Forall_cons in Hf as [_ Hf]. }
  destruct Hj as [(-> & -> & _)|(b & -> & Eb & -> & Hb)].
  - destruct x as [xa xs]. split_and!; try done; try lia. apply Hx.
  - apply StronglySorted_inv in Hs as [Hs Hs']. apply Forall_cons in Hbf as [_ Hbf]. apply Forall_cons in Hf as [Hb' Hf].
    destruct Hb' as (? & ? & ?). assert (bend (x.1, x.2 + b.2) = bend b) as Ee.
    { unfold bend, hadd in *. simpl. lia. }
    split_and!; try done; try lia; try (by apply Hl).
    + split_and!; simpl; [lia|done|]. rewrite Ee. done.
    + apply Forall_forall. intros y Hy. rewrite Forall_forall in Hbf, Hs'. destruct (Hbf y Hy), (Hs' y Hy).
      split; [done|]. by rewrite Ee.
    + intros y Hy. pose proof (fl_live _ _ _ _ Hx y Hy) as A1.
      assert (apart y b) as A2.
      { apply (hi_sep _ _ _ Hi); [done|]. destruct L0; simpl; set_solver. }
      pose proof (hi_live _ _ _ Hi) as Hlv. rewrite Forall_forall in Hlv. destruct (Hlv y Hy) as (Hys & _).
      unfold apart in *. rewrite Ee. unfold bend, hadd, sizeof_Header in *. simpl. lia.
    + simpl. lia.
    + intros y Hy. by right.
Qed.

(** The headers of live blocks are not those of free ones. *)
Lemma live_not_free d L live x y : heap_inv d L live -> x ∈ live -> y ∈ L -> x.1 <> y.1.
Proof.
  intros Hi Hx Hy E. pose proof (hi_live _ _ _ Hi) as Hl. rewrite Forall_forall in Hl. destruct (Hl x Hx) as (? & ? & ?).
  pose proof base_below. apply (tail_elem L y (hi_base _ _ _ Hi)) in Hy as [->|Hy]; [simpl in *; lia|].
  pose proof (hi_sep _ _ _ Hi x y Hx Hy) as Ha. pose proof (hi_free _ _ _ Hi) as Hf. rewrite Forall_forall in Hf.
  destruct (Hf y Hy) as (? & ? & ?). unfold apart, bend, hadd, sizeof_Header in *. lia.
Qed.

Lemma live_not_floating d L live x y : heap_inv d L live -> floating d L live x -> y ∈ live -> y.1 <> x.1.
Proof.
  intros Hi Hx Hy E. pose proof (fl_live _ _ _ _ Hx y Hy) as Ha. destruct (fl_heap _ _ _ _ Hx) as (? & _).
  pose proof (hi_live _ _ _ Hi) as Hl. rewrite Forall_forall in Hl. destruct (Hl y Hy) as (? & _).
  unfold apart, bend, hadd, sizeof_Header in *. lia.
Qed.

(** The second half: the block before absorbs it, or points to it. *)
Definition join_prev (p bp : Z) : M malloc_data unit :=
  hp ← load p;
  (if hadd p (h_size hp) =? bp then
     hb ← load bp;
     set_size p (h_size hp + h_size hb);;
     set_next p (h_next hb)
   else set_next p bp);;
  set_freep p.

Lemma join_prev_ok d a bp nb sb na : a.1 <> bp -> mem d !! a.1 = Some (mk_header na a.2) ->
  mem d !! bp = Some (mk_header nb sb) ->
  join_prev a.1 bp d =
  Done tt (upd d (<[a.1 := if bend a =? bp then mk_header nb (a.2 + sb) else mk_header bp a.2]> (mem d)) a.1).
Proof.
  intros Hne Ea Eb. unfold join_prev, set_size, set_next, set_freep, at_header, set_mem, upd, load. msimp.
  rewrite Ea. cbn [h_size]. unfold bend. destruct (hadd a.1 a.2 =? bp).
  - rewrite Eb. cbn [h_size h_next mem freep brkp]. rewrite Ea. cbn [default h_next].
    rewrite lookup_insert_eq. cbn [default h_size]. by rewrite insert_insert_eq.
  - cbn [mem freep brkp]. rewrite Ea. done.
Qed.

(** What the block [a] of a list is. *)
Lemma middle_block d L0 a L2 live : heap_inv d (L0 ++ a :: L2) live ->
  (L0 = [] -> a = (base, 0)) /\ (L0 <> [] -> in_heap (brkp d) a /\ forall y, y ∈ live -> apart y a).
Proof.
  intros Hi. split.
  - intros ->. pose proof (hi_base _ _ _ Hi) as Hb. by injection Hb.
  - intros Hne. assert (a ∈ tail (L0 ++ a :: L2)) as Hin by (destruct L0; [done|simpl; set_solver]).
    split; [|intros y Hy; by apply (hi_sep _ _ _ Hi)].
    pose proof (hi_free _ _ _ Hi) as Hf. rewrite Forall_forall in Hf. by apply Hf.
Qed.

(** The two lists [join_prev] leaves, for a block [(bp, s1)] already linked to [L2x]. *)
Lemma insert_inv d L0 a L2 L2x live bp s1 :
  heap_inv d (L0 ++ a :: L2) live -> (forall y, y ∈ live -> y.1 <> bp) ->
  a.1 < bp -> bend a <= bp -> in_heap (brkp d) (bp, s1) ->
  Forall (fun y => before (bp, s1) y) L2x -> (forall y, y ∈ live -> apart y (bp, s1)) ->
  links (mem d) L2x base -> StronglySorted before L2x -> Forall (in_heap (brkp d)) L2x -> (forall y, y ∈ L2x -> y ∈ L2) ->
  heap_inv (upd d (<[a.1 := if bend a =? bp then mk_header (head_addr L2x base) (a.2 + s1) else mk_header bp a.2]>
                    (<[bp := mk_header (head_addr L2x base) s1]> (mem d))) a.1)
    (if bend a =? bp then L0 ++ (a.1, a.2 + s1) :: L2x else L0 ++ (a.1, a.2) :: (bp, s1) :: L2x) live.
Proof.
  intros Hi Hlv Hab Hae Hbh Hbf Hap Hl Hs Hf Hin. pose proof base_below as Hbb.
  pose proof (hi_sorted _ _ _ Hi) as Hsort. apply sorted_app in Hsort as (_ & Hsa & Hs0a).
  apply StronglySorted_inv in Hsa as [_ Hsa]. rewrite Forall_forall in Hsa, Hbf.
  destruct (middle_block _ _ _ _ _ Hi) as [Hz Hnz].
  assert (a.1 ∉ L2x.*1 /\ bp ∉ L2x.*1) as [Hna Hnb].
  { split; intros Hy; apply list_elem_of_fmap in Hy as (y & E & Hy).
    - destruct (Hsa y (Hin y Hy)). lia.
    - destruct (Hbf y Hy) as [A1 _]. simpl in A1. lia. }
  assert (forall m : gmap Z header, (forall x : block, x.1 <> a.1 -> x.1 <> bp -> m !! x.1 = mem d !! x.1) ->
    forall x : block, x ∈ L0 \/ x ∈ live -> m !! x.1 = mem d !! x.1) as Hm.
  { intros m Hm x [Hx|Hx]; apply Hm.
    - destruct (Hs0a x a Hx); [by left|lia].
    - destruct (Hs0a x a Hx); [by left|lia].
    - apply (live_not_free _ _ _ _ _ Hi Hx). set_solver.
    - by apply Hlv. }
  destruct Hbh as (B1 & B2 & B3). simpl in B1, B2. destruct (Z.eqb_spec (bend a) bp) as [Eb|Eb].
  - assert (L0 <> []) as Hne.
    { intros E. rewrite (Hz E) in Eb. unfold bend, hadd in Eb. simpl in Eb. lia. }
    destruct (Hnz Hne) as [(B4 & B5 & B6) Hapa].
    assert (bend (a.1, a.2 + s1) = bend (bp, s1)) as Ee by (unfold bend, hadd in *; simpl; lia).
    eapply replace_suffix; [exact Hi|done| | | |done| | | |].
    + apply Hm. intros x N1 N2. by rewrite !lookup_insert_ne by done.
    + cbn [links fst snd]. rewrite lookup_insert_eq. split; [done|]. by rewrite !links_insert.
    + constructor; [done|]. apply Forall_forall. intros y Hy. destruct (Hbf y Hy), (Hsa y (Hin y Hy)).
      split; [done|]. by rewrite Ee.
    + intros _. split_and!; [simpl; lia|done|]. by rewrite Ee.
    + intros y z Hy Hz'. apply (hi_sep _ _ _ Hi); [done|]. destruct L0; [done|]. simpl. set_solver.
    + intros y Hy _. pose proof (Hapa y Hy) as A1. pose proof (Hap y Hy) as A2.
      pose proof (hi_live _ _ _ Hi) as Hlv'. rewrite Forall_forall in Hlv'. destruct (Hlv' y Hy) as (? & _).
      unfold apart in *. rewrite Ee. unfold bend, hadd, sizeof_Header in *. simpl in *. lia.
    + rewrite fmap_app. set_solver.
  - eapply replace_suffix; [exact Hi| | | | | | | | |].
    + intros E. by rewrite (Hz E).
    + apply Hm. intros x N1 N2. by rewrite !lookup_insert_ne by done.
    + cbn [links fst snd head_addr]. rewrite lookup_insert_eq, lookup_insert_ne, lookup_insert_eq by lia.
      split; [done|]. split; [done|]. by rewrite !links_insert.
    + constructor; [constructor; [done|by apply Forall_forall]|]. constructor; [split; [done|by destruct a]|].
      apply Forall_forall. intros y Hy. destruct a. apply (Hsa y (Hin y Hy)).
    + constructor; [done|done].
    + intros Hne. destruct a. by apply Hnz.
    + intros y z Hy Hz'. apply elem_of_cons in Hz' as [->|Hz']; [by apply Hap|].
      apply (hi_sep _ _ _ Hi); [done|]. destruct L0; simpl; set_solver.
    + intros y Hy Hne. destruct a. by apply Hnz.
    + rewrite fmap_app. set_solver.
Qed.

(** The list [join_prev] leaves holds the block, and nothing in it touches. *)
Lemma freed_list L0 a L2 L2x x s1 :
  0 <= a.2 -> 1 <= x.2 -> a.1 < x.1 -> bend a <= x.1 -> Forall (fun y => before x y /\ 1 <= y.2) L2 ->
  (L2x = L2 /\ s1 = x.2 /\ bend x <> head_addr L2 base \/ exists b, L2 = b :: L2x /\ bend x = b.1 /\ s1 = x.2 + b.2 /\ 1 <= b.2) ->
  let L' := if bend a =? x.1 then L0 ++ (a.1, a.2 + s1) :: L2x else L0 ++ (a.1, a.2) :: (x.1, s1) :: L2x in
  adds (L0 ++ a :: L2) x L' /\ (gaps (L0 ++ a :: L2) -> gaps L').
Proof.
  intros Ha Hx Hax Hae Hbf Hj. destruct a as [aa sa], x as [xa sx]. cbn [fst snd] in *.
  assert (s1 >= sx) as Hs1 by (destruct Hj as [(_ & -> & _)|(b & _ & _ & -> & ?)]; lia).
  assert (forall p, xa <= p < bend (xa, s1) \/ covers L2x p <-> xa <= p < bend (xa, sx) \/ covers L2 p) as Hcov.
  { intros p. destruct Hj as [(-> & -> & _)|(b & -> & Eb & -> & ?)]; [done|]. rewrite covers_cons, covers_cut by lia.
    fold (bend (xa, sx)) in *. change (hadd xa sx) with (bend (xa, sx)). rewrite Eb. destruct b. cbn [fst snd]. tauto. }
  assert (gaps ((aa, sa) :: L2) -> gaps ((xa, s1) :: L2x)) as Hgap.
  { rewrite !gaps_cons. intros [_ Hg]. destruct Hj as [(-> & -> & Hne)|(b & -> & Eb & -> & ?)].
    - split; [|done]. destruct L2 as [|c L2]; [constructor|]. apply Forall_cons in Hbf as [[[_ Hc] Hc1] _].
      apply gaps_cons in Hg as [Hg _]. simpl in Hne. constructor; [unfold gap; lia|].
      eapply Forall_impl; [exact Hg|]. intros z. unfold gap, bend, hadd, sizeof_Header in *. cbn [fst snd] in *. lia.
    - apply gaps_cons in Hg as [Hg1 Hg2]. split; [|done]. eapply Forall_impl; [exact Hg1|].
      intros z. unfold gap, bend, hadd in *. cbn [fst snd] in *. lia. }
  assert (gaps (L0 ++ (aa, sa) :: L2) -> Forall (gap (xa, s1)) L2x /\ gaps L2x) as Hgap'.
  { unfold gaps at 1. rewrite StronglySorted_app, <- gaps_cons. tauto. }
  assert (forall z, gap (xa, s1) z -> aa < z.1) as Hlt.
  { intros z. unfold gap, bend, hadd, sizeof_Header in *. cbn [fst snd] in *. lia. }
  destruct (Z.eqb_spec (bend (aa, sa)) xa) as [E|E]; (split; [intros p; specialize (Hcov p)|intros Hg; destruct (Hgap' Hg) as [Hg1 Hg2]]).
  - rewrite !covers_app, !covers_cons, covers_nil. cbn [fst snd]. rewrite covers_cut by lia. cbn [fst snd].
    change (hadd aa sa) with (bend (aa, sa)). rewrite E. tauto.
  - apply (gaps_suffix _ _ _ _ Hg).
    + apply gaps_cons. split; [|done]. eapply Forall_impl; [exact Hg1|]. intros z.
      unfold gap, bend, hadd in *. cbn [fst snd] in *. lia.
    + constructor; [done|]. eapply Forall_impl; [exact Hg1|]. intros z Hz%Hlt. cbn [fst]. lia.
  - rewrite !covers_app, !covers_cons, covers_nil. cbn [fst snd]. tauto.
  - apply (gaps_suffix _ _ _ _ Hg).
    + rewrite !gaps_cons. split_and!; try done. constructor; [unfold gap; cbn [fst snd] in *; lia|].
      eapply Forall_impl; [exact Hg1|]. intros z. unfold gap, bend, hadd, sizeof_Header in *. cbn [fst snd] in *. lia.
    + constructor; [done|]. constructor; [cbn [fst]; lia|]. eapply Forall_impl; [exact Hg1|]. intros z Hz%Hlt. cbn [fst]. lia.
Qed.

(** [__shm_free] of a floating block makes it free, joined with its neighbours. *)
Lemma free_block_ok d L live x fuel :
  heap_inv d L live -> floating d L live x -> (length L <= fuel)%nat ->
  exists d' L', __shm_free fuel (hadd x.1 1) d = Done tt d' /\ heap_inv d' L' live /\ brkp d' = brkp d /\
    (length L' <= S (length L))%nat /\ (exists y, y ∈ L' /\ x.2 <= y.2) /\ adds L x L' /\ (gaps L -> gaps L').
Proof.
  intros Hi Hx Hfuel. destruct (floating_place d L live x Hi Hx) as (L0 & a & L2 & -> & Hax & Hae & Hbf).
  destruct (fl_heap _ _ _ _ Hx) as (Hs1 & Hs2 & Hs3). pose proof base_below as Hbb.
  destruct (fl_header _ _ _ _ Hx) as [nx Em].
  assert ((L0 ++ a :: L2) !! length L0 = Some a) as Ea by (by rewrite list_lookup_middle).
  pose proof (hi_freep _ _ _ Hi) as Hfp. apply list_elem_of_fmap in Hfp as (f & Ef & Hfin).
  apply list_elem_of_lookup in Hfin as [i Hfi].
  assert (hadd x.1 1 - sizeof_Header = x.1) as Ebp by (unfold hadd; lia).
  assert (mem d !! a.1 = Some (mk_header (head_addr L2 base) a.2)) as Ema.
  { pose proof (hi_links _ _ _ Hi) as Hl. apply links_app in Hl as [_ [Hl _]]. exact Hl. }
  assert (free_loop fuel (freep d) x.1 d = Done a.1 d) as Eloop.
  { rewrite Ef. eapply (free_loop_ok d _ live x.1 (length L0) a Hi); [lia|done|done| |exact Hfi|].
    - intros b Eb. rewrite lookup_app_r in Eb by lia. replace (S (length L0) - length L0)%nat with 1%nat in Eb by lia.
      destruct L2 as [|c L2]; [done|]. simpl in Eb. simplify_eq. apply Forall_cons in Hbf as [[] _]. done.
    - pose proof (lookup_lt_Some _ _ _ Hfi). pose proof (lookup_lt_Some _ _ _ Ea).
      pose proof (steps_lt (length (L0 ++ a :: L2)) i (length L0)). lia. }
  destruct (join_next_ok d L0 a L2 live x nx Hi Hx Em Hbf) as (s1 & L2x & Ejn & Hj).
  destruct (joined d L0 a L2 L2x live x s1 Hi Hx Hbf Hj) as (Hh & Hle & Hbf' & Hap & Hlen & Hl & Hs & Hf & Hin).
  set (d1 := upd d (<[x.1 := mk_header (head_addr L2x base) s1]> (mem d)) (freep d)) in *.
  assert (mem d1 !! a.1 = Some (mk_header (head_addr L2 base) a.2)) as Ema1.
  { unfold d1, upd. cbn [mem]. rewrite lookup_insert_ne by lia. done. }
  pose proof (join_prev_ok d1 a x.1 (head_addr L2x base) s1 (head_addr L2 base) ltac:(lia) Ema1) as Ejp.
  specialize (Ejp (lookup_insert_eq _ _ _)).
  exists (upd d1 (<[a.1 := if bend a =? x.1 then mk_header (head_addr L2x base) (a.2 + s1) else mk_header x.1 a.2]> (mem d1)) a.1).
  exists (if bend a =? x.1 then L0 ++ (a.1, a.2 + s1) :: L2x else L0 ++ (a.1, a.2) :: (x.1, s1) :: L2x).
  split; [|split; [|split; [done|]]].
  - unfold __shm_free. destruct (Z.eqb_spec (hadd x.1 1) 0) as [E|_].
    { exfalso. pose proof arena_pos. pose proof lock_small. unfold hadd, sizeof_Header, brk_start, base in *. lia. }
    rewrite Ebp. erewrite bind_Done by reflexivity. erewrite bind_Done by exact Eloop.
    erewrite bind_Done by exact (load_ok _ _ _ Em). erewrite bind_Done by exact (load_ok _ _ _ Ema).
    etransitivity; [apply (bind_Done (join_next _ _ _) _ _ _ _ Ejn)|]. exact Ejp.
  - apply (insert_inv d L0 a L2); try done. intros y Hy. by apply (live_not_floating _ _ _ _ _ Hi Hx).
  - rewrite assoc by apply _. split; cycle 1.
    { apply (freed_list L0 a L2 L2x x s1); try done.
      - destruct (middle_block _ _ _ _ _ Hi) as [Hz Hnz]. destruct L0; [by rewrite Hz|]. destruct Hnz as [(? & _) _]; [done|]. lia.
      - pose proof (hi_free _ _ _ Hi) as Hfr. rewrite Forall_forall in Hfr, Hbf. apply Forall_forall. intros y Hy.
        split; [by apply Hbf|]. apply (Hfr y). destruct L0; simpl; set_solver. }
    rewrite !length_app in *. simpl in *. destruct (bend a =? x.1); rewrite length_app; simpl; (split; [lia|]).
    + exists (a.1, a.2 + s1). split; [set_solver|]. simpl.
      destruct (middle_block _ _ _ _ _ Hi) as [Hz Hnz]. destruct L0 as [|c L0].
      * rewrite Hz by done. simpl. lia.
      * destruct Hnz as [(? & _) _]; [done|]. lia.
    + exists (x.1, s1). split; [set_solver|]. done.
Qed.

End Free.

(** ** Allocating *)

Section Alloc.
Context `{Arena} `{!ArenaOk}.
Implicit Types (d : malloc_data) (L live : list block).

Lemma floating_live d L live x : heap_inv d L live -> floating d L live x -> heap_inv d L (x :: live).
Proof.
  intros Hi Hx. constructor; try apply Hi.
  - constructor; [apply Hx|apply Hi].
  - intros y Hy. apply elem_of_cons in Hy as [->|Hy]; [apply Hx|by apply (hi_headers _ _ _ Hi)].
  - constructor; [|apply Hi]. apply List.Forall_forall. intros y Hy. apply list_elem_of_In in Hy.
    pose proof (fl_live _ _ _ _ Hx y Hy). unfold apart in *. tauto.
  - intros y z Hy Hz. apply elem_of_cons in Hy as [->|Hy]; [by apply Hx|by apply (hi_sep _ _ _ Hi)].
Qed.

(** The tail of the block that is found, or all of it. *)
Definition take_block (nunits p prevp : Z) (h : header) : M malloc_data Z :=
  q ← (if h_size h =? nunits then set_next prevp (h_next h);; mret p
       else
         set_size p (h_size h - nunits);;
         let q := hadd p (h_size h - nunits) in
         set_size q nunits;;
         mret q);
  set_freep prevp;;
  mret (hadd q 1).

(** A live block does not start inside a free one. *)
Lemma live_outside d L live x y q : heap_inv d L live -> x ∈ live -> y ∈ tail L ->
  y.1 <= q < bend y -> x.1 <> q.
Proof.
  intros Hi Hx Hy Hq E. pose proof (hi_sep _ _ _ Hi x y Hx Hy) as Ha.
  pose proof (hi_live _ _ _ Hi) as Hl. rewrite Forall_forall in Hl. destruct (Hl x Hx) as (? & _).
  unfold apart, bend, hadd, sizeof_Header in *. lia.
Qed.

(** The whole block is taken. *)
Lemma take_exact d L0 b p n L2 live : heap_inv d (L0 ++ b :: (p, n) :: L2) live ->
  exists d', take_block n p b.1 (mk_header (head_addr L2 base) n) d = Done (hadd p 1) d' /\
    heap_inv d' (L0 ++ b :: L2) ((p, n) :: live) /\ brkp d' = brkp d.
Proof.
  intros Hi. pose proof (hi_sorted _ _ _ Hi) as Hsort. apply sorted_app in Hsort as (_ & Hsb & Hs0).
  apply StronglySorted_inv in Hsb as [Hsp Hsb]. apply Forall_cons in Hsb as [Hbp Hsb].
  pose proof (StronglySorted_inv Hsp) as [Hs2 Hp2]. rewrite Forall_forall in Hsb, Hp2.
  pose proof (hi_links _ _ _ Hi) as Hl. apply links_app in Hl as [_ (Hlb & Hlp & Hl2)]. simpl in Hlb, Hlp.
  destruct (middle_block _ _ _ _ _ Hi) as [Hz Hnz].
  assert ((p, n) ∈ tail (L0 ++ b :: (p, n) :: L2)) as Hpin by (destruct L0; simpl; set_solver).
  pose proof (hi_free _ _ _ Hi) as Hf. rewrite Forall_forall in Hf.
  exists (upd d (<[b.1 := mk_header (head_addr L2 base) b.2]> (mem d)) b.1). split; [|split; [|done]].
  { unfold take_block, set_next, set_freep, at_header, set_mem, upd. msimp. cbn [h_size h_next].
    rewrite Z.eqb_refl. cbn [mem freep brkp]. rewrite Hlb. done. }
  assert (heap_inv (upd d (<[b.1 := mk_header (head_addr L2 base) b.2]> (mem d)) b.1) (L0 ++ (b.1, b.2) :: L2) live) as Hi'.
  { eapply replace_suffix; [exact Hi| | | | | | | | |].
    - intros E. by rewrite (Hz E).
    - intros x [Hx|Hx]; rewrite lookup_insert_ne; [done| |done|].
      + destruct (Hs0 x b Hx); [by left|lia].
      + intros E. apply (live_not_free _ _ _ x b Hi Hx); [set_solver|done].
    - cbn [links fst snd]. rewrite lookup_insert_eq. split; [done|]. apply links_insert; [|done].
      intros Hy. apply list_elem_of_fmap in Hy as (y & E & Hy). destruct (Hsb y Hy). lia.
    - destruct b. constructor; [done|by apply Forall_forall].
    - apply Forall_forall. intros y Hy. apply Hf. destruct L0; simpl; set_solver.
    - intros Hne. destruct b. by apply Hnz.
    - intros y z Hy Hz'. apply (hi_sep _ _ _ Hi); [done|]. destruct L0; simpl; set_solver.
    - intros y Hy Hne. destruct b. by apply Hnz.
    - rewrite fmap_app. set_solver. }
  destruct b as [ba bs]. apply floating_live; [exact Hi'|]. constructor.
  - by apply (Hf (p, n)).
  - unfold upd. cbn [mem fst snd]. exists (head_addr L2 base). rewrite lookup_insert_ne; [done|]. destruct Hbp. simpl in *. lia.
  - intros y Hy. unfold apart. assert (y ∈ L0 \/ y = (ba, bs) \/ y ∈ L2) as [Hy'|[->|Hy']].
    { destruct L0; simpl in Hy; set_solver. }
    + right. apply (Hs0 y (p, n)); [done|set_solver].
    + right. apply Hbp.
    + left. by apply Hp2.
  - intros y Hy. by apply (hi_sep _ _ _ Hi).
Qed.

(** The end of the block is taken. *)
Lemma take_tail d L0 b p s n L2 live : heap_inv d (L0 ++ b :: (p, s) :: L2) live -> 1 <= n < s ->
  exists d', take_block n p b.1 (mk_header (head_addr L2 base) s) d = Done (hadd (hadd p (s - n)) 1) d' /\
    heap_inv d' (L0 ++ b :: (p, s - n) :: L2) ((hadd p (s - n), n) :: live) /\ brkp d' = brkp d.
Proof.
  intros Hi Hn. set (q := hadd p (s - n)).
  pose proof (hi_sorted _ _ _ Hi) as Hsort. pose proof (hi_sorted _ _ _ Hi) as Hsort'.
  rewrite (cons_middle b), app_assoc in Hsort.
  apply sorted_app in Hsort as (_ & Hsp & Hs0). apply StronglySorted_inv in Hsp as [Hs2 Hp2]. rewrite Forall_forall in Hp2.
  pose proof (hi_links _ _ _ Hi) as Hl. apply links_app in Hl as [_ (Hlb & Hlp & Hl2)]. simpl in Hlp.
  assert ((p, s) ∈ tail (L0 ++ b :: (p, s) :: L2)) as Hpin by (destruct L0; simpl; set_solver).
  pose proof (hi_free _ _ _ Hi) as Hf. rewrite Forall_forall in Hf. destruct (Hf _ Hpin) as (B1 & B2 & B3). cbn [fst snd] in B1, B2.
  assert (p < q < bend (p, s)) as Hq by (unfold q, bend, hadd, sizeof_Header; simpl; lia).
  assert (bend (q, n) = bend (p, s) /\ bend (p, s - n) = q) as [Eq Ep] by (unfold q, bend, hadd; simpl; lia).
  assert (forall y, y ∈ L0 ++ [b] \/ y ∈ live \/ y ∈ L2 -> y.1 <> p /\ y.1 <> q) as Hne.
  { intros y [Hy|[Hy|Hy]].
    - destruct (Hs0 y (p, s) Hy) as [A1 _]; [by left|]. simpl in A1. lia.
    - split; [|apply (live_outside _ _ _ _ _ q Hi Hy Hpin); simpl; lia].
      apply (live_outside _ _ _ _ _ p Hi Hy Hpin). simpl; lia.
    - destruct (Hp2 y Hy) as [A1 A2]. simpl in A1. lia. }
  set (nx := h_next (default (mk_header 0 0) (mem d !! q))).
  exists (upd d (<[q := mk_header nx n]> (<[p := mk_header (head_addr L2 base) (s - n)]> (mem d))) b.1).
  split; [|split; [|done]].
  { unfold take_block, set_size, set_freep, at_header, set_mem, upd. msimp. cbn [h_size h_next].
    destruct (Z.eqb_spec s n); [lia|]. cbn [mem freep brkp]. rewrite Hlp. cbn [default h_next]. fold q.
    rewrite lookup_insert_ne by lia. done. }
  rewrite (cons_middle b), app_assoc in Hi.
  assert (heap_inv (upd d (<[q := mk_header nx n]> (<[p := mk_header (head_addr L2 base) (s - n)]> (mem d))) b.1)
    ((L0 ++ [b]) ++ (p, s - n) :: L2) live) as Hi'.
  { apply (replace_suffix d (L0 ++ [b]) (p, s) L2 (s - n)); cbn [fst]; try done.
    - by destruct L0.
    - intros x Hx. destruct (Hne x) as [A1 A2]; [tauto|]. by rewrite !lookup_insert_ne by done.
    - cbn [links fst snd]. rewrite lookup_insert_ne, lookup_insert_eq by lia. split; [done|].
      rewrite !links_insert; [done| |]; intros Hy; apply list_elem_of_fmap in Hy as (y & E & Hy);
        destruct (Hne y); auto; lia.
    - constructor; [done|]. apply Forall_forall. intros y Hy. destruct (Hp2 y Hy) as [A1 A2]. split; [done|]. rewrite Ep. lia.
    - apply Forall_forall. intros y Hy. apply Hf. destruct L0; simpl; set_solver.
    - intros _. split_and!; [simpl; lia|done|]. rewrite Ep. lia.
    - intros y z Hy Hz. apply (hi_sep _ _ _ Hi); [done|]. destruct L0; simpl; set_solver.
    - intros y Hy _. pose proof (hi_sep _ _ _ Hi y (p, s) Hy) as Ha. unfold apart in *. rewrite Ep. simpl in *.
      destruct Ha as [Ha|Ha]; [destruct L0; simpl; set_solver|by left|right; lia].
    - rewrite fmap_app. set_solver. }
  rewrite <- app_assoc in Hi'. apply floating_live; [exact Hi'|]. constructor.
  - split_and!; simpl; [lia|lia|]. rewrite Eq. done.
  - unfold upd. cbn [mem fst snd]. exists nx. by rewrite lookup_insert_eq.
  - intros y Hy. unfold apart. assert (y ∈ L0 ++ [b] \/ y = (p, s - n) \/ y ∈ L2) as [Hy'|[->|Hy']].
    { destruct L0; simpl in Hy; set_solver. }
    + right. destruct (Hs0 y (p, s) Hy') as [_ A2]; [by left|]. simpl in *. lia.
    + right. rewrite Ep. done.
    + left. rewrite Eq. by apply Hp2.
  - intros y Hy. pose proof (hi_sep _ _ _ Hi y (p, s) Hy) as Ha. unfold apart in *. rewrite Eq. cbn [fst] in *.
    destruct Ha as [Ha|Ha]; [destruct L0; simpl; set_solver|left; lia|by right].
Qed.

(** Memory that leaves the free list for a live block does not leak. *)
Lemma taken_full d L live d' L' x : heap_full d L live -> heap_inv d' L' (x :: live) -> brkp d' = brkp d ->
  adds L' x L -> gaps L' -> heap_full d' L' (x :: live).
Proof.
  intros Hf Hi' Eb Ha Hg. split; [done|done|]. intros p Hp. rewrite Eb in Hp. destruct (hf_tiled _ _ _ Hf p Hp) as [Hc|Hc].
  - apply Ha in Hc. rewrite covers_cons, covers_nil in Hc. rewrite covers_cons. tauto.
  - rewrite covers_cons. tauto.
Qed.

Lemma gaps_take_exact L0 b x L2 : gaps (L0 ++ b :: x :: L2) -> gaps (L0 ++ b :: L2).
Proof.
  unfold gaps. rewrite !StronglySorted_app, !StronglySorted_cons.
  intros (A0 & ? & [? ?]%Forall_cons & _ & ?). split_and!; try done. intros y z Hy Hz. apply A0; set_solver.
Qed.

Lemma gaps_take_tail L0 b p s n L2 : 1 <= n -> gaps (L0 ++ b :: (p, s) :: L2) -> gaps (L0 ++ b :: (p, s - n) :: L2).
Proof.
  intros Hn. unfold gaps. rewrite !StronglySorted_app, !StronglySorted_cons.
  intros (A0 & A1 & [A2 A3]%Forall_cons & A4 & A5). split_and!; try done.
  - intros x y Hx Hy. assert (y = (p, s - n) \/ y ∈ b :: (p, s) :: L2) as [->|Hy'] by set_solver; [|by apply A0]. apply (A0 x (p, s)); set_solver.
  - constructor; [exact A2|done].
  - eapply Forall_impl; [exact A4|]. intros z. unfold gap, bend, hadd, sizeof_Header. cbn [fst snd]. lia.
Qed.

(** Taking the block at position [i] of the list. *)
Lemma take_ok d L live n i x b nx : heap_full d L live -> 1 <= n <= x.2 ->
  L !! i = Some b -> L !! S i = Some x -> mem d !! x.1 = Some (mk_header nx x.2) ->
  exists q d' L', take_block n x.1 b.1 (mk_header nx x.2) d = Done (hadd q 1) d' /\
    heap_full d' L' ((q, n) :: live) /\ brkp d' = brkp d.
Proof.
  intros Hfull Hn Eb Ex Em. pose proof (hf_inv _ _ _ Hfull) as Hi. pose proof (hf_gaps _ _ _ Hfull) as Hg.
  destruct x as [p s]. cbn [fst snd] in *.
  assert (L = take i L ++ b :: (p, s) :: drop (S (S i)) L) as EL.
  { rewrite <- (take_drop_middle L i b Eb) at 1. do 2 f_equal.
    by rewrite (drop_S L (p, s) (S i)). }
  rewrite EL in Hi, Hg, Hfull. pose proof (hi_links _ _ _ Hi) as Hl. apply links_app in Hl as [_ (_ & Hlp & _)].
  simpl in Hlp. rewrite Em in Hlp. injection Hlp as ->.
  destruct (decide (s = n)) as [->|Hne].
  - destruct (take_exact _ _ _ _ _ _ _ Hi) as (d' & E & Hi' & Hb). eexists _, _, _. split; [exact E|]. split; [|done].
    apply (taken_full _ _ _ _ _ _ Hfull Hi' Hb); [|by apply gaps_take_exact in Hg].
    intros q. rewrite !covers_app, !covers_cons, covers_nil. tauto.
  - destruct (take_tail _ _ _ _ _ n _ _ Hi) as (d' & E & Hi' & Hb); [lia|]. eexists _, _, _. split; [exact E|]. split; [|done].
    apply (taken_full _ _ _ _ _ _ Hfull Hi' Hb); [|apply gaps_take_tail; [lia|done]].
    intros q. rewrite !covers_app, !covers_cons, covers_nil. cbn [fst snd].
    pose proof (covers_cut p (s - n) n q ltac:(lia) ltac:(lia)) as Hc. replace (s - n + n) with s in Hc by lia. tauto.
Qed.

Lemma addr_pos d L live i x : heap_inv d L live -> L !! i = Some x -> 0 < x.1.
Proof.
  intros Hi E. pose proof arena_pos. pose proof lock_small. apply list_elem_of_lookup_2, (tail_elem L x (hi_base _ _ _ Hi)) in E as [->|E].
  - simpl. unfold base. lia.
  - pose proof (hi_free _ _ _ Hi) as Hf. rewrite Forall_forall in Hf. destruct (Hf x E) as (_ & ? & _).
    unfold brk_start, base, sizeof_Header in *. lia.
Qed.

Lemma addr_inj d L live i j x y : heap_inv d L live -> L !! i = Some x -> L !! j = Some y -> x.1 = y.1 -> i = j.
Proof.
  intros Hi Ex Ey E. eapply (NoDup_lookup L.*1 i j x.1); [apply blocks_NoDup, Hi| |];
    rewrite list_lookup_fmap, ?Ex, ?Ey; simpl; congruence.
Qed.

(** The block before position [i], for positions after the first. *)
Definition prev_is L (i : nat) (prevp : Z) : Prop := forall j, i = S j -> exists b, L !! j = Some b /\ prevp = b.1.

(** One round of the loop at a block that is too small. *)
Lemma malloc_step d L live n f z i x prevp fuel :
  heap_inv d L live -> L !! f = Some z -> freep d = z.1 -> L !! i = Some x -> x.2 < n -> i <> f ->
  exists y, L !! nxt (length L) i = Some y /\ prev_is L (nxt (length L) i) x.1 /\
    malloc_loop (S fuel) n x.1 prevp d = malloc_loop fuel n y.1 x.1 d.
Proof.
  intros Hi Ef Hfp Ei Hs Hne. destruct (next_ok d L live i x Hi Ei) as (y & Ey & Em). exists y. split; [done|]. split.
  { intros j Ej. unfold nxt in Ej. case_decide; [done|]. simplify_eq. by exists x. }
  cbn [malloc_loop]. erewrite bind_Done by exact (load_ok _ _ _ Em). cbn [h_size h_next]. rewrite Z.geb_leb.
  destruct (Z.leb_spec n x.2); [lia|]. erewrite bind_Done by reflexivity. rewrite Hfp.
  destruct (Z.eqb_spec x.1 z.1) as [E|_]; [by destruct (Hne (addr_inj _ _ _ _ _ _ _ Hi Ei Ef E))|].
  erewrite bind_Done by reflexivity. pose proof (addr_pos _ _ _ _ _ Hi Ei). destruct (Z.eqb_spec x.1 0); [lia|].
  erewrite bind_Done by exact (load_ok _ _ _ Em). done.
Qed.

(** At a block that is big enough. *)
Lemma malloc_found d L live n i x prevp fuel : heap_full d L live -> 1 <= n -> n <= x.2 ->
  L !! i = Some x -> prev_is L i prevp ->
  exists q d' L', malloc_loop (S fuel) n x.1 prevp d = Done (hadd q 1) d' /\
    heap_full d' L' ((q, n) :: live) /\ brkp d' = brkp d.
Proof.
  intros Hfull Hn Hs Ei Hp. pose proof (hf_inv _ _ _ Hfull) as Hi. destruct (next_ok d L live i x Hi Ei) as (y & Ey & Em). destruct i as [|i].
  { rewrite (base_lookup _ _ _ Hi) in Ei. simplify_eq/=. lia. }
  destruct (Hp i eq_refl) as (b & Eb & ->).
  destruct (take_ok d L live n i x b y.1 Hfull) as (q & d' & L' & E & Hi'); [lia|done|done|done|].
  exists q, d', L'. split; [|done]. cbn [malloc_loop]. erewrite bind_Done by exact (load_ok _ _ _ Em).
  cbn [h_size]. rewrite Z.geb_leb. destruct (Z.leb_spec n x.2); [|lia]. exact E.
Qed.

(** When a block that is big enough lies between [i] and [freep], it is found. *)
Lemma malloc_find d L live n f z k y : heap_full d L live -> 1 <= n ->
  L !! f = Some z -> freep d = z.1 -> L !! k = Some y -> n <= y.2 ->
  forall fuel i x prevp, L !! i = Some x -> (steps (length L) i k <= steps (length L) i f)%nat ->
  (steps (length L) i k < fuel)%nat -> prev_is L i prevp ->
  exists q d' L', malloc_loop fuel n x.1 prevp d = Done (hadd q 1) d' /\
    heap_full d' L' ((q, n) :: live) /\ brkp d' = brkp d.
Proof.
  intros Hfull Hn Ef Hfp Ek Hk. pose proof (hf_inv _ _ _ Hfull) as Hi. pose proof (lookup_lt_Some _ _ _ Ef). pose proof (lookup_lt_Some _ _ _ Ek).
  induction fuel as [|fuel IH]; intros i x prevp Ei Hst Hfu Hp; [lia|]. pose proof (lookup_lt_Some _ _ _ Ei).
  destruct (Z.le_gt_cases n x.2) as [Hbig|Hsmall]; [by apply (malloc_found d L live n i)|].
  assert (i <> k) as Hik by (intros ->; assert (x = y) as -> by congruence; lia).
  assert (i <> f) as Hif.
  { intros ->. rewrite steps_same in Hst. rewrite (steps_nxt _ f k) in Hst by done. lia. }
  destruct (malloc_step d L live n f z i x prevp fuel Hi Ef Hfp Ei Hsmall Hif) as (w & Ew & Hpw & ->).
  rewrite (steps_nxt _ i k), (steps_nxt _ i f) in Hst by done. rewrite (steps_nxt _ i k) in Hfu by done.
  apply (IH (nxt (length L) i)); [done|lia|lia|done].
Qed.

(** ** Growing the heap *)

Lemma list_size d L live : heap_inv d L live -> (length L <= size (mem d))%nat.
Proof.
  intros Hi. rewrite <- (length_fmap fst L), <- (size_list_to_set (C := gset Z)) by (apply blocks_NoDup, Hi).
  rewrite <- size_dom. apply subseteq_size. intros p Hp.
  apply elem_of_list_to_set, list_elem_of_fmap in Hp as (x & -> & Hx). apply list_elem_of_lookup in Hx as [i Hx].
  destruct (next_ok _ _ _ _ _ Hi Hx) as (y & _ & E). by apply elem_of_dom_2 in E.
Qed.

(** The units [morecore] asks for. *)
Definition core_units (n : Z) : Z := (n + NALLOC - 1) / NALLOC * NALLOC.

Lemma core_units_bound n : n <= core_units n < n + NALLOC.
Proof. unfold core_units, NALLOC. pose proof (Z.div_mod (n + 1024 - 1) 1024). pose proof (Z.mod_pos_bound (n + 1024 - 1) 1024). lia. Qed.

(** The new block lies above everything. *)
Lemma grow_inv d L live r m : heap_inv d L live -> 1 <= r ->
  (forall p, p <> brkp d -> m !! p = mem d !! p) -> (exists nx, m !! brkp d = Some (mk_header nx r)) ->
  hadd (brkp d) r < arena_start + MEMORY_ARENA_SIZE ->
  heap_inv (mk_malloc_data m (freep d) (hadd (brkp d) r)) L live /\
  floating (mk_malloc_data m (freep d) (hadd (brkp d) r)) L live (brkp d, r).
Proof.
  intros Hi Hr Hm Hnx Htop. pose proof base_below as Hbb. pose proof (hi_brk _ _ _ Hi) as Hbrk.
  assert (forall x, in_heap (brkp d) x -> x.1 < brkp d /\ bend x <= brkp d /\ in_heap (hadd (brkp d) r) x) as Hin.
  { intros x (? & ? & ?). unfold in_heap, bend, hadd, sizeof_Header in *. lia. }
  pose proof (hi_free _ _ _ Hi) as Hf. pose proof (hi_live _ _ _ Hi) as Hl. rewrite Forall_forall in Hf, Hl.
  assert (forall x, x ∈ L -> x.1 <> brkp d) as HL.
  { intros x Hx. apply (tail_elem L x (hi_base _ _ _ Hi)) in Hx as [->|Hx]; [simpl; lia|]. destruct (Hin x); auto; lia. }
  split.
  - constructor; cbn [mem freep brkp]; try apply Hi.
    + assert (forall L', (forall x, x ∈ L' -> x.1 <> brkp d) -> links (mem d) L' base -> links m L' base) as Hlk.
      { induction L' as [|x L' IH]; simpl; [done|]. intros HL' [E Hl']. split; [rewrite Hm; [done|]; apply HL'; by left|].
        apply IH; [|done]. intros. apply HL'. by right. }
      apply Hlk; [done|apply Hi].
    + apply Forall_forall. intros x Hx. apply Hin; auto.
    + apply Forall_forall. intros x Hx. apply Hin; auto.
    + intros x Hx. rewrite Hm; [by apply (hi_headers _ _ _ Hi)|]. destruct (Hin x); auto; lia.
    + unfold hadd, sizeof_Header in *. lia.
  - constructor; cbn [mem freep brkp fst snd].
    + split_and!; simpl; [done|lia|]. unfold bend. simpl. lia.
    + done.
    + intros y Hy. right. apply Hin; auto.
    + intros y Hy. left. apply Hin; auto.
Qed.

(** Either the arena is used up, or the list has a block of [n] units. *)
Lemma morecore_ok d L live n fuel : heap_full d L live -> 1 <= n <= 2 ^ 34 -> (length L <= fuel)%nat ->
  morecore fuel n d = Done 0 d /\ arena_start + MEMORY_ARENA_SIZE <= hadd (brkp d) (core_units n) \/
  exists d' L' y, morecore fuel n d = Done (freep d') d' /\ heap_full d' L' live /\ brkp d <= brkp d' /\
    (length L' <= S (length L))%nat /\ y ∈ L' /\ n <= y.2.
Proof.
  intros Hfl Hn Hfu. pose proof (hf_inv _ _ _ Hfl) as Hi. pose proof (core_units_bound n) as Hc. pose proof (hi_brk _ _ _ Hi) as Hbrk.
  pose proof arena_pos. pose proof arena_room. pose proof lock_small.
  assert (0 < brkp d) as Hb0 by (unfold brk_start, base, sizeof_Header in *; lia).
  unfold morecore, NALLOC in *. rewrite ((wrap_small 64 (n + 1024 - 1))) by lia. fold NALLOC. fold (core_units n).
  rewrite !(wrap_small 64) by (unfold sizeof_Header; lia).
  unfold __shm_sbrk. msimp. rewrite wrap_small by (unfold sizeof_Header, MEMORY_ARENA_SIZE in *; lia).
  fold (hadd (brkp d) (core_units n)). rewrite Z.geb_leb. destruct (Z.leb_spec (arena_start + MEMORY_ARENA_SIZE) (hadd (brkp d) (core_units n))) as [Hfull|Hroom].
  { left. done. }
  right. unfold set_brkp. msimp. destruct (Z.eqb_spec (brkp d) 0); [lia|].
  set (m := <[brkp d := mk_header (h_next (default (mk_header 0 0) (mem d !! brkp d))) (core_units n)]> (mem d)).
  destruct (grow_inv d L live (core_units n) m Hi) as [Hi1 Hx]; [lia| | |done|].
  { intros p Hp. unfold m. by rewrite lookup_insert_ne. }
  { eexists. apply lookup_insert_eq. }
  destruct (free_block_ok _ _ _ _ fuel Hi1 Hx Hfu) as (d' & L' & E & Hi' & Eb & Hlen & (y & Hy & Hys) & Hadd & Hg).
  exists d', L', y. cbn [fst snd brkp] in *. split; [|split_and!; [|unfold hadd, sizeof_Header in Eb; lia|done|done|lia]].
  2: { split; [done|apply Hg, Hfl|]. intros p Hp. rewrite Eb in Hp. rewrite (Hadd p), covers_cons, covers_nil. cbn [fst].
       destruct (Z.lt_ge_cases p (brkp d)); [pose proof (hf_tiled _ _ _ Hfl p); tauto|].
       change (bend (brkp d, core_units n)) with (hadd (brkp d) (core_units n)). lia. }
  unfold set_size, at_header, set_mem. msimp. cbn [mem freep brkp]. fold m. rewrite E. done.
Qed.

(** The search, from any position, up to [freep] and then round the grown list. *)
Lemma malloc_loop_ok d L live n f z : heap_full d L live -> 1 <= n <= 2 ^ 34 -> L !! f = Some z -> freep d = z.1 ->
  forall fuel i x prevp, L !! i = Some x -> (steps (length L) i f + length L + 2 <= fuel)%nat -> prev_is L i prevp ->
  (exists q d' L', malloc_loop fuel n x.1 prevp d = Done (hadd q 1) d' /\ heap_full d' L' ((q, n) :: live) /\ brkp d <= brkp d') \/
  (malloc_loop fuel n x.1 prevp d = Done 0 d /\ arena_start + MEMORY_ARENA_SIZE <= hadd (brkp d) (core_units n)).
Proof.
  intros Hfl Hn Ef Hfp. pose proof (hf_inv _ _ _ Hfl) as Hi. pose proof (lookup_lt_Some _ _ _ Ef).
  induction fuel as [|fuel IH]; intros i x prevp Ei Hfu Hp; [lia|]. pose proof (lookup_lt_Some _ _ _ Ei).
  destruct (Z.le_gt_cases n x.2) as [Hbig|Hsmall].
  { left. destruct (malloc_found d L live n i x prevp fuel) as (q & d' & L' & E & Hi' & Eb); [done|lia|done|done|done|].
    exists q, d', L'. rewrite Eb. auto with lia. }
  destruct (decide (i = f)) as [->|Hne].
  2: { destruct (malloc_step d L live n f z i x prevp fuel Hi Ef Hfp Ei Hsmall Hne) as (w & Ew & Hpw & ->).
       rewrite (steps_nxt _ i f) in Hfu by done. apply (IH (nxt (length L) i)); [done|lia|done]. }
  assert (x = z) as -> by congruence. destruct (next_ok d L live f z Hi Ef) as (y & Ey & Em).
  cbn [malloc_loop]. erewrite bind_Done by exact (load_ok _ _ _ Em). cbn [h_size h_next]. rewrite Z.geb_leb.
  destruct (Z.leb_spec n z.2); [lia|]. erewrite bind_Done by reflexivity. rewrite Hfp, Z.eqb_refl.
  destruct (morecore_ok d L live n (S fuel) Hfl Hn) as [[E Hfull]|(d' & L' & v & E & Hfl' & Hbrk & Hlen & Hv & Hvs)]; [lia| |].
  { right. split; [|done]. erewrite bind_Done by exact E. done. }
  left. pose proof (hf_inv _ _ _ Hfl') as Hi'. erewrite bind_Done by exact E.
  pose proof (hi_freep _ _ _ Hi') as Hfp'. apply list_elem_of_fmap in Hfp' as (z' & Ez' & Hz'). rewrite Ez'.
  apply list_elem_of_lookup in Hz' as [f' Ef']. apply list_elem_of_lookup in Hv as [k Ek].
  pose proof (addr_pos _ _ _ _ _ Hi' Ef'). destruct (Z.eqb_spec z'.1 0); [lia|].
  destruct (next_ok d' L' live f' z' Hi' Ef') as (y' & Ey' & Em'). erewrite bind_Done by exact (load_ok _ _ _ Em').
  pose proof (lookup_lt_Some _ _ _ Ef'). pose proof (lookup_lt_Some _ _ _ Ek). pose proof (lookup_lt_Some _ _ _ Ey').
  destruct (malloc_find d' L' live n f' z' k v Hfl' ltac:(lia) Ef' Ez' Ek Hvs fuel (nxt (length L') f') y' z'.1)
    as (q & d2 & L2 & E2 & Hi2 & Eb2); [done|by apply steps_all| | |exists q, d2, L2; rewrite Eb2; auto].
  - eapply Nat.lt_le_trans; [by apply steps_lt|]. rewrite steps_same in Hfu. lia.
  - intros j Ej. unfold nxt in Ej. case_decide; [done|]. simplify_eq. by exists z'.
Qed.

(** The list with only [base], which the first call makes. *)
Lemma first_inv : heap_full first_list [(base, 0)] [].
Proof.
  unfold first_list. split; [|repeat constructor|cbn [brkp]; lia]. constructor; cbn [mem freep brkp links tail fst snd head_addr]; try done.
  - split; [apply lookup_singleton_eq|done].
  - repeat constructor.
  - intros x ?%elem_of_nil. done.
  - constructor.
  - set_solver.
  - set_solver.
  - pose proof lock_small. unfold brk_start, base, sizeof_Header, MEMORY_ARENA_SIZE. lia.
Qed.

Lemma malloc_from d L live n fuel : heap_full d L live -> 1 <= n <= 2 ^ 34 -> (2 * length L + 2 <= fuel)%nat ->
  exists r d', (h ← load (freep d); malloc_loop fuel n (h_next h) (freep d)) d = Done r d' /\
  ((exists q L', r = hadd q 1 /\ heap_full d' L' ((q, n) :: live) /\ brkp d <= brkp d') \/
   (r = 0 /\ d' = d /\ arena_start + MEMORY_ARENA_SIZE <= hadd (brkp d) (core_units n))).
Proof.
  intros Hfl Hn Hfu. pose proof (hf_inv _ _ _ Hfl) as Hi. pose proof (hi_freep _ _ _ Hi) as Hfp. apply list_elem_of_fmap in Hfp as (z & Ez & Hz).
  apply list_elem_of_lookup in Hz as [f Ef]. destruct (next_ok _ _ _ _ _ Hi Ef) as (y & Ey & Em).
  pose proof (lookup_lt_Some _ _ _ Ef). pose proof (lookup_lt_Some _ _ _ Ey).
  rewrite Ez. erewrite bind_Done by exact (load_ok _ _ _ Em). cbn [h_next].
  destruct (malloc_loop_ok d L live n f z Hfl Hn Ef Ez fuel (nxt (length L) f) y z.1 Ey) as [(q & d' & L' & E & Hi')|[E Hfull]].
  - pose proof (steps_lt (length L) (nxt (length L) f) f). lia.
  - intros j Ej. unfold nxt in Ej. case_decide; [done|]. simplify_eq. by exists z.
  - eauto 10.
  - eauto 10.
Qed.

(** A live block taken out of the allocated ones floats. *)
Lemma live_floating d L live1 x live2 : heap_inv d L (live1 ++ x :: live2) ->
  heap_inv d L (live1 ++ live2) /\ floating d L (live1 ++ live2) x.
Proof.
  intros Hi. pose proof (hi_live _ _ _ Hi) as Hl. apply Forall_app in Hl as [Hl1 Hl2]. apply Forall_cons in Hl2 as [Hx Hl2].
  assert (ForallOrdPairs apart (live1 ++ live2) /\ forall y, y ∈ live1 ++ live2 -> apart y x) as [Hap Hax].
  { pose proof (hi_apart _ _ _ Hi) as Hap. clear -Hap. induction live1 as [|z live1 IH]; simpl in *.
    - inversion Hap as [|? ? A1 A2]; subst. split; [done|]. rewrite List.Forall_forall in A1. intros y Hy%list_elem_of_In.
      specialize (A1 y Hy). unfold apart in *. tauto.
    - inversion Hap as [|? ? A1 A2]; subst. destruct (IH A2) as [B1 B2]. rewrite List.Forall_forall in A1. split.
      + constructor; [|done]. apply List.Forall_forall. intros y Hy. apply A1. rewrite in_app_iff in *. simpl. tauto.
      + intros y Hy. apply elem_of_cons in Hy as [->|Hy]; [|by apply B2]. apply A1. rewrite in_app_iff. simpl. tauto. }
  split.
  - constructor; try apply Hi; [by apply Forall_app|..|done|].
    + intros y Hy. apply (hi_headers _ _ _ Hi). set_solver.
    + intros y z Hy Hz. apply (hi_sep _ _ _ Hi); [set_solver|done].
  - constructor; [done|apply (hi_headers _ _ _ Hi); set_solver| |done].
    intros y Hy. apply (hi_sep _ _ _ Hi); [set_solver|done].
Qed.

(** The units of a request: its bytes, rounded up, and a header. *)
Definition request_units (nbytes : Z) : Z := (nbytes + 15) / 16 + 1.

Lemma request_bound nbytes : nbytes <= (request_units nbytes - 1) * sizeof_Header < nbytes + sizeof_Header.
Proof.
  unfold request_units, sizeof_Header. pose proof (Z.div_mod (nbytes + 15) 16). pose proof (Z.mod_pos_bound (nbytes + 15) 16). lia.
Qed.

(** The list [__shm_malloc] searches: the first call makes one. *)
Definition ready d : malloc_data := if freep d =? 0 then first_list else d.

(** [shm_malloc] on either kind of good state is the search of a list. *)
Lemma shm_malloc_start d live nbytes : heap_ok d live -> 0 <= nbytes < 2 ^ 32 ->
  exists L fuel, heap_full (ready d) L live /\ brkp (ready d) = brkp d /\ (2 * length L + 2 <= fuel)%nat /\
  shm_malloc nbytes d = (h ← load (freep (ready d)); malloc_loop fuel (request_units nbytes) (h_next h) (freep (ready d))) (ready d).
Proof.
  intros Hok Hn. unfold shm_malloc, __shm_malloc, request_units, sizeof_Header. rewrite wrap_small by lia.
  replace (nbytes + 16 - 1) with (nbytes + 15) by lia.
  destruct Hok as [[-> ->]|[L Hfl]].
  - unfold ready. cbn [init_shm_malloc freep Z.eqb].
    exists [(base, 0)], (list_fuel init_shm_malloc).
    split; [apply first_inv|]. split; [done|]. unfold list_fuel, init_shm_malloc at 1. cbn [mem length].
    rewrite map_size_singleton. split; [lia|].
    unfold init_shm_malloc, set_freep, set_next, set_size, at_header, set_mem. msimp. cbn [freep mem brkp Z.eqb].
    msimp. cbn [freep mem brkp]. rewrite lookup_singleton_eq. cbn [default h_size h_next].
    rewrite insert_singleton_eq, lookup_singleton_eq. cbn [default h_next]. by rewrite insert_singleton_eq.
  - pose proof (hf_inv _ _ _ Hfl) as Hi. pose proof (hi_freep _ _ _ Hi) as Hfp. apply list_elem_of_fmap in Hfp as (z & Ez & Hz).
    apply list_elem_of_lookup in Hz as [f Ef]. pose proof (addr_pos _ _ _ _ _ Hi Ef).
    unfold ready. destruct (Z.eqb_spec (freep d) 0) as [|Hne]; [lia|].
    exists L, (list_fuel d). split; [done|]. split; [done|]. split.
    { pose proof (list_size _ _ _ Hi). unfold list_fuel. lia. }
    msimp. by rewrite (proj2 (Z.eqb_neq _ _) Hne).
Qed.

(** C32:  [shm_malloc] always returns.  In a state whose allocated blocks are
    [live], for a request below four gigabytes, it either hands out a block of
    enough bytes and at most fifteen more, which lies in the arena apart from
    every allocated and every free block; the free list is in address order, no
    two of its blocks touch, and every byte up to the break, which never moves
    down, belongs to exactly one free or allocated block.  Or it returns NULL,
    nothing has changed, but that the very first call sets up the empty list,
    and the request does not fit between the break and the end of the arena, up
    to one [NALLOC] of rounding.  (A request close to [2 ^ 64] wraps:
    [shm_malloc_wraps].) *)
Theorem shm_malloc_spec d live nbytes : heap_ok d live -> 0 <= nbytes < 2 ^ 32 ->
  exists r d', shm_malloc nbytes d = Done r d' /\
  ((exists q n, r = hadd q 1 /\ heap_ok d' ((q, n) :: live) /\ brkp d <= brkp d' /\
      nbytes <= (n - 1) * sizeof_Header < nbytes + sizeof_Header) \/
   (r = 0 /\ d' = ready d /\ heap_ok d' live /\ brkp d' = brkp d /\
    arena_start + MEMORY_ARENA_SIZE < hadd (brkp d) (NALLOC + 1) + nbytes + sizeof_Header)).
Proof.
  intros Hok Hn. destruct (shm_malloc_start d live nbytes Hok Hn) as (L & fuel & Hi & Eb & Hfu & ->).
  pose proof (request_bound nbytes) as Hr. pose proof (core_units_bound (request_units nbytes)) as Hc.
  destruct (malloc_from (ready d) L live (request_units nbytes) fuel Hi) as (r & d' & E & Hres); [unfold sizeof_Header in Hr; lia|done|].
  exists r, d'. split; [exact E|]. destruct Hres as [(q & L' & -> & Hi' & Hb)|(-> & -> & Hfull)].
  - left. exists q, (request_units nbytes). split; [done|]. split; [right; by exists L'|]. split; [lia|done].
  - right. rewrite <- Eb. split_and!; [done|done|right; by exists L|done|].
    unfold hadd, sizeof_Header, NALLOC in *. lia.
Qed.

(** C33:  [shm_free] of an allocated block always returns, and the memory of the
    free list is then what it was and that of the block, no more and no less.
    The block is joined with the neighbours it touches: [heap_full] says that no
    two free blocks touch, that they are in address order, and that every byte up
    to the break belongs to a free block or to one of the other allocated blocks,
    which keep their headers. *)
Theorem shm_free_spec d L live1 x live2 : heap_full d L (live1 ++ x :: live2) ->
  exists d' L', shm_free (hadd x.1 1) d = Done tt d' /\ heap_full d' L' (live1 ++ live2) /\ adds L x L' /\ brkp d' = brkp d.
Proof.
  intros Hfl. destruct (live_floating _ _ _ _ _ (hf_inv _ _ _ Hfl)) as [Hi1 Hx].
  destruct (free_block_ok d L _ x (list_fuel d) Hi1 Hx) as (d' & L' & E & Hi' & Hb & _ & _ & Hadd & Hg).
  { pose proof (list_size _ _ _ Hi1). unfold list_fuel. lia. }
  exists d', L'. split_and!; [exact E| |done|done]. split; [done|apply Hg, Hfl|].
  intros p Hp. rewrite Hb in Hp. apply (hf_tiled _ _ _ Hfl) in Hp. rewrite covers_app, covers_cons in Hp.
  rewrite (Hadd p), !covers_app, covers_cons, covers_nil. tauto.
Qed.

End Alloc.

(** ** Witnesses *)

Definition arena0 : Arena := {| arena_start := 4294967296; sizeof_lock := 200 |}.
Lemma arena0_ok : @ArenaOk arena0.
Proof. constructor; simpl; lia. Qed.

(** What two allocations on a fresh heap leave. *)
Definition two_blocks : malloc_data :=
  mk_malloc_data {[ 4294967496 := mk_header 4294967528 0; 4294967528 := mk_header 4294967496 1011;
    4294983704 := mk_header 0 8; 4294983832 := mk_header 0 5 ]} 4294967496 4294983912.

Lemma two_blocks_run : (a ← @shm_malloc arena0 50; b ← @shm_malloc arena0 100; mret (a, b)) (@init_shm_malloc arena0) =
  Done (4294983848, 4294983720) two_blocks.
Proof. vm_compute. reflexivity. Qed.

Definition two_free : list block := [(4294967496, 0); (4294967528, 1011)].

Lemma two_blocks_ok : @heap_full arena0 two_blocks two_free [(4294983704, 8); (4294983832, 5)].
Proof.
  split.
  - constructor; unfold two_blocks, in_heap, apart, before, bend, hadd, sizeof_Header, brk_start, base; cbn [mem freep brkp].
    all: cbn -[Z.mul Z.add lookup]; try done.
    all: try (repeat constructor; cbn; unfold before, apart, bend, hadd, sizeof_Header; cbn; lia).
    all: try (intros x [->|[->|?%elem_of_nil]%elem_of_cons]%elem_of_cons; [| |done]; eexists; reflexivity).
    all: try (intros x y [->|[->|?%elem_of_nil]%elem_of_cons]%elem_of_cons [->|?%elem_of_nil]%elem_of_cons; cbn; try done; lia).
  - repeat constructor; unfold gap, bend, hadd, sizeof_Header; simpl; lia.
  - intros p. unfold two_free. rewrite !covers_cons, !covers_nil.
    unfold two_blocks, bend, brk_start, base, hadd, sizeof_Header. cbn [fst snd brkp arena_start sizeof_lock arena0]. lia.
Qed.

Lemma shm_malloc_spec_witness : exists r d', @shm_malloc arena0 50 (@init_shm_malloc arena0) = Done r d' /\ 0 < r.
Proof.
  destruct (@shm_malloc_spec arena0 arena0_ok (@init_shm_malloc arena0) [] 50) as (r & d' & E & _); [by left|lia|].
  exists r, d'. split; [exact E|]. vm_compute in E. injection E as <- _. lia.
Defined.

Lemma shm_free_spec_witness : exists d' L', shm_free 4294983848 two_blocks = Done tt d' /\
  @heap_full arena0 d' L' [(4294983704, 8)] /\ adds two_free (4294983832, 5) L' /\ brkp d' = 4294983912.
Proof.
  exact (@shm_free_spec arena0 arena0_ok two_blocks two_free [(4294983704, 8)] (4294983832, 5) [] two_blocks_ok).
Defined.

(** A request close to [2 ^ 64]: the size that [morecore] asks for wraps to
    zero, and the caller gets a block that reaches past the end of the arena. *)
Lemma shm_malloc_wraps : exists d', @shm_malloc arena0 (2 ^ 64 - 16) (@init_shm_malloc arena0) = Done 4294967544 d' /\
  brkp d' = @brk_start arena0 /\ mem d' !! 4294967528 = Some (mk_header 4294967496 (2 ^ 60)).
Proof. eexists. split; [vm_compute; reflexivity|]. split; vm_compute; reflexivity. Qed.
