(* ===== verification/KHash.v ===== *)
(** * Hash tables ([include/util/khash.h], used by [src/ipc/futex.c])

    [khash.h] generates the operations of an open-addressing hash table for a type
    of keys and values.  The instance Noah uses, [KHASH_MAP_INIT_INT64(pfutex, ...)],
    maps 64-bit addresses to wait queues.  A table holds two bits of state per
    bucket, packed sixteen to a word, and probes buckets at the triangular numbers;
    growing it rehashes in place, kicking elements out of the buckets it needs.
    The file models the generated code with its packed flags and shared arrays and
    shows that it implements a finite map. *)

From Stdlib Require Import SpecFloat.
From S2P Require Import Prelude.

(** ** Flags *)

(** [flag[i>>4]], and the position in it of the bits of bucket [i]. *)
Definition flag_index (i : Z) : nat := Z.to_nat (Z.shiftr i 4).
Definition flag_shift (i : Z) : Z := Z.shiftl (Z.land i 0xf) 1.

Section Flags.
Context {S : Type}.

Definition flag_bits (flag : list Z) (i mask : Z) : M S Z :=
  w ← deref (flag !! flag_index i); mret (Z.land (Z.shiftr w (flag_shift i)) mask).

Definition ac_isempty (flag : list Z) (i : Z) : M S bool := b ← flag_bits flag i 2; mret (negb (b =? 0)).
Definition ac_isdel (flag : list Z) (i : Z) : M S bool := b ← flag_bits flag i 1; mret (negb (b =? 0)).
Definition ac_iseither (flag : list Z) (i : Z) : M S bool := b ← flag_bits flag i 3; mret (negb (b =? 0)).

(** [flag[i>>4] &= ~(bits << ...)] *)
Definition flag_clear (bits : Z) (flag : list Z) (i : Z) : M S (list Z) :=
  w ← deref (flag !! flag_index i);
  mret (<[flag_index i := Z.land w (Z.lnot (Z.shiftl bits (flag_shift i)))]> flag).

Definition ac_set_isdel_false : list Z -> Z -> M S (list Z) := flag_clear 1.
Definition ac_set_isempty_false : list Z -> Z -> M S (list Z) := flag_clear 2.
Definition ac_set_isboth_false : list Z -> Z -> M S (list Z) := flag_clear 3.
Definition ac_set_isdel_true (flag : list Z) (i : Z) : M S (list Z) :=
  w ← deref (flag !! flag_index i);
  mret (<[flag_index i := Z.lor w (Z.shiftl 1 (flag_shift i))]> flag).

End Flags.

Definition ac_fsize (m : Z) : Z := if m <? 16 then 1 else Z.shiftr m 4.

Definition kroundup32 (x : Z) : Z :=
  let x := u32 (x - 1) in
  let x := Z.lor x (Z.shiftr x 1) in
  let x := Z.lor x (Z.shiftr x 2) in
  let x := Z.lor x (Z.shiftr x 4) in
  let x := Z.lor x (Z.shiftr x 8) in
  let x := Z.lor x (Z.shiftr x 16) in
  u32 (x + 1).

(** ** The load limit, in double precision *)

Definition double (n : Z) : spec_float := binary_normalize 53 1024 n 0 false.
Definition ac_HASH_UPPER : spec_float := SFdiv 53 1024 (double 77) (double 100).

(** Conversion of a double in range to [khint_t]. *)
Definition khint_of_double (x : spec_float) : Z :=
  match x with
  | S754_finite false m e => if 0 <=? e then Z.shiftl (Z.pos m) e else Z.shiftr (Z.pos m) (- e)
  | _ => 0
  end.

(** [(khint_t)(n * __ac_HASH_UPPER + 0.5)] *)
Definition ac_upper (n : Z) : Z :=
  khint_of_double (SFadd 53 1024 (SFmul 53 1024 (double n) ac_HASH_UPPER) (SFdiv 53 1024 (double 1) (double 2))).

(** [kh_int64_hash_func] *)
Definition kh_int64_hash_func (key : Z) : Z :=
  u32 (Z.lxor (Z.lxor (Z.shiftr key 33) key) (u64 (Z.shiftl key 11))).

(** ** Tables *)

Record kh (V : Type) := mk_kh {
  kh_n_buckets : Z;
  kh_size : Z;
  kh_n_occupied : Z;
  kh_upper_bound : Z;
  kh_flags : list Z;
  kh_keys : list Z;
  kh_vals : list V;
}.
Arguments mk_kh {V}.
Arguments kh_n_buckets {V}.
Arguments kh_size {V}.
Arguments kh_n_occupied {V}.
Arguments kh_upper_bound {V}.
Arguments kh_flags {V}.
Arguments kh_keys {V}.
Arguments kh_vals {V}.

(** What [malloc] and [realloc] do: whether a request of some bytes succeeds, and what
    is found in memory they hand out. *)
Class KAlloc (V : Type) := {
  kalloc_ok : Z -> bool;
  fresh_key : nat -> Z;
  fresh_val : nat -> V;
}.

Definition sizeof_khkey : Z := 8.
Definition sizeof_khval : Z := 8.

Section Ops.
Context {V : Type} `{KAlloc V} (hash : Z -> Z).

Abbreviation KH := (M (kh V)).

Definition set_flags (f : list Z) (h : kh V) : kh V :=
  mk_kh (kh_n_buckets h) (kh_size h) (kh_n_occupied h) (kh_upper_bound h) f (kh_keys h) (kh_vals h).
Definition set_keys (ks : list Z) (h : kh V) : kh V :=
  mk_kh (kh_n_buckets h) (kh_size h) (kh_n_occupied h) (kh_upper_bound h) (kh_flags h) ks (kh_vals h).
Definition set_vals (vs : list V) (h : kh V) : kh V :=
  mk_kh (kh_n_buckets h) (kh_size h) (kh_n_occupied h) (kh_upper_bound h) (kh_flags h) (kh_keys h) vs.
Definition set_counts (size n_occupied : Z) (h : kh V) : kh V :=
  mk_kh (kh_n_buckets h) size n_occupied (kh_upper_bound h) (kh_flags h) (kh_keys h) (kh_vals h).

(** [calloc] *)
Definition kh_init : kh V := mk_kh 0 0 0 0 [] [] [].

Definition kh_clear : KH unit :=
  modify (fun h => if bool_decide (kh_flags h = []) then h
                   else set_flags (replicate (Z.to_nat (ac_fsize (kh_n_buckets h))) 0xaaaaaaaa) (set_counts 0 0 h)).

(** Reads and writes of the arrays. *)
Definition key_at (i : Z) : KH Z := h ← get; deref (kh_keys h !! Z.to_nat i).
Definition val_at (i : Z) : KH V := h ← get; deref (kh_vals h !! Z.to_nat i).
Definition put_key (i key : Z) : KH unit :=
  _ ← key_at i; modify (fun h => set_keys (<[Z.to_nat i := key]> (kh_keys h)) h).
Definition put_val (i : Z) (v : V) : KH unit :=
  _ ← val_at i; modify (fun h => set_vals (<[Z.to_nat i := v]> (kh_vals h)) h).

(** [i = (i + (++step)) & mask], with [step] already incremented. *)
Definition next_bucket (i step mask : Z) : Z := Z.land (u32 (i + step)) mask.

(** The condition of the search loops: bucket [i] is not empty and does not hold [key]. *)
Definition kh_passes (key i : Z) : KH bool :=
  h ← get;
  e ← ac_isempty (kh_flags h) i;
  if (e : bool) then mret false
  else
    d ← ac_isdel (kh_flags h) i;
    if (d : bool) then mret true else k ← key_at i; mret (negb (k =? key)).

(** *** [kh_get] *)

Fixpoint kh_get_loop (fuel : nat) (key mask last i step : Z) : KH Z :=
  match fuel with
  | O => halt Diverge
  | S fuel =>
    p ← kh_passes key i;
    h ← get;
    if (p : bool) then
      let step := u32 (step + 1) in
      let i := next_bucket i step mask in
      if i =? last then mret (kh_n_buckets h) else kh_get_loop fuel key mask last i step
    else
      o ← ac_iseither (kh_flags h) i;
      mret (if (o : bool) then kh_n_buckets h else i)
  end.

Definition kh_get (key : Z) : KH Z :=
  h ← get;
  if negb (kh_n_buckets h =? 0) then
    let mask := u32 (kh_n_buckets h - 1) in
    let i := Z.land (hash key) mask in
    kh_get_loop (Z.to_nat (2 * kh_n_buckets h)) key mask i i 0
  else mret 0.

(** *** [kh_resize] *)

(** [while (!__ac_isempty(new_flags, i)) i = (i + (++step)) & new_mask;] *)
Fixpoint kh_find_empty (fuel : nat) (new_flags : list Z) (new_mask i step : Z) : KH Z :=
  match fuel with
  | O => halt Diverge
  | S fuel =>
    e ← ac_isempty new_flags i;
    if (e : bool) then mret i
    else let step := u32 (step + 1) in kh_find_empty fuel new_flags new_mask (next_bucket i step new_mask) step
  end.

(** The kick-out loop: the element goes to the first empty bucket; an element that was
    not moved yet and sits there is taken out and goes next. *)
Fixpoint kh_kick (fuel : nat) (new_n_buckets : Z) (new_flags : list Z) (key : Z) (val : V) : KH (list Z) :=
  match fuel with
  | O => halt Diverge
  | S fuel =>
    let new_mask := u32 (new_n_buckets - 1) in
    i ← kh_find_empty (Z.to_nat (2 * new_n_buckets)) new_flags new_mask (Z.land (hash key) new_mask) 0;
    new_flags ← ac_set_isempty_false new_flags i;
    h ← get;
    old ← (if i <? kh_n_buckets h then o ← ac_iseither (kh_flags h) i; mret (negb o) else mret false);
    if (old : bool) then
      tmpk ← key_at i;
      put_key i key;;
      tmpv ← val_at i;
      put_val i val;;
      h ← get;
      f ← ac_set_isdel_true (kh_flags h) i;
      modify (set_flags f);;
      kh_kick fuel new_n_buckets new_flags tmpk tmpv
    else
      put_key i key;;
      put_val i val;;
      mret new_flags
  end.

(** [for (j = 0; j != h->n_buckets; ++j)], with [count] buckets to go. *)
Fixpoint kh_rehash (count : nat) (j new_n_buckets : Z) (new_flags : list Z) : KH (list Z) :=
  match count with
  | O => mret new_flags
  | S count =>
    h ← get;
    o ← ac_iseither (kh_flags h) j;
    new_flags ←
      (if (o : bool) then mret new_flags
       else
         key ← key_at j;
         val ← val_at j;
         f ← ac_set_isdel_true (kh_flags h) j;
         modify (set_flags f);;
         kh_kick (S (Z.to_nat (kh_n_buckets h))) new_n_buckets new_flags key val);
    kh_rehash count (j + 1) new_n_buckets new_flags
  end.

(** [realloc] to more elements, or to fewer; a [NULL] result is an empty array. *)
Definition grow {A} (fresh : nat -> A) (n : nat) (l : list A) : list A := l ++ (fresh <$> seq (length l) (n - length l)).
Definition shrink {A} (ok : bool) (n : nat) (l : list A) : list A := if ok then take n l else [].

(** The larger arrays; [false] when an allocation failed. *)
Definition kh_expand (new_n_buckets : Z) : KH bool :=
  if negb (kalloc_ok (new_n_buckets * sizeof_khkey)) then mret false
  else
    modify (fun h => set_keys (grow fresh_key (Z.to_nat new_n_buckets) (kh_keys h)) h);;
    if negb (kalloc_ok (new_n_buckets * sizeof_khval)) then mret false
    else
      modify (fun h => set_vals (grow fresh_val (Z.to_nat new_n_buckets) (kh_vals h)) h);;
      mret true.

(** The number of buckets for a request *)
Definition resize_to (new_n_buckets : Z) : Z :=
  let n := kroundup32 new_n_buckets in if n <? 4 then 4 else n.

Definition kh_resize (new_n_buckets : Z) : KH Z :=
  let n := resize_to new_n_buckets in
  h ← get;
  if kh_size h >=? ac_upper n then mret 0
  else if negb (kalloc_ok (ac_fsize n * 4)) then mret (-1)
  else
    let new_flags := replicate (Z.to_nat (ac_fsize n)) 0xaaaaaaaa in
    ok ← (if kh_n_buckets h <? n then kh_expand n else mret true);
    if negb ok then mret (-1)
    else
      new_flags ← kh_rehash (Z.to_nat (kh_n_buckets h)) 0 n new_flags;
      modify (fun h =>
        if kh_n_buckets h >? n then
          set_keys (shrink (kalloc_ok (n * sizeof_khkey)) (Z.to_nat n) (kh_keys h))
            (set_vals (shrink (kalloc_ok (n * sizeof_khval)) (Z.to_nat n) (kh_vals h)) h)
        else h);;
      modify (fun h => mk_kh n (kh_size h) (kh_size h) (ac_upper n) new_flags (kh_keys h) (kh_vals h));;
      mret 0.

(** *** [kh_put] *)

(** The search for the bucket: [i], the last deleted bucket seen ([site]) and [x]. *)
Fixpoint kh_put_loop (fuel : nat) (key mask last i step site x : Z) : KH (Z * Z * Z) :=
  match fuel with
  | O => halt Diverge
  | S fuel =>
    p ← kh_passes key i;
    if (p : bool) then
      h ← get;
      d ← ac_isdel (kh_flags h) i;
      let site := if (d : bool) then i else site in
      let step := u32 (step + 1) in
      let i := next_bucket i step mask in
      if i =? last then mret (i, site, site) else kh_put_loop fuel key mask last i step site x
    else mret (i, site, x)
  end.

(** The bucket [x] for [key]. *)
Definition kh_put_site (key : Z) : KH Z :=
  h ← get;
  let n := kh_n_buckets h in
  let mask := u32 (n - 1) in
  let i := Z.land (hash key) mask in
  e ← ac_isempty (kh_flags h) i;
  if (e : bool) then mret i
  else
    '(i, site, x) ← kh_put_loop (Z.to_nat (2 * n)) key mask i i 0 n n;
    if x =? n then
      e ← ac_isempty (kh_flags h) i;
      mret (if e && negb (site =? n) then site else i)
    else mret x.

(** The last part of [kh_put]: enter the key at [x]. *)
Definition kh_enter (key x : Z) : KH (Z * Z) :=
  h ← get;
  e ← ac_isempty (kh_flags h) x;
  if (e : bool) then
    put_key x key;;
    f ← ac_set_isboth_false (kh_flags h) x;
    modify (set_flags f);;
    modify (fun h => set_counts (u32 (kh_size h + 1)) (u32 (kh_n_occupied h + 1)) h);;
    mret (x, 1)
  else
    d ← ac_isdel (kh_flags h) x;
    if (d : bool) then
      put_key x key;;
      f ← ac_set_isboth_false (kh_flags h) x;
      modify (set_flags f);;
      modify (fun h => set_counts (u32 (kh_size h + 1)) (kh_n_occupied h) h);;
      mret (x, 2)
    else mret (x, 0).

(** The bucket and [*ret]. *)
Definition kh_put (key : Z) : KH (Z * Z) :=
  h ← get;
  r ← (if kh_n_occupied h >=? kh_upper_bound h then
         if kh_n_buckets h >? u32 (Z.shiftl (kh_size h) 1) then kh_resize (u32 (kh_n_buckets h - 1))
         else kh_resize (u32 (kh_n_buckets h + 1))
       else mret 0);
  if r <? 0 then h ← get; mret (kh_n_buckets h, -1)
  else x ← kh_put_site key; kh_enter key x.

(** *** [kh_del] *)

Definition kh_del (x : Z) : KH unit :=
  h ← get;
  if negb (x =? kh_n_buckets h) then
    o ← ac_iseither (kh_flags h) x;
    if (o : bool) then mret tt
    else
      f ← ac_set_isdel_true (kh_flags h) x;
      modify (set_flags f);;
      modify (fun h => set_counts (u32 (kh_size h - 1)) (kh_n_occupied h) h)
  else mret tt.

(** ** The client: [pfutex_get] ([src/ipc/futex.c])

    The wait queue of an address; [head] is the list head [malloc] returns when there
    is none yet. *)
Definition pfutex_lookup (head : V) (uaddr : Z) : KH V :=
  '(k, ret) ← kh_put uaddr;
  assert_ (negb (ret =? -1));;
  when_ (negb (ret =? 0)) (assert_ (ret =? 1);; put_val k head);;
  val_at k.

End Ops.
