(* ===== verification/KHashFacts.v ===== *)
(** * Hash tables are finite maps

    The packed flags as two bits per bucket, the probe sequence as a permutation of
    the buckets, the invariant of a table and of the rehashing loop, and the theorem
    that [kh_put], [kh_get] and [kh_del] refine the operations of a finite map. *)

From Stdlib Require Import SpecFloat Znumtheory Zpow_facts.
From S2P Require Import Prelude KHash.

(** ** Flags *)

Definition st_empty (flag : list Z) (i : Z) : bool := Z.testbit (default 0 (flag !! flag_index i)) (flag_shift i + 1).
Definition st_del (flag : list Z) (i : Z) : bool := Z.testbit (default 0 (flag !! flag_index i)) (flag_shift i).

(** The array has a word for each of [n] buckets. *)
Definition covers (flag : list Z) (n : Z) : Prop := forall i, 0 <= i < n -> (flag_index i < length flag)%nat.

Lemma flag_shift_val i : flag_shift i = 2 * (i mod 16).
Proof.
  unfold flag_shift. change 0xf with (Z.ones 4). rewrite Z.land_ones, Z.shiftl_mul_pow2 by lia.
  change (2 ^ 1) with 2. change (2 ^ 4) with 16. lia.
Qed.

Lemma flag_index_val i : flag_index i = Z.to_nat (i / 16).
Proof. unfold flag_index. by rewrite Z.shiftr_div_pow2. Qed.

Lemma land_bit w s c : 0 <= s -> 0 <= c -> negb (Z.land (Z.shiftr w s) (2 ^ c) =? 0) = Z.testbit w (s + c).
Proof.
  intros Hs Hc. replace (Z.testbit w (s + c)) with (Z.testbit (Z.shiftr w s) c) by (rewrite Z.shiftr_spec by lia; f_equal; lia).
  rewrite <- Z.shiftl_1_l, (Z.land_comm _ (Z.shiftl 1 c)). generalize (Z.shiftr w s) as x. intros x.
  destruct (Z.testbit x c) eqn:E.
  - destruct (Z.eqb_spec (Z.land (Z.shiftl 1 c) x) 0) as [E0|]; [|done].
    assert (Z.testbit (Z.land (Z.shiftl 1 c) x) c = false) as Hb by (rewrite E0; apply Z.bits_0).
    rewrite Z.land_spec, E, Z.shiftl_spec, Z.sub_diag in Hb by lia. done.
  - replace (Z.land (Z.shiftl 1 c) x) with 0; [done|]. symmetry. apply Z.bits_inj'. intros p Hp.
    rewrite Z.land_spec, Z.bits_0, Z.shiftl_spec by lia. destruct (decide (p = c)) as [->|N]; [by rewrite E, andb_false_r|].
    destruct (decide (p < c)); [by rewrite Z.testbit_neg_r by lia|].
    replace (Z.testbit 1 (p - c)) with false; [done|]. symmetry. apply (Z.bits_above_log2 1); simpl; lia.
Qed.

Lemma land3_bit w s : 0 <= s -> negb (Z.land (Z.shiftr w s) 3 =? 0) = Z.testbit w (s + 1) || Z.testbit w s.
Proof.
  intros Hs. pose proof (land_bit w s 0 Hs ltac:(lia)) as H0. pose proof (land_bit w s 1 Hs ltac:(lia)) as H1.
  rewrite Z.add_0_r in H0. rewrite <- H0, <- H1. change (2 ^ 0) with 1. change (2 ^ 1) with 2.
  change 3 with (Z.lor 1 2). rewrite Z.land_lor_distr_r.
  generalize (Z.land (Z.shiftr w s) 1), (Z.land (Z.shiftr w s) 2). intros x y.
  destruct (Z.eqb_spec (Z.lor x y) 0) as [E|N].
  - apply Z.lor_eq_0_iff in E as [-> ->]. done.
  - destruct (Z.eqb_spec x 0) as [->|], (Z.eqb_spec y 0) as [->|]; done.
Qed.

(** Two distinct buckets do not share bits of a word. *)
Lemma bits_apart b i j c :
  0 <= b < 4 -> 0 <= i -> 0 <= j -> flag_index i = flag_index j -> i <> j -> (c = 0 \/ c = 1) ->
  Z.testbit b (flag_shift j + c - flag_shift i) = false.
Proof.
  intros Hb Hi Hj E N Hc. rewrite !flag_shift_val. rewrite !flag_index_val in E.
  assert (i / 16 = j / 16) as Ed by (apply Z2Nat.inj; try apply Z.div_pos; lia).
  assert (i mod 16 <> j mod 16). { intros Em. apply N. rewrite (Z.div_mod i 16), (Z.div_mod j 16) by lia. lia. }
  destruct (Z.lt_ge_cases (2 * (j mod 16) + c - 2 * (i mod 16)) 0); [by apply Z.testbit_neg_r|].
  destruct (decide (b = 0)) as [->|]; [apply Z.bits_0|]. apply Z.bits_above_log2; [lia|].
  apply Z.log2_lt_pow2; [lia|]. apply (Z.lt_le_trans _ (2 ^ 2)); [simpl; lia|]. apply Z.pow_le_mono_r; lia.
Qed.

Section FlagOps.
Context {S : Type} (s : S).
Implicit Types (flag : list Z) (n i j : Z).

Lemma flag_word flag n i : covers flag n -> 0 <= i < n ->
  flag !! flag_index i = Some (default 0 (flag !! flag_index i)).
Proof. intros Hc Hi. destruct (lookup_lt_is_Some_2 _ _ (Hc i Hi)) as [w ->]. done. Qed.

Lemma flag_shift_pos i : 0 <= flag_shift i.
Proof. rewrite flag_shift_val. pose proof (Z.mod_pos_bound i 16). lia. Qed.

Lemma ac_isempty_run flag n i : covers flag n -> 0 <= i < n -> ac_isempty flag i s = Done (st_empty flag i) s.
Proof.
  intros Hc Hi. unfold ac_isempty, flag_bits. msimp. rewrite (flag_word flag n i) by done. simpl.
  change 2 with (2 ^ 1). rewrite land_bit; [done|apply flag_shift_pos|lia].
Qed.

Lemma ac_isdel_run flag n i : covers flag n -> 0 <= i < n -> ac_isdel flag i s = Done (st_del flag i) s.
Proof.
  intros Hc Hi. unfold ac_isdel, flag_bits. msimp. rewrite (flag_word flag n i) by done. simpl.
  change 1 with (2 ^ 0) at 1. rewrite land_bit, Z.add_0_r; [done|apply flag_shift_pos|lia].
Qed.

Lemma ac_iseither_run flag n i :
  covers flag n -> 0 <= i < n -> ac_iseither flag i s = Done (st_empty flag i || st_del flag i) s.
Proof.
  intros Hc Hi. unfold ac_iseither, flag_bits. msimp. rewrite (flag_word flag n i) by done. simpl.
  rewrite land3_bit; [done|apply flag_shift_pos].
Qed.

(** What a change of the bits of bucket [i] does: the new bits, and nothing else. *)
Definition flags_set flag flag' n i (e d : bool) : Prop :=
  covers flag' n /\ st_empty flag' i = e /\ st_del flag' i = d /\
  forall j, 0 <= j < n -> j <> i -> st_empty flag' j = st_empty flag j /\ st_del flag' j = st_del flag j.

(** The bits of a word changed by [op] at bucket [i]. *)
Lemma flags_set_word flag n i w' :
  covers flag n -> 0 <= i < n ->
  (forall j c, 0 <= j < n -> j <> i -> flag_index j = flag_index i -> c = 0 \/ c = 1 ->
     Z.testbit w' (flag_shift j + c) = Z.testbit (default 0 (flag !! flag_index i)) (flag_shift j + c)) ->
  flags_set flag (<[flag_index i := w']> flag) n i (Z.testbit w' (flag_shift i + 1)) (Z.testbit w' (flag_shift i)).
Proof.
  intros Hc Hi Hw. assert (flag_index i < length flag)%nat as Hl by auto.
  assert (forall j, default 0 (<[flag_index i := w']> flag !! flag_index j) =
    if decide (flag_index j = flag_index i) then w' else default 0 (flag !! flag_index j)) as El.
  { intros j. destruct (decide (flag_index j = flag_index i)) as [->|].
    - by rewrite list_lookup_insert_eq. - by rewrite list_lookup_insert_ne. }
  split_and!.
  - intros j Hj. rewrite length_insert. auto.
  - unfold st_empty. rewrite El, decide_True by done. done.
  - unfold st_del. rewrite El, decide_True by done. done.
  - intros j Hj N. unfold st_empty, st_del. rewrite El. destruct (decide (flag_index j = flag_index i)) as [E|]; [|done].
    pose proof (Hw j 0 Hj N E (or_introl eq_refl)) as H0. rewrite Z.add_0_r in H0.
    rewrite (Hw j 1 Hj N E (or_intror eq_refl)), H0, E. done.
Qed.

Lemma flag_clear_run b flag n i :
  covers flag n -> 0 <= i < n -> 0 <= b < 4 ->
  exists flag', flag_clear b flag i s = Done flag' s /\
    flags_set flag flag' n i (st_empty flag i && negb (Z.testbit b 1)) (st_del flag i && negb (Z.testbit b 0)).
Proof.
  intros Hc Hi Hb. unfold flag_clear. msimp. rewrite (flag_word flag n i) by done.
  eexists. split; [done|]. set (w := default 0 (flag !! flag_index i)).
  assert (forall p, 0 <= p -> Z.testbit (Z.land w (Z.lnot (Z.shiftl b (flag_shift i)))) p =
    Z.testbit w p && negb (Z.testbit b (p - flag_shift i))) as Hbit.
  { intros p Hp. by rewrite Z.land_spec, Z.lnot_spec, Z.shiftl_spec by lia. }
  pose proof (flag_shift_pos i).
  assert (flags_set flag (<[flag_index i := Z.land w (Z.lnot (Z.shiftl b (flag_shift i)))]> flag) n i
    (Z.testbit (Z.land w (Z.lnot (Z.shiftl b (flag_shift i)))) (flag_shift i + 1))
    (Z.testbit (Z.land w (Z.lnot (Z.shiftl b (flag_shift i)))) (flag_shift i))) as Hf.
  { apply flags_set_word; [done|done|]. intros j c Hj N E Hcc. pose proof (flag_shift_pos j).
    rewrite Hbit by lia. rewrite bits_apart by (done || lia). by rewrite andb_true_r. }
  rewrite !Hbit in Hf by lia. replace (flag_shift i + 1 - flag_shift i) with 1 in Hf by lia.
  rewrite Z.sub_diag in Hf. exact Hf.
Qed.

Lemma ac_set_isdel_true_run flag n i :
  covers flag n -> 0 <= i < n ->
  exists flag', ac_set_isdel_true flag i s = Done flag' s /\ flags_set flag flag' n i (st_empty flag i) true.
Proof.
  intros Hc Hi. unfold ac_set_isdel_true. msimp. rewrite (flag_word flag n i) by done.
  eexists. split; [done|]. set (w := default 0 (flag !! flag_index i)).
  assert (forall p, 0 <= p -> Z.testbit (Z.lor w (Z.shiftl 1 (flag_shift i))) p =
    Z.testbit w p || Z.testbit 1 (p - flag_shift i)) as Hbit.
  { intros p Hp. by rewrite Z.lor_spec, Z.shiftl_spec by lia. }
  pose proof (flag_shift_pos i).
  assert (flags_set flag (<[flag_index i := Z.lor w (Z.shiftl 1 (flag_shift i))]> flag) n i
    (Z.testbit (Z.lor w (Z.shiftl 1 (flag_shift i))) (flag_shift i + 1))
    (Z.testbit (Z.lor w (Z.shiftl 1 (flag_shift i))) (flag_shift i))) as Hf.
  { apply flags_set_word; [done|done|]. intros j c Hj N E Hcc. pose proof (flag_shift_pos j).
    rewrite Hbit by lia. rewrite bits_apart by (done || lia). by rewrite orb_false_r. }
  rewrite !Hbit in Hf by lia. replace (flag_shift i + 1 - flag_shift i) with 1 in Hf by lia.
  rewrite Z.sub_diag in Hf. change (Z.testbit 1 1) with false in Hf. change (Z.testbit 1 0) with true in Hf.
  rewrite orb_false_r, orb_true_r in Hf. exact Hf.
Qed.

End FlagOps.

(** ** The probe sequence *)

Definition tri (s : Z) : Z := s * (s + 1) / 2.
(** The bucket after [s] steps from hash value [x]. *)
Definition pos (n x s : Z) : Z := (x + tri s) mod n.

Lemma tri_double s : 2 * tri s = s * (s + 1).
Proof.
  unfold tri. pose proof (Z.div_mod (s * (s + 1)) 2 ltac:(lia)).
  assert ((s * (s + 1)) mod 2 = 0); [|lia].
  rewrite Z.mul_mod, Z.add_mod by lia. pose proof (Z.mod_pos_bound s 2 ltac:(lia)).
  assert (s mod 2 = 0 \/ s mod 2 = 1) as [-> | ->] by lia; done.
Qed.

Lemma tri_succ s : tri (s + 1) = tri s + (s + 1).
Proof. pose proof (tri_double s). pose proof (tri_double (s + 1)). nia. Qed.

(** A power of two that divides a product divides the factor that is even. *)
Lemma pow2_divide_odd k a b : 0 <= k -> (2 ^ k | a * b) -> Z.odd a = true -> (2 ^ k | b).
Proof.
  intros Hk Hd Ho. apply (Gauss _ a); [done|]. apply rel_prime_sym, rel_prime_Zpower_r; [lia|].
  apply rel_prime_sym, prime_rel_prime; [apply prime_2|]. intros [c ->]. rewrite Z.mul_comm, Z.odd_mul in Ho. done.
Qed.

Section Probe.
Context (k : Z) (Hk : 0 <= k <= 31).
Let n := 2 ^ k.

Lemma n_pos : 0 < n.
Proof. apply Z.pow_pos_nonneg; lia. Qed.

Lemma n_le : n <= 2 ^ 31.
Proof. apply Z.pow_le_mono_r; lia. Qed.

Lemma pos_range x s : 0 <= pos n x s < n.
Proof. apply Z.mod_pos_bound, n_pos. Qed.

Lemma mask_val : u32 (n - 1) = Z.ones k.
Proof. pose proof n_pos. pose proof n_le. rewrite wrap_small by (change (2 ^ 32) with (2 * 2 ^ 31); lia). rewrite Z.ones_equiv. unfold n. lia. Qed.

Lemma pos_0 x : Z.land x (u32 (n - 1)) = pos n x 0.
Proof. rewrite mask_val, Z.land_ones by lia. unfold pos. by rewrite Z.add_0_r. Qed.

Lemma pos_next x s : next_bucket (pos n x s) (s + 1) (u32 (n - 1)) = pos n x (s + 1).
Proof.
  unfold next_bucket. rewrite mask_val, Z.land_ones by lia. unfold pos. rewrite tri_succ.
  unfold wrap. fold n. rewrite <- (Zmod_div_mod n (2 ^ 32)); [|apply n_pos|done|].
  - rewrite Zplus_mod_idemp_l. f_equal. lia.
  - exists (2 ^ (32 - k)). unfold n. rewrite <- Z.pow_add_r by lia. f_equal. lia.
Qed.

Lemma pos_inj x s t : 0 <= s < n -> 0 <= t < n -> pos n x s = pos n x t -> s = t.
Proof.
  assert (forall s t, 0 <= s < t -> t < n -> pos n x s = pos n x t -> False) as Hlt.
  { clear s t. intros s t Hs Ht E. unfold pos in E.
    assert ((x + tri t - (x + tri s)) mod n = 0) as E0 by (rewrite Zminus_mod, E, Z.sub_diag; apply Zmod_0_l).
    apply Z.mod_divide in E0 as [c Ec]; [|pose proof n_pos; lia].
    assert (2 ^ (k + 1) | (t - s) * (s + t + 1)) as Hd.
    { exists c. rewrite Z.pow_add_r by lia. fold n. pose proof (tri_double s). pose proof (tri_double t). nia. }
    pose proof n_pos. assert (2 ^ (k + 1) = 2 * n) as Ek by (rewrite Z.pow_add_r by lia; fold n; lia).
    destruct (Z.odd (t - s)) eqn:Eo.
    - apply pow2_divide_odd in Hd; [|lia|done]. apply Z.divide_pos_le in Hd; lia.
    - rewrite Z.mul_comm in Hd. apply pow2_divide_odd in Hd; [|lia|].
      + apply Z.divide_pos_le in Hd; lia.
      + replace (s + t + 1) with ((t - s) + (2 * s + 1)) by lia. rewrite Z.odd_add, Eo, Z.odd_add, Z.odd_mul. done. }
  intros Hs Ht E. destruct (Z.lt_trichotomy s t) as [?|[?|?]]; [|done|]; exfalso; [apply (Hlt s t)|apply (Hlt t s)]; done || lia.
Qed.

(** Every bucket is probed within [n] steps. *)
Lemma pos_surj x i : 0 <= i < n -> exists s, 0 <= s < n /\ pos n x s = i.
Proof.
  intros Hi. set (l := pos n x <$> seqZ 0 n).
  assert (NoDup l) as Hnd.
  { apply NoDup_fmap_2_strong; [|apply NoDup_seqZ]. intros s t Hs%elem_of_seqZ Ht%elem_of_seqZ. apply pos_inj; lia. }
  assert (l ⊆ seqZ 0 n) as Hsub.
  { intros y. unfold l. rewrite list_elem_of_fmap. intros (s & -> & _). apply elem_of_seqZ. pose proof (pos_range x s). lia. }
  assert (i ∈ l) as Hin.
  { assert (l ≡ₚ seqZ 0 n) as ->; [|apply elem_of_seqZ; lia].
    apply submseteq_length_Permutation; [|by unfold l; rewrite length_fmap].
    by apply NoDup_submseteq. }
  unfold l in Hin. apply list_elem_of_fmap in Hin as (s & -> & Hs%elem_of_seqZ). exists s. split; [lia|done].
Qed.

(** The first bucket of a probe with a property that some bucket has. *)
Lemma probe_first (P : Z -> bool) x i : 0 <= i < n -> P i = true ->
  exists s, 0 <= s < n /\ P (pos n x s) = true /\ forall t, 0 <= t < s -> P (pos n x t) = false.
Proof.
  intros Hi HP. destruct (pos_surj x i Hi) as (s & Hs & <-). clear Hi. revert Hs HP.
  induction s as [s IH] using (well_founded_induction (Z.lt_wf 0)). intros Hs HP. destruct (existsb (fun t => P (pos n x t)) (seqZ 0 s)) eqn:E.
  - apply existsb_exists in E as (t & Ht%list_elem_of_In%elem_of_seqZ & E). apply (IH t); done || lia.
  - exists s. split; [done|]. split; [done|]. intros t Ht. apply not_true_iff_false. intros Et.
    apply not_true_iff_false in E. apply E. apply existsb_exists. exists t. split; [|done].
    apply list_elem_of_In, elem_of_seqZ. lia.
Qed.

End Probe.

(** ** Counting buckets *)

Fixpoint count (P : Z -> bool) (n : nat) : Z :=
  match n with O => 0 | S n => count P n + Z.b2z (P (Z.of_nat n)) end.

Lemma count_range P n : 0 <= count P n <= Z.of_nat n.
Proof. induction n as [|n IH]; simpl; [lia|]. destruct (P (Z.of_nat n)); simpl; lia. Qed.

Lemma count_ext P Q n : (forall i, 0 <= i < Z.of_nat n -> P i = Q i) -> count P n = count Q n.
Proof. induction n as [|n IH]; intros E; simpl; [done|]. rewrite IH by (intros; apply E; lia). rewrite E by lia. done. Qed.

Lemma count_update P Q n x :
  0 <= x < Z.of_nat n -> (forall i, 0 <= i < Z.of_nat n -> i <> x -> Q i = P i) ->
  count Q n = count P n - Z.b2z (P x) + Z.b2z (Q x).
Proof.
  induction n as [|n IH]; intros Hx E; [lia|]. simpl. destruct (decide (x = Z.of_nat n)) as [->|].
  - rewrite (count_ext Q P) by (intros; apply E; lia). lia.
  - rewrite IH by (lia || (intros; apply E; lia)). rewrite (E (Z.of_nat n)) by lia. lia.
Qed.

Lemma count_zero P n i : count P n = 0 -> 0 <= i < Z.of_nat n -> P i = false.
Proof.
  induction n as [|n IH]; intros E Hi; [lia|]. simpl in E. pose proof (count_range P n).
  destruct (P (Z.of_nat n)) eqn:En; simpl in E; [lia|]. destruct (decide (i = Z.of_nat n)) as [->|]; [done|]. apply IH; lia.
Qed.

Lemma count_none P n : (forall i, 0 <= i < Z.of_nat n -> P i = false) -> count P n = 0.
Proof. intros E. induction n as [|n IH]; simpl; [done|]. rewrite IH by (intros; apply E; lia). rewrite E by lia. done. Qed.

Lemma count_free P n : count P n < Z.of_nat n -> exists i, 0 <= i < Z.of_nat n /\ P i = false.
Proof.
  induction n as [|n IH]; intros E; simpl in E; [lia|]. destruct (P (Z.of_nat n)) eqn:En; simpl in E.
  - destruct IH as (i & Hi & Pi); [lia|]. exists i. split; [lia|done].
  - exists (Z.of_nat n). split; [lia|done].
Qed.

Lemma count_mono P Q n : (forall i, 0 <= i < Z.of_nat n -> P i = true -> Q i = true) -> count P n <= count Q n.
Proof.
  induction n as [|n IH]; intros E; simpl; [lia|]. specialize (IH ltac:(intros; apply E; [lia|done])).
  destruct (P (Z.of_nat n)) eqn:En; simpl; [rewrite E by (lia || done); simpl; lia|]. destruct (Q (Z.of_nat n)); simpl; lia.
Qed.

Lemma count_same P Q n i :
  (forall i, 0 <= i < Z.of_nat n -> P i = true -> Q i = true) -> count P n = count Q n -> 0 <= i < Z.of_nat n -> P i = Q i.
Proof.
  induction n as [|n IH]; intros E Ec Hi; [lia|]. simpl in Ec.
  pose proof (count_mono P Q n ltac:(intros; apply E; [lia|done])) as Hm. pose proof (E (Z.of_nat n) ltac:(lia)) as En.
  destruct (decide (i = Z.of_nat n)) as [->|].
  - destruct (P (Z.of_nat n)), (Q (Z.of_nat n)); simpl in Ec; try done; [by specialize (En eq_refl)|lia].
  - apply IH; [intros; apply E; [lia|done]| |lia]. destruct (P (Z.of_nat n)), (Q (Z.of_nat n)); simpl in Ec; lia.
Qed.

(** ** The load limit *)

Lemma ac_upper_bound k : 2 <= k <= 31 -> 2 ^ k < 2 * ac_upper (2 ^ k) /\ ac_upper (2 ^ k) < 2 ^ k.
Proof.
  intros Hk. assert (forallb (fun k => (2 ^ k <? 2 * ac_upper (2 ^ k)) && (ac_upper (2 ^ k) <? 2 ^ k)) (seqZ 2 30) = true) as Hf
    by (vm_compute; reflexivity).
  rewrite forallb_forall in Hf. specialize (Hf k ltac:(apply list_elem_of_In, elem_of_seqZ; lia)).
  apply andb_true_iff in Hf as [H1%Z.ltb_lt H2%Z.ltb_lt]. done.
Qed.

Lemma ac_fsize_covers k f : 2 <= k -> length f = Z.to_nat (ac_fsize (2 ^ k)) -> covers f (2 ^ k).
Proof.
  intros Hk El i Hi. rewrite El, flag_index_val. unfold ac_fsize. destruct (Z.ltb_spec (2 ^ k) 16).
  - rewrite Z.div_small by lia. simpl. lia.
  - assert (4 <= k) by (apply (Z.pow_le_mono_r_iff 2); simpl; lia).
    rewrite Z.shiftr_div_pow2 by lia. replace (2 ^ k) with (2 ^ (k - 4) * 16) in * by (change 16 with (2 ^ 4); rewrite <- Z.pow_add_r by lia; f_equal; lia).
    change (2 ^ 4) with 16. rewrite Z.div_mul by lia. pose proof (Z.div_pos i 16 ltac:(lia) ltac:(lia)).
    pose proof (Z.div_lt_upper_bound i 16 (2 ^ (k - 4)) ltac:(lia) ltac:(lia)). lia.
Qed.

(** ** Tables *)

(** A bucket that holds an element. *)
Definition live (f : list Z) (i : Z) : bool := negb (st_empty f i || st_del f i).
Definition taken (f : list Z) (i : Z) : bool := negb (st_empty f i).

Lemma live_taken f i : live f i = true -> taken f i = true.
Proof. unfold live, taken. by destruct (st_empty f i). Qed.

Section Search.
Context {V : Type} `{A : KAlloc V} (hash : Z -> Z).
Implicit Types (h : kh V) (m : gmap Z V) (f : list Z).

(** The probe for [key] comes to bucket [i] past buckets that are not empty. *)
Definition reach f (n key i : Z) : Prop :=
  exists s, 0 <= s < n /\ pos n (hash key) s = i /\ forall t, 0 <= t < s -> taken f (pos n (hash key) t) = true.

Lemma reach_mono f f' n key i :
  (forall j, 0 <= j < n -> taken f j = true -> taken f' j = true) -> reach f n key i -> reach f' n key i.
Proof.
  intros Hm (s & Hs & E & Ht). exists s. split; [done|]. split; [done|]. intros t Htt. apply Hm; [|auto].
  apply Z.mod_pos_bound. lia.
Qed.

Definition passes h (key i : Z) : bool :=
  taken (kh_flags h) i && (st_del (kh_flags h) i || negb (bool_decide (kh_keys h !! Z.to_nat i = Some key))).

Context (k : Z) (Hk : 2 <= k <= 31).
Let n := 2 ^ k.

(** The shape of a table of [n] buckets. *)
Record shape h : Prop := {
  sh_n : kh_n_buckets h = n;
  sh_flags : covers (kh_flags h) n;
  sh_keys : n <= Z.of_nat (length (kh_keys h));
  sh_vals : n <= Z.of_nat (length (kh_vals h));
}.

Lemma key_at_run h i : shape h -> 0 <= i < n -> exists key, kh_keys h !! Z.to_nat i = Some key /\ key_at i h = Done key h.
Proof.
  intros Hs Hi. pose proof (sh_keys h Hs). destruct (lookup_lt_is_Some_2 (kh_keys h) (Z.to_nat i) ltac:(lia)) as [key E].
  exists key. split; [done|]. unfold key_at. msimp. by rewrite E.
Qed.

Lemma kh_passes_run h key i : shape h -> 0 <= i < n -> kh_passes key i h = Done (passes h key i) h.
Proof.
  intros Hs Hi. unfold kh_passes, passes, taken. msimp. rewrite (ac_isempty_run h _ n) by (done || apply Hs).
  destruct (st_empty (kh_flags h) i); [done|]. rewrite (ac_isdel_run h _ n) by (done || apply Hs).
  destruct (st_del (kh_flags h) i); [done|]. destruct (key_at_run h i Hs Hi) as (k' & E & ->). rewrite E.
  simpl. f_equal. destruct (Z.eqb_spec k' key) as [->|N]; [by rewrite bool_decide_true|].
  by rewrite bool_decide_false by congruence.
Qed.

(** The first bucket at which the search for [key] stops. *)
Definition stops_at h key s : Prop :=
  0 <= s < n /\ passes h key (pos n (hash key) s) = false /\ forall t, 0 <= t < s -> passes h key (pos n (hash key) t) = true.

Lemma step_val s : 0 <= s < n -> u32 (s + 1) = s + 1.
Proof. intros Hs. pose proof (n_le k ltac:(lia)) as Hn. fold n in Hn. apply wrap_small. lia. Qed.

Lemma not_last x s : 0 <= s -> s + 1 < n -> (pos n x (s + 1) =? pos n x 0) = false.
Proof.
  intros Hs Hn. apply Z.eqb_neq. intros E. apply (pos_inj k) in E; [lia|fold n; lia..].
Qed.

Lemma kh_get_loop_run h key s0 fuel s :
  shape h -> stops_at h key s0 -> 0 <= s <= s0 -> s0 - s < Z.of_nat fuel ->
  let x := hash key in
  kh_get_loop fuel key (u32 (n - 1)) (pos n x 0) (pos n x s) s h =
  Done (if live (kh_flags h) (pos n x s0) then pos n x s0 else n) h.
Proof.
  intros Hs (Hs0 & Hstop & Hpass) Hss. revert s Hss. induction fuel as [|fuel IH]; intros s Hss Hf; [lia|].
  intros x. simpl. msimp. rewrite kh_passes_run by (done || apply pos_range; lia).
  destruct (decide (s = s0)) as [->|].
  - fold x in Hstop. rewrite Hstop. rewrite (ac_iseither_run h _ n) by (apply Hs || apply pos_range; lia).
    unfold live. rewrite (sh_n h Hs). by destruct (st_empty _ _ || st_del _ _).
  - fold x in Hpass. rewrite Hpass by lia. rewrite step_val by lia. unfold n. rewrite pos_next by lia. fold n.
    rewrite not_last by lia. apply IH; lia.
Qed.

Lemma kh_get_run h key s0 :
  shape h -> stops_at h key s0 ->
  kh_get hash key h = Done (if live (kh_flags h) (pos n (hash key) s0) then pos n (hash key) s0 else n) h.
Proof.
  intros Hs Hst. pose proof (n_pos k ltac:(lia)) as Hn. fold n in Hn. unfold kh_get. msimp. rewrite (sh_n h Hs).
  destruct (Z.eqb_spec n 0); [lia|]. cbn [negb]. cbv beta iota. unfold n at 3 4. rewrite pos_0 by lia. fold n.
  apply kh_get_loop_run; [done|done|destruct Hst; lia|destruct Hst; lia].
Qed.

Lemma kh_find_empty_run h f x s0 fuel s :
  covers f n -> 0 <= s0 < n -> taken f (pos n x s0) = false -> (forall t, 0 <= t < s0 -> taken f (pos n x t) = true) ->
  0 <= s <= s0 -> s0 - s < Z.of_nat fuel ->
  kh_find_empty fuel f (u32 (n - 1)) (pos n x s) s h = Done (pos n x s0) h.
Proof.
  intros Hc Hs0 He Ht Hss. revert s Hss. induction fuel as [|fuel IH]; intros s Hss Hf; [lia|].
  simpl. msimp. rewrite (ac_isempty_run h _ n) by (done || apply pos_range; lia).
  unfold taken in *. destruct (decide (s = s0)) as [->|].
  - apply negb_false_iff in He. by rewrite He.
  - specialize (Ht s ltac:(lia)) as Ht'. apply negb_true_iff in Ht'. rewrite Ht'.
    rewrite step_val by lia. unfold n. rewrite pos_next by lia. fold n. apply IH; lia.
Qed.

(** [site] after the buckets before step [s]: the last deleted one. *)
Definition is_site h x (s site : Z) : Prop :=
  site = n \/ exists t, 0 <= t < s /\ site = pos n x t /\ taken (kh_flags h) site = true /\ st_del (kh_flags h) site = true.

Lemma kh_put_loop_run h key s0 fuel s site :
  shape h -> stops_at h key s0 -> 0 <= s <= s0 -> s0 - s < Z.of_nat fuel ->
  let x := hash key in is_site h x s site ->
  exists site', is_site h x s0 site' /\
  kh_put_loop fuel key (u32 (n - 1)) (pos n x 0) (pos n x s) s site n h = Done (pos n x s0, site', n) h.
Proof.
  intros Hs (Hs0 & Hstop & Hpass) Hss. revert s site Hss. induction fuel as [|fuel IH]; intros s site Hss Hf; [lia|].
  intros x Hsite. simpl. msimp. rewrite kh_passes_run by (done || apply pos_range; lia).
  destruct (decide (s = s0)) as [->|].
  - fold x in Hstop. rewrite Hstop. eauto.
  - fold x in Hpass. rewrite Hpass by lia. rewrite (ac_isdel_run h _ n) by (apply Hs || apply pos_range; lia).
    rewrite step_val by lia. unfold n. rewrite pos_next by lia. fold n. rewrite not_last by lia. apply IH; [lia..|].
    specialize (Hpass s ltac:(lia)). unfold passes in Hpass. apply andb_true_iff in Hpass as [Htk _].
    destruct (st_del (kh_flags h) (pos n x s)) eqn:Ed.
    + right. exists s. split_and!; [lia|lia|done..].
    + destruct Hsite as [|(t & Ht & E)]; [by left|]. right. exists t. split; [lia|done].
Qed.

End Search.

(** ** The invariant: a table [h] that represents the map [m] *)

Definition stored {V} (h : kh V) (i key : Z) (v : V) : Prop :=
  kh_keys h !! Z.to_nat i = Some key /\ kh_vals h !! Z.to_nat i = Some v.
Definition in_table {V} (h : kh V) (i : Z) : Prop := 0 <= i < kh_n_buckets h.

Record kh_ok {V} (hash : Z -> Z) (h : kh V) (m : gmap Z V) : Prop := {
  ko_shape : kh_n_buckets h = 0 \/ exists k, 2 <= k <= 31 /\ shape k h;
  ko_reach : forall i key, in_table h i -> live (kh_flags h) i = true -> kh_keys h !! Z.to_nat i = Some key ->
    reach hash (kh_flags h) (kh_n_buckets h) key i;
  ko_inj : forall i j key, in_table h i -> in_table h j -> live (kh_flags h) i = true -> live (kh_flags h) j = true ->
    kh_keys h !! Z.to_nat i = Some key -> kh_keys h !! Z.to_nat j = Some key -> i = j;
  ko_map : forall key v, m !! key = Some v <-> exists i, in_table h i /\ live (kh_flags h) i = true /\ stored h i key v;
  ko_size : kh_size h = count (live (kh_flags h)) (Z.to_nat (kh_n_buckets h));
  ko_occ : kh_n_occupied h = count (taken (kh_flags h)) (Z.to_nat (kh_n_buckets h));
  ko_upper : kh_upper_bound h = if kh_n_buckets h =? 0 then 0 else ac_upper (kh_n_buckets h);
  ko_load : kh_n_occupied h <= kh_upper_bound h;
}.

Section Table.
Context {V : Type} `{A : KAlloc V} (hash : Z -> Z).
Implicit Types (h : kh V) (m : gmap Z V).

Lemma kh_init_ok : kh_ok hash (kh_init (V:=V)) ∅.
Proof.
  assert (forall i, ~ in_table (kh_init (V:=V)) i) as Hn by (intros i; unfold in_table; simpl; lia).
  split; [by left| | | |done..].
  - intros i key Hi. by apply Hn in Hi.
  - intros i j key Hi. by apply Hn in Hi.
  - intros key v. rewrite lookup_empty. split; [done|]. intros (i & Hi & _). by apply Hn in Hi.
Qed.

Context (k : Z) (Hk : 2 <= k <= 31).

Lemma val_lookup h i : shape k h -> in_table h i -> exists v, kh_vals h !! Z.to_nat i = Some v.
Proof.
  intros Hs Hi. unfold in_table in Hi. rewrite (sh_n k h Hs) in Hi. pose proof (sh_vals k h Hs).
  apply lookup_lt_is_Some_2. lia.
Qed.

Lemma size_le_occ h m : kh_ok hash h m -> 0 <= kh_size h <= kh_n_occupied h.
Proof.
  intros Ho. rewrite (ko_size _ _ _ Ho), (ko_occ _ _ _ Ho). split; [apply count_range|].
  apply count_mono. intros i _. apply live_taken.
Qed.

Lemma load_lt h m : kh_ok hash h m -> shape k h -> kh_n_occupied h < kh_n_buckets h /\ kh_n_buckets h <= 2 ^ 31.
Proof.
  intros Ho Hs. pose proof (ko_load _ _ _ Ho) as Hl. rewrite (ko_upper _ _ _ Ho), (sh_n k h Hs) in Hl.
  pose proof (n_pos k ltac:(lia)). destruct (Z.eqb_spec (2 ^ k) 0); [lia|].
  rewrite (sh_n k h Hs). pose proof (ac_upper_bound k Hk). pose proof (n_le k ltac:(lia)). lia.
Qed.

(** The search for [key] ends at its bucket, or at an empty one if there is none. *)
Lemma search_ends h m key :
  kh_ok hash h m -> shape k h ->
  exists s, stops_at hash k h key s /\
    let i := pos (2 ^ k) (hash key) s in
    match m !! key with
    | Some v => live (kh_flags h) i = true /\ stored h i key v
    | None => taken (kh_flags h) i = false
    end.
Proof.
  intros Ho Hs. pose proof (load_lt h m Ho Hs) as [Hlt _]. pose proof (sh_n k h Hs) as En.
  rewrite (ko_occ _ _ _ Ho) in Hlt. destruct (count_free (taken (kh_flags h)) (Z.to_nat (kh_n_buckets h))) as (e & He & Ee).
  { rewrite Z2Nat.id; [done|]. rewrite En. pose proof (n_pos k ltac:(lia)). lia. }
  assert (0 <= e < 2 ^ k) as He' by lia.
  destruct (probe_first k ltac:(lia) (fun i => negb (passes h key i)) (hash key) e He') as (s & Hs0 & Hstop & Hpass).
  { unfold passes. by rewrite Ee. }
  apply negb_true_iff in Hstop. assert (stops_at hash k h key s) as Hst.
  { split; [done|]. split; [done|]. intros t Ht. apply negb_false_iff. by apply Hpass. }
  exists s. split; [done|]. intros i. pose proof (pos_range k ltac:(lia) (hash key) s) as Hi. fold i in Hi, Hstop.
  assert (in_table h i) as Hit by (unfold in_table; lia).
  assert (taken (kh_flags h) i = true -> live (kh_flags h) i = true /\ kh_keys h !! Z.to_nat i = Some key) as Htk.
  { intros Ht. unfold passes in Hstop. rewrite Ht in Hstop. simpl in Hstop. apply orb_false_iff in Hstop as [Hd Hb].
    apply negb_false_iff, bool_decide_eq_true in Hb. split; [|done]. unfold live, taken in *.
    rewrite Hd. destruct (st_empty (kh_flags h) i); done. }
  destruct (m !! key) as [v|] eqn:Em.
  - apply (ko_map _ _ _ Ho) in Em as (j & Hj & Hlj & Hkj & Hvj).
    destruct (ko_reach _ _ _ Ho j key Hj Hlj Hkj) as (sj & Hsj & Ej & Hrj). rewrite En in *.
    assert (i = j) as ->; [|done]. destruct (Z.lt_trichotomy s sj) as [Hc|[->|Hc]]; [|done|].
    + destruct (Htk (Hrj s ltac:(lia))) as [Hl Hki]. apply (ko_inj _ _ _ Ho i j key); done.
    + specialize (Hpass sj ltac:(lia)). rewrite Ej in Hpass. apply negb_false_iff in Hpass. unfold passes in Hpass.
      apply andb_true_iff in Hpass as [_ Hpass]. unfold live in Hlj. apply negb_true_iff, orb_false_iff in Hlj as [_ Hd].
      rewrite Hd, bool_decide_true in Hpass by done. done.
  - destruct (taken (kh_flags h) i) eqn:Et; [|done]. destruct (Htk eq_refl) as [Hl Hki].
    destruct (val_lookup h i Hs Hit) as [v Hv]. assert (m !! key = Some v) as Em'; [|congruence].
    apply (ko_map _ _ _ Ho). exists i. done.
Qed.

Lemma kh_put_site_run h m key :
  kh_ok hash h m -> shape k h ->
  exists x, kh_put_site hash key h = Done x h /\ in_table h x /\
    match m !! key with
    | Some v => live (kh_flags h) x = true /\ stored h x key v
    | None => live (kh_flags h) x = false /\ reach hash (kh_flags h) (kh_n_buckets h) key x
    end.
Proof.
  intros Ho Hs. destruct (search_ends h m key Ho Hs) as (s0 & Hst & Hm). pose proof (sh_n k h Hs) as En.
  pose proof (n_pos k ltac:(lia)) as Hn. unfold kh_put_site. msimp. rewrite En. rewrite pos_0 by lia.
  assert (forall s, in_table h (pos (2 ^ k) (hash key) s)) as Hin.
  { intros s. unfold in_table. rewrite En. apply pos_range. lia. }
  rewrite (ac_isempty_run h _ (2 ^ k)) by (apply Hs || apply pos_range; lia).
  destruct Hst as (Hs0 & Hstop & Hpass) eqn:Est. clear Est.
  assert (forall t, 0 <= t < s0 -> taken (kh_flags h) (pos (2 ^ k) (hash key) t) = true) as Htaken.
  { intros t Ht. specialize (Hpass t Ht). unfold passes in Hpass. by apply andb_true_iff in Hpass as [? _]. }
  destruct (st_empty (kh_flags h) (pos (2 ^ k) (hash key) 0)) eqn:Ee0.
  - assert (s0 = 0) as ->.
    { destruct (decide (s0 = 0)); [done|]. specialize (Htaken 0 ltac:(lia)). unfold taken in Htaken. by rewrite Ee0 in Htaken. }
    eexists. split; [done|]. split; [apply Hin|]. destruct (m !! key) eqn:Em; [done|].
    split; [unfold live; by rewrite Ee0|]. exists 0. split_and!; [lia|lia|done|lia].
  - destruct (kh_put_loop_run hash k Hk h key s0 (Z.to_nat (2 * 2 ^ k)) 0 (2 ^ k)) as (site & Hsite & ->);
      [done|done|lia|lia|by left|]. rewrite Z.eqb_refl. cbv zeta in Hm.
    rewrite (ac_isempty_run h _ (2 ^ k)) by (apply Hs || apply pos_range; lia).
    eexists. split; [done|]. destruct (m !! key) as [v|] eqn:Em.
    + destruct Hm as [Hl Hsto]. pose proof (live_taken _ _ Hl) as Ht. unfold taken in Ht. apply negb_true_iff in Ht.
      rewrite Ht. simpl. split; [apply Hin|]. done.
    + unfold taken in Hm at 1. apply negb_false_iff in Hm. rewrite Hm. simpl.
      destruct Hsite as [->|(t & Ht & -> & Htk & Hd)].
      * rewrite Z.eqb_refl. simpl. split; [apply Hin|]. split; [unfold live; by rewrite Hm|].
        exists s0. split_and!; [lia|lia|done|done].
      * pose proof (pos_range k ltac:(lia) (hash key) t). destruct (Z.eqb_spec (pos (2 ^ k) (hash key) t) (2 ^ k)); [lia|].
        simpl. split; [apply Hin|]. split; [unfold live; by rewrite Hd, orb_true_r|].
        exists t. split_and!; [lia|lia|done|]. intros t' Ht'. apply Htaken. lia.
Qed.

End Table.

(** ** Changes of one bucket *)

Section Change.
Context {V : Type} `{A : KAlloc V} (hash : Z -> Z) (k : Z) (Hk : 2 <= k <= 31).
Implicit Types (h : kh V) (m : gmap Z V).

Lemma flags_set_live f f' n i e d j :
  flags_set f f' n i e d -> 0 <= j < n ->
  live f' j = (if decide (j = i) then negb (e || d) else live f j) /\
  taken f' j = (if decide (j = i) then negb e else taken f j).
Proof.
  intros (_ & He & Hd & Hj) Hr. unfold live, taken. destruct (decide (j = i)) as [->|N].
  - by rewrite He, Hd. - by destruct (Hj j Hr N) as [-> ->].
Qed.

Lemma shape_flags h f : shape k h -> covers f (2 ^ k) -> shape k (set_flags f h).
Proof. intros [? ? ? ?] ?. by split. Qed.

Lemma put_key_run h i key : shape k h -> in_table h i ->
  put_key i key h = Done tt (set_keys (<[Z.to_nat i := key]> (kh_keys h)) h) /\
  shape k (set_keys (<[Z.to_nat i := key]> (kh_keys h)) h).
Proof.
  intros Hs Hi. unfold in_table in Hi. rewrite (sh_n k h Hs) in Hi.
  destruct (key_at_run k Hk h i Hs Hi) as (k0 & _ & E). unfold put_key. msimp. rewrite E. split; [done|].
  destruct Hs. split; try done. simpl. by rewrite length_insert.
Qed.

Lemma val_at_run h i : shape k h -> in_table h i ->
  exists v, kh_vals h !! Z.to_nat i = Some v /\ val_at i h = Done v h.
Proof. intros Hs Hi. destruct (val_lookup k Hk h i Hs Hi) as [v E]. exists v. split; [done|]. unfold val_at. msimp. by rewrite E. Qed.

Lemma put_val_run h i v : shape k h -> in_table h i ->
  put_val i v h = Done tt (set_vals (<[Z.to_nat i := v]> (kh_vals h)) h) /\
  shape k (set_vals (<[Z.to_nat i := v]> (kh_vals h)) h).
Proof.
  intros Hs Hi. destruct (val_at_run h i Hs Hi) as (v0 & _ & E). unfold put_val. msimp. rewrite E. split; [done|].
  destruct Hs. split; try done. simpl. by rewrite length_insert.
Qed.

(** A new element at a bucket that held none and that its probe comes to. *)
Lemma add_ok h m x key v f :
  kh_ok hash h m -> shape k h -> in_table h x -> live (kh_flags h) x = false -> m !! key = None ->
  reach hash (kh_flags h) (kh_n_buckets h) key x -> kh_vals h !! Z.to_nat x = Some v ->
  kh_n_occupied h < kh_upper_bound h -> flags_set (kh_flags h) f (2 ^ k) x false false ->
  kh_ok hash (set_counts (kh_size h + 1) (kh_n_occupied h + Z.b2z (negb (taken (kh_flags h) x)))
    (set_flags f (set_keys (<[Z.to_nat x := key]> (kh_keys h)) h))) (<[key := v]> m).
Proof.
  intros Ho Hs Hx Hlx Hkey Hr Hv Hlt Hf. pose proof (sh_n k h Hs) as En.
  assert (forall j, in_table h j -> live f j = (if decide (j = x) then true else live (kh_flags h) j)) as Hl.
  { intros j Hj. unfold in_table in Hj. rewrite En in Hj. by destruct (flags_set_live _ _ _ _ _ _ j Hf Hj) as [-> _]. }
  assert (forall j, in_table h j -> taken f j = (if decide (j = x) then true else taken (kh_flags h) j)) as Ht.
  { intros j Hj. unfold in_table in Hj. rewrite En in Hj. by destruct (flags_set_live _ _ _ _ _ _ j Hf Hj) as [_ ->]. }
  assert (forall j, in_table h j -> taken (kh_flags h) j = true -> taken f j = true) as Hmono.
  { intros j Hj Hjt. rewrite Ht by done. by destruct (decide (j = x)). }
  assert (forall j, in_table h j -> <[Z.to_nat x := key]> (kh_keys h) !! Z.to_nat j = if decide (j = x) then Some key else kh_keys h !! Z.to_nat j) as Hkeys.
  { intros j Hj. pose proof (sh_keys k h Hs). unfold in_table in *. destruct (decide (j = x)) as [->|N].
    - apply list_lookup_insert_eq. lia. - apply list_lookup_insert_ne. lia. }
  assert (forall j, in_table h j -> live (kh_flags h) j = true -> kh_keys h !! Z.to_nat j <> Some key) as Hfresh.
  { intros j Hj Hlj Ej. destruct (val_lookup k Hk h j Hs Hj) as [w Hw]. assert (m !! key = Some w); [|congruence].
    apply (ko_map _ _ _ Ho). exists j. done. }
  unfold set_counts, set_flags, set_keys in *. split; unfold in_table, stored in *; simpl in *.
  - right. exists k. split; [done|]. destruct Hs. split; simpl; try done; [by destruct Hf|by rewrite length_insert].
  - intros i key' Hi. rewrite Hl, Hkeys by done. destruct (decide (i = x)) as [->|N]; intros Hli E.
    + injection E as <-. apply (reach_mono hash (kh_flags h)); [intros j Hj Hjt; by apply Hmono|done].
    + apply (reach_mono hash (kh_flags h)); [intros j Hj Hjt; by apply Hmono|]. by apply (ko_reach _ _ _ Ho).
  - intros i j key' Hi Hj. rewrite !Hl, !Hkeys by done.
    destruct (decide (i = x)) as [->|], (decide (j = x)) as [->|]; intros Hli Hlj Ei Ej; [done| | |].
    + exfalso. apply (Hfresh j Hj Hlj). congruence.
    + exfalso. apply (Hfresh i Hi Hli). congruence.
    + by apply (ko_inj _ _ _ Ho i j key').
  - intros key' v'. rewrite lookup_insert_Some, (ko_map _ _ _ Ho key' v'). split.
    + intros [[<- <-]|[N (i & Hi & Hli & Hki & Hvi)]].
      * exists x. rewrite Hl, Hkeys, !decide_True by done. done.
      * exists i. rewrite Hl, Hkeys by done. destruct (decide (i = x)) as [->|]; [congruence|]. done.
    + intros (i & Hi & Hli & Hki & Hvi). rewrite Hl in Hli by done. rewrite Hkeys in Hki by done.
      destruct (decide (i = x)) as [->|]; [left; split; congruence|]. right. split.
      * intros <-. by apply (Hfresh i Hi Hli).
      * exists i. done.
  - rewrite (ko_size _ _ _ Ho). rewrite (count_update (live (kh_flags h)) (live f) _ x).
    + rewrite Hl, decide_True, Hlx by done. simpl. lia.
    + lia.
    + intros i Hi N. rewrite Hl by lia. by rewrite decide_False.
  - rewrite (ko_occ _ _ _ Ho). rewrite (count_update (taken (kh_flags h)) (taken f) _ x).
    + rewrite Ht, decide_True by done. destruct (taken (kh_flags h) x); simpl; lia.
    + lia.
    + intros i Hi N. rewrite Ht by lia. by rewrite decide_False.
  - apply (ko_upper _ _ _ Ho).
  - destruct (taken (kh_flags h) x); simpl; lia.
Qed.

(** [kh_enter] at the bucket [kh_put_site] found. *)
Lemma kh_enter_run h m x key :
  kh_ok hash h m -> shape k h -> in_table h x -> kh_n_occupied h < kh_upper_bound h ->
  match m !! key with
  | Some v => live (kh_flags h) x = true /\ stored h x key v -> kh_enter key x h = Done (x, 0) h
  | None => live (kh_flags h) x = false /\ reach hash (kh_flags h) (kh_n_buckets h) key x ->
      exists v h', kh_enter key x h = Done (x, if taken (kh_flags h) x then 2 else 1) h' /\
        kh_ok hash h' (<[key := v]> m) /\ live (kh_flags h') x = true /\ stored h' x key v /\
        kh_n_buckets h' = kh_n_buckets h /\ kh_size h' = kh_size h + 1 /\
        kh_n_occupied h' = kh_n_occupied h + Z.b2z (negb (taken (kh_flags h) x))
  end.
Proof.
  intros Ho Hs Hx Hlt. pose proof (sh_n k h Hs) as En. assert (0 <= x < 2 ^ k) as Hx' by (unfold in_table in Hx; lia).
  unfold kh_enter. destruct (m !! key) as [v|] eqn:Em; intros [Hl Hr].
  - msimp. rewrite (ac_isempty_run h _ (2 ^ k)) by (done || apply Hs).
    unfold live in Hl. apply negb_true_iff, orb_false_iff in Hl as [-> Hd].
    rewrite (ac_isdel_run h _ (2 ^ k)) by (done || apply Hs). by rewrite Hd.
  - destruct (val_lookup k Hk h x Hs Hx) as [v Hv]. destruct (load_lt hash k Hk h m Ho Hs) as [Hocc Hn].
    pose proof (size_le_occ hash h m Ho) as Hsz.
    destruct (put_key_run h x key Hs Hx) as [Ek Hs1]. set (h1 := set_keys (<[Z.to_nat x := key]> (kh_keys h)) h) in *.
    destruct (flag_clear_run h1 3 (kh_flags h) (2 ^ k) x) as (f & Ef & Hf); [apply Hs|done|lia|].
    change (Z.testbit 3 1) with true in Hf. change (Z.testbit 3 0) with true in Hf. rewrite !andb_false_r in Hf.
    pose proof (add_ok h m x key v f Ho Hs Hx Hl Em Hr Hv Hlt Hf) as Hok. fold h1 in Hok.
    assert (u32 (kh_size h + 1) = kh_size h + 1) as Eu by (apply wrap_small; lia).
    assert (u32 (kh_n_occupied h + 1) = kh_n_occupied h + 1) as Eo by (apply wrap_small; lia).
    exists v. eexists. split; [|split; [exact Hok|]].
    + msimp. rewrite (ac_isempty_run h _ (2 ^ k)) by (done || apply Hs). unfold ac_set_isboth_false.
      unfold taken. destruct (st_empty (kh_flags h) x) eqn:Ee; simpl negb; cbv iota.
      * rewrite Ek. rewrite Ef. simpl. rewrite Eu, Eo. done.
      * rewrite (ac_isdel_run h _ (2 ^ k)) by (done || apply Hs). unfold live in Hl. rewrite Ee in Hl. simpl in Hl.
        apply negb_false_iff in Hl. rewrite Hl. rewrite Ek, Ef. simpl. rewrite Eu, Z.add_0_r. done.
    + split_and!; try done; simpl.
      * destruct (flags_set_live _ _ _ _ _ _ x Hf Hx') as [-> _]. by rewrite decide_True.
      * split; [|done]. simpl. apply list_lookup_insert_eq. pose proof (sh_keys k h Hs). lia.
Qed.

(** [kh_value(h, x) = v] for an element. *)
Lemma put_val_ok h m x key v0 v :
  kh_ok hash h m -> shape k h -> in_table h x -> live (kh_flags h) x = true -> stored h x key v0 ->
  exists h', put_val x v h = Done tt h' /\ kh_ok hash h' (<[key := v]> m) /\ stored h' x key v /\
    kh_n_buckets h' = kh_n_buckets h /\ kh_size h' = kh_size h.
Proof.
  intros Ho Hs Hx Hl [Hkx Hvx]. destruct (put_val_run h x v Hs Hx) as [E Hs']. eexists. split; [exact E|].
  assert (forall j, in_table h j -> <[Z.to_nat x := v]> (kh_vals h) !! Z.to_nat j = if decide (j = x) then Some v else kh_vals h !! Z.to_nat j) as Hvals.
  { intros j Hj. pose proof (sh_vals k h Hs). pose proof (sh_n k h Hs). unfold in_table in *. destruct (decide (j = x)) as [->|N].
    - apply list_lookup_insert_eq. lia. - apply list_lookup_insert_ne. lia. }
  split.
  - destruct Ho. split; try done; unfold in_table, stored in *; simpl in *.
    + by right; exists k.
    + intros key' v'. rewrite lookup_insert_Some, (ko_map0 key' v'). split.
      * intros [[<- <-]|[N (i & Hi & Hli & Hki & Hvi)]].
        -- exists x. rewrite Hvals, decide_True by done. done.
        -- exists i. rewrite Hvals by done. destruct (decide (i = x)) as [->|]; [congruence|]. done.
      * intros (i & Hi & Hli & Hki & Hvi). rewrite Hvals in Hvi by done.
        destruct (decide (i = x)) as [->|N]; [left; split; congruence|]. right. split.
        -- intros <-. apply N. by apply (ko_inj0 i x key).
        -- exists i. done.
  - split_and!; try done. split; [done|]. simpl. rewrite Hvals by done. by rewrite decide_True.
Qed.

(** [kh_del] of an element. *)
Lemma kh_del_ok h m x key v :
  kh_ok hash h m -> shape k h -> in_table h x -> live (kh_flags h) x = true -> stored h x key v ->
  exists h', kh_del x h = Done tt h' /\ kh_ok hash h' (delete key m) /\ kh_n_buckets h' = kh_n_buckets h /\
    kh_size h' = kh_size h - 1.
Proof.
  intros Ho Hs Hx Hlx [Hkx Hvx]. pose proof (sh_n k h Hs) as En. assert (0 <= x < 2 ^ k) as Hx' by (unfold in_table in Hx; lia).
  destruct (ac_set_isdel_true_run h (kh_flags h) (2 ^ k) x) as (f & Ef & Hf); [apply Hs|done|].
  pose proof (count_update (live (kh_flags h)) (live f) (Z.to_nat (kh_n_buckets h)) x) as Hcl.
  assert (forall j, in_table h j -> live f j = (if decide (j = x) then false else live (kh_flags h) j)) as Hl.
  { intros j Hj. unfold in_table in Hj. rewrite En in Hj. destruct (flags_set_live _ _ _ _ _ _ j Hf Hj) as [-> _].
    by rewrite orb_true_r. }
  assert (forall j, in_table h j -> taken f j = taken (kh_flags h) j) as Ht.
  { intros j Hj. unfold in_table in Hj. rewrite En in Hj. destruct (flags_set_live _ _ _ _ _ _ j Hf Hj) as [_ ->].
    by destruct (decide (j = x)) as [->|]. }
  assert (count (live f) (Z.to_nat (kh_n_buckets h)) = kh_size h - 1) as Hc.
  { rewrite Hcl, <- (ko_size _ _ _ Ho), Hlx, Hl, decide_True by done || (unfold in_table in Hx; lia) || (intros i Hi N; rewrite Hl by (unfold in_table; lia); by rewrite decide_False).
    simpl. lia. }
  assert (u32 (kh_size h - 1) = kh_size h - 1) as Eu.
  { pose proof (count_range (live f) (Z.to_nat (kh_n_buckets h))). destruct (load_lt hash k Hk h m Ho Hs).
    pose proof (size_le_occ hash h m Ho). apply wrap_small. lia. }
  eexists. split; [|split].
  - unfold kh_del. msimp. unfold in_table in Hx. destruct (Z.eqb_spec x (kh_n_buckets h)); [lia|]. cbn [negb]. cbv beta iota.
    rewrite (ac_iseither_run h _ (2 ^ k)) by (done || apply Hs). unfold live in Hlx. apply negb_true_iff in Hlx. rewrite Hlx.
    rewrite Ef. simpl. rewrite Eu. done.
  - unfold set_counts, set_flags. destruct Ho. split; unfold in_table, stored in *; simpl in *; try done.
    + right. exists k. split; [done|]. destruct Hs. split; try done. by destruct Hf.
    + intros i key' Hi. rewrite Hl by done. destruct (decide (i = x)); [done|]. intros Hli Hki.
      apply (reach_mono hash (kh_flags h)); [intros j Hj; by rewrite Ht|]. by apply ko_reach0.
    + intros i j key' Hi Hj. rewrite !Hl by done. destruct (decide (i = x)); [done|]. destruct (decide (j = x)); [done|].
      intros. by apply (ko_inj0 i j key').
    + intros key' v'. rewrite lookup_delete_Some, (ko_map0 key' v'). split.
      * intros [N (i & Hi & Hli & Hki & Hvi)]. exists i. rewrite Hl by done. destruct (decide (i = x)) as [->|]; [congruence|]. done.
      * intros (i & Hi & Hli & Hki & Hvi). rewrite Hl in Hli by done. destruct (decide (i = x)) as [->|N]; [done|]. split.
        -- intros <-. apply N. by apply (ko_inj0 i x key).
        -- exists i. done.
    + rewrite ko_occ0. apply count_ext. intros i Hi. symmetry. apply Ht. lia.
  - done.
Qed.

End Change.

(** ** Rehashing in place

    While [kh_resize] runs, the arrays hold elements of the old table (live in the old
    flags), elements of the new one (taken in the new flags), and the element in hand. *)

Section Rehash.
Context {V : Type} `{A : KAlloc V} (hash : Z -> Z).
Context (n k' : Z) (Hn : 0 <= n) (Hk' : 2 <= k' <= 31) (m : gmap Z V) (N : Z) (HN : N < 2 ^ k').
Let n' := 2 ^ k'.
Implicit Types (h : kh V) (g : list Z) (hand : option (Z * V)).

Definition old_at h (i : Z) : Prop := 0 <= i < n /\ live (kh_flags h) i = true.
Definition new_at g (i : Z) : Prop := 0 <= i < n' /\ taken g i = true.
Definition here h g (i : Z) : Prop := old_at h i \/ new_at g i.
Definition in_hand hand : Z := match hand with Some _ => 1 | None => 0 end.

Record rehashing h g hand : Prop := {
  rh_n : kh_n_buckets h = n;
  rh_f : covers (kh_flags h) n;
  rh_g : covers g n';
  rh_keys : Z.max n n' <= Z.of_nat (length (kh_keys h));
  rh_vals : Z.max n n' <= Z.of_nat (length (kh_vals h));
  rh_del : forall i, 0 <= i < n' -> st_del g i = false;
  rh_apart : forall i, old_at h i -> new_at g i -> False;
  rh_reach : forall i key, new_at g i -> kh_keys h !! Z.to_nat i = Some key -> reach hash g n' key i;
  rh_inj : forall i j key, here h g i -> here h g j ->
    kh_keys h !! Z.to_nat i = Some key -> kh_keys h !! Z.to_nat j = Some key -> i = j;
  rh_hand : forall i key v, hand = Some (key, v) -> here h g i -> kh_keys h !! Z.to_nat i <> Some key;
  rh_map : forall key v, m !! key = Some v <-> (exists i, here h g i /\ stored h i key v) \/ hand = Some (key, v);
  rh_count : count (live (kh_flags h)) (Z.to_nat n) + count (taken g) (Z.to_nat n') + in_hand hand = N;
}.

Lemma n'_pos : 0 < n'.
Proof. apply n_pos. lia. Qed.

Lemma here_range h g i : here h g i -> 0 <= i < Z.max n n'.
Proof. intros [[]|[]]; lia. Qed.

(** The element in hand moves to bucket [i], free in the new table; what the old
    table had there comes to hand. *)
Lemma rehash_place h g h' g' key val hand' i :
  rehashing h g (Some (key, val)) ->
  0 <= i < n' -> taken g i = false -> reach hash g n' key i -> flags_set g g' n' i false false ->
  kh_n_buckets h' = n -> covers (kh_flags h') n ->
  kh_keys h' = <[Z.to_nat i := key]> (kh_keys h) -> kh_vals h' = <[Z.to_nat i := val]> (kh_vals h) ->
  (forall j, 0 <= j < n -> live (kh_flags h') j = (if decide (j = i) then false else live (kh_flags h) j)) ->
  match hand' with Some (k1, v1) => old_at h i /\ stored h i k1 v1 | None => ~ old_at h i end ->
  rehashing h' g' hand'.
Proof.
  intros Hr Hi Hg Hrk Hg' En' Hf' Eks Evs Hlive Hhand.
  assert (forall j, 0 <= j < n' -> taken g' j = (if decide (j = i) then true else taken g j)) as Htk.
  { intros j Hj. by destruct (flags_set_live _ _ _ _ _ _ j Hg' Hj) as [_ ->]. }
  assert (forall j, old_at h' j <-> old_at h j /\ j <> i) as Hold.
  { intros j. unfold old_at. split.
    - intros [Hj Hl]. rewrite Hlive in Hl by done. destruct (decide (j = i)); done.
    - intros [[Hj Hl] N']. split; [done|]. rewrite Hlive by done. by rewrite decide_False. }
  assert (forall j, new_at g' j <-> new_at g j \/ j = i) as Hnew.
  { intros j. unfold new_at. split.
    - intros [Hj Hl]. rewrite Htk in Hl by done. destruct (decide (j = i)); auto.
    - intros [[Hj Hl]| ->]; (split; [done|]); rewrite Htk by done; by destruct (decide _). }
  assert (~ new_at g i) as Hni by (intros [_ E]; congruence).
  assert (forall j, here h' g' j <-> here h g j /\ j <> i \/ j = i) as Hhere.
  { intros j. unfold here. rewrite Hold, Hnew. destruct (decide (j = i)); naive_solver. }
  pose proof (rh_keys _ _ _ Hr) as Hlk. pose proof (rh_vals _ _ _ Hr) as Hlv.
  assert (forall j, 0 <= j -> kh_keys h' !! Z.to_nat j = if decide (j = i) then Some key else kh_keys h !! Z.to_nat j) as Hkeys.
  { intros j Hj. rewrite Eks. destruct (decide (j = i)) as [->|]; [apply list_lookup_insert_eq; lia|apply list_lookup_insert_ne; lia]. }
  assert (forall j, 0 <= j -> kh_vals h' !! Z.to_nat j = if decide (j = i) then Some val else kh_vals h !! Z.to_nat j) as Hvals.
  { intros j Hj. rewrite Evs. destruct (decide (j = i)) as [->|]; [apply list_lookup_insert_eq; lia|apply list_lookup_insert_ne; lia]. }
  assert (forall j, here h' g' j -> 0 <= j) as Hpos by (intros j Hj; apply here_range in Hj; lia).
  split; [done|done|by destruct Hg'|by rewrite Eks, length_insert|by rewrite Evs, length_insert|..].
  - intros j Hj. destruct (decide (j = i)) as [->|]; [by destruct Hg' as (_ & _ & ? & _)|].
    destruct Hg' as (_ & _ & _ & Hg'). destruct (Hg' j Hj) as [_ ->]; [done|]. by apply (rh_del _ _ _ Hr).
  - intros j Ho Hw. apply Hold in Ho as [Ho N']. apply Hnew in Hw as [Hw|]; [|done]. by apply (rh_apart _ _ _ Hr j).
  - intros j key' Hw E. apply (reach_mono hash g).
    { intros t Ht. rewrite Htk by done. by destruct (decide (t = i)). }
    rewrite Hkeys in E by (destruct Hw; lia). destruct (decide (j = i)) as [->|N']; [congruence|].
    apply Hnew in Hw as [Hw|]; [|done]. by apply (rh_reach _ _ _ Hr).
  - intros j1 j2 key' H1 H2 E1 E2. rewrite Hkeys in E1, E2 by auto.
    apply Hhere in H1, H2. destruct (decide (j1 = i)) as [->|], (decide (j2 = i)) as [->|]; [done| | |].
    + destruct H2 as [[H2 _]|]; [|done]. exfalso. apply (rh_hand _ _ _ Hr j2 key val eq_refl H2). congruence.
    + destruct H1 as [[H1 _]|]; [|done]. exfalso. apply (rh_hand _ _ _ Hr j1 key val eq_refl H1). congruence.
    + destruct H1 as [[H1 _]|]; [|done]. destruct H2 as [[H2 _]|]; [|done]. by apply (rh_inj _ _ _ Hr j1 j2 key').
  - intros j k1 v1 -> Hj E. destruct Hhand as [Hoi [Ek1 Ev1]]. rewrite Hkeys in E by auto.
    apply Hhere in Hj. destruct (decide (j = i)) as [->|N'].
    + injection E as ->. by apply (rh_hand _ _ _ Hr i k1 val eq_refl (or_introl Hoi)).
    + destruct Hj as [[Hj _]|]; [|done]. apply N'. apply (rh_inj _ _ _ Hr j i k1); [done|by left|done..].
  - intros k2 v2. rewrite (rh_map _ _ _ Hr). unfold stored. split.
    + intros [(j & Hj & Ek2 & Ev2)|[= -> ->]].
      * destruct (decide (j = i)) as [->|N'].
        -- destruct Hj as [Hj|Hj]; [|done]. right. destruct hand' as [[k1 v1]|]; [|done].
           destruct Hhand as (_ & E1 & E2). congruence.
        -- left. exists j. rewrite Hhere, Hkeys, Hvals, !decide_False by (done || apply here_range in Hj; lia). auto.
      * left. exists i. rewrite Hhere, Hkeys, Hvals, !decide_True by (done || lia). auto.
    + intros [(j & Hj & Ek2 & Ev2)| ->].
      * rewrite Hkeys in Ek2 by auto. rewrite Hvals in Ev2 by auto. apply Hhere in Hj.
        destruct (decide (j = i)) as [->|]; [right; congruence|]. destruct Hj as [[Hj _]|]; [|done]. left. by exists j.
      * left. exists i. destruct Hhand as (Hoi & E1 & E2). split; [by left|done].
  - rewrite <- (rh_count _ _ _ Hr). pose proof n'_pos.
    rewrite (count_update (taken g) (taken g') (Z.to_nat n') i), Hg, (Htk i), decide_True
      by (done || lia || (intros j Hj N'; rewrite Htk by lia; by rewrite decide_False)).
    destruct (decide (0 <= i < n)) as [Hin|Hout].
    + rewrite (count_update (live (kh_flags h)) (live (kh_flags h')) (Z.to_nat n) i), (Hlive i), decide_True
        by (done || lia || (intros j Hj N'; rewrite Hlive by lia; by rewrite decide_False)).
      destruct hand' as [[k1 v1]|]; simpl.
      * destruct Hhand as [[_ ->] _]. simpl. lia.
      * destruct (live (kh_flags h) i) eqn:El; [|simpl; lia]. exfalso. by apply Hhand.
    + rewrite (count_ext (live (kh_flags h')) (live (kh_flags h))).
      * destruct hand' as [[k1 v1]|]; simpl; [destruct Hhand as [[]]; lia|lia].
      * intros j Hj. rewrite Hlive by lia. rewrite decide_False by lia. done.
Qed.

(** The element of the old table at [j] is taken in hand. *)
Lemma rehash_take h g key val f j :
  rehashing h g None -> old_at h j -> stored h j key val -> flags_set (kh_flags h) f n j false true ->
  rehashing (set_flags f h) g (Some (key, val)) /\ forall i, old_at (set_flags f h) i -> old_at h i /\ i <> j.
Proof.
  intros Hr Hj [Ek Ev] Hf. pose proof Hj as [Hjr Hjl].
  assert (forall i, old_at (set_flags f h) i <-> old_at h i /\ i <> j) as Hold.
  { intros i. unfold old_at. simpl. split.
    - intros [Hi Hl]. destruct (flags_set_live _ _ _ _ _ _ i Hf Hi) as [E _]. rewrite E in Hl. by destruct (decide (i = j)).
    - intros [[Hi Hl] N']. split; [done|]. destruct (flags_set_live _ _ _ _ _ _ i Hf Hi) as [-> _]. by rewrite decide_False. }
  assert (forall i, here (set_flags f h) g i <-> here h g i /\ i <> j) as Hhere.
  { intros i. unfold here. rewrite Hold. split; [|naive_solver]. intros [[]|Hw]; [auto|]. split; [auto|]. intros ->.
    by apply (rh_apart _ _ _ Hr j). }
  split; [|intros i; apply Hold]. pose proof (rh_count _ _ _ Hr) as Hc. destruct Hr as [? ? ? ? ? ? Ha ? Hi Hh Hm ?].
  split; try done.
  - by destruct Hf.
  - intros i Ho Hw. apply Hold in Ho as [Ho _]. by apply (Ha i).
  - intros i i' key' H1 H2. apply Hhere in H1 as [H1 _], H2 as [H2 _]. by apply Hi.
  - intros i key' v [= <- <-] Hi' E. apply Hhere in Hi' as [Hi' N']. apply N'. apply (Hi i j key); [done|by left|done..].
  - intros k2 v2. rewrite Hm. unfold stored. simpl. split.
    + intros [(i & Hi' & E1 & E2)|]; [|done]. destruct (decide (i = j)) as [->|]; [right; congruence|].
      left. exists i. rewrite Hhere. done.
    + intros [(i & Hi' & E1 & E2)|[= <- <-]]; left; [|exists j; split; [by left|done]]. apply Hhere in Hi' as [Hi' _]. by exists i.
  - simpl. rewrite <- Hc. rewrite (count_update (live (kh_flags h)) (live f) (Z.to_nat n) j); [|lia|].
    + destruct (flags_set_live _ _ _ _ _ _ j Hf Hjr) as [-> _]. rewrite Hjl, decide_True by done. simpl. lia.
    + intros i Hi' N'. destruct (flags_set_live _ _ _ _ _ _ i Hf ltac:(lia)) as [-> _]. by rewrite decide_False.
Qed.

End Rehash.

(** ** The loops of [kh_resize] *)

(** What the loops leave alone. *)
Definition same_header {V} (h h' : kh V) : Prop := kh_n_buckets h' = kh_n_buckets h /\ kh_size h' = kh_size h.

Section RehashLoops.
Context {V : Type} `{A : KAlloc V} (hash : Z -> Z).
Context (n k' : Z) (Hn : 0 <= n) (Hk' : 2 <= k' <= 31) (m : gmap Z V) (N : Z) (HN : N < 2 ^ k').
Let n' := 2 ^ k'.
Implicit Types (h : kh V) (g : list Z).

Lemma put_at h i key val :
  0 <= i -> i < Z.of_nat (length (kh_keys h)) -> i < Z.of_nat (length (kh_vals h)) ->
  exists tmpk tmpv, stored h i tmpk tmpv /\ key_at i h = Done tmpk h /\
    let h1 := set_keys (<[Z.to_nat i := key]> (kh_keys h)) h in
    put_key i key h = Done tt h1 /\ val_at i h1 = Done tmpv h1 /\
    put_val i val h1 = Done tt (set_vals (<[Z.to_nat i := val]> (kh_vals h)) h1).
Proof.
  intros Hi Hlk Hlv. destruct (lookup_lt_is_Some_2 (kh_keys h) (Z.to_nat i) ltac:(lia)) as [tmpk Ek].
  destruct (lookup_lt_is_Some_2 (kh_vals h) (Z.to_nat i) ltac:(lia)) as [tmpv Ev]. exists tmpk, tmpv.
  unfold put_key, put_val, val_at, key_at. msimp. simpl. rewrite Ek, Ev. done.
Qed.

(** The first free bucket for the element in hand. *)
Lemma find_free h g key val :
  rehashing hash n k' m N h g (Some (key, val)) ->
  exists i, 0 <= i < n' /\ taken g i = false /\ reach hash g n' key i /\
    kh_find_empty (Z.to_nat (2 * n')) g (u32 (n' - 1)) (Z.land (hash key) (u32 (n' - 1))) 0 h = Done i h.
Proof.
  intros Hr. pose proof (rh_count _ _ _ _ _ _ _ _ Hr) as Hc. simpl in Hc. fold n' in Hc, HN.
  pose proof (count_range (live (kh_flags h)) (Z.to_nat n)). pose proof (n_pos k' ltac:(lia)) as Hp. fold n' in Hp.
  destruct (count_free (taken g) (Z.to_nat n')) as (e & He & Ee); [lia|].
  destruct (probe_first k' ltac:(lia) (fun i => negb (taken g i)) (hash key) e) as (s & Hs & Hfree & Hbusy); [fold n'; lia|by rewrite Ee|].
  apply negb_true_iff in Hfree. fold n' in Hs, Hfree, Hbusy.
  assert (forall t, 0 <= t < s -> taken g (pos n' (hash key) t) = true) as Hb by (intros t Ht; apply negb_false_iff; auto).
  exists (pos n' (hash key) s). split; [apply pos_range; lia|]. split; [done|]. split; [by exists s|].
  unfold n' at 3. rewrite pos_0 by lia. fold n'. apply (kh_find_empty_run k' Hk'); [apply (rh_g _ _ _ _ _ _ _ _ Hr)|done|done|done|lia|fold n'; lia].
Qed.

Lemma kh_kick_run fuel h g key val :
  rehashing hash n k' m N h g (Some (key, val)) -> count (live (kh_flags h)) (Z.to_nat n) < Z.of_nat fuel ->
  exists h' g', kh_kick hash fuel n' g key val h = Done g' h' /\ rehashing hash n k' m N h' g' None /\
    same_header h h' /\ forall i, old_at n h' i -> old_at n h i.
Proof.
  revert h g key val. induction fuel as [|fuel IH]; intros h g key val Hr Hf.
  { pose proof (count_range (live (kh_flags h)) (Z.to_nat n)). lia. }
  destruct (find_free h g key val Hr) as (i & Hi & Hfree & Hreach & Hfind).
  destruct (flag_clear_run h 2 g n' i) as (g' & Eg & Hg'); [apply (rh_g _ _ _ _ _ _ _ _ Hr)|done|lia|].
  rewrite (rh_del _ _ _ _ _ _ _ _ Hr i Hi) in Hg'. change (Z.testbit 2 1) with true in Hg'. rewrite andb_false_r in Hg'. simpl in Hg'.
  destruct (put_at h i key val) as (tmpk & tmpv & Hsto & Ekey & Epk & Eval & Epv);
    [lia|pose proof (rh_keys _ _ _ _ _ _ _ _ Hr) as Hx; fold n' in Hx; lia|pose proof (rh_vals _ _ _ _ _ _ _ _ Hr) as Hx; fold n' in Hx; lia|].
  set (h1 := set_keys (<[Z.to_nat i := key]> (kh_keys h)) h) in *.
  set (h2 := set_vals (<[Z.to_nat i := val]> (kh_vals h)) h1) in *.
  pose proof (rh_n _ _ _ _ _ _ _ _ Hr) as En. pose proof (rh_f _ _ _ _ _ _ _ _ Hr) as Hcov.
  cbn [kh_kick]. msimp. rewrite Hfind. unfold ac_set_isempty_false. rewrite Eg, En.
  assert (~ old_at n h i -> rehashing hash n k' m N h2 g' None) as Hno.
  { intros Ho. apply (rehash_place hash n k' Hk' m N h g h2 g' key val None i); try done.
    intros j Hj. simpl. destruct (decide (j = i)) as [->|]; [|done]. destruct (live (kh_flags h) i) eqn:El; [|done].
    exfalso. by apply Ho. }
  destruct (Z.ltb_spec i n) as [Hin|Hout].
  2: { rewrite Epk, Epv. exists h2, g'. split; [done|]. split; [apply Hno; intros []; lia|]. split; [done|]. intros j Hj. exact Hj. }
  rewrite (ac_iseither_run h _ n) by (done || lia). destruct (live (kh_flags h) i) eqn:El.
  - unfold live in El. rewrite El. cbv beta iota. rewrite Ekey, Epk, Eval, Epv.
    destruct (ac_set_isdel_true_run h2 (kh_flags h) n i) as (f & Ef & Hfs); [done|lia|].
    change (kh_flags h2) with (kh_flags h). rewrite Ef.
    assert (st_empty (kh_flags h) i = false) as Ee.
    { apply negb_true_iff, orb_false_iff in El. by destruct El. }
    rewrite Ee in Hfs.
    assert (forall j, 0 <= j < n -> live f j = (if decide (j = i) then false else live (kh_flags h) j)) as Hlf.
    { intros j Hj. by destruct (flags_set_live _ _ _ _ _ _ j Hfs Hj) as [-> _]. }
    destruct (IH (set_flags f h2) g' tmpk tmpv) as (h' & g2 & E & Hr' & [Hh1 Hh2] & Ho).
    + apply (rehash_place hash n k' Hk' m N h g (set_flags f h2) g' key val (Some (tmpk, tmpv)) i); try done.
      * by destruct Hfs.
      * split; [|done]. split; [lia|]. exact El.
    + cbn [kh_flags set_flags]. rewrite (count_update (live (kh_flags h)) (live f) (Z.to_nat n) i); [|lia|].
      * rewrite (Hlf i), decide_True by (done || lia). replace (live (kh_flags h) i) with true by (symmetry; exact El). simpl. lia.
      * intros j Hj N'. rewrite Hlf by lia. by rewrite decide_False.
    + exists h', g2. split; [exact E|]. split; [done|]. split; [done|]. intros j Hj. apply Ho in Hj as [Hj1 Hj2].
      simpl in Hj2. rewrite Hlf in Hj2 by done. split; [done|]. by destruct (decide (j = i)).
  - pose proof El as El'. unfold live in El'. rewrite El'. cbv beta iota. rewrite Epk, Epv. exists h2, g'.
    split; [done|]. split; [apply Hno; intros [_ E]; congruence|]. split; [done|]. intros j Hj. exact Hj.
Qed.

Lemma kh_rehash_run count0 h g j :
  rehashing hash n k' m N h g None -> 0 <= j -> j + Z.of_nat count0 = n -> (forall i, old_at n h i -> j <= i) ->
  exists h' g', kh_rehash hash count0 j n' g h = Done g' h' /\ rehashing hash n k' m N h' g' None /\
    same_header h h' /\ forall i, ~ old_at n h' i.
Proof.
  revert h g j. induction count0 as [|c IH]; intros h g j Hr Hj Hc Hold.
  { exists h, g. split; [done|]. split; [done|]. split; [done|]. intros i Hi. pose proof (Hold i Hi). destruct Hi. lia. }
  pose proof (rh_n _ _ _ _ _ _ _ _ Hr) as En. pose proof (rh_f _ _ _ _ _ _ _ _ Hr) as Hcov.
  cbn [kh_rehash]. msimp. rewrite (ac_iseither_run h _ n) by (done || lia).
  destruct (live (kh_flags h) j) eqn:El; pose proof El as El'; unfold live in El'.
  - apply negb_true_iff in El'. rewrite El'.
    destruct (put_at h j 0 (fresh_val 0)) as (key & val & Hsto & Ekey & _);
      [lia|pose proof (rh_keys _ _ _ _ _ _ _ _ Hr); lia|pose proof (rh_vals _ _ _ _ _ _ _ _ Hr); lia|].
    rewrite Ekey. assert (val_at j h = Done val h) as ->.
    { unfold val_at. msimp. by destruct Hsto as [_ ->]. }
    destruct (ac_set_isdel_true_run h (kh_flags h) n j) as (f & Ef & Hfs); [done|lia|]. rewrite Ef.
    apply orb_false_iff in El' as [Ee _]. rewrite Ee in Hfs.
    destruct (rehash_take hash n k' Hk' m N h g key val f j Hr) as [Hr1 Ho1]; [split; [lia|done]|done|done|].
    destruct (kh_kick_run (S (Z.to_nat (kh_n_buckets h))) (set_flags f h) g key val Hr1) as (h2 & g2 & E2 & Hr2 & [Hn2 Hs2] & Ho2).
    { pose proof (count_range (live (kh_flags (set_flags f h))) (Z.to_nat n)). rewrite En. lia. }
    rewrite E2. destruct (IH h2 g2 (j + 1) Hr2) as (h3 & g3 & E3 & Hr3 & [Hn3 Hs3] & Ho3); [lia|lia| |].
    { intros i Hi. apply Ho2, Ho1 in Hi as [Hi N']. pose proof (Hold i Hi). lia. }
    exists h3, g3. split; [exact E3|]. split; [done|]. split; [|done]. split; [by rewrite Hn3, Hn2|by rewrite Hs3, Hs2].
  - apply negb_false_iff in El'. rewrite El'. apply IH; [done|lia|lia|]. intros i Hi. pose proof (Hold i Hi).
    assert (i <> j); [|lia]. intros ->. destruct Hi. congruence.
Qed.

End RehashLoops.

(** ** [kh_resize] *)

Lemma resize_to_pred k : 2 <= k <= 31 -> resize_to (u32 (2 ^ k - 1)) = 2 ^ k.
Proof.
  intros Hk. assert (forallb (fun k => resize_to (u32 (2 ^ k - 1)) =? 2 ^ k) (seqZ 2 30) = true) as Hf by (vm_compute; reflexivity).
  rewrite forallb_forall in Hf. apply Z.eqb_eq, (Hf k). apply list_elem_of_In, elem_of_seqZ. lia.
Qed.

Lemma resize_to_succ k : 2 <= k <= 30 -> resize_to (u32 (2 ^ k + 1)) = 2 ^ (k + 1).
Proof.
  intros Hk. assert (forallb (fun k => resize_to (u32 (2 ^ k + 1)) =? 2 ^ (k + 1)) (seqZ 2 29) = true) as Hf by (vm_compute; reflexivity).
  rewrite forallb_forall in Hf. apply Z.eqb_eq, (Hf k). apply list_elem_of_In, elem_of_seqZ. lia.
Qed.

(** [memset(new_flags, 0xaa, ...)]: every bucket is empty. *)
Lemma fresh_flags k : 2 <= k ->
  let g := replicate (Z.to_nat (ac_fsize (2 ^ k))) 0xaaaaaaaa in
  covers g (2 ^ k) /\ forall i, 0 <= i < 2 ^ k -> st_empty g i = true /\ st_del g i = false.
Proof.
  intros Hk g. assert (covers g (2 ^ k)) as Hc by (apply ac_fsize_covers; [done|apply length_replicate]).
  split; [done|]. intros i Hi. unfold g, st_empty, st_del. rewrite lookup_replicate_2.
  2: { specialize (Hc i Hi). unfold g in Hc. by rewrite length_replicate in Hc. }
  simpl. rewrite flag_shift_val.
  assert (forallb (fun r => Z.testbit 0xaaaaaaaa (2 * r + 1) && negb (Z.testbit 0xaaaaaaaa (2 * r))) (seqZ 0 16) = true) as Hf by reflexivity.
  rewrite forallb_forall in Hf. specialize (Hf (i mod 16)). pose proof (Z.mod_pos_bound i 16).
  apply andb_true_iff in Hf as [? ?%negb_true_iff]; [done|]. apply list_elem_of_In, elem_of_seqZ. lia.
Qed.

Lemma grow_prefix {B} (fresh : nat -> B) c l : exists l', grow fresh c l = l ++ l' /\ Z.of_nat (length (grow fresh c l)) = Z.max (Z.of_nat (length l)) (Z.of_nat c).
Proof. eexists. split; [done|]. unfold grow. rewrite length_app, length_fmap, length_seq. lia. Qed.

Section Resize.
Context {V : Type} `{A : KAlloc V} (hash : Z -> Z).
Implicit Types (h : kh V) (m : gmap Z V).

(** Larger arrays with the same beginning. *)
Definition extends h h' : Prop :=
  exists ks vs, h' = mk_kh (kh_n_buckets h) (kh_size h) (kh_n_occupied h) (kh_upper_bound h) (kh_flags h)
    (kh_keys h ++ ks) (kh_vals h ++ vs).

Lemma n_buckets_le_arrays h m : kh_ok hash h m ->
  0 <= kh_n_buckets h <= Z.of_nat (length (kh_keys h)) /\ kh_n_buckets h <= Z.of_nat (length (kh_vals h)).
Proof.
  intros Ho. destruct (ko_shape _ _ _ Ho) as [->|(k & Hk & Hs)]; [lia|]. rewrite (sh_n k h Hs).
  pose proof (sh_keys k h Hs). pose proof (sh_vals k h Hs). pose proof (n_pos k ltac:(lia)). lia.
Qed.

Lemma extends_ok h h' m : extends h h' -> kh_ok hash h m -> kh_ok hash h' m.
Proof.
  intros (ks & vs & ->) Ho. pose proof (n_buckets_le_arrays h m Ho) as [Hnk Hnv].
  assert (forall i, in_table h i -> (kh_keys h ++ ks) !! Z.to_nat i = kh_keys h !! Z.to_nat i) as Ek.
  { intros i Hi. unfold in_table in Hi. apply lookup_app_l. lia. }
  assert (forall i, in_table h i -> (kh_vals h ++ vs) !! Z.to_nat i = kh_vals h !! Z.to_nat i) as Ev.
  { intros i Hi. unfold in_table in Hi. apply lookup_app_l. lia. }
  destruct Ho. split; unfold in_table, stored in *; simpl in *; try done.
  - destruct ko_shape0 as [|(k & Hk & [])]; [by left|]. right. exists k. split; [done|].
    split; simpl; try done; rewrite length_app; lia.
  - intros i key Hi. rewrite Ek by done. by apply ko_reach0.
  - intros i j key Hi Hj. rewrite !Ek by done. by apply ko_inj0.
  - intros key v. rewrite ko_map0. split; intros (i & Hi & Hl & H1 & H2); exists i; rewrite Ek, Ev in * by done; done.
Qed.

Lemma kh_expand_run h n' : kh_n_buckets h < n' ->
  exists r h', kh_expand n' h = Done r h' /\ extends h h' /\
    (r = true -> n' <= Z.of_nat (length (kh_keys h')) /\ n' <= Z.of_nat (length (kh_vals h'))) /\
    ((forall z, kalloc_ok z = true) -> r = true).
Proof.
  intros Hn. unfold kh_expand. destruct (kalloc_ok (n' * sizeof_khkey)) eqn:E1; cbn [negb].
  - destruct (grow_prefix fresh_key (Z.to_nat n') (kh_keys h)) as (ks & Ek & Lk). msimp.
    destruct (kalloc_ok (n' * sizeof_khval)) eqn:E2; cbn [negb]; eexists _, _; (split; [reflexivity|]).
    + destruct (grow_prefix fresh_val (Z.to_nat n') (kh_vals h)) as (vs & Ev & Lv).
      split; [|split; [|done]].
      * exists ks, vs. by rewrite <- Ek, <- Ev.
      * intros _. cbn [kh_keys kh_vals set_keys set_vals]. rewrite Lk, Lv. lia.
    + split; [|split; [done|]].
      * exists ks, []. by rewrite <- Ek, app_nil_r.
      * intros Hall. by rewrite Hall in E2.
  - eexists _, _. split; [reflexivity|]. split; [|split; [done|]].
    + exists [], []. rewrite !app_nil_r. by destruct h.
    + intros Hall. by rewrite Hall in E1.
Qed.

(** The rehashing loop starts with the whole old table ... *)
Lemma rehashing_start h m k' :
  kh_ok hash h m -> 2 <= k' <= 31 -> 2 ^ k' <= Z.of_nat (length (kh_keys h)) -> 2 ^ k' <= Z.of_nat (length (kh_vals h)) ->
  rehashing hash (kh_n_buckets h) k' m (kh_size h) h (replicate (Z.to_nat (ac_fsize (2 ^ k'))) 0xaaaaaaaa) None.
Proof.
  intros Ho Hk' Hlk Hlv. destruct (fresh_flags k' ltac:(lia)) as [Hc Hfr].
  set (g := replicate (Z.to_nat (ac_fsize (2 ^ k'))) 0xaaaaaaaa) in *.
  assert (forall i, ~ new_at k' g i) as Hnew.
  { intros i [Hi E]. unfold taken in E. destruct (Hfr i Hi) as [He _]. by rewrite He in E. }
  pose proof (n_buckets_le_arrays h m Ho) as [Hnk Hnv].
  assert (forall i, here (kh_n_buckets h) k' h g i -> in_table h i /\ live (kh_flags h) i = true) as Hh.
  { intros i [Hi|Hi]; [done|]. by apply Hnew in Hi. }
  split; [done| |done|lia|lia|by intros i Hi; apply Hfr| | | |done| |].
  - destruct (ko_shape _ _ _ Ho) as [->|(k & Hk & Hs)]; [intros i Hi; lia|]. rewrite (sh_n k h Hs). apply Hs.
  - intros i _ Hi. by apply Hnew in Hi.
  - intros i key Hi. by apply Hnew in Hi.
  - intros i j key Hi Hj. apply Hh in Hi as [? ?], Hj as [? ?]. by apply (ko_inj _ _ _ Ho).
  - intros key v. rewrite (ko_map _ _ _ Ho). split.
    + intros (i & Hi & Hl & Hs). left. exists i. split; [by left|done].
    + intros [(i & Hi & Hs)|]; [|done]. apply Hh in Hi as [? ?]. exists i. done.
  - rewrite (ko_size _ _ _ Ho). rewrite (count_none (taken g)); [simpl; lia|].
    intros i Hi. destruct (taken g i) eqn:E; [|done]. exfalso. apply (Hnew i). split; [lia|done].
Qed.

(** ... and ends with the new one. *)
Lemma rehashing_end h m n k' N g ks vs :
  2 <= k' <= 31 -> rehashing hash n k' m N h g None -> (forall i, ~ old_at n h i) -> N < ac_upper (2 ^ k') ->
  (forall i, 0 <= i < 2 ^ k' -> ks !! Z.to_nat i = kh_keys h !! Z.to_nat i) ->
  (forall i, 0 <= i < 2 ^ k' -> vs !! Z.to_nat i = kh_vals h !! Z.to_nat i) ->
  2 ^ k' <= Z.of_nat (length ks) -> 2 ^ k' <= Z.of_nat (length vs) ->
  let h' := mk_kh (2 ^ k') N N (ac_upper (2 ^ k')) g ks vs in kh_ok hash h' m /\ shape k' h'.
Proof.
  intros Hk' Hr Hno HN Eks Evs Hlk Hlv h'. assert (shape k' h') as Hs by (split; try done; apply (rh_g _ _ _ _ _ _ _ _ Hr)).
  split; [|done]. pose proof (n_pos k' ltac:(lia)) as Hp.
  assert (forall i, 0 <= i < 2 ^ k' -> live g i = taken g i) as Hlt.
  { intros i Hi. unfold live, taken. by rewrite (rh_del _ _ _ _ _ _ _ _ Hr i Hi), orb_false_r. }
  assert (forall i, in_table h' i -> live g i = true -> here n k' h g i) as Hh.
  { intros i Hi Hl. right. split; [done|]. by rewrite <- Hlt. }
  pose proof (rh_count _ _ _ _ _ _ _ _ Hr) as Hc. simpl in Hc. rewrite (count_none (live (kh_flags h))) in Hc.
  2: { intros i Hi. destruct (live (kh_flags h) i) eqn:E; [|done]. exfalso. apply (Hno i). split; [lia|done]. }
  split; unfold stored; simpl.
  - right. by exists k'.
  - intros i key Hi Hl. rewrite Eks by done. intros E. apply (rh_reach _ _ _ _ _ _ _ _ Hr i key); [|done]. split; [done|by rewrite <- Hlt].
  - intros i j key Hi Hj Hli Hlj. rewrite !Eks by done. apply (rh_inj _ _ _ _ _ _ _ _ Hr); by apply Hh.
  - intros key v. rewrite (rh_map _ _ _ _ _ _ _ _ Hr). unfold stored. split.
    + intros [(i & [Hi|Hi] & E1 & E2)|]; [by apply Hno in Hi| |done]. pose proof Hi as [Hir Hit]. exists i.
      rewrite Eks, Evs, Hlt by done. done.
    + intros (i & Hi & Hl & E1 & E2). rewrite Eks in E1 by done. rewrite Evs in E2 by done. left. exists i. split; [by apply Hh|done].
  - rewrite (count_ext (live g) (taken g)); [lia|]. intros i Hi. apply Hlt. lia.
  - lia.
  - destruct (Z.eqb_spec (2 ^ k') 0); [lia|done].
  - lia.
Qed.

Lemma kh_resize_run h m nn k' :
  kh_ok hash h m -> 2 <= k' <= 31 -> resize_to nn = 2 ^ k' -> kh_size h < ac_upper (2 ^ k') ->
  (2 ^ k' < kh_n_buckets h -> kalloc_ok (2 ^ k' * sizeof_khkey) = true) ->
  exists r h', kh_resize hash nn h = Done r h' /\ kh_ok hash h' m /\ kh_size h' = kh_size h /\
    (r = 0 /\ shape k' h' /\ kh_n_occupied h' = kh_size h \/ r = -1 /\ kh_n_buckets h' = kh_n_buckets h) /\
    ((forall z, kalloc_ok z = true) -> r = 0).
Proof.
  intros Ho Hk' Enn Hsz Hshr. unfold kh_resize. rewrite Enn. cbv zeta. msimp.
  destruct (Z.geb_spec (kh_size h) (ac_upper (2 ^ k'))); [lia|].
  destruct (kalloc_ok (ac_fsize (2 ^ k') * 4)) eqn:Ea; cbn [negb]; cbv beta iota.
  2: { exists (-1), h. split_and!; [done|done|done|by right|]. intros Hall. by rewrite Hall in Ea. }
  assert (exists r h1, (if kh_n_buckets h <? 2 ^ k' then kh_expand (2 ^ k') else mret true) h = Done r h1 /\ extends h h1 /\
    (r = true -> 2 ^ k' <= Z.of_nat (length (kh_keys h1)) /\ 2 ^ k' <= Z.of_nat (length (kh_vals h1))) /\
    ((forall z, kalloc_ok z = true) -> r = true)) as (r & h1 & Er & Hext & Hlen & Hall).
  { destruct (Z.ltb_spec (kh_n_buckets h) (2 ^ k')); [by apply kh_expand_run|]. exists true, h. split; [done|].
    split; [exists [], []; rewrite !app_nil_r; by destruct h|]. split; [|done]. pose proof (n_buckets_le_arrays h m Ho). lia. }
  unfold mret, M_ret in Er. rewrite Er. pose proof (extends_ok h h1 m Hext Ho) as Ho1.
  assert (kh_n_buckets h1 = kh_n_buckets h /\ kh_size h1 = kh_size h) as [En1 Es1] by (destruct Hext as (? & ? & ->); done).
  destruct r; cbn [negb]; cbv beta iota.
  2: { exists (-1), h1. split_and!; [done|done|done|by right|]. intros H'. by apply Hall in H'. }
  destruct (Hlen eq_refl) as [Hlk Hlv]. pose proof (rehashing_start h1 m k' Ho1 Hk' Hlk Hlv) as Hst.
  destruct (n_buckets_le_arrays h1 m Ho1) as [[Hn0 _] _]. pose proof (ac_upper_bound k' Hk') as [_ Hub].
  destruct (kh_rehash_run hash (kh_n_buckets h1) k' Hk' m (kh_size h1) ltac:(lia) (Z.to_nat (kh_n_buckets h1)) h1
    (replicate (Z.to_nat (ac_fsize (2 ^ k'))) 0xaaaaaaaa) 0 Hst) as (h2 & g & E2 & Hr2 & [Hn2 Hs2] & Hno);
    [lia|lia|intros i [Hi _]; lia|]. rewrite <- En1, E2. eexists _, _. split; [reflexivity|].
  set (h3 := if kh_n_buckets h2 >? 2 ^ k' then _ else h2).
  assert (kh_size h3 = kh_size h1 /\ 2 ^ k' <= Z.of_nat (length (kh_keys h3)) /\ 2 ^ k' <= Z.of_nat (length (kh_vals h3)) /\
    (forall i, 0 <= i < 2 ^ k' -> kh_keys h3 !! Z.to_nat i = kh_keys h2 !! Z.to_nat i) /\
    (forall i, 0 <= i < 2 ^ k' -> kh_vals h3 !! Z.to_nat i = kh_vals h2 !! Z.to_nat i)) as (Es3 & Hlk3 & Hlv3 & Ek3 & Ev3).
  { pose proof (rh_keys _ _ _ _ _ _ _ _ Hr2). pose proof (rh_vals _ _ _ _ _ _ _ _ Hr2). unfold h3.
    rewrite Z.gtb_ltb. destruct (Z.ltb_spec (2 ^ k') (kh_n_buckets h2)); [|split_and!; done || lia].
    unfold sizeof_khval. unfold sizeof_khkey in *. rewrite Hshr by lia. unfold shrink. simpl. rewrite !length_take.
    split_and!; [done|lia|lia|..]; intros i Hi; apply lookup_take_lt; lia. }
  destruct (rehashing_end h2 m _ k' (kh_size h1) g (kh_keys h3) (kh_vals h3) Hk' Hr2 Hno) as [Hok Hsh]; [lia|done|done|done|done|].
  rewrite Es3, <- Es1. split; [done|]. split; [done|]. split; [left; done|]. done.
Qed.

End Resize.

(** ** The operations on maps *)

Section Put.
Context {V : Type} `{A : KAlloc V} (hash : Z -> Z).
Implicit Types (h : kh V) (m : gmap Z V).

(** After the first part of [kh_put] there is room for one more element. *)
Lemma make_room h m :
  kh_ok hash h m -> kh_n_buckets h < 2 ^ 31 ->
  exists r h', (if kh_n_occupied h >=? kh_upper_bound h then
      if kh_n_buckets h >? u32 (Z.shiftl (kh_size h) 1) then kh_resize hash (u32 (kh_n_buckets h - 1))
      else kh_resize hash (u32 (kh_n_buckets h + 1))
    else mret 0) h = Done r h' /\ kh_ok hash h' m /\ kh_size h' = kh_size h /\
    (r = 0 /\ (exists k, 2 <= k <= 31 /\ shape k h') /\ kh_n_occupied h' < kh_upper_bound h' /\
       kh_n_buckets h' <= Z.max (kh_n_buckets h) (4 * Z.max 1 (kh_size h)) /\
       (kh_n_occupied h = kh_size h -> kh_n_occupied h' = kh_size h)
     \/ r = -1) /\
    ((forall z, kalloc_ok z = true) -> r = 0).
Proof.
  intros Ho Hb. destruct (Z.geb_spec (kh_n_occupied h) (kh_upper_bound h)) as [Hge|Hlt].
  2: { exists 0, h. split; [done|]. split; [done|]. split; [done|]. split; [left|done].
       split; [done|]. destruct (ko_shape _ _ _ Ho) as [E|Hs]; [|split_and!; done || lia].
       rewrite (ko_upper _ _ _ Ho), E in Hlt. simpl in Hlt. pose proof (size_le_occ hash h m Ho). lia. }
  pose proof (size_le_occ hash h m Ho) as Hsz. pose proof (ko_load _ _ _ Ho) as Hload.
  assert (forall k, 2 <= k <= 31 -> kh_n_buckets h <= 2 ^ k -> kh_size h < ac_upper (2 ^ k) ->
    2 ^ k <= Z.max (kh_n_buckets h) (4 * Z.max 1 (kh_size h)) ->
    forall nn, resize_to nn = 2 ^ k ->
    exists r h', kh_resize hash nn h = Done r h' /\ kh_ok hash h' m /\ kh_size h' = kh_size h /\
    (r = 0 /\ (exists k, 2 <= k <= 31 /\ shape k h') /\ kh_n_occupied h' < kh_upper_bound h' /\
       kh_n_buckets h' <= Z.max (kh_n_buckets h) (4 * Z.max 1 (kh_size h)) /\
       (kh_n_occupied h = kh_size h -> kh_n_occupied h' = kh_size h)
     \/ r = -1) /\
    ((forall z, kalloc_ok z = true) -> r = 0)) as Hresize.
  { intros k Hk Hnk Hu Hm nn Enn.
    destruct (kh_resize_run hash h m nn k Ho Hk Enn Hu ltac:(lia)) as (r & h' & E & Ho' & Es & Hr & Hall).
    exists r, h'. split; [done|]. split; [done|]. split; [done|]. split; [|done].
    destruct Hr as [(-> & Hs & Eo)|[-> _]]; [left|by right]. split; [done|]. split; [by exists k|].
    pose proof (n_pos k ltac:(lia)). rewrite (ko_upper _ _ _ Ho'), (sh_n k h' Hs).
    destruct (Z.eqb_spec (2 ^ k) 0); [lia|]. split_and!; [lia|lia|done]. }
  destruct (ko_shape _ _ _ Ho) as [E0|(k & Hk & Hs)].
  - assert (kh_size h = 0) as Es by (rewrite (ko_size _ _ _ Ho), E0; done).
    rewrite E0, Es in *. simpl (_ >? _). cbv iota. apply (Hresize 2); [lia|simpl; lia|vm_compute; done|simpl; lia|reflexivity].
  - destruct (load_lt hash k Hk h m Ho Hs) as [Hocc _]. pose proof (sh_n k h Hs) as En.
    pose proof (ac_upper_bound k Hk) as Hub. rewrite En in *. rewrite Z.shiftl_mul_pow2 by lia. change (2 ^ 1) with 2.
    rewrite wrap_small by (change (2 ^ 32) with (2 * 2 ^ 31); lia). rewrite Z.gtb_ltb.
    rewrite (ko_upper _ _ _ Ho), En in Hge, Hload. pose proof (n_pos k ltac:(lia)) as Hp.
    destruct (Z.eqb_spec (2 ^ k) 0); [lia|]. destruct (Z.ltb_spec (kh_size h * 2) (2 ^ k)).
    + apply (Hresize k); [done|lia|lia|lia|by apply resize_to_pred].
    + assert (k < 31) by (apply (Z.pow_lt_mono_r_iff 2); lia).
      assert (2 ^ (k + 1) = 2 * 2 ^ k) as E2 by (rewrite Z.pow_add_r by lia; lia).
      pose proof (ac_upper_bound (k + 1) ltac:(lia)) as Hub2. rewrite E2 in Hub2.
      apply (Hresize (k + 1)); [lia|lia|rewrite E2; lia|lia|apply resize_to_succ; lia].
Qed.

Lemma kh_put_run h m key :
  kh_ok hash h m -> kh_n_buckets h < 2 ^ 31 ->
  exists x ret h', kh_put hash key h = Done (x, ret) h' /\
    (ret = -1 /\ kh_ok hash h' m \/
     in_table h' x /\ live (kh_flags h') x = true /\ kh_n_buckets h' <= Z.max (kh_n_buckets h) (4 * Z.max 1 (kh_size h)) /\
     match m !! key with
     | Some v => ret = 0 /\ stored h' x key v /\ kh_ok hash h' m /\ kh_size h' = kh_size h /\
         (kh_n_occupied h = kh_size h -> kh_n_occupied h' = kh_size h')
     | None => (ret = 1 \/ ret = 2) /\ (exists v, stored h' x key v /\ kh_ok hash h' (<[key := v]> m)) /\
         kh_size h' = kh_size h + 1 /\
         (kh_n_occupied h = kh_size h -> ret = 1 /\ kh_n_occupied h' = kh_size h')
     end) /\
    ((forall z, kalloc_ok z = true) -> ret <> -1).
Proof.
  intros Ho Hb. destruct (make_room h m Ho Hb) as (r & h1 & E1 & Ho1 & Es1 & Hr & Hall).
  unfold kh_put. unfold mbind at 1. unfold M_bind at 1. unfold get at 1. unfold mbind at 1. unfold M_bind at 1. rewrite E1.
  destruct Hr as [(-> & (k & Hk & Hs1) & Hroom & Hn1 & Hno)| ->].
  2: { eexists _, _, _. split; [reflexivity|]. split; [by left|]. intros H'. apply Hall in H'. done. }
  cbn [Z.ltb Z.compare]. cbv beta iota.
  destruct (kh_put_site_run hash k Hk h1 m key Ho1 Hs1) as (x & Ex & Hx & Hm).
  unfold mbind, M_bind. rewrite Ex. pose proof (kh_enter_run hash k Hk h1 m x key Ho1 Hs1 Hx Hroom) as He.
  destruct (m !! key) as [v|] eqn:Em.
  - rewrite (He Hm). destruct Hm as [Hl Hsto]. eexists _, _, _. split; [reflexivity|]. split; [|done]. right.
    rewrite Es1. done.
  - destruct (He Hm) as (v & h' & E & Ho' & Hl' & Hsto & En' & Esz & Eocc). rewrite E. eexists _, _, _. split; [reflexivity|].
    split; [right|by destruct (taken (kh_flags h1) x)]. split; [unfold in_table in *; by rewrite En'|]. split; [done|].
    split; [lia|]. split; [destruct (taken (kh_flags h1) x); auto|]. split; [by exists v|]. split; [lia|]. intros Hnd.
    specialize (Hno Hnd). assert (taken (kh_flags h1) x = false) as Ht.
    { rewrite <- (count_same (live (kh_flags h1)) (taken (kh_flags h1)) (Z.to_nat (kh_n_buckets h1)) x).
      - apply Hm. - intros i _. apply live_taken. - rewrite <- (ko_size _ _ _ Ho1), <- (ko_occ _ _ _ Ho1). lia.
      - unfold in_table in Hx. lia. }
    rewrite Ht in *. simpl in Eocc. lia.
Qed.

Lemma kh_get_ok h m key :
  kh_ok hash h m ->
  exists x, kh_get hash key h = Done x h /\
    match m !! key with
    | Some v => in_table h x /\ live (kh_flags h) x = true /\ stored h x key v
    | None => x = kh_n_buckets h
    end.
Proof.
  intros Ho. destruct (ko_shape _ _ _ Ho) as [E0|(k & Hk & Hs)].
  - exists 0. split; [unfold kh_get; msimp; by rewrite E0|]. destruct (m !! key) as [v|] eqn:Em; [|done].
    apply (ko_map _ _ _ Ho) in Em as (i & Hi & _). unfold in_table in Hi. lia.
  - destruct (search_ends hash k Hk h m key Ho Hs) as (s & Hst & Hm). eexists. split; [by apply (kh_get_run hash k Hk h key s)|].
    cbv zeta in Hm. destruct (m !! key) as [v|].
    + destruct Hm as [Hl Hsto]. rewrite Hl. split; [|done]. unfold in_table. rewrite (sh_n k h Hs). apply pos_range. lia.
    + unfold live. unfold taken in Hm. apply negb_false_iff in Hm. rewrite Hm. simpl. symmetry. apply Hs.
Qed.

Lemma ok_shape h m x : kh_ok hash h m -> in_table h x -> exists k, 2 <= k <= 31 /\ shape k h.
Proof. intros Ho Hx. destruct (ko_shape _ _ _ Ho); [unfold in_table in Hx; lia|done]. Qed.

End Put.

(** ** Refinement of finite maps *)

(** A use of a table: enter a key with a value, look a key up, delete a key. *)
Inductive kop (V : Type) := KPut (key : Z) (v : V) | KGet (key : Z) | KDel (key : Z) | KClear.
Arguments KPut {V}.
Arguments KGet {V}.
Arguments KDel {V}.
Arguments KClear {V}.

(** What the user sees: whether the key was new, the value, nothing. *)
Inductive kanswer (V : Type) := KNew (b : bool) | KVal (o : option V) | KDone | KFailed.
Arguments KNew {V}.
Arguments KVal {V}.
Arguments KDone {V}.
Arguments KFailed {V}.

Section Refinement.
Context {V : Type} `{A : KAlloc V} (hash : Z -> Z).

(** The way [khash.h] documents its use. *)
Definition kh_run (op : kop V) : M (kh V) (kanswer V) :=
  match op with
  | KPut key v =>
    '(x, ret) ← kh_put hash key;
    if ret =? -1 then mret KFailed else put_val x v;; mret (KNew (negb (ret =? 0)))
  | KGet key =>
    x ← kh_get hash key;
    h ← get;
    if x =? kh_n_buckets h then mret (KVal None) else v ← val_at x; mret (KVal (Some v))
  | KDel key => x ← kh_get hash key; kh_del x;; mret KDone
  | KClear => kh_clear;; mret KDone
  end.

Definition map_run (op : kop V) (m : gmap Z V) : kanswer V * gmap Z V :=
  match op with
  | KPut key v => (KNew (bool_decide (m !! key = None)), <[key := v]> m)
  | KGet key => (KVal (m !! key), m)
  | KDel key => (KDone, delete key m)
  | KClear => (KDone, ∅)
  end.

Fixpoint kh_runs (ops : list (kop V)) : M (kh V) (list (kanswer V)) :=
  match ops with
  | [] => mret []
  | op :: ops => a ← kh_run op; l ← kh_runs ops; mret (a :: l)
  end.
Fixpoint map_runs (ops : list (kop V)) (m : gmap Z V) : list (kanswer V) * gmap Z V :=
  match ops with
  | [] => ([], m)
  | op :: ops => let '(a, m) := map_run op m in let '(l, m) := map_runs ops m in (a :: l, m)
  end.

Context (Halloc : forall z, kalloc_ok z = true).

(** [kh_clear] keeps the arrays and marks every bucket empty. *)
Lemma kh_clear_ok (h : kh V) m : kh_ok hash h m ->
  exists h', kh_clear h = Done tt h' /\ kh_ok hash h' ∅ /\ kh_size h' <= kh_size h /\ kh_n_buckets h' = kh_n_buckets h.
Proof.
  intros Ho. unfold kh_clear. msimp.
  assert (0 <= kh_size h) as H0 by (rewrite (ko_size _ _ _ Ho); apply count_range).
  destruct (ko_shape _ _ _ Ho) as [E0|(k & Hk & Hs)].
  - assert (forall h', kh_n_buckets h' = 0 -> kh_upper_bound h' = 0 -> kh_size h' = 0 -> kh_n_occupied h' = 0 -> kh_ok (V:=V) hash h' ∅) as Hemp.
    { intros h' En Eu Es Eo. assert (forall i, ~ in_table h' i) as Hn by (intros i; unfold in_table; lia).
      split; rewrite ?En, ?Eu, ?Es, ?Eo; try done; [by left|..].
      - intros i key Hi. by apply Hn in Hi.
      - intros i j key Hi. by apply Hn in Hi.
      - intros key v. rewrite lookup_empty. split; [done|]. intros (i & Hi & _). by apply Hn in Hi. }
    pose proof (ko_upper _ _ _ Ho) as Eu. pose proof (ko_size _ _ _ Ho) as Es. pose proof (ko_occ _ _ _ Ho) as Eo.
    rewrite E0 in Eu, Es, Eo. case_bool_decide; (eexists; split; [done|]); (split; [by apply Hemp|]); simpl; lia.
  - destruct (fresh_flags k ltac:(lia)) as [Hc Hfr]. pose proof (sh_n k h Hs) as En. pose proof (ko_upper _ _ _ Ho) as Eu.
    pose proof (n_le k ltac:(lia)) as Hle. pose proof (ac_upper_bound k Hk) as [Hub _].
    rewrite En in Eu. destruct (Z.eqb_spec (2 ^ k) 0); [lia|].
    rewrite bool_decide_false.
    2: { intros E. pose proof (sh_flags k h Hs 0 ltac:(lia)) as Hf. rewrite E in Hf. simpl in Hf. lia. }
    eexists. split; [done|]. unfold set_flags, set_counts. cbn [kh_size kh_n_buckets]. split; [|lia]. rewrite En.
    assert (forall i, 0 <= i < 2 ^ k -> live (replicate (Z.to_nat (ac_fsize (2 ^ k))) 0xaaaaaaaa) i = false) as Hl.
    { intros i Hi. unfold live. by destruct (Hfr i Hi) as [-> _]. }
    split; unfold in_table; cbn [kh_size kh_n_buckets kh_n_occupied kh_upper_bound kh_flags kh_keys kh_vals]; rewrite ?En.
    + right. exists k. split; [done|]. split; [done|exact Hc|apply Hs|apply Hs].
    + intros i key Hi E. by rewrite Hl in E.
    + intros i j key Hi _ E. by rewrite Hl in E.
    + intros key v. rewrite lookup_empty. split; [done|]. intros (i & Hi & E & _). by rewrite Hl in E.
    + rewrite count_none; [done|]. intros i Hi. apply Hl. lia.
    + rewrite count_none; [done|]. intros i Hi. unfold taken. destruct (Hfr i ltac:(lia)) as [-> _]. done.
    + destruct (Z.eqb_spec (2 ^ k) 0); [lia|]. done.
    + lia.
Qed.

Lemma kh_run_ok h m op :
  kh_ok hash h m -> kh_n_buckets h < 2 ^ 31 ->
  let '(a, m') := map_run op m in
  exists h', kh_run op h = Done a h' /\ kh_ok hash h' m' /\ kh_size h' <= kh_size h + 1 /\
    kh_n_buckets h' <= Z.max (kh_n_buckets h) (4 * Z.max 1 (kh_size h)).
Proof.
  intros Ho Hb. pose proof (size_le_occ hash h m Ho) as Hsz. destruct op as [key v|key|key|]; simpl; msimp.
  - destruct (kh_put_run hash h m key Ho Hb) as (x & ret & h1 & -> & Hr & Hne).
    specialize (Hne Halloc). destruct Hr as [[-> _]|(Hx & Hl & Hn & Hm)]; [done|].
    destruct (Z.eqb_spec ret (-1)); [done|].
    destruct (m !! key) as [v0|] eqn:Em.
    + destruct Hm as (-> & Hsto & Ho1 & Es & _). destruct (ok_shape hash h1 m x Ho1 Hx) as (k & Hk & Hs1).
      destruct (put_val_ok hash k Hk h1 m x key v0 v Ho1 Hs1 Hx Hl Hsto) as (h2 & -> & Ho2 & _ & En2 & Es2).
      exists h2. rewrite bool_decide_false by done. split_and!; [done|done|lia|lia].
    + destruct Hm as (Hret & (v0 & Hsto & Ho1) & Es & _). destruct (ok_shape hash h1 _ x Ho1 Hx) as (k & Hk & Hs1).
      destruct (put_val_ok hash k Hk h1 _ x key v0 v Ho1 Hs1 Hx Hl Hsto) as (h2 & -> & Ho2 & _ & En2 & Es2).
      rewrite insert_insert_eq in Ho2.
      exists h2. rewrite bool_decide_true by done. split_and!; [|done|lia|lia]. by destruct Hret as [-> | ->].
  - destruct (kh_get_ok hash h m key Ho) as (x & -> & Hm). exists h. destruct (m !! key) as [v|] eqn:Em.
    + destruct Hm as (Hx & Hl & Hk & Hv). unfold in_table in Hx. destruct (Z.eqb_spec x (kh_n_buckets h)); [lia|].
      unfold val_at. msimp. rewrite Hv. split_and!; [done|done|lia|lia].
    + rewrite Hm, Z.eqb_refl. split_and!; [done|done|lia|lia].
  - destruct (kh_get_ok hash h m key Ho) as (x & -> & Hm). destruct (m !! key) as [v|] eqn:Em.
    + destruct Hm as (Hx & Hl & Hsto). destruct (ok_shape hash h m x Ho Hx) as (k & Hk & Hs).
      destruct (kh_del_ok hash k Hk h m x key v Ho Hs Hx Hl Hsto) as (h' & -> & Ho' & En & Es).
      exists h'. split_and!; [done|done|lia|lia].
    + exists h. unfold kh_del. msimp. rewrite Hm, Z.eqb_refl. cbn [negb]. rewrite delete_id by done. split_and!; [done|done|lia|lia].
  - destruct (kh_clear_ok h m Ho) as (h' & -> & Ho' & Hs & Hn). exists h'. split_and!; [done|done|lia|lia].
Qed.

Lemma kh_runs_ok ops h m c :
  kh_ok hash h m -> 0 <= c -> kh_size h <= c -> kh_n_buckets h <= 4 * Z.max 1 c -> c + Z.of_nat (length ops) < 2 ^ 29 ->
  let '(l, m') := map_runs ops m in exists h', kh_runs ops h = Done l h' /\ kh_ok hash h' m'.
Proof.
  revert h m c. induction ops as [|op ops IH]; intros h m c Ho Hc Hs Hn Hl; simpl; [by exists h|].
  simpl in Hl. pose proof (kh_run_ok h m op Ho ltac:(lia)) as Hop. destruct (map_run op m) as [a m1].
  destruct Hop as (h1 & E1 & Ho1 & Hs1 & Hn1). specialize (IH h1 m1 (c + 1) Ho1). destruct (map_runs ops m1) as [l m2].
  destruct IH as (h2 & E2 & Ho2); [lia..|]. exists h2. msimp. by rewrite E1, E2.
Qed.

End Refinement.

(** C21: The hash table refines a finite map. As long as memory can be allocated, any
    sequence of fewer than 2^29 puts, gets, deletions and clears on a table that starts
    empty returns, and answers as the same uses of a finite map answer, whatever the
    hash function; the table then represents the map. *)
Theorem khash_refines_map {V} `{A : KAlloc V} (hash : Z -> Z) (ops : list (kop V)) :
  (forall z, kalloc_ok z = true) -> Z.of_nat (length ops) < 2 ^ 29 ->
  exists h', kh_runs hash ops kh_init = Done (map_runs ops ∅).1 h' /\ kh_ok hash h' (map_runs ops ∅).2.
Proof.
  intros Ha Hl. pose proof (kh_runs_ok hash Ha ops kh_init ∅ 0 (kh_init_ok hash)) as H.
  destruct (map_runs ops ∅) as [l m]. apply H; simpl; lia.
Qed.

(** ** The wait queues *)

(** [pfutex_get] on the table of wait queues, from which nothing is ever deleted:
    its assertions hold, it answers with the queue of the address, a new one if there
    was none, and the table represents the map with that queue entered. *)
Theorem pfutex_lookup_spec {V} `{A : KAlloc V} (h : kh V) m head uaddr :
  (forall z, kalloc_ok z = true) -> kh_ok kh_int64_hash_func h m -> kh_n_occupied h = kh_size h -> kh_n_buckets h < 2 ^ 31 ->
  exists h', pfutex_lookup kh_int64_hash_func head uaddr h = Done (default head (m !! uaddr)) h' /\
    kh_ok kh_int64_hash_func h' (<[uaddr := default head (m !! uaddr)]> m) /\ kh_n_occupied h' = kh_size h'.
Proof.
  intros Ha Ho Hnd Hb. unfold pfutex_lookup. msimp.
  destruct (kh_put_run kh_int64_hash_func h m uaddr Ho Hb) as (x & ret & h1 & -> & Hr & Hne).
  specialize (Hne Ha). destruct Hr as [[-> _]|(Hx & Hl & _ & Hm)]; [done|].
  destruct (Z.eqb_spec ret (-1)); [done|]. cbn [negb]. cbv beta iota. destruct (m !! uaddr) as [v|] eqn:Em.
  - destruct Hm as (-> & Hsto & Ho1 & Es & Hnd1). exists h1. unfold val_at. msimp. cbn. destruct Hsto as [_ ->].
    rewrite insert_id by done. auto.
  - destruct Hm as (_ & (v & Hsto & Ho1) & Es & Hnd1). destruct (Hnd1 Hnd) as [-> Hnd2]. cbn [Z.eqb Pos.eqb negb].
    destruct (ok_shape _ h1 _ x Ho1 Hx) as (k & Hk & Hs1).
    destruct (put_val_ok _ k Hk h1 _ x uaddr v head Ho1 Hs1 Hx Hl Hsto) as (h2 & E2 & Ho2 & [_ Hv2] & En2 & Es2).
    rewrite insert_insert_eq in Ho2. cbv beta iota. rewrite E2. exists h2. unfold val_at. msimp. rewrite Hv2.
    split; [done|]. split; [done|]. unfold put_val in E2. revert E2. msimp. destruct (val_at x h1) eqn:Ev; [|done].
    unfold val_at in Ev. revert Ev. msimp. destruct (kh_vals h1 !! Z.to_nat x); intros [= <- <-] [= <-]. done.
Qed.

(** ** Runs *)

Definition roomy_kalloc : KAlloc Z := {| kalloc_ok _ := true; fresh_key _ := 7; fresh_val _ := 9 |}.

(** Nine keys with one of four hash values, so that the table grows twice and elements
    are kicked out; a look-up after a deletion, and the deleted key again; then a clear,
    after which nothing is found and a key is new again. *)
Definition khash_trace : list (kop Z) :=
  ((fun key => KPut key (10 * key)) <$> [4; 8; 12; 16; 20; 24; 28; 32; 36; 8]) ++
  [KDel 12; KGet 12; KGet 28; KPut 12 5; KGet 12; KDel 99; KClear; KGet 28; KPut 28 6; KGet 28].

Lemma khash_refines_map_witness :
  exists h', @kh_runs Z roomy_kalloc (fun x => x mod 4) khash_trace kh_init =
    Done ((KNew <$> [true; true; true; true; true; true; true; true; true; false]) ++
      [KDone; KVal None; KVal (Some 280); KNew true; KVal (Some 5); KDone; KDone; KVal None; KNew true; KVal (Some 6)]) h'.
Proof.
  destruct (@khash_refines_map Z roomy_kalloc (fun x => x mod 4) khash_trace) as (h' & E & _);
    [done|vm_compute; reflexivity|]. exists h'. rewrite E. vm_compute. reflexivity.
Defined.

Lemma pfutex_lookup_spec_witness :
  exists h', @pfutex_lookup Z roomy_kalloc kh_int64_hash_func 77 0x7fc0000010 kh_init = Done 77 h'.
Proof.
  destruct (@pfutex_lookup_spec Z roomy_kalloc kh_init ∅ 77 0x7fc0000010) as (h' & E & _);
    [done|apply kh_init_ok|done|vm_compute; reflexivity|]. exists h'. exact E.
Defined.
