(* ===== verification/Futex.v ===== *)
(** * Futexes ([src/ipc/futex.c], [include/linux/futex.h])

    Threads wait in queues keyed by a guest address.  All of a call runs with
    [proc.futex_mutex] held; the one place that gives it up is
    [pthread_cond_wait], so a call is an atomic step up to its result or up to
    the point where it blocks, and a blocked thread's way back is a second
    atomic step.  The queue entries are objects in a store: threads own them,
    queues and condition variables refer to them, and a reference to an entry
    that was freed is a fault.  [malloc] does not fail and does not reuse an
    address; the text printed by [warnk] and [printk] is left out. *)

From S2P Require Import Prelude RBTree Const Errno Mm UserMem FdTable Kernel.

(** ** [include/linux/futex.h] *)

Definition LINUX_FUTEX_WAIT : Z := 0.
Definition LINUX_FUTEX_WAKE : Z := 1.
Definition LINUX_FUTEX_WAKE_OP : Z := 5.
Definition LINUX_FUTEX_LOCK_PI : Z := 6.
Definition LINUX_FUTEX_UNLOCK_PI : Z := 7.
Definition LINUX_FUTEX_WAIT_BITSET : Z := 9.
Definition LINUX_FUTEX_WAKE_BITSET : Z := 10.
Definition LINUX_FUTEX_WAIT_REQUEUE_PI : Z := 11.
Definition LINUX_FUTEX_CMP_REQUEUE_PI : Z := 12.
Definition LINUX_FUTEX_PRIVATE_FLAG : Z := 128.
Definition LINUX_FUTEX_CMD_MASK : Z := 128 - 1.
Definition LINUX_FUTEX_GETOP (v : Z) : Z := Z.land (Z.shiftr v 28) 0xf.
Definition LINUX_FUTEX_GETCMP (v : Z) : Z := Z.land (Z.shiftr v 24) 0xf.
Definition LINUX_FUTEX_GETOPARG (v : Z) : Z := Z.land (Z.shiftr v 12) 0xfff.
Definition LINUX_FUTEX_GETCMPARG (v : Z) : Z := Z.land v 0xfff.
Definition FUTEX_OP_SET : Z := 0.
Definition FUTEX_OP_ADD : Z := 1.
Definition FUTEX_OP_OR : Z := 2.
Definition FUTEX_OP_ANDN : Z := 3.
Definition FUTEX_OP_XOR : Z := 4.
Definition FUTEX_OP_CMP_EQ : Z := 0.
Definition FUTEX_OP_CMP_NE : Z := 1.
Definition FUTEX_OP_CMP_LT : Z := 2.
Definition FUTEX_OP_CMP_LE : Z := 3.
Definition FUTEX_OP_CMP_GT : Z := 4.
Definition FUTEX_OP_CMP_GE : Z := 5.
Definition FUTEX_WAITERS : Z := 0x80000000.
Definition FUTEX_BITSET_MATCH_ANY : Z := 0xffffffff.

(** ** State *)

(** [struct pfutex_entry] without its links. *)
Record pfutex_entry := mk_entry { pe_uaddr : Z; pe_bitset : Z }.

(** A thread inside [__cond_wait]: its entry, whether it waits with a timeout,
    and [uaddr2] when [check_requeue] is set. *)
Record waiter := mk_waiter { w_entry : ptr; w_timed : bool; w_requeue : option Z }.

(** [pfutex] maps an address to its queue, in list order. *)
Record fstate := mk_fstate {
  f_um : umem;
  pfutex : gmap Z (list ptr);
  entries : gmap ptr pfutex_entry;
  f_brk : ptr;
  signalled : gset ptr;
  blocked : gmap Z waiter;
}.

Definition fset_um (u : umem) (s : fstate) : fstate :=
  mk_fstate u (pfutex s) (entries s) (f_brk s) (signalled s) (blocked s).
Definition fset_pfutex (q : gmap Z (list ptr)) (s : fstate) : fstate :=
  mk_fstate (f_um s) q (entries s) (f_brk s) (signalled s) (blocked s).
Definition fset_entries (e : gmap ptr pfutex_entry) (s : fstate) : fstate :=
  mk_fstate (f_um s) (pfutex s) e (f_brk s) (signalled s) (blocked s).
Definition fset_signalled (g : gset ptr) (s : fstate) : fstate :=
  mk_fstate (f_um s) (pfutex s) (entries s) (f_brk s) g (blocked s).
Definition fset_blocked (b : gmap Z waiter) (s : fstate) : fstate :=
  mk_fstate (f_um s) (pfutex s) (entries s) (f_brk s) (signalled s) b.

(** How the part of a call before a wait ends. *)
Inductive outcome := Return (r : Z) | Block (w : waiter).

Abbreviation F := (M fstate).

(** ** Queues *)

(** The previous element of a list, [None] when it is the list head. *)
Fixpoint list_prev (x : ptr) (l : list ptr) : option ptr :=
  match l with
  | [] => None
  | y :: l => if decide (head l = Some x) then Some y else list_prev x l
  end.

(** An entry, or the list head, is read or written through a link. *)
Definition touch (o : option ptr) : F unit :=
  match o with
  | None => mret tt
  | Some p => s ← get; deref (entries s !! p);; mret tt
  end.

(** The list of the address, made when there is none. *)
Definition pfutex_get (uaddr : Z) : F unit :=
  modify (fun s => match pfutex s !! uaddr with
                   | Some _ => s
                   | None => fset_pfutex (<[uaddr := []]> (pfutex s)) s
                   end).
Definition queue (uaddr : Z) : F (list ptr) := s ← get; deref (pfutex s !! uaddr).
Definition set_queue (uaddr : Z) (l : list ptr) : F unit :=
  modify (fun s => fset_pfutex (<[uaddr := l]> (pfutex s)) s).

Definition list_del_init (uaddr : Z) (p : ptr) : F unit :=
  l ← queue uaddr;
  touch (list_next p l);;
  touch (list_prev p l);;
  set_queue uaddr (list_del p l).
Definition list_add_tail (p : ptr) (uaddr : Z) : F unit :=
  l ← queue uaddr;
  touch (last l);;
  set_queue uaddr (l ++ [p]).

Definition pthread_cond_signal (p : ptr) : F unit :=
  modify (fun s => fset_signalled ({[ p ]} ∪ signalled s) s).

(** ** Waking *)

(** The loop of [do_private_futex_wake] at [p], [None] being the list head;
    [use_bitset] and [bitset] are an option. *)
Fixpoint wake_loop (fuel : nat) (uaddr : Z) (p : option ptr) (count ret : Z) (bitset : option Z) : F Z :=
  match fuel with
  | O => halt Diverge
  | S fuel =>
    match p with
    | None => mret ret
    | Some p =>
      s ← get;
      entry ← deref (entries s !! p);
      l ← queue uaddr;
      let n := list_next p l in
      if count =? 0 then mret ret
      else if (match bitset with Some b => Z.land (pe_bitset entry) b =? 0 | None => false end)
      then wake_loop fuel uaddr n count ret bitset
      else
        list_del_init uaddr p;;
        pthread_cond_signal p;;
        wake_loop fuel uaddr n (count - 1) (ret + 1) bitset
    end
  end.

Definition do_private_futex_wake (uaddr count : Z) (bitset : option Z) : F Z :=
  pfutex_get uaddr;;
  l ← queue uaddr;
  wake_loop (S (length l)) uaddr (head l) count 0 bitset.

Definition do_futex_wake (uaddr count : Z) : F Z := do_private_futex_wake uaddr count None.

(** ** Waiting *)

(** [do_private_wait] up to the wait. *)
Definition do_private_wait (uaddr : Z) (use_timeout : bool) (check_requeue : option Z) (bitset : option Z) : F outcome :=
  s ← get;
  let e := f_brk s in
  put (mk_fstate (f_um s) (pfutex s)
         (<[e := mk_entry uaddr (match bitset with Some b => b | None => FUTEX_BITSET_MATCH_ANY end)]> (entries s))
         (Pos.succ e) (signalled s) (blocked s));;
  pfutex_get uaddr;;
  list_add_tail e uaddr;;
  mret (Block (mk_waiter e use_timeout check_requeue)).

(** Why [pthread_cond_wait] or [pthread_cond_timedwait] returned: a signal, the
    timeout, another error, or none of these, which POSIX allows. *)
Inductive wakeup := Signalled | Timeout | Failed | Spurious.

Definition __cond_wait (k : wakeup) : Z :=
  match k with
  | Signalled | Spurious => 0
  | Timeout => - LINUX_ETIMEDOUT
  | Failed => - LINUX_EINTR
  end.

(** [do_private_wait] after the wait, in thread [t]. *)
Definition wait_end (t : Z) (k : wakeup) : F Z :=
  s ← get;
  w ← deref (blocked s !! t);
  r ← (match w_requeue w with
       | Some uaddr2 =>
         entry ← deref (entries s !! w_entry w);
         mret (if negb (pe_uaddr entry =? uaddr2) then - LINUX_EAGAIN else __cond_wait k)
       | None => mret (__cond_wait k)
       end);
  put (mk_fstate (f_um s) (pfutex s) (delete (w_entry w) (entries s)) (f_brk s)
         (signalled s ∖ {[ w_entry w ]}) (delete t (blocked s)));;
  mret r.

(** ** The commands *)

Definition f_copy_from_user (src n : Z) : F (Z * list Z) :=
  s ← get; match copy_from_user (f_um s) src n with Some r => mret r | None => halt Diverge end.
Definition f_copy_to_user (to : Z) (bs : list Z) : F Z :=
  s ← get;
  match copy_to_user (f_um s) to bs with
  | Some (r, u) => put (fset_um u s);; mret r
  | None => halt Diverge
  end.

(** [if (copy_from_user(...)) return -LINUX_EFAULT;] and the rest. *)
Definition f_copy_in (ptr n : Z) (rest : list Z -> F outcome) : F outcome :=
  '(e, bs) ← f_copy_from_user ptr n;
  if negb (e =? 0) then mret (Return (- LINUX_EFAULT)) else rest bs.

(** [if (timeout_ptr != 0) copy_from_user(&timeout, ...)] and the rest; when the
    wait will end is not modelled. *)
Definition with_timeout (timeout_ptr : Z) (rest : F outcome) : F outcome :=
  if negb (timeout_ptr =? 0) then f_copy_in timeout_ptr 16 (fun _ => rest) else rest.

Definition wake_op_newval (val3 oldval : Z) : F Z :=
  let op := LINUX_FUTEX_GETOP val3 in
  let arg := LINUX_FUTEX_GETOPARG val3 in
  if op =? FUTEX_OP_SET then mret arg
  else if op =? FUTEX_OP_ADD then mret (s32 (oldval + arg))
  else if op =? FUTEX_OP_OR then mret (Z.lor oldval arg)
  else if op =? FUTEX_OP_ANDN then mret (Z.land oldval arg)
  else if op =? FUTEX_OP_XOR then mret (s32 (oldval * arg))
  else halt Panic.

Definition wake_op_cond (val3 oldval : Z) : F bool :=
  let cmp := LINUX_FUTEX_GETCMP val3 in
  let arg := LINUX_FUTEX_GETCMPARG val3 in
  if cmp =? FUTEX_OP_CMP_EQ then mret (oldval =? arg)
  else if cmp =? FUTEX_OP_CMP_NE then mret (negb (oldval =? arg))
  else if cmp =? FUTEX_OP_CMP_LT then mret (oldval <? arg)
  else if cmp =? FUTEX_OP_CMP_LE then mret (oldval <=? arg)
  else if cmp =? FUTEX_OP_CMP_GT then mret (oldval >? arg)
  else if cmp =? FUTEX_OP_CMP_GE then mret (oldval >=? arg)
  else halt Panic.

Definition futex_wake_op (uaddr val timeout_ptr uaddr2 val3 : Z) : F outcome :=
  f_copy_in uaddr2 4 (fun bs =>
    let oldval := s32 (le_decode bs) in
    newval ← wake_op_newval val3 oldval;
    e ← f_copy_to_user uaddr2 (le_encode 4 (u32 newval));
    if negb (e =? 0) then mret (Return (- LINUX_EFAULT))
    else
      ret ← do_private_futex_wake uaddr (s32 val) None;
      if ret <? 0 then mret (Return ret)
      else
        cond ← wake_op_cond val3 oldval;
        if (cond : bool) then
          ret2 ← do_private_futex_wake uaddr2 (s32 timeout_ptr) None;
          if ret2 <? 0 then mret (Return ret) else mret (Return (ret + ret2))
        else mret (Return ret)).

(** [*mem] as an [int], and the store to it. *)
Definition futex_lock_pi (tid uaddr timeout_ptr : Z) : F outcome :=
  with_timeout timeout_ptr
    (s ← get;
     match translate (f_um s) uaddr with
     | None => halt AssertFail
     | Some mem =>
       let value := s32 (le_decode (host_read (hmem (f_um s)) mem 4)) in
       let store v (u : umem) := set_hmem (host_write (hmem u) mem (le_encode 4 (u32 v))) u in
       modify (fun s => fset_um (store tid (f_um s)) s);;
       if value =? 0 then mret (Return 0)
       else
         modify (fun s => fset_um (store (Z.lor value FUTEX_WAITERS) (f_um s)) s);;
         do_private_wait uaddr (negb (timeout_ptr =? 0)) None None
     end).

(** The loop of [FUTEX_CMP_REQUEUE_PI] at [p]. *)
Fixpoint requeue_loop (fuel : nat) (uaddr uaddr2 : Z) (p : option ptr) (val2 num : Z) : F Z :=
  match fuel with
  | O => halt Diverge
  | S fuel =>
    match p with
    | None => mret num
    | Some p =>
      touch (Some p);;
      l ← queue uaddr;
      let n := list_next p l in
      if val2 =? 0 then mret num
      else
        list_del_init uaddr p;;
        list_add_tail p uaddr2;;
        modify (fun s => fset_entries (alter (fun e => mk_entry uaddr2 (pe_bitset e)) p (entries s)) s);;
        requeue_loop fuel uaddr uaddr2 n (s32 (val2 - 1)) (num + 1)
    end
  end.

(** When both addresses are the same the loop goes round until [val2] is 0. *)
Definition futex_cmp_requeue_pi (uaddr val timeout_ptr uaddr2 val3 : Z) : F outcome :=
  if negb (val =? 1) then mret (Return (- LINUX_EINVAL))
  else
    f_copy_in uaddr 4 (fun bs =>
      let oldval := s32 (le_decode bs) in
      if negb (oldval =? val3) then mret (Return (- LINUX_EAGAIN))
      else
        num ← do_private_futex_wake uaddr (s32 val) None;
        pfutex_get uaddr;;
        pfutex_get uaddr2;;
        l ← queue uaddr;
        let val2 := s32 timeout_ptr in
        let fuel := if uaddr =? uaddr2 then S (S (length l) + Z.to_nat (u32 val2)) else S (length l) in
        num ← requeue_loop fuel uaddr uaddr2 (head l) val2 num;
        mret (Return num)).

Section Futex.
Context `{DarwinErrno}.

Definition futex_wait (uaddr val timeout_ptr : Z) : F outcome :=
  f_copy_in uaddr 4 (fun bs =>
    if negb (le_decode bs =? val) then mret (Return (- darwin_errno "EWOULDBLOCK"))
    else with_timeout timeout_ptr (do_private_wait uaddr (negb (timeout_ptr =? 0)) None None)).

(** [val3] is an [int] here. *)
Definition do_private_futex (tid uaddr op val timeout_ptr uaddr2 val3 : Z) : F outcome :=
  let cmd := Z.land op LINUX_FUTEX_CMD_MASK in
  if cmd =? LINUX_FUTEX_WAKE then r ← do_private_futex_wake uaddr (s32 val) None; mret (Return r)
  else if cmd =? LINUX_FUTEX_WAIT then futex_wait uaddr val timeout_ptr
  else if cmd =? LINUX_FUTEX_WAKE_OP then futex_wake_op uaddr val timeout_ptr uaddr2 val3
  else if cmd =? LINUX_FUTEX_LOCK_PI then futex_lock_pi tid uaddr timeout_ptr
  else if cmd =? LINUX_FUTEX_UNLOCK_PI then do_private_futex_wake uaddr 1 None;; mret (Return 0)
  else if cmd =? LINUX_FUTEX_CMP_REQUEUE_PI then futex_cmp_requeue_pi uaddr val timeout_ptr uaddr2 val3
  else if cmd =? LINUX_FUTEX_WAIT_REQUEUE_PI then
    with_timeout timeout_ptr (do_private_wait uaddr (negb (timeout_ptr =? 0)) (Some uaddr2) None)
  else if cmd =? LINUX_FUTEX_WAIT_BITSET then
    with_timeout timeout_ptr (do_private_wait uaddr (negb (timeout_ptr =? 0)) None (Some (u32 val3)))
  else if cmd =? LINUX_FUTEX_WAKE_BITSET then
    r ← do_private_futex_wake uaddr (s32 val) (Some (u32 val3)); mret (Return r)
  else mret (Return (- LINUX_ENOSYS)).

Record futex_args := mk_futex_args {
  a_uaddr : Z; a_op : Z; a_val : Z; a_timeout : Z; a_uaddr2 : Z; a_val3 : Z;
}.

Definition sys_futex (tid : Z) (a : futex_args) : F outcome :=
  let run op := do_private_futex tid (a_uaddr a) op (a_val a) (a_timeout a) (a_uaddr2 a) (s32 (a_val3 a)) in
  if testf (a_op a) LINUX_FUTEX_PRIVATE_FLAG then run (clearf (a_op a) LINUX_FUTEX_PRIVATE_FLAG)
  else
    s ← get;
    match (x ← find_region (a_uaddr a) (u_mm (f_um s)); heap (u_mm (f_um s)) !! x) with
    | None => mret (Return (- LINUX_EFAULT))
    | Some region => if negb (is_region_private region) then halt Panic else run (a_op a)
    end.

(** A call by thread [t]: [Some r] when it returns [r], [None] when it blocks. *)
Definition futex_call (t : Z) (a : futex_args) : F (option Z) :=
  o ← sys_futex t a;
  match o with
  | Return r => mret (Some r)
  | Block w => modify (fun s => fset_blocked (<[t := w]> (blocked s)) s);; mret None
  end.

End Futex.

(** ** The threads together *)

(** What can end a wait: a signal to the entry's condition variable, with a
    timeout also the passing of time or an error, and always nothing at all. *)
Definition may_wake (s : fstate) (w : waiter) (k : wakeup) : Prop :=
  match k with
  | Signalled => w_entry w ∈ signalled s
  | Timeout | Failed => w_timed w = true
  | Spurious => True
  end.

(** Steps of the process: a thread calls [futex], a thread that exits wakes the
    address registered for it, a wait ends, and anything else changes memory. *)
Inductive flabel :=
| Calls (t : Z) (a : futex_args) (r : option Z)
| Exits (uaddr count r : Z)
| Resumes (t : Z) (k : wakeup) (r : Z)
| Others.

Inductive fstep `{DarwinErrno} : fstate -> flabel -> fstate -> Prop :=
| step_call s t a r s' : blocked s !! t = None -> futex_call t a s = Done r s' -> fstep s (Calls t a r) s'
| step_exit s u c r s' : do_futex_wake u c s = Done r s' -> fstep s (Exits u c r) s'
| step_resume s t w k r s' :
    blocked s !! t = Some w -> may_wake s w k -> wait_end t k s = Done r s' -> fstep s (Resumes t k r) s'
| step_others s u : fstep s Others (fset_um u s).

(** A wait ends, for whatever reason (a signal, the timeout, an error, none), only
    after its entry was taken off its queue.  A wait that times out or returns
    spuriously while its entry is queued leaves it there ([timeout_dangles]). *)
Definition dequeued (s : fstate) (l : flabel) : Prop :=
  match l with
  | Resumes t _ _ => forall w u q, blocked s !! t = Some w -> pfutex s !! u = Some q -> w_entry w ∉ q
  | _ => True
  end.

Inductive freachable `{DarwinErrno} (P : fstate -> flabel -> Prop) (s0 : fstate) : fstate -> Prop :=
| reach_init : freachable P s0 s0
| reach_step s l s' : freachable P s0 s -> P s l -> fstep s l s' -> freachable P s0 s'.

(** [kh_init(pfutex)]: no queue yet. *)
Definition init_futex (u : umem) : fstate := mk_fstate u ∅ ∅ 1 ∅ ∅.

(** ** The invariant *)

(** Queues hold live, unsignalled entries under their own address; every such
    entry is in its queue. *)
Record queues_ok (s : fstate) : Prop := {
  qo_entry u l p : pfutex s !! u = Some l -> p ∈ l ->
    p ∉ signalled s /\ exists e, entries s !! p = Some e /\ pe_uaddr e = u;
  qo_nodup u l : pfutex s !! u = Some l -> NoDup l;
  qo_queued p e : entries s !! p = Some e -> p ∉ signalled s ->
    exists l, pfutex s !! pe_uaddr e = Some l /\ p ∈ l;
  qo_signalled p : p ∈ signalled s -> is_Some (entries s !! p);
  qo_fresh p : is_Some (entries s !! p) -> (p < f_brk s)%positive;
}.

(** Every entry belongs to exactly one blocked thread. *)
Record owned (s : fstate) : Prop := {
  ow_entry t w : blocked s !! t = Some w -> is_Some (entries s !! w_entry w);
  ow_inj t1 t2 w1 w2 : blocked s !! t1 = Some w1 -> blocked s !! t2 = Some w2 -> w_entry w1 = w_entry w2 -> t1 = t2;
  ow_all p : is_Some (entries s !! p) -> exists t w, blocked s !! t = Some w /\ w_entry w = p;
}.

Definition futex_ok (s : fstate) : Prop := queues_ok s /\ owned s.

(** ** Calls that do not touch freed memory *)

(** [c] returns and the result satisfies [Q], or it stops at an [assert] or a
    [panic] of the source; it neither faults nor diverges. *)
Definition stops_ok (w : stop) : Prop := w = Panic \/ w = AssertFail.
Definition safe {A} (c : F A) (Q : A -> fstate -> Prop) (s : fstate) : Prop :=
  match c s with Done a s' => Q a s' | Stop w _ => stops_ok w end.

Lemma safe_bind {A B} (c : F A) (k : A -> F B) Q s : safe c (fun a s' => safe (k a) Q s') s -> safe (c ≫= k) Q s.
Proof. unfold safe, mbind, M_bind. by destruct (c s). Qed.

Lemma safe_ret {A} (a : A) (Q : A -> fstate -> Prop) s : Q a s -> safe (mret a) Q s.
Proof. done. Qed.

Lemma safe_get (Q : fstate -> fstate -> Prop) s : Q s s -> safe get Q s.
Proof. done. Qed.

Lemma safe_modify f (Q : unit -> fstate -> Prop) s : Q tt (f s) -> safe (modify f) Q s.
Proof. done. Qed.

Lemma safe_put s0 (Q : unit -> fstate -> Prop) s : Q tt s0 -> safe (put s0) Q s.
Proof. done. Qed.

Lemma safe_panic {A} (Q : A -> fstate -> Prop) s : safe (halt Panic) Q s.
Proof. by left. Qed.

Lemma safe_assert {A} (Q : A -> fstate -> Prop) s : safe (halt AssertFail) Q s.
Proof. by right. Qed.

Lemma safe_Done {A} (c : F A) a s s' (Q : A -> fstate -> Prop) : c s = Done a s' -> Q a s' -> safe c Q s.
Proof. unfold safe. by intros ->. Qed.

Lemma safe_mono {A} (c : F A) (Q Q' : A -> fstate -> Prop) s :
  (forall a s', Q a s' -> Q' a s') -> safe c Q s -> safe c Q' s.
Proof. unfold safe. destruct (c s); auto. Qed.

Ltac fstep_tac :=
  match goal with
  | |- safe (_ ≫= _) _ _ => apply safe_bind
  | |- safe (mret _) _ _ => apply safe_ret
  | |- safe get _ _ => apply safe_get
  | |- safe (modify _) _ _ => apply safe_modify
  | |- safe (put _) _ _ => apply safe_put
  | |- safe (halt Panic) _ _ => apply safe_panic
  | |- safe (halt AssertFail) _ _ => apply safe_assert
  | |- safe (if ?b then _ else _) _ _ => destruct b eqn:?
  end.

(** *** Lists *)

Lemma list_prev_elem x l y : list_prev x l = Some y -> y ∈ l.
Proof. induction l as [|z l IH]; simpl; [done|]. case_decide; intros; simplify_eq; set_solver. Qed.

Lemma head_elem {A} (l : list A) x : head l = Some x -> x ∈ l.
Proof. destruct l; intros; simplify_eq/=. by left. Qed.

Lemma list_next_elem x l y : list_next x l = Some y -> y ∈ l.
Proof.
  induction l as [|z l IH]; simpl; [done|]. case_decide; [|intros; right; auto].
  intros E. right. by apply head_elem.
Qed.

Lemma list_del_elem x l y : NoDup l -> y ∈ list_del x l <-> y ∈ l /\ y <> x.
Proof.
  intros Hn. destruct (decide (x ∈ l)) as [Hx|Hx].
  - apply list_elem_of_split in Hx as (l1 & l2 & ->). apply NoDup_app in Hn as (_ & Hd & Hn).
    apply NoDup_cons in Hn as [Hx2 _]. rewrite list_del_split by (intros Hc; by apply (Hd x Hc); left).
    assert (x ∉ l1) by (intros Hc; by apply (Hd x Hc); left). set_solver.
  - assert (list_del x l = l) as ->; [|set_solver]. clear Hn. induction l as [|z l IH]; simpl; [done|].
    rewrite decide_False by set_solver. rewrite IH by set_solver. done.
Qed.

Lemma list_del_NoDup x l : NoDup l -> NoDup (list_del x l).
Proof.
  induction l as [|z l IH]; simpl; intros Hn; [done|]. apply NoDup_cons in Hn as [Hz Hn].
  case_decide; [done|]. constructor; [|by apply IH]. rewrite list_del_elem by done. tauto.
Qed.

(** *** Queue operations *)

Lemma touch_ok o s : (forall p, o = Some p -> is_Some (entries s !! p)) -> touch o s = Done tt s.
Proof. intros Ho. destruct o as [p|]; [|done]. destruct (Ho p eq_refl) as [e E]. unfold touch. msimp. by rewrite E. Qed.

Definition set_q (u : Z) (l : list ptr) (s : fstate) : fstate := fset_pfutex (<[u := l]> (pfutex s)) s.

(** The queue of an address, empty when there is none. *)
Definition queue_of (s : fstate) (u : Z) : list ptr := default [] (pfutex s !! u).

Lemma queue_ok s u l : pfutex s !! u = Some l -> queue u s = Done l s.
Proof. intros E. unfold queue. msimp. by rewrite E. Qed.

Lemma pfutex_get_ok s u : exists q, pfutex_get u s = Done tt (fset_pfutex q s) /\ q !! u = Some (queue_of s u) /\
  (forall v, default [] (q !! v) = queue_of s v) /\ (forall v l, pfutex s !! v = Some l -> q !! v = Some l).
Proof.
  unfold pfutex_get, queue_of. msimp. destruct (pfutex s !! u) as [l|] eqn:E.
  - exists (pfutex s). split; [by destruct s|]. rewrite E. done.
  - exists (<[u := []]> (pfutex s)). rewrite lookup_insert_eq. split; [done|]. split; [done|]. split.
    + intros v. destruct (decide (u = v)) as [->|]; [by rewrite lookup_insert_eq, E|by rewrite lookup_insert_ne].
    + intros v l El. rewrite lookup_insert_ne; [done|]. congruence.
Qed.

Lemma list_del_init_ok s u l p : pfutex s !! u = Some l -> (forall y, y ∈ l -> is_Some (entries s !! y)) ->
  list_del_init u p s = Done tt (set_q u (list_del p l) s).
Proof.
  intros E Hl. unfold list_del_init. erewrite bind_Done by exact (queue_ok _ _ _ E).
  erewrite bind_Done by (apply touch_ok; intros y Hy; apply Hl; by eapply list_next_elem).
  erewrite bind_Done by (apply touch_ok; intros y Hy; apply Hl; by eapply list_prev_elem). done.
Qed.

Lemma list_add_tail_ok s u l p : pfutex s !! u = Some l -> (forall y, y ∈ l -> is_Some (entries s !! y)) ->
  list_add_tail p u s = Done tt (set_q u (l ++ [p]) s).
Proof.
  intros E Hl. unfold list_add_tail. erewrite bind_Done by exact (queue_ok _ _ _ E).
  erewrite bind_Done; [done|]. apply touch_ok. intros y Hy. apply Hl. by apply last_Some_elem_of.
Qed.

(** ** What waking does *)

(** The first [c] entries of a queue that match the bits, and the others; all
    that match when [c] is negative. *)
Definition matches (es : gmap ptr pfutex_entry) (bitset : option Z) (p : ptr) : bool :=
  match bitset, es !! p with
  | Some b, Some e => negb (Z.land (pe_bitset e) b =? 0)
  | _, _ => true
  end.

Fixpoint wake_split (es : gmap ptr pfutex_entry) (c : Z) (bitset : option Z) (l : list ptr) : list ptr * list ptr :=
  match l with
  | [] => ([], [])
  | p :: l' =>
    if c =? 0 then ([], l)
    else if matches es bitset p then let '(ws, rest) := wake_split es (c - 1) bitset l' in (p :: ws, rest)
    else let '(ws, rest) := wake_split es c bitset l' in (ws, p :: rest)
  end.

(** The state with the queue of [u] cut down to [rest] and [ws] signalled. *)
Definition woken (u : Z) (rest ws : list ptr) (s : fstate) : fstate :=
  mk_fstate (f_um s) (<[u := rest]> (pfutex s)) (entries s) (f_brk s) (list_to_set ws ∪ signalled s) (blocked s).

Lemma woken_none u l s : pfutex s !! u = Some l -> woken u l [] s = s.
Proof. intros E. destruct s. unfold woken. cbn in *. rewrite insert_id by done. f_equal. set_solver. Qed.

Lemma woken_one u l p rest ws s :
  woken u rest ws (fset_signalled ({[ p ]} ∪ signalled s) (set_q u l s)) = woken u rest (p :: ws) s.
Proof. unfold woken, set_q, fset_pfutex, fset_signalled. cbn. rewrite insert_insert_eq. f_equal. set_solver. Qed.

Lemma wake_loop_ok u b : forall fuel l dn s c r,
  pfutex s !! u = Some (dn ++ l) -> NoDup (dn ++ l) -> (forall y, y ∈ dn ++ l -> is_Some (entries s !! y)) ->
  (length l < fuel)%nat ->
  wake_loop fuel u (head l) c r b s =
  Done (r + Z.of_nat (length (wake_split (entries s) c b l).1))
    (woken u (dn ++ (wake_split (entries s) c b l).2) (wake_split (entries s) c b l).1 s).
Proof.
  induction fuel as [|fuel IH]; intros l dn s c r Eq Hn He Hf; [lia|].
  destruct l as [|p l]; cbn [wake_loop head wake_split].
  { rewrite woken_none by done. cbn. by rewrite Z.add_0_r. }
  destruct (He p) as [e Ee]; [set_solver|].
  assert (p ∉ dn) as Hp. { apply NoDup_app in Hn as (_ & Hd & _). intros Hc. apply (Hd p Hc). by left. }
  erewrite bind_Done by reflexivity. rewrite Ee. cbn [deref]. erewrite bind_Done by reflexivity.
  erewrite bind_Done by exact (queue_ok _ _ _ Eq). rewrite list_next_split by done.
  destruct (c =? 0). { rewrite woken_none by done. cbn. by rewrite Z.add_0_r. }
  unfold matches at 1 2 3. rewrite Ee. cbn in Hf.
  assert (dn ++ p :: l = (dn ++ [p]) ++ l) as Ea by (by rewrite <- app_assoc).
  destruct (match b with Some b0 => negb (Z.land (pe_bitset e) b0 =? 0) | None => true end) eqn:Em.
  - replace (match b with Some b0 => Z.land (pe_bitset e) b0 =? 0 | None => false end) with false
      by (destruct b; [|done]; by destruct (_ =? 0)).
    erewrite bind_Done by (by eapply list_del_init_ok). rewrite list_del_split by done.
    unfold pthread_cond_signal. erewrite bind_Done by reflexivity.
    rewrite (IH l dn) by (cbn; first [rewrite lookup_insert_eq; done | lia |
      apply (sublist_NoDup _ (dn ++ p :: l)); [done|]; apply sublist_app; [done|by constructor] |
      intros y Hy; apply He; set_solver]).
    cbn [entries set_q fset_pfutex fset_signalled].
    destruct (wake_split (entries s) (c - 1) b l) as [ws rest]. cbn [fst snd length].
    rewrite <- (woken_one u (dn ++ l)). cbn [signalled set_q fset_pfutex]. f_equal. lia.
  - replace (match b with Some b0 => Z.land (pe_bitset e) b0 =? 0 | None => false end) with true
      by (destruct b; [|done]; by destruct (_ =? 0)).
    rewrite (IH l (dn ++ [p])) by (rewrite <- ?Ea; done || lia).
    destruct (wake_split (entries s) c b l) as [ws rest]. cbn [fst snd]. by rewrite <- app_assoc.
Qed.

Lemma wake_split_perm es c b l : (wake_split es c b l).1 ++ (wake_split es c b l).2 ≡ₚ l.
Proof.
  revert c. induction l as [|p l IH]; intros c; cbn [wake_split]; [done|].
  destruct (c =? 0); [done|]. destruct (matches es b p).
  - specialize (IH (c - 1)). destruct (wake_split es (c - 1) b l). cbn in *. by rewrite IH.
  - specialize (IH c). destruct (wake_split es c b l) as [ws rest]. cbn in *.
    by rewrite <- Permutation_middle, IH.
Qed.

Lemma live_queue s u l : queues_ok s -> pfutex s !! u = Some l -> forall y, y ∈ l -> is_Some (entries s !! y).
Proof. intros Hq E y Hy. destruct (qo_entry _ Hq u l y E Hy) as (_ & e & -> & _). by eexists. Qed.

(** Making a queue exist changes nothing the invariant sees. *)
Lemma get_queues_ok s q : queues_ok s -> (forall v, default [] (q !! v) = queue_of s v) ->
  (forall v l, pfutex s !! v = Some l -> q !! v = Some l) -> queues_ok (fset_pfutex q s).
Proof.
  intros Hq Hv Hk. assert (forall u l, q !! u = Some l -> l = [] \/ pfutex s !! u = Some l) as Hb.
  { intros u l E. specialize (Hv u). rewrite E in Hv. unfold queue_of in Hv. cbn in Hv.
    destruct (pfutex s !! u); cbn in Hv; subst; auto. }
  constructor; cbn; try apply Hq.
  - intros u l p E Hp. destruct (Hb u l E) as [->|E']; [by apply elem_of_nil in Hp|]. by apply (qo_entry _ Hq u l).
  - intros u l E. destruct (Hb u l E) as [->|E']; [constructor|]. by apply (qo_nodup _ Hq u).
  - intros p e Ee Hs. destruct (qo_queued _ Hq p e Ee Hs) as (l & El & Hl). exists l. split; [by apply Hk|done].
Qed.

(** [do_private_futex_wake], from any good state. *)
Lemma wake_ok s u c b : queues_ok s ->
  exists q, let l := queue_of s u in let ws := (wake_split (entries s) c b l).1 in
  do_private_futex_wake u c b s =
    Done (Z.of_nat (length ws)) (woken u (wake_split (entries s) c b l).2 ws (fset_pfutex q s)) /\
  queues_ok (fset_pfutex q s) /\ q !! u = Some l /\ (forall v, default [] (q !! v) = queue_of s v).
Proof.
  intros Hq. destruct (pfutex_get_ok s u) as (q & E & Eu & Hv & Hk). exists q. cbv zeta.
  pose proof (get_queues_ok s q Hq Hv Hk) as Hq'. split; [|done].
  unfold do_private_futex_wake. erewrite bind_Done by exact E. erewrite bind_Done by (by apply queue_ok).
  rewrite (wake_loop_ok u b _ (queue_of s u) [] (fset_pfutex q s)); [done|done| | |lia].
  - by apply (qo_nodup _ Hq' u).
  - by apply (live_queue _ u).
Qed.

(** The invariant after some of a queue was signalled. *)
Lemma woken_queues_ok s u l ws rest : queues_ok s -> pfutex s !! u = Some l -> ws ++ rest ≡ₚ l ->
  queues_ok (woken u rest ws s).
Proof.
  intros Hq E Hp. assert (NoDup (ws ++ rest)) as Hn by (rewrite Hp; by apply (qo_nodup _ Hq u)).
  apply NoDup_app in Hn as (_ & Hd & Hn).
  assert (forall p, p ∈ ws -> p ∈ l) as Hws by (intros p; rewrite <- Hp; set_solver).
  assert (forall p, p ∈ rest -> p ∈ l) as Hrest by (intros p; rewrite <- Hp; set_solver).
  constructor; cbn [woken pfutex entries signalled f_brk blocked].
  - intros v k p Ev Hk. rewrite lookup_insert in Ev. case_decide as Hvu; simplify_eq.
    + destruct (qo_entry _ Hq v l p E (Hrest p Hk)) as [Hs He]. split; [|done].
      rewrite elem_of_union, elem_of_list_to_set. intros [Hc|Hc]; [by apply (Hd p)|done].
    + destruct (qo_entry _ Hq v k p Ev Hk) as (Hs & e & Ee & Eu). split; [|by exists e].
      rewrite elem_of_union, elem_of_list_to_set. intros [Hc|Hc]; [|done].
      destruct (qo_entry _ Hq u l p E (Hws p Hc)) as (_ & e' & Ee' & Eu'). congruence.
  - intros v k Ev. rewrite lookup_insert in Ev. case_decide; simplify_eq; [done|]. by apply (qo_nodup _ Hq v).
  - intros p e Ee Hs. rewrite elem_of_union, elem_of_list_to_set in Hs.
    destruct (qo_queued _ Hq p e Ee) as (k & Ek & Hk); [tauto|]. rewrite lookup_insert. case_decide as Hu; [|by exists k].
    exists rest. split; [done|]. rewrite <- Hu, E in Ek. simplify_eq. rewrite <- Hp, elem_of_app in Hk. tauto.
  - intros p Hs. apply elem_of_union in Hs as [Hs|Hs]; [|by apply (qo_signalled _ Hq)].
    apply elem_of_list_to_set in Hs. by apply (live_queue s u l Hq E), Hws.
  - apply Hq.
Qed.

(** ** The invariant through a call *)

(** Nothing but guest memory, queues and signals changed, and the invariant holds. *)
Definition keeps (s s' : fstate) : Prop :=
  queues_ok s' /\ (blocked s' = blocked s /\ signalled s ⊆ signalled s') /\
  (forall p, is_Some (entries s' !! p) <-> is_Some (entries s !! p)).

Lemma keeps_refl s : queues_ok s -> keeps s s.
Proof. done. Qed.

Lemma keeps_trans s1 s2 s3 : keeps s1 s2 -> keeps s2 s3 -> keeps s1 s3.
Proof.
  intros (A1 & [A2 A2'] & A3) (B1 & [B2 B2'] & B3). split; [done|]. split; [split; [congruence|set_solver]|].
  intros p. by rewrite B3.
Qed.

Lemma keeps_um s u : queues_ok s -> keeps s (fset_um u s).
Proof. intros []. split; [by constructor|done]. Qed.

(** What a call leaves: the entry of a call that blocks is new. *)
Definition call_post (s : fstate) (o : outcome) (s' : fstate) : Prop :=
  queues_ok s' /\ (blocked s' = blocked s /\ signalled s ⊆ signalled s') /\
  match o with
  | Return _ => forall p, is_Some (entries s' !! p) <-> is_Some (entries s !! p)
  | Block w => entries s !! w_entry w = None /\
               forall p, is_Some (entries s' !! p) <-> p = w_entry w \/ is_Some (entries s !! p)
  end.

Lemma post_return s s' r : keeps s s' -> call_post s (Return r) s'.
Proof. done. Qed.

Lemma post_keeps s s1 o s' : keeps s s1 -> call_post s1 o s' -> call_post s o s'.
Proof.
  intros (A1 & [A2 A2'] & A3) (B1 & [B2 B2'] & B3). split; [done|]. split; [split; [congruence|set_solver]|]. destruct o as [r|w].
  - intros p. by rewrite B3.
  - destruct B3 as [B3 B4]. split.
    + apply eq_None_not_Some. rewrite <- A3, B3. by intros [? ?].
    + intros p. by rewrite B4, A3.
Qed.

Lemma wake_safe s u c b : queues_ok s -> safe (do_private_futex_wake u c b) (fun r s' => keeps s s' /\ 0 <= r) s.
Proof.
  intros Hq. destruct (wake_ok s u c b Hq) as (q & E & Hq' & Eu & _). cbv zeta in E. eapply safe_Done; [exact E|].
  split; [|lia]. split; [|split; [split; [done|cbn; set_solver]|done]].
  eapply woken_queues_ok; [done|exact Eu|apply wake_split_perm].
Qed.

(** A new entry at the end of its queue. *)
Lemma enqueue_queues_ok s u l e : queues_ok s -> pfutex s !! u = Some l -> pe_uaddr e = u ->
  queues_ok (mk_fstate (f_um s) (<[u := l ++ [f_brk s]]> (pfutex s)) (<[f_brk s := e]> (entries s))
               (Pos.succ (f_brk s)) (signalled s) (blocked s)).
Proof.
  intros Hq E He. assert (entries s !! f_brk s = None) as Hnew.
  { apply eq_None_not_Some. intros Hs. pose proof (qo_fresh _ Hq _ Hs). lia. }
  assert (forall p, is_Some (entries s !! p) -> p <> f_brk s) as Hne by (intros p Hp ->; by rewrite Hnew in Hp; destruct Hp).
  constructor; cbn [pfutex entries signalled f_brk].
  - intros v k p Ev Hp. assert (p = f_brk s /\ v = u \/ exists k', pfutex s !! v = Some k' /\ p ∈ k') as [[-> ->]|(k' & Ek & Hk)].
    { rewrite lookup_insert in Ev. case_decide; simplify_eq; [|eauto]. apply elem_of_app in Hp as [Hp|Hp]; [eauto|].
      apply list_elem_of_singleton in Hp. auto. }
    + split; [intros Hs; by apply (Hne _ (qo_signalled _ Hq _ Hs))|]. exists e. by rewrite lookup_insert_eq.
    + destruct (qo_entry _ Hq v k' p Ek Hk) as (Hs & e' & Ee & Eu). split; [done|]. exists e'.
      rewrite lookup_insert_ne; [done|]. apply not_eq_sym, Hne. by rewrite Ee.
  - intros v k Ev. rewrite lookup_insert in Ev. case_decide; simplify_eq; [|by apply (qo_nodup _ Hq v)].
    apply NoDup_app. split; [by apply (qo_nodup _ Hq (pe_uaddr e))|]. split; [|apply NoDup_singleton].
    intros p Hp Hs. apply list_elem_of_singleton in Hs as ->. by apply (Hne _ (live_queue _ _ _ Hq E _ Hp)).
  - intros p e' Ep Hs. rewrite lookup_insert in Ep. case_decide; simplify_eq.
    + exists (l ++ [f_brk s]). rewrite lookup_insert_eq. split; [done|]. set_solver.
    + destruct (qo_queued _ Hq p e' Ep Hs) as (k & Ek & Hk). rewrite lookup_insert. case_decide as Hu; [|by exists k].
      exists (l ++ [f_brk s]). split; [done|]. rewrite <- Hu, E in Ek. simplify_eq. set_solver.
  - intros p Hs. apply lookup_insert_is_Some'. right. by apply (qo_signalled _ Hq).
  - intros p Hp. apply lookup_insert_is_Some' in Hp as [<-|Hp]; [lia|]. pose proof (qo_fresh _ Hq p Hp). lia.
Qed.

Lemma wait_safe s u timed rq b : queues_ok s -> safe (do_private_wait u timed rq b) (call_post s) s.
Proof.
  intros Hq. set (e := mk_entry u (match b with Some b => b | None => FUTEX_BITSET_MATCH_ANY end)).
  destruct (pfutex_get_ok s u) as (q & E & Eu & Hv & Hk). pose proof (get_queues_ok s q Hq Hv Hk) as Hq'.
  pose proof (enqueue_queues_ok _ u _ e Hq' Eu eq_refl) as Hn. cbn in Hn.
  unfold do_private_wait. repeat fstep_tac.
  set (s1 := mk_fstate (f_um s) (pfutex s) (<[f_brk s := e]> (entries s)) (Pos.succ (f_brk s)) (signalled s) (blocked s)).
  apply (safe_Done (pfutex_get u) tt s1 (fset_pfutex q s1)).
  { unfold pfutex_get in *. msimp. revert E. msimp. unfold s1. cbn [pfutex]. destruct (pfutex s !! u); intros [= E]; [|by rewrite E].
    rewrite E. f_equal. }
  fstep_tac. apply (safe_Done (list_add_tail (f_brk s) u) tt _ (set_q u (queue_of s u ++ [f_brk s]) (fset_pfutex q s1))).
  { apply list_add_tail_ok; [done|]. intros y Hy. cbn. apply lookup_insert_is_Some'. right. by apply (live_queue _ u _ Hq' Eu). }
  fstep_tac. split; [exact Hn|]. split; [done|]. cbn. split.
  - apply eq_None_not_Some. intros Hs. pose proof (qo_fresh _ Hq _ Hs). lia.
  - intros p. rewrite lookup_insert_is_Some'. naive_solver.
Qed.

(** *** Copies always return *)

Lemma chunk_pos a n : 0 < n -> 0 < chunk a n <= n.
Proof.
  intros Hn. unfold chunk, rounddown, MIN, wrap. set (x := (a + 4096) mod 2 ^ 64).
  assert (0 <= x < 2 ^ 64) as Hx by (apply Z.mod_pos_bound; lia).
  assert (0 <= x / 4096 * 4096 < 2 ^ 64) as Hy by (Z.div_mod_to_equations; lia).
  rewrite (Z.mod_small (x / 4096 * 4096)) by done.
  assert (0 < (x / 4096 * 4096 - a) mod 2 ^ 64) as Hp.
  { unfold x in *. Z.div_mod_to_equations. lia. }
  destruct (Z.ltb_spec ((x / 4096 * 4096 - a) mod 2 ^ 64) n); lia.
Qed.

Lemma copy_from_user_total u a n : is_Some (copy_from_user u a n).
Proof.
  unfold copy_from_user. assert (forall fuel a n, (Z.to_nat n < fuel)%nat -> is_Some (copy_from_user_loop fuel u a n)) as Hf;
    [|apply Hf; lia]. induction fuel as [|fuel IH]; clear a n; intros a n Hn; [lia|]. cbn [copy_from_user_loop].
  rewrite Z.gtb_ltb. destruct (Z.ltb_spec 0 n) as [Hp|Hp]; cbn [negb]; [|by eexists].
  destruct (translate u a); [|by eexists]. pose proof (chunk_pos a n Hp).
  destruct (IH (u64 (a + chunk a n)) (n - chunk a n)) as [[r bs] ->]; [lia|]. by eexists.
Qed.

Lemma copy_to_user_total u a bs : is_Some (copy_to_user u a bs).
Proof.
  unfold copy_to_user. assert (forall fuel u a bs n, (Z.to_nat n < fuel)%nat -> is_Some (copy_to_user_loop fuel u a bs n)) as Hf;
    [|apply Hf; lia]. induction fuel as [|fuel IH]; clear u a bs; intros u a bs n Hn; [lia|]. cbn [copy_to_user_loop].
  rewrite Z.gtb_ltb. destruct (Z.ltb_spec 0 n) as [Hp|Hp]; cbn [negb]; [|by eexists].
  destruct (translate u a); [|by eexists]. pose proof (chunk_pos a n Hp). apply IH. lia.
Qed.

Lemma copy_in_safe s a n rest : queues_ok s -> (forall bs, safe (rest bs) (call_post s) s) ->
  safe (f_copy_in a n rest) (call_post s) s.
Proof.
  intros Hq Hr. unfold f_copy_in, f_copy_from_user. repeat fstep_tac.
  destruct (copy_from_user_total (f_um s) a n) as [[e bs] ->]. repeat fstep_tac; [by apply post_return, keeps_refl|apply Hr].
Qed.

Lemma timeout_safe s t rest : queues_ok s -> safe rest (call_post s) s -> safe (with_timeout t rest) (call_post s) s.
Proof. intros Hq Hr. unfold with_timeout. fstep_tac; [|done]. by apply copy_in_safe. Qed.

Lemma copy_to_safe s a bs : queues_ok s -> safe (f_copy_to_user a bs) (fun _ s' => keeps s s') s.
Proof.
  intros Hq. unfold f_copy_to_user. repeat fstep_tac. destruct (copy_to_user_total (f_um s) a bs) as [[e u] ->].
  repeat fstep_tac. by apply keeps_um.
Qed.

(** *** Requeueing *)

(** One round of [requeue_loop]: [p] moves to the end of the queue of [u2]. *)
Definition moved (u u2 : Z) (p : ptr) (l : list ptr) (s : fstate) : fstate :=
  let q := <[u := list_del p l]> (pfutex s) in
  fset_entries (alter (fun e => mk_entry u2 (pe_bitset e)) p (entries s))
    (fset_pfutex (<[u2 := default [] (q !! u2) ++ [p]]> q) s).

Lemma moved_keeps s u u2 p l : queues_ok s -> pfutex s !! u = Some l -> p ∈ l -> is_Some (pfutex s !! u2) ->
  keeps s (moved u u2 p l s).
Proof.
  intros Hq El Hp [l2 E2]. destruct (qo_entry _ Hq u l p El Hp) as (Hs & e & Ee & Eu).
  pose proof (qo_nodup _ Hq u l El) as Hn.
  set (q := <[u := list_del p l]> (pfutex s)).
  assert (forall v k y, q !! v = Some k -> y ∈ k -> y <> p /\ exists k', pfutex s !! v = Some k' /\ y ∈ k') as Hin.
  { intros v k y Ev Hy. unfold q in Ev. rewrite lookup_insert in Ev. case_decide; simplify_eq.
    - apply list_del_elem in Hy as [Hy Hne]; [|done]. eauto.
    - split; [|eauto]. intros ->. destruct (qo_entry _ Hq v k p Ev Hy) as (_ & e' & Ee' & Eu'). congruence. }
  assert (is_Some (q !! u2)) as [k2 Ek2].
  { unfold q. rewrite lookup_insert. case_decide; [by eexists|by rewrite E2]. }
  assert (forall y e', entries s !! y = Some e' -> y <> p -> entries (moved u u2 p l s) !! y = Some e') as Hent.
  { intros y e' Ey Hne. cbn. by rewrite lookup_alter_ne. }
  split; [|split; [done|]].
  2: { intros y. cbn. rewrite lookup_alter. case_decide as Hpy; [|done]. subst y. rewrite Ee. split; by eexists. }
  unfold moved. fold q. rewrite Ek2. cbn [default]. constructor; cbn [pfutex entries signalled f_brk fset_entries fset_pfutex].
  - intros v k y Ev Hy. assert (y = p /\ v = u2 \/ exists k', q !! v = Some k' /\ y ∈ k') as [[-> ->]|(k' & Ek & Hk)].
    { rewrite lookup_insert in Ev. case_decide; simplify_eq; [|eauto]. apply elem_of_app in Hy as [Hy|Hy]; [eauto|].
      apply list_elem_of_singleton in Hy. auto. }
    + split; [done|]. rewrite lookup_alter, decide_True, Ee by done. by eexists.
    + destruct (Hin v k' y Ek Hk) as (Hne & k3 & E3 & H3). destruct (qo_entry _ Hq v k3 y E3 H3) as (Hs' & e' & Ee' & Eu').
      split; [done|]. exists e'. by rewrite lookup_alter_ne.
  - intros v k Ev. assert (forall v k, q !! v = Some k -> NoDup k) as Hnd.
    { intros v' k' E'. unfold q in E'. rewrite lookup_insert in E'. case_decide; simplify_eq; [by apply list_del_NoDup|].
      by apply (qo_nodup _ Hq v'). }
    rewrite lookup_insert in Ev. case_decide; simplify_eq; [|by eapply Hnd].
    apply NoDup_app. split; [by eapply Hnd|]. split; [|apply NoDup_singleton].
    intros y Hy Hys. apply list_elem_of_singleton in Hys as ->. by destruct (Hin _ _ p Ek2 Hy).
  - intros y e' Ey Hys. rewrite lookup_insert. destruct (decide (y = p)) as [->|Hne].
    + rewrite lookup_alter, decide_True, Ee in Ey by done. cbn in Ey. simplify_eq. cbn. rewrite decide_True by done.
      exists (k2 ++ [p]). split; [done|]. set_solver.
    + rewrite lookup_alter_ne in Ey by done. destruct (qo_queued _ Hq y e' Ey Hys) as (k & Ek & Hk).
      assert (exists k', q !! pe_uaddr e' = Some k' /\ y ∈ k') as (k' & Ek' & Hk').
      { unfold q. rewrite lookup_insert. case_decide as Hu; [|eauto]. rewrite <- Hu, El in Ek. simplify_eq.
        eexists. split; [done|]. by apply list_del_elem. }
      case_decide as Hu2; [|eauto]. eexists. split; [done|]. rewrite <- Hu2, Ek2 in Ek'. simplify_eq. set_solver.
  - intros y Hy. rewrite lookup_alter. pose proof (qo_signalled _ Hq y Hy). case_decide; [|done]. subst y. rewrite Ee. by eexists.
  - intros y Hy. apply (qo_fresh _ Hq). rewrite lookup_alter in Hy. case_decide; [subst y; rewrite Ee; by eexists|done].
Qed.

Lemma requeue_round s u u2 p l fuel v n : queues_ok s -> pfutex s !! u = Some l -> p ∈ l -> is_Some (pfutex s !! u2) ->
  requeue_loop (S fuel) u u2 (Some p) v n s =
  if v =? 0 then Done n s
  else requeue_loop fuel u u2 (list_next p l) (s32 (v - 1)) (n + 1) (moved u u2 p l s).
Proof.
  intros Hq El Hp [l2 E2]. cbn [requeue_loop]. pose proof (live_queue s u l Hq El) as Hl.
  erewrite bind_Done by (apply touch_ok; intros ? [= <-]; by apply Hl).
  erewrite bind_Done by exact (queue_ok _ _ _ El). destruct (v =? 0); [done|].
  erewrite bind_Done by (by apply list_del_init_ok).
  assert (exists k2, pfutex (set_q u (list_del p l) s) !! u2 = Some k2) as [k2 Ek2].
  { cbn. rewrite lookup_insert. case_decide; eauto. }
  erewrite bind_Done; [|apply list_add_tail_ok; [exact Ek2|]].
  - erewrite bind_Done by reflexivity. unfold moved. cbn in Ek2. rewrite Ek2. done.
  - intros y Hy. cbn in Ek2 |- *. rewrite lookup_insert in Ek2. case_decide; simplify_eq.
    + apply list_del_elem in Hy as [Hy _]; [by apply Hl|by eapply (qo_nodup _ Hq)].
    + by eapply (live_queue s u2 _ Hq).
Qed.

(** Between two queues the loop ends with the first one. *)
Lemma requeue_diff u u2 : u <> u2 -> forall fuel l s v n,
  queues_ok s -> pfutex s !! u = Some l -> is_Some (pfutex s !! u2) -> (length l < fuel)%nat ->
  safe (requeue_loop fuel u u2 (head l) v n) (fun _ s' => keeps s s') s.
Proof.
  intros Hne. induction fuel as [|fuel IH]; intros l s v n Hq El E2 Hf; [lia|].
  destruct l as [|p l]; [by apply keeps_refl|]. unfold safe.
  rewrite (requeue_round s u u2 p (p :: l)) by (done || by left). destruct (v =? 0); [by apply keeps_refl|].
  pose proof (moved_keeps s u u2 p (p :: l) Hq El ltac:(by left) E2) as Hk. cbn [list_next]. rewrite decide_True by done.
  cbn in Hf. eapply safe_mono; [|apply (IH l (moved u u2 p (p :: l) s)); [apply Hk| | |lia]].
  - intros a s' Hs. exact (keeps_trans _ _ _ Hk Hs).
  - cbn. rewrite lookup_insert_ne by done. cbn. by rewrite lookup_insert_eq, decide_True.
  - cbn. rewrite lookup_insert_eq. by eexists.
Qed.

Lemma s32_pred v : - 2 ^ 31 <= v < 2 ^ 31 -> v <> 0 -> u32 (s32 (v - 1)) = u32 v - 1 /\ - 2 ^ 31 <= s32 (v - 1) < 2 ^ 31.
Proof. intros Hv Hz. unfold wrap, swrap. change (32 - 1) with 31. destruct (Z.ltb_spec ((v - 1) mod 2 ^ 32) (2 ^ 31)); Z.div_mod_to_equations; lia. Qed.

(** Within one queue it ends when the count runs out. *)
Lemma requeue_same u : forall fuel l s p v n,
  queues_ok s -> pfutex s !! u = Some l -> (forall q, p = Some q -> q ∈ l) -> - 2 ^ 31 <= v < 2 ^ 31 -> (Z.to_nat (u32 v) < fuel)%nat ->
  safe (requeue_loop fuel u u p v n) (fun _ s' => keeps s s') s.
Proof.
  induction fuel as [|fuel IH]; intros l s p v n Hq El Hp Hv Hf; [lia|].
  destruct p as [p|]; [|by apply keeps_refl]. specialize (Hp p eq_refl). unfold safe.
  rewrite (requeue_round s u u p l) by (done || by rewrite El). destruct (Z.eqb_spec v 0) as [|Hz]; [by apply keeps_refl|].
  pose proof (moved_keeps s u u p l Hq El Hp ltac:(by rewrite El)) as Hk. destruct (s32_pred v Hv Hz) as [Ev Hr].
  eapply safe_mono; [intros a s' Hs; exact (keeps_trans _ _ _ Hk Hs)|].
  apply (IH (list_del p l ++ [p])); [apply Hk| | |done|].
  - cbn. by rewrite !lookup_insert_eq, ?decide_True.
  - intros y Hy. rewrite elem_of_app, list_elem_of_singleton, list_del_elem by (by apply (qo_nodup _ Hq u)).
    apply list_next_elem in Hy. destruct (decide (y = p)); auto.
  - rewrite Ev. pose proof (wrap_range 32 v). assert (u32 v <> 0); [|lia].
    unfold wrap. intros Hm. Z.div_mod_to_equations. lia.
Qed.

(** *** The commands *)

Lemma requeue_safe s u val t u2 v3 : queues_ok s -> safe (futex_cmp_requeue_pi u val t u2 v3) (call_post s) s.
Proof.
  intros Hq. unfold futex_cmp_requeue_pi. fstep_tac; [by apply post_return, keeps_refl|].
  apply copy_in_safe; [done|]. intros bs. fstep_tac; [by apply post_return, keeps_refl|].
  fstep_tac. eapply safe_mono; [|by apply wake_safe]. cbv beta. intros num s1 [Hk1 _].
  fstep_tac. destruct (pfutex_get_ok s1 u) as (q1 & E1 & Eu & Hv1 & Hm1). eapply safe_Done; [exact E1|].
  pose proof (get_queues_ok s1 q1 (proj1 Hk1) Hv1 Hm1) as Hq1.
  fstep_tac. destruct (pfutex_get_ok (fset_pfutex q1 s1) u2) as (q2 & E2 & Eu2 & Hv2 & Hm2). eapply safe_Done; [exact E2|].
  pose proof (get_queues_ok _ q2 Hq1 Hv2 Hm2) as Hq2.
  set (s2 := fset_pfutex q2 (fset_pfutex q1 s1)) in *. assert (keeps s s2) as Hk2.
  { eapply keeps_trans; [exact Hk1|]. split; [exact Hq2|done]. }
  assert (pfutex s2 !! u = Some (queue_of s1 u)) as El by (apply Hm2; exact Eu).
  fstep_tac. eapply safe_Done; [by apply queue_ok|]. fstep_tac. eapply safe_mono; [|].
  { intros num' s3 Hk3. fstep_tac. apply post_return. eapply keeps_trans; [exact Hk2|exact Hk3]. }
  destruct (Z.eqb_spec u u2) as [<-|Hne].
  - apply (requeue_same u _ (queue_of s1 u)); [done|done| | |lia].
    + intros p. apply head_elem.
    + pose proof (swrap_range 32 t). lia.
  - apply requeue_diff; [done|done|done|by eexists|lia].
Qed.

Lemma wake_op_safe s u val t u2 v3 : queues_ok s -> safe (futex_wake_op u val t u2 v3) (call_post s) s.
Proof.
  intros Hq. unfold futex_wake_op. apply copy_in_safe; [done|]. intros bs. fstep_tac.
  unfold wake_op_newval. repeat (fstep_tac; [|]); try apply safe_panic.
  all: repeat fstep_tac; eapply safe_mono; [|by apply copy_to_safe]; cbv beta; intros e s1 Hk1.
  all: repeat fstep_tac; try (by apply post_return).
  all: eapply safe_mono; [|apply wake_safe, Hk1]; cbv beta; intros r s2 [Hk2 _].
  all: assert (keeps s s2) as Hk by (by eapply keeps_trans); unfold wake_op_cond.
  all: repeat fstep_tac; try (by apply post_return).
  all: eapply safe_mono; [|apply wake_safe, Hk]; cbv beta; intros r2 s3 [Hk3 _].
  all: repeat fstep_tac; apply post_return; by eapply keeps_trans.
Qed.

Lemma lock_pi_safe s tid u t : queues_ok s -> safe (futex_lock_pi tid u t) (call_post s) s.
Proof.
  intros Hq. unfold futex_lock_pi. apply timeout_safe; [done|]. fstep_tac. fstep_tac.
  destruct (translate (f_um s) u); [|apply safe_assert]. repeat fstep_tac.
  - by apply post_return, keeps_um.
  - eapply safe_mono; [|apply wait_safe; by do 2 apply keeps_um]. intros o s'. apply post_keeps.
    eapply keeps_trans; [by apply keeps_um|]. apply keeps_um. by apply keeps_um.
Qed.

Section Safe.
Context `{DarwinErrno}.

Lemma sys_futex_safe s t a : queues_ok s -> safe (sys_futex t a) (call_post s) s.
Proof.
  intros Hq. assert (forall op, safe (do_private_futex t (a_uaddr a) op (a_val a) (a_timeout a) (a_uaddr2 a) (s32 (a_val3 a)))
    (call_post s) s) as Hrun.
  { assert (forall u c b f, safe (r ← do_private_futex_wake u c b; mret (Return (f r))) (call_post s) s) as Hw.
    { intros. fstep_tac. eapply safe_mono; [|by apply wake_safe]. cbv beta. intros r s1 [Hk _]. fstep_tac. by apply post_return. }
    intros op. unfold do_private_futex.
    fstep_tac; [apply (Hw _ _ _ (fun r => r))|]. fstep_tac.
    { apply copy_in_safe; [done|]. intros bs. fstep_tac; [by apply post_return, keeps_refl|].
      apply timeout_safe; [done|]. by apply wait_safe. }
    fstep_tac; [by apply wake_op_safe|]. fstep_tac; [by apply lock_pi_safe|]. fstep_tac; [apply (Hw _ _ _ (fun _ => 0))|].
    fstep_tac; [by apply requeue_safe|]. fstep_tac; [apply timeout_safe; [done|]; by apply wait_safe|].
    fstep_tac; [apply timeout_safe; [done|]; by apply wait_safe|]. fstep_tac; [apply (Hw _ _ _ (fun r => r))|].
    by apply post_return, keeps_refl. }
  unfold sys_futex. fstep_tac; [apply Hrun|]. fstep_tac. fstep_tac. destruct (_ ≫= _) as [r|].
  - fstep_tac; [apply safe_panic|apply Hrun].
  - by apply post_return, keeps_refl.
Qed.

Lemma owned_keeps s s' : owned s -> keeps s s' -> owned s'.
Proof.
  intros Ho (_ & [Hb _] & He). constructor; rewrite Hb.
  - intros t w Ht. apply He. by apply (ow_entry _ Ho t).
  - apply Ho.
  - intros p Hp. apply (ow_all _ Ho), He, Hp.
Qed.

(** The invariant, and no other thread loses its wait or its signal. *)
Definition others_stay (t : Z) (s : fstate) (s' : fstate) : Prop :=
  futex_ok s' /\ (forall t', t' <> t -> blocked s' !! t' = blocked s !! t') /\ signalled s ⊆ signalled s'.

Lemma futex_call_safe s t a : futex_ok s -> blocked s !! t = None -> safe (futex_call t a) (fun _ => others_stay t s) s.
Proof.
  intros [Hq Ho] Ht. unfold futex_call. fstep_tac. eapply safe_mono; [|by apply sys_futex_safe].
  cbv beta. intros o s1 (Hq1 & [Hb Hsig] & He). destruct o as [r|w]; fstep_tac.
  { split; [|split; [intros; by rewrite Hb|done]]. split; [done|]. by apply (owned_keeps s). }
  destruct He as [Hnew He]. fstep_tac. fstep_tac.
  split; [|split; [intros; cbn; rewrite Hb, lookup_insert_ne; done|done]]. split; [by destruct Hq1; constructor|].
  assert (forall p, is_Some (entries s !! p) -> p <> w_entry w) as Hne by (intros p Hp ->; rewrite Hnew in Hp; by destruct Hp).
  constructor; cbn [blocked entries fset_blocked]; rewrite Hb.
  - intros t' w'. rewrite lookup_insert. case_decide; intros E; simplify_eq; apply He; [by left|]. right. by apply (ow_entry _ Ho t').
  - intros t1 t2 w1 w2. rewrite !lookup_insert. case_decide; case_decide; intros E1 E2 E; simplify_eq; [done| | |].
    + destruct (Hne _ (ow_entry _ Ho t2 w2 E2)). done.
    + destruct (Hne _ (ow_entry _ Ho t1 w1 E1)). done.
    + by apply (ow_inj _ Ho t1 t2 w1 w2).
  - intros p Hp. apply He in Hp as [->|Hp]; [exists t, w; by rewrite lookup_insert_eq|].
    destruct (ow_all _ Ho p Hp) as (t' & w' & E & Ew). exists t', w'. rewrite lookup_insert_ne; [done|]. congruence.
Qed.

Lemma exit_safe s t u c : futex_ok s -> safe (do_futex_wake u c) (fun _ => others_stay t s) s.
Proof.
  intros [Hq Ho]. unfold do_futex_wake. eapply safe_mono; [|by apply wake_safe]. cbv beta. intros r s1 [Hk _].
  pose proof (owned_keeps _ _ Ho Hk). destruct Hk as (? & [Hb ?] & ?). split; [done|]. split; [intros; by rewrite Hb|done].
Qed.

(** What a wait that ended with [k] returns: a wait for a requeue fails unless its
    entry [e] was moved to the second address. *)
Definition wait_result (w : waiter) (e : pfutex_entry) (k : wakeup) : Z :=
  match w_requeue w with
  | Some uaddr2 => if negb (pe_uaddr e =? uaddr2) then - LINUX_EAGAIN else __cond_wait k
  | None => __cond_wait k
  end.

(** The end of a wait always returns and frees the thread's entry. *)
Lemma wait_end_ok s t w k : futex_ok s -> blocked s !! t = Some w ->
  exists r, wait_end t k s = Done r (mk_fstate (f_um s) (pfutex s) (delete (w_entry w) (entries s)) (f_brk s)
    (signalled s ∖ {[ w_entry w ]}) (delete t (blocked s))) /\
  exists e, entries s !! w_entry w = Some e /\ r = wait_result w e k.
Proof.
  intros [Hq Ho] Ht. unfold wait_end, wait_result. msimp. rewrite Ht. destruct (ow_entry _ Ho t w Ht) as [e Ee].
  destruct (w_requeue w) as [u2|]; [rewrite Ee; destruct (negb _) eqn:En|]; eexists; (split; [reflexivity|]); exists e; by rewrite ?En.
Qed.

Lemma wait_end_inv s t w : futex_ok s -> blocked s !! t = Some w -> w_entry w ∈ signalled s ->
  futex_ok (mk_fstate (f_um s) (pfutex s) (delete (w_entry w) (entries s)) (f_brk s)
    (signalled s ∖ {[ w_entry w ]}) (delete t (blocked s))).
Proof.
  intros [Hq Ho] Ht Hs. split; constructor; cbn [pfutex entries signalled f_brk blocked].
  - intros u l p El Hp. destruct (qo_entry _ Hq u l p El Hp) as (Hns & e & Ee & Eu). split; [set_solver|].
    exists e. rewrite lookup_delete_ne; [done|]. congruence.
  - apply Hq.
  - intros p e Ep Hns. apply lookup_delete_Some in Ep as [Hne Ep]. apply (qo_queued _ Hq p e Ep). set_solver.
  - intros p Hp. rewrite lookup_delete_ne by set_solver. apply (qo_signalled _ Hq). set_solver.
  - intros p [e Ep]. apply lookup_delete_Some in Ep as [_ Ep]. apply (qo_fresh _ Hq). by eexists.
  - intros t' w' E. apply lookup_delete_Some in E as [Hne E]. rewrite lookup_delete_ne; [by apply (ow_entry _ Ho t')|].
    intros Ew. by destruct (Hne (ow_inj _ Ho t t' w w' Ht E Ew)).
  - intros t1 t2 w1 w2 E1 E2. apply lookup_delete_Some in E1 as [_ E1], E2 as [_ E2]. by apply (ow_inj _ Ho t1 t2 w1 w2).
  - intros p [e Ep]. apply lookup_delete_Some in Ep as [Hne Ep]. destruct (ow_all _ Ho p) as (t' & w' & E & Ew); [by eexists|].
    exists t', w'. rewrite lookup_delete_ne; [done|]. congruence.
Qed.

Lemma futex_ok_um s u : futex_ok s -> futex_ok (fset_um u s).
Proof. intros [[] []]. by split; constructor. Qed.

Lemma futex_ok_init u : futex_ok (init_futex u).
Proof. split; constructor; cbn; try set_solver; try (intros *; by rewrite lookup_empty); intros ? [? Hs]; by rewrite lookup_empty in Hs. Qed.

Lemma dequeued_signalled s t w k r : futex_ok s -> blocked s !! t = Some w -> dequeued s (Resumes t k r) -> w_entry w ∈ signalled s.
Proof.
  intros [Hq Ho] Ht Hd. destruct (decide (w_entry w ∈ signalled s)) as [|Hn]; [done|].
  destruct (ow_entry _ Ho t w Ht) as [e Ee]. destruct (qo_queued _ Hq _ _ Ee Hn) as (l & El & Hl). by destruct (Hd w _ l Ht El).
Qed.

Lemma fstep_ok s l s' : futex_ok s -> dequeued s l -> fstep s l s' -> futex_ok s'.
Proof.
  intros Hi Hl Hs. destruct Hs as [s t a r s' Ht E|s u c r s' E|s t w k r s' Ht Hk E|s u].
  - pose proof (futex_call_safe s t a Hi Ht) as Hc. unfold safe in Hc. rewrite E in Hc. apply Hc.
  - pose proof (exit_safe s 0 u c Hi) as Hc. unfold safe in Hc. rewrite E in Hc. apply Hc.
  - destruct (wait_end_ok s t w k Hi Ht) as (r' & E' & _). rewrite E in E'. simplify_eq.
    by apply wait_end_inv, (dequeued_signalled _ t _ k r').
  - by apply futex_ok_um.
Qed.

Lemma freachable_ok u s : freachable dequeued (init_futex u) s -> futex_ok s.
Proof. induction 1 as [|s l s' _ IH Hl Hs]; [apply futex_ok_init|]. by eapply fstep_ok. Qed.

(** Steps of the other threads. *)
Definition other_than (t : Z) (s : fstate) (l : flabel) : Prop := dequeued s l /\ forall k r, l <> Resumes t k r.

(** A thread that was signalled stays signalled until it runs. *)
Lemma signal_stays s l s' t w : futex_ok s -> other_than t s l -> fstep s l s' ->
  blocked s !! t = Some w -> w_entry w ∈ signalled s -> blocked s' !! t = Some w /\ w_entry w ∈ signalled s'.
Proof.
  intros Hi [Hl Hne] Hs Ht Hw. destruct Hs as [s t' a r s' Ht' E|s u c r s' E|s t' w' k r s' Ht' Hk E|s u].
  - pose proof (futex_call_safe s t' a Hi Ht') as Hc. unfold safe in Hc. rewrite E in Hc. destruct Hc as (_ & Hb & Hsig).
    split; [|set_solver]. rewrite Hb; [done|]. congruence.
  - pose proof (exit_safe s (t + 1) u c Hi) as Hc. unfold safe in Hc. rewrite E in Hc. destruct Hc as (_ & Hb & Hsig).
    split; [|set_solver]. rewrite Hb; [done|lia].
  - destruct (wait_end_ok s t' w' k Hi Ht') as (r' & E' & _). rewrite E in E'. simplify_eq. cbn.
    assert (t <> t') as Htt by (intros ->; by apply (Hne k r')). split; [by rewrite lookup_delete_ne|].
    apply elem_of_difference. split; [done|]. rewrite elem_of_singleton. intros Ew.
    by apply Htt, (ow_inj _ (proj2 Hi) t t' w w').
  - done.
Qed.

Lemma other_run s t w s' : futex_ok s -> blocked s !! t = Some w -> w_entry w ∈ signalled s ->
  freachable (other_than t) s s' -> futex_ok s' /\ blocked s' !! t = Some w /\ w_entry w ∈ signalled s'.
Proof.
  intros Hi Ht Hw. induction 1 as [|s1 l s2 _ (I1 & I2 & I3) Hl Hs]; [done|].
  split; [by eapply fstep_ok; [|apply Hl|]|]. by eapply signal_stays.
Qed.

Lemma wake_split_plain es c l : wake_split es c None l = if c <? 0 then (l, []) else (take (Z.to_nat c) l, drop (Z.to_nat c) l).
Proof.
  revert c. induction l as [|p l IH]; intros c; cbn [wake_split].
  { by destruct (c <? 0), (Z.to_nat c). }
  destruct (Z.eqb_spec c 0) as [->|Hc]; [done|]. unfold matches. rewrite IH.
  destruct (Z.ltb_spec c 0), (Z.ltb_spec (c - 1) 0); try lia; [done|].
  replace (Z.to_nat c) with (S (Z.to_nat (c - 1))) by lia. done.
Qed.

(** C18: The futex queues stay consistent.  In every state reached from boot by
    calls of any threads with any arguments, in any order, by exiting threads, by any
    change of guest memory, and by waits that end, for whatever reason, once a wake has
    taken their entry off its queue (not by waits that time out or return spuriously
    while queued: those break it, [timeout_dangles]): a blocked thread owns a live queue
    entry which is either in exactly the queue of its address or signalled, so no thread
    is lost; and every further call comes to an end without touching an entry
    that was freed (it returns, blocks, or stops at a [panic] or [assert] of the source). *)
Theorem futex_safe u s : freachable dequeued (init_futex u) s ->
  (forall t w, blocked s !! t = Some w -> exists e, entries s !! w_entry w = Some e /\
     (w_entry w ∈ signalled s \/ w_entry w ∈ queue_of s (pe_uaddr e))) /\
  (forall v1 v2 p, p ∈ queue_of s v1 -> p ∈ queue_of s v2 -> v1 = v2 /\ p ∉ signalled s) /\
  (forall t a, blocked s !! t = None ->
     match futex_call t a s with Done _ _ => True | Stop w _ => w = Panic \/ w = AssertFail end).
Proof.
  intros Hr. pose proof (freachable_ok u s Hr) as Hi. pose proof Hi as [Hq Ho]. split; [|split].
  - intros t w Ht. destruct (ow_entry _ Ho t w Ht) as [e Ee]. exists e. split; [done|].
    destruct (decide (w_entry w ∈ signalled s)) as [|Hs]; [by left|right].
    destruct (qo_queued _ Hq _ _ Ee Hs) as (l & El & Hl). unfold queue_of. by rewrite El.
  - intros v1 v2 p H1 H2. unfold queue_of in *.
    destruct (pfutex s !! v1) as [l1|] eqn:E1; [|by apply elem_of_nil in H1].
    destruct (pfutex s !! v2) as [l2|] eqn:E2; [|by apply elem_of_nil in H2].
    destruct (qo_entry _ Hq v1 l1 p E1 H1) as (A1 & e1 & A2 & A3), (qo_entry _ Hq v2 l2 p E2 H2) as (B1 & e2 & B2 & B3).
    split; [congruence|done].
  - intros t a Ht. pose proof (futex_call_safe s t a Hi Ht) as Hc. unfold safe in Hc. by destruct (futex_call t a s).
Qed.

(** C19: Waking is first-in first-out and exact.  In a consistent state, a wake of
    [c] takes the first [c] waiters whose bits match (all of them when [c] is
    negative) off the queue of the address, signals exactly these and returns
    their number; the others keep their order, and no other queue, entry or thread
    changes.  Without a bit set the woken ones are the first [c] of the queue. *)
Theorem futex_wake_fifo s u c b : queues_ok s ->
  let l := queue_of s u in let ws := (wake_split (entries s) c b l).1 in let rest := (wake_split (entries s) c b l).2 in
  exists s', do_private_futex_wake u c b s = Done (Z.of_nat (length ws)) s' /\
  queue_of s' u = rest /\ (forall v, v <> u -> queue_of s' v = queue_of s v) /\
  signalled s' = list_to_set ws ∪ signalled s /\ entries s' = entries s /\ blocked s' = blocked s /\ f_um s' = f_um s /\
  ws ++ rest ≡ₚ l /\ (b = None -> ws = if c <? 0 then l else take (Z.to_nat c) l).
Proof.
  intros Hq l ws rest. destruct (wake_ok s u c b Hq) as (q & E & _ & _ & Hv). eexists. split; [exact E|].
  split_and!; try done.
  - unfold queue_of. cbn. by rewrite lookup_insert_eq.
  - intros v Hne. unfold queue_of at 1. cbn. rewrite lookup_insert_ne by done. apply Hv.
  - apply wake_split_perm.
  - intros ->. unfold ws. rewrite wake_split_plain. by destruct (c <? 0).
Qed.

(** C20: No wake-up is lost.  When a thread waits at position [i] of the queue of
    an address and a wake of more than [i] comes (or of all), the thread is free
    to run from then on, whatever the other threads do in the meantime, as long as
    none of them ends a wait while still queued: the signal for it stays pending, and for
    whatever reason its wait then ends, it returns and the thread is no longer
    blocked.  Ended by the signal, it returns 0, but -EAGAIN if it waited for a requeue
    that did not take place. *)
Theorem woken_thread_returns s t w u i c :
  futex_ok s -> blocked s !! t = Some w -> queue_of s u !! i = Some (w_entry w) -> c < 0 \/ Z.of_nat i < c ->
  exists n s1, do_futex_wake u c s = Done n s1 /\ 1 <= n /\
  forall s2, freachable (other_than t) s1 s2 ->
  may_wake s2 w Signalled /\ dequeued s2 (Resumes t Signalled 0) /\
  forall k, may_wake s2 w k -> exists e r s3, fstep s2 (Resumes t k r) s3 /\ blocked s3 !! t = None /\
    entries s2 !! w_entry w = Some e /\ r = wait_result w e k.
Proof.
  intros [Hq Ho] Ht Hi Hc. destruct (wake_ok s u c None Hq) as (q & E & Hq' & Eu & Hv). cbv zeta in E.
  rewrite wake_split_plain in E. set (ws := (if c <? 0 then (queue_of s u, []) else _).1) in E.
  assert (w_entry w ∈ ws) as Hw.
  { unfold ws. destruct (Z.ltb_spec c 0); cbn; [by eapply list_elem_of_lookup_2|].
    apply list_elem_of_lookup. exists i. rewrite lookup_take_lt by lia. done. }
  eexists _, _. split; [exact E|]. split; [apply list_elem_of_lookup in Hw as [j Hj]; apply lookup_lt_Some in Hj; lia|].
  intros s2 Hr. apply (other_run _ t w) in Hr as (Hi2 & Ht2 & Hw2).
  - split; [exact Hw2|]. split.
    { intros w' v l Hw' El Hl. simplify_eq. by destruct (qo_entry _ (proj1 Hi2) v l (w_entry w) El Hl). }
    intros k Hk. destruct (wait_end_ok s2 t w k Hi2 Ht2) as (r & E2 & e & Ee & Hrq). eexists e, r, _.
    split; [eapply step_resume; [done|exact Hk|exact E2]|]. split; [cbn; apply lookup_delete_eq|done].
  - pose proof (exit_safe s t u c (conj Hq Ho)) as Hx. unfold safe, do_futex_wake in Hx. rewrite E in Hx. apply Hx.
  - done.
  - cbn. set_solver.
Qed.

(** A wait that ends by its timeout frees its entry and leaves it in the queue;
    at the head of the queue, every later wake of that address touches freed
    memory. *)
Theorem timeout_dangles s t w u rest c : futex_ok s -> blocked s !! t = Some w -> w_timed w = true ->
  pfutex s !! u = Some (w_entry w :: rest) ->
  exists r s1, fstep s (Resumes t Timeout r) s1 /\ exists s2, do_futex_wake u c s1 = Stop Fault s2.
Proof.
  intros Hi Ht Htm Eu. destruct (wait_end_ok s t w Timeout Hi Ht) as (r & E & _). eexists r, _.
  split; [by eapply step_resume; [| |exact E]|]. eexists. unfold do_futex_wake, do_private_futex_wake, pfutex_get. msimp.
  cbn [pfutex]. rewrite Eu. unfold queue. msimp. cbn [pfutex]. rewrite Eu. cbn [head length wake_loop]. msimp.
  cbn [entries]. by rewrite lookup_delete_eq.
Qed.

End Safe.

(** ** Witnesses *)

#[local] Instance host_errno : DarwinErrno := macos_errno.

(** Threads 1, 2 and 3 wait on an address in turn; then one is woken. *)
Definition wait_args (u : Z) : futex_args := mk_futex_args u (LINUX_FUTEX_WAIT_BITSET + LINUX_FUTEX_PRIVATE_FLAG) 0 0 0 (2 ^ 32 - 1).
Definition three_waiters : fstate :=
  match (futex_call 1 (wait_args 4096);; futex_call 2 (wait_args 4096);; futex_call 3 (wait_args 8192)) (init_futex u3p) with
  | Done _ s => s | Stop _ s => s
  end.

Lemma three_waiters_reach : freachable dequeued (init_futex u3p) three_waiters.
Proof.
  set (step t s := match futex_call t (wait_args (if t =? 3 then 8192 else 4096)) s with Done _ s => s | Stop _ s => s end).
  apply (reach_step _ _ (step 2 (step 1 (init_futex u3p))) (Calls 3 (wait_args 8192) None)); [|done|apply step_call; vm_compute; reflexivity].
  apply (reach_step _ _ (step 1 (init_futex u3p)) (Calls 2 (wait_args 4096) None)); [|done|apply step_call; vm_compute; reflexivity].
  apply (reach_step _ _ (init_futex u3p) (Calls 1 (wait_args 4096) None)); [|done|by apply step_call]. constructor.
Qed.

Lemma futex_safe_witness : exists e, entries three_waiters !! 1%positive = Some e /\
  (1%positive ∈ signalled three_waiters \/ 1%positive ∈ queue_of three_waiters (pe_uaddr e)).
Proof.
  exact (proj1 (futex_safe u3p three_waiters three_waiters_reach) 1 (mk_waiter 1 false None) eq_refl).
Defined.

Lemma futex_wake_fifo_witness : exists s', do_private_futex_wake 4096 1 None three_waiters = Done 1 s' /\ queue_of s' 4096 = [2%positive].
Proof.
  destruct (futex_wake_fifo three_waiters 4096 1 None (proj1 (freachable_ok _ _ three_waiters_reach))) as (s' & E & Eq & _).
  exists s'. split; [exact E|exact Eq].
Defined.

Lemma woken_thread_returns_witness : exists n s1 s3, do_futex_wake 4096 2 three_waiters = Done n s1 /\ 1 <= n /\
  fstep s1 (Resumes 2 Signalled 0) s3 /\ blocked s3 !! 2 = None.
Proof.
  destruct (woken_thread_returns three_waiters 2 (mk_waiter 2 false None) 4096 1 2 (freachable_ok _ _ three_waiters_reach))
    as (n & s1 & E & Hn & Hr); [reflexivity|reflexivity|lia|].
  destruct (Hr s1 (reach_init _ _)) as (Hm & _ & Hk). destruct (Hk Signalled Hm) as (e & r & s3 & Hs & Hb & _ & ->).
  exists n, s1, s3. split; [exact E|]. split; [exact Hn|]. split; [exact Hs|exact Hb].
Defined.
