(* ===== verification/Task.v ===== *)
(** * A task: its virtual CPU, signals and identity ([include/noah.h],
    [lib/vmm.c], [src/main.c])

    The state of the thread that runs a handler: the kernel's shared state, the
    registers and VMCS fields of its virtual CPU, and the fields of [struct task]
    and [struct proc] the other files do not have.  Reading and writing a
    register of a running virtual CPU succeeds. *)

From S2P Require Import Prelude RBTree Const Errno Conv Mm UserMem FdTable Kernel.

(** [hv_x86_reg_t] *)
Inductive reg :=
| RIP | RFLAGS | RAX | RCX | RDX | RBX | RSI | RDI | RSP | RBP
| R8 | R9 | R10 | R11 | R12 | R13 | R14 | R15
| CS | SS | DS | ES | FS | GS
| IDT_BASE | IDT_LIMIT | GDT_BASE | GDT_LIMIT | LDTR | LDT_BASE | LDT_LIMIT | LDT_AR
| TR | TSS_BASE | TSS_LIMIT | TSS_AR
| CR0 | CR1 | CR2 | CR3 | CR4 | DR0 | DR1 | DR2 | DR3 | DR4 | DR5 | DR6 | DR7 | TPR | XCR0.

(** [x86_reg_list] ([include/x86/vmx.h]) *)
Definition x86_reg_list : list reg :=
  [RIP; RFLAGS; RAX; RCX; RDX; RBX; RSI; RDI; RSP; RBP; R8; R9; R10; R11; R12; R13; R14; R15;
   CS; SS; DS; ES; FS; GS; IDT_BASE; IDT_LIMIT; GDT_BASE; GDT_LIMIT; LDTR; LDT_BASE; LDT_LIMIT; LDT_AR;
   TR; TSS_BASE; TSS_LIMIT; TSS_AR; CR0; CR1; CR2; CR3; CR4; DR0; DR1; DR2; DR3; DR4; DR5; DR6; DR7; TPR; XCR0].

(** Decided by the constructors' numbers. *)
Definition reg_number (r : reg) : nat :=
  match r with
  | RIP => 0 | RFLAGS => 1 | RAX => 2 | RCX => 3 | RDX => 4 | RBX => 5 | RSI => 6 | RDI => 7 | RSP => 8 | RBP => 9
  | R8 => 10 | R9 => 11 | R10 => 12 | R11 => 13 | R12 => 14 | R13 => 15 | R14 => 16 | R15 => 17
  | CS => 18 | SS => 19 | DS => 20 | ES => 21 | FS => 22 | GS => 23
  | IDT_BASE => 24 | IDT_LIMIT => 25 | GDT_BASE => 26 | GDT_LIMIT => 27 | LDTR => 28 | LDT_BASE => 29 | LDT_LIMIT => 30 | LDT_AR => 31
  | TR => 32 | TSS_BASE => 33 | TSS_LIMIT => 34 | TSS_AR => 35 | CR0 => 36 | CR1 => 37 | CR2 => 38 | CR3 => 39 | CR4 => 40
  | DR0 => 41 | DR1 => 42 | DR2 => 43 | DR3 => 44 | DR4 => 45 | DR5 => 46 | DR6 => 47 | DR7 => 48 | TPR => 49 | XCR0 => 50
  end%nat.

Lemma reg_listed r : x86_reg_list !! reg_number r = Some r.
Proof. by destruct r. Qed.

#[global] Instance reg_number_inj : Inj (=) (=) reg_number.
Proof. intros r r' E. apply (inj Some). rewrite <- !reg_listed. congruence. Qed.

#[global] Instance reg_eq : EqDecision reg := fun r r' =>
  match decide (reg_number r = reg_number r') with
  | left E => left (reg_number_inj _ _ E)
  | right N => right (fun E => N (f_equal reg_number E))
  end.

(** [l_stack_t] *)
Record l_stack := mk_l_stack { ss_sp : Z; ss_flags : Z; ss_size : Z }.

Record tstate := mk_tstate {
  t_kern : kstate;
  t_regs : reg -> Z;
  t_vmcs : string -> Z;
  t_sigaction : list l_sigaction;
  t_sigmask : Z;
  t_sigpending : Z;
  t_sas : l_stack;
  t_tid : Z;
  t_set_child_tid : Z;
  t_clear_child_tid : Z;
  t_robust_list : Z;
  t_nr_tasks : Z;
}.

Definition tset_kern (k : kstate) (t : tstate) : tstate :=
  mk_tstate k (t_regs t) (t_vmcs t) (t_sigaction t) (t_sigmask t) (t_sigpending t) (t_sas t) (t_tid t)
    (t_set_child_tid t) (t_clear_child_tid t) (t_robust_list t) (t_nr_tasks t).
Definition tset_regs (r : reg -> Z) (t : tstate) : tstate :=
  mk_tstate (t_kern t) r (t_vmcs t) (t_sigaction t) (t_sigmask t) (t_sigpending t) (t_sas t) (t_tid t)
    (t_set_child_tid t) (t_clear_child_tid t) (t_robust_list t) (t_nr_tasks t).
Definition tset_vmcs (v : string -> Z) (t : tstate) : tstate :=
  mk_tstate (t_kern t) (t_regs t) v (t_sigaction t) (t_sigmask t) (t_sigpending t) (t_sas t) (t_tid t)
    (t_set_child_tid t) (t_clear_child_tid t) (t_robust_list t) (t_nr_tasks t).
Definition tset_sigaction (a : list l_sigaction) (t : tstate) : tstate :=
  mk_tstate (t_kern t) (t_regs t) (t_vmcs t) a (t_sigmask t) (t_sigpending t) (t_sas t) (t_tid t)
    (t_set_child_tid t) (t_clear_child_tid t) (t_robust_list t) (t_nr_tasks t).
Definition tset_sigmask (m : Z) (t : tstate) : tstate :=
  mk_tstate (t_kern t) (t_regs t) (t_vmcs t) (t_sigaction t) m (t_sigpending t) (t_sas t) (t_tid t)
    (t_set_child_tid t) (t_clear_child_tid t) (t_robust_list t) (t_nr_tasks t).
Definition tset_sigpending (p : Z) (t : tstate) : tstate :=
  mk_tstate (t_kern t) (t_regs t) (t_vmcs t) (t_sigaction t) (t_sigmask t) p (t_sas t) (t_tid t)
    (t_set_child_tid t) (t_clear_child_tid t) (t_robust_list t) (t_nr_tasks t).
Definition tset_sas (s : l_stack) (t : tstate) : tstate :=
  mk_tstate (t_kern t) (t_regs t) (t_vmcs t) (t_sigaction t) (t_sigmask t) (t_sigpending t) s (t_tid t)
    (t_set_child_tid t) (t_clear_child_tid t) (t_robust_list t) (t_nr_tasks t).
Definition tset_tids (tid setc clearc : Z) (t : tstate) : tstate :=
  mk_tstate (t_kern t) (t_regs t) (t_vmcs t) (t_sigaction t) (t_sigmask t) (t_sigpending t) (t_sas t) tid
    setc clearc (t_robust_list t) (t_nr_tasks t).
Definition tset_robust (r : Z) (t : tstate) : tstate :=
  mk_tstate (t_kern t) (t_regs t) (t_vmcs t) (t_sigaction t) (t_sigmask t) (t_sigpending t) (t_sas t) (t_tid t)
    (t_set_child_tid t) (t_clear_child_tid t) r (t_nr_tasks t).
Definition tset_nr_tasks (n : Z) (t : tstate) : tstate :=
  mk_tstate (t_kern t) (t_regs t) (t_vmcs t) (t_sigaction t) (t_sigmask t) (t_sigpending t) (t_sas t) (t_tid t)
    (t_set_child_tid t) (t_clear_child_tid t) (t_robust_list t) n.

Abbreviation T := (M tstate).

(** A computation on the kernel's state. *)
Definition lk {A} (c : M kstate A) : T A := fun t =>
  match c (t_kern t) with
  | Done a k => Done a (tset_kern k t)
  | Stop w k => Stop w (tset_kern k t)
  end.

(** ** States that hold a task *)

Class HasTask (S : Type) := { task_of : S -> tstate; set_task : tstate -> S -> S }.

(** [set_task] changes the task and nothing else. *)
Class HasTaskOk (S : Type) `{HasTask S} := {
  task_of_set t s : task_of (set_task t s) = t;
  set_task_of s : set_task (task_of s) s = s;
  set_task_twice t t' s : set_task t (set_task t' s) = set_task t s;
}.

#[global] Instance tstate_task : HasTask tstate := {| task_of t := t; set_task t _ := t |}.
#[global] Instance tstate_task_ok : HasTaskOk tstate.
Proof. by split. Qed.

(** A computation on the task. *)
Definition on_task {S A} `{HasTask S} (c : T A) : M S A := fun s =>
  match c (task_of s) with
  | Done a t => Done a (set_task t s)
  | Stop w t => Stop w (set_task t s)
  end.

Lemma on_task_Done {S A} `{HasTask S} (c : T A) s a t : c (task_of s) = Done a t -> on_task c s = Done a (set_task t s).
Proof. unfold on_task. by intros ->. Qed.

Lemma on_task_same {S A} `{HasTaskOk S} (c : T A) s a : c (task_of s) = Done a (task_of s) -> on_task c s = Done a s.
Proof. intros E. rewrite (on_task_Done _ _ _ _ E). by rewrite set_task_of. Qed.

(** [h] does to the task what [c] does, whenever [c] returns; the rest of the state is free. *)
Definition runs_as {S A} `{HasTask S} (h : M S A) (c : T A) : Prop :=
  forall s a t, c (task_of s) = Done a t -> exists s', h s = Done a s' /\ task_of s' = t.

Lemma on_task_runs_as {S A} `{HasTaskOk S} (c : T A) : runs_as (S := S) (on_task c) c.
Proof. intros s a t E. exists (set_task t s). split; [by apply on_task_Done|apply task_of_set]. Qed.

Lemma on_task_id {A} (c : T A) t : on_task c t = c t.
Proof. unfold on_task. simpl. by destruct (c t). Qed.

(** ** Registers ([lib/vmm.c]) *)

Definition upd_reg (r : reg) (v : Z) (f : reg -> Z) : reg -> Z := fun r' => if decide (r' = r) then v else f r'.
Definition upd_vmcs (x : string) (v : Z) (f : string -> Z) : string -> Z := fun y => if decide (y = x) then v else f y.

Definition vmm_read_register (r : reg) : T Z := t ← get; mret (t_regs t r).
Definition vmm_write_register (r : reg) (v : Z) : T unit := modify (fun t => tset_regs (upd_reg r (u64 v) (t_regs t)) t).
(** The VMCS fields that hold a register. *)
Definition vmcs_reg (x : string) : option reg :=
  (list_find (fun p => p.1 = x) [("GUEST_RIP", RIP); ("GUEST_RSP", RSP); ("GUEST_RFLAGS", RFLAGS); ("GUEST_CS", CS);
    ("GUEST_SS", SS); ("GUEST_DS", DS); ("GUEST_ES", ES); ("GUEST_FS", FS); ("GUEST_GS", GS); ("GUEST_IDTR_BASE", IDT_BASE);
    ("GUEST_IDTR_LIMIT", IDT_LIMIT); ("GUEST_GDTR_BASE", GDT_BASE); ("GUEST_GDTR_LIMIT", GDT_LIMIT); ("GUEST_LDTR", LDTR);
    ("GUEST_LDTR_BASE", LDT_BASE); ("GUEST_LDTR_LIMIT", LDT_LIMIT); ("GUEST_LDTR_AR", LDT_AR); ("GUEST_TR", TR);
    ("GUEST_TR_BASE", TSS_BASE); ("GUEST_TR_LIMIT", TSS_LIMIT); ("GUEST_TR_AR", TSS_AR); ("GUEST_CR0", CR0);
    ("GUEST_CR3", CR3); ("GUEST_CR4", CR4); ("GUEST_DR7", DR7)]) ≫= (fun r => Some r.2.2).
Definition vmm_read_vmcs (x : string) : T Z :=
  match vmcs_reg x with Some r => vmm_read_register r | None => t ← get; mret (t_vmcs t x) end.
Definition vmm_write_vmcs (x : string) (v : Z) : T unit :=
  match vmcs_reg x with
  | Some r => vmm_write_register r v
  | None => modify (fun t => tset_vmcs (upd_vmcs x (u64 v) (t_vmcs t)) t)
  end.

Lemma lk_Done {A} (c : M kstate A) t a k : c (t_kern t) = Done a k -> lk c t = Done a (tset_kern k t).
Proof. unfold lk. by intros ->. Qed.

Lemma upd_reg_eq r v f : upd_reg r v f r = v.
Proof. unfold upd_reg. by rewrite decide_True. Qed.

Lemma upd_reg_ne r r' v f : r' <> r -> upd_reg r v f r' = f r'.
Proof. unfold upd_reg. intros. by rewrite decide_False. Qed.

Section Dispatch.
Context `{OS} `{DarwinErrno} `{DarwinConst}.

(** ** Signals sent to processes ([src/ipc/signal.c], [send_signal]) *)

Definition send_signal (pid signum : Z) : T Z :=
  if signum >=? LINUX_SIGRTMIN then mret 0
  else
    let dsignum := if signum =? 0 then 0 else linux_to_darwin_signal signum in
    lk (sysw "kill" [HI pid; HI dsignum]).

(** ** System call entry ([src/main.c]) *)

Definition NR_SYSCALLS : Z := 329.
Definition LSYS_rt_sigreturn : Z := 15.
Definition OP_SYSCALL : Z := 0x050f.

(** [is_syscall(instlen, rip)] *)
Definition is_syscall (instlen rip : Z) : T bool :=
  if negb (s32 instlen =? 2) then mret false
  else
    '(e, bs) ← lk (k_copy_from_user rip 2);
    mret (if negb (e =? 0) then false else le_decode bs =? OP_SYSCALL).

(** ** Dispatch

    Handlers run in a state of which the calling task is a part. *)
Section Handlers.
Context {S : Type} `{HasTask S}.

(** The handlers, of six arguments, by number. *)
Definition sc_table : Type := Z -> option (Z -> Z -> Z -> Z -> Z -> Z -> M S Z).

(** An unknown number is signalled and then used as an index all the same. *)
Definition handle_syscall (sc_handler_table : sc_table) : M S Z :=
  rax ← on_task (vmm_read_register RAX);
  on_task (when_ (rax >=? NR_SYSCALLS)
    (r ← lk (hcall "getpid" []); send_signal (h_ret r) 31;; mret tt));;
  rdi ← on_task (vmm_read_register RDI);
  rsi ← on_task (vmm_read_register RSI);
  rdx ← on_task (vmm_read_register RDX);
  r10 ← on_task (vmm_read_register R10);
  r8 ← on_task (vmm_read_register R8);
  r9 ← on_task (vmm_read_register R9);
  handler ← deref (sc_handler_table rax);
  retval ← handler rdi rsi rdx r10 r8 r9;
  on_task (vmm_write_register RAX retval);;
  mret (if rax =? LSYS_rt_sigreturn then -1 else 0).

(** What [main_loop] does with an invalid opcode that is [syscall]: [true] when
    it returns to its caller. *)
Definition syscall_exit (sc_handler_table : sc_table) (return_on_sigret : bool) : M S bool :=
  r ← handle_syscall sc_handler_table;
  rip ← on_task (vmm_read_register RIP);
  on_task (vmm_write_register RIP (rip + 2));;
  mret (return_on_sigret && (r <? 0)).

End Handlers.

End Dispatch.

(** The registers after the handler returned [v] *)
Definition sysret (v : Z) (t : tstate) : tstate :=
  let t := tset_regs (upd_reg RAX (u64 v) (t_regs t)) t in
  tset_regs (upd_reg RIP (u64 (t_regs t RIP + 2)) (t_regs t)) t.

(** A system call whose handler returns *)
Lemma syscall_exit_run `{OS} `{DarwinErrno} `{DarwinConst} {S} `{HasTaskOk S} tbl ros s (h : Z -> Z -> Z -> Z -> Z -> Z -> M S Z) v s2 :
  let r := t_regs (task_of s) in
  r RAX < NR_SYSCALLS -> tbl (r RAX) = Some h -> h (r RDI) (r RSI) (r RDX) (r R10) (r R8) (r R9) s = Done v s2 ->
  syscall_exit tbl ros s = Done (ros && (r RAX =? LSYS_rt_sigreturn)) (set_task (sysret v (task_of s2)) s2).
Proof.
  intros r Hn Eh Ev. unfold syscall_exit. assert ((t_regs (task_of s) RAX >=? NR_SYSCALLS) = false) as Hge by (subst r; lia).
  assert (handle_syscall tbl s = Done (if r RAX =? LSYS_rt_sigreturn then -1 else 0)
    (set_task (tset_regs (upd_reg RAX (u64 v) (t_regs (task_of s2))) (task_of s2)) s2)) as Eh1.
  { unfold handle_syscall. do 8 (erewrite bind_Done; [|apply on_task_same; unfold vmm_read_register; msimp;
      rewrite ?Hge; reflexivity]).
    fold r. rewrite Eh. erewrite bind_Done by reflexivity. erewrite bind_Done by exact Ev. by erewrite bind_Done by reflexivity. }
  rewrite (bind_Done _ _ _ _ _ Eh1). erewrite bind_Done; [|apply on_task_same; reflexivity]. erewrite bind_Done by reflexivity.
  rewrite task_of_set, set_task_twice. unfold mret, M_ret. f_equal. by destruct (r RAX =? LSYS_rt_sigreturn).
Qed.

Arguments sc_table S : clear implicits.
