(* ===== verification/Signal.v ===== *)
(** * Signals ([src/ipc/signal.c], [include/linux/signal.h])

    The pending set, its delivery by a frame on the guest's stack, the return
    from a handler, and the system calls on masks, actions and the alternate
    stack.  [proc.sig_lock] is not modelled: a handler runs from its start to its
    end.  The host delivers a signal to [__host_signal_handler], an operation of
    its own here. *)

From S2P Require Import Prelude RBTree Const Errno Conv Mm Mmap MmapFacts MmInv MmSys UserMem FdTable Kernel Task.

(** ** [include/linux/signal.h] *)

Definition LINUX_NSIG : Z := 64.
Definition LINUX_SIGKILL : Z := 9.
Definition LINUX_SIGSEGV : Z := 11.
Definition LINUX_SIGSTOP : Z := 19.
Definition LINUX_SA_SIGINFO : Z := 0x00000004.
Definition LINUX_SA_RESTORER : Z := 0x04000000.
Definition LINUX_SA_ONSTACK : Z := 0x08000000.
Definition LINUX_SA_NOMASK : Z := 0x40000000.
Definition LINUX_SA_ONESHOT : Z := 0x80000000.
Definition LINUX_SIG_BLOCK : Z := 0.
Definition LINUX_SIG_UNBLOCK : Z := 1.
Definition LINUX_SIG_SETMASK : Z := 2.
Definition LINUX_MINSIGSTKSZ : Z := 2048.
Definition LINUX_SIG_DFL : Z := 0.
Definition LINUX_SIG_IGN : Z := 1.
Definition LINUX_SS_ONSTACK : Z := 1.
Definition LINUX_SS_DISABLE : Z := 2.
Definition LINUX_SS_AUTODISARM : Z := Z.shiftl 1 31.
Definition LINUX_UC_FP_XSTATE : Z := 0x1.
Definition LINUX_UC_SIGCONTEXT_SS : Z := 0x2.
Definition LINUX_UC_STRICT_RESTORE_SS : Z := 0x4.

(** Sizes and offsets of the structures, as the x86-64 ABI lays them out. *)
Definition sizeof_l_sigset : Z := 8.
Definition sizeof_l_sigaction : Z := 32.
Definition sizeof_l_stack : Z := 24.
Definition sizeof_l_rt_sigframe : Z := 440.
Definition offsetof_sf_sc : Z := 8.
Definition offsetof_sf_si : Z := 312.

(** [meta_strace_sigdeliver(sig)] of [meta_strace.c], in a state that may hold a trace file; a task alone holds none. *)
Class SigTrace (St : Type) := { sigdeliver : Z -> M St unit }.
#[global] Instance untraced_task : SigTrace tstate := {| sigdeliver _ := mret tt |}.

Section Signal.
Context `{OS} `{DarwinErrno} `{DarwinConst}.

(** ** The pending set *)

(** [1UL << (lsig - 1)] *)
Definition sigbit (lsig : Z) : Z := u64 (Z.shiftl 1 ((lsig - 1) mod 64)).
Definition SET_SIGBIT (sigbits lsig : Z) : Z := Z.lor sigbits (sigbit lsig).
Definition CLEAR_SIGBIT (sigbits lsig : Z) : Z := clearf sigbits (sigbit lsig).

Definition __host_signal_handler (signum : Z) : T unit :=
  modify (fun t => tset_sigpending (SET_SIGBIT (t_sigpending t) (darwin_to_linux_signal signum)) t).

Definition has_sigpending (t : tstate) : bool := negb (clearf (t_sigpending t) (t_sigmask t) =? 0).

(** [__builtin_ffs] takes an [int]. *)
Definition pop_signal : T Z :=
  t ← get;
  let pending := clearf (t_sigpending t) (t_sigmask t) in
  if pending =? 0 then mret 0
  else
    let sig := ffs pending in
    assert_ ((0 <? sig) && (sig <? 32));;
    modify (fun t => tset_sigpending (CLEAR_SIGBIT (t_sigpending t) sig) t);;
    mret sig.

(** ** The start of a process *)

Definition reset_sas : T unit := modify (tset_sas (mk_l_stack 0 LINUX_SS_DISABLE 0)).

(** The loop of [init_signal]; [sigaction] fails for numbers Darwin does not have
    and then leaves [oact] as it was. *)
Fixpoint init_actions (n : nat) (i : Z) : T (list l_sigaction) :=
  match n with
  | O => mret []
  | S n =>
    t ← get;
    r ← lk (hcall "sigaction" [HI (i + 1)]);
    let h := if h_ret r <? 0 then le_decode (take 8 (uninit (k_trace (t_kern t)))) else field (outbuf (h_out r) 0) 0 8 in
    assert_ ((h =? D "SIG_IGN") || (h =? D "SIG_DFL"));;
    rest ← init_actions n (i + 1);
    mret (mk_l_sigaction (if h =? D "SIG_IGN" then LINUX_SIG_IGN else LINUX_SIG_DFL) 0 0 0 :: rest)
  end.

Definition init_signal : T unit :=
  a ← init_actions (Z.to_nat LINUX_NSIG) 0;
  modify (tset_sigaction a);;
  t ← get;
  assert_ (t_nr_tasks t =? 1);;
  r ← lk (hcall "sigprocmask" [HI 0]);
  modify (tset_sigmask (darwin_to_linux_sigset (field (outbuf (h_out r) 0) 0 4)));;
  modify (tset_sigpending 0).

Definition action_at (i : Z) : T l_sigaction := t ← get; deref (if i <? 0 then None else t_sigaction t !! Z.to_nat i).
Definition set_action (i : Z) (a : l_sigaction) : T unit :=
  modify (fun t => tset_sigaction (<[Z.to_nat i := a]> (t_sigaction t)) t).

(** The arguments of [sigaction(sig, &act, NULL)] *)
Definition sigaction_args (dsig : Z) (a : sigaction) : list harg :=
  [HI dsig; HI (sa_handler a); HI (sa_flags a); HI (sa_mask a)].

(** The loop stops at the host's [NSIG] and gives the host the guest's number. *)
Fixpoint reset_actions (n : nat) (i : Z) : T unit :=
  match n with
  | O => mret tt
  | S n =>
    a ← action_at i;
    (if (lsa_handler a =? LINUX_SIG_DFL) || (lsa_handler a =? LINUX_SIG_IGN) then mret tt
     else
       let a := mk_l_sigaction LINUX_SIG_DFL 0 0 0 in
       set_action i a;;
       lk (hcall "sigaction" (sigaction_args (i + 1) (linux_to_darwin_sigaction a (D "SIG_DFL"))));;
       mret tt);;
    reset_actions n (i + 1)
  end.

Definition reset_signal_state : T unit := reset_actions (Z.to_nat (D "NSIG")) 0;; reset_sas.

(** ** Frames *)

(** The registers of [struct l_sigcontext] in the order of its fields, which is
    also the order in which they are saved and restored. *)
Definition context_regs : list reg :=
  [R8; R9; R10; R11; R12; R13; R14; R15; RDI; RSI; RBP; RBX; RDX; RAX; RCX; RSP; RIP; RFLAGS].
Definition context_segs : list reg := [CS; GS; FS; SS].

(** [struct l_sigcontext]; what is not set is what the stack held, [u]. *)
Definition sigcontext_fields (regs : reg -> Z) (mask : Z) (u : list Z) : list (nat * Z) :=
  ((fun r => (8%nat, regs r)) <$> context_regs) ++ ((fun r => (2%nat, regs r)) <$> context_segs) ++
  [(8%nat, field u 0 8); (8%nat, field u 8 8); (8%nat, mask); (8%nat, field u 16 8); (8%nat, field u 24 8); (64%nat, field u 32 64)].

Definition l_stack_fields (s : l_stack) (pad : Z) : list (nat * Z) :=
  [(8%nat, ss_sp s); (4%nat, ss_flags s); (4%nat, pad); (8%nat, ss_size s)].

(** [struct l_rt_sigframe] as [setup_sigframe] fills it. *)
Definition sigframe (t : tstate) (act : l_sigaction) (signum : Z) (u : list Z) : list Z :=
  enc ([(8%nat, lsa_restorer act);
        (8%nat, Z.lor (Z.lor LINUX_UC_FP_XSTATE LINUX_UC_SIGCONTEXT_SS) LINUX_UC_STRICT_RESTORE_SS); (8%nat, 0)] ++
       l_stack_fields (t_sas t) (field u 96 4) ++
       sigcontext_fields (t_regs t) (t_sigmask t) u ++
       [(8%nat, t_sigmask t); (4%nat, signum); (124%nat, 0)]).

Definition sas_ss_flags (t : tstate) (rsp : Z) : Z :=
  let s := t_sas t in
  if testf (ss_flags s) LINUX_SS_DISABLE || (ss_size s =? 0) then LINUX_SS_DISABLE
  else if (rsp >? ss_sp s) && (rsp - ss_sp s <? ss_size s) then Z.lor LINUX_SS_ONSTACK (ss_flags s)
  else ss_flags s.

(** [sigprocmask(SIG_SETMASK, &dset, NULL)] after [linux_to_darwin_sigset] *)
Definition host_setmask (call : string) (mask : Z) : T hres :=
  lk (hcall call [HI (D "SIG_SETMASK"); HI (linux_to_darwin_sigset mask)]).

Definition setup_sigframe (signum : Z) : T Z :=
  assert_ (signum <=? LINUX_NSIG);;
  rsp ← vmm_read_register RSP;
  act ← action_at (signum - 1);
  t ← get;
  let rsp := if testf (lsa_flags act) LINUX_SA_ONSTACK && (clearf (u32 (sas_ss_flags t rsp)) LINUX_SS_AUTODISARM =? 0)
             then u64 (ss_sp (t_sas t) + ss_size (t_sas t)) else rsp in
  if negb (testf (lsa_flags act) LINUX_SA_RESTORER) then mret (- LINUX_EFAULT)
  else
    let frame := sigframe t act signum (uninit (k_trace (t_kern t))) in
    when_ (testf (ss_flags (t_sas t)) LINUX_SS_AUTODISARM) reset_sas;;
    let newmask := if negb (testf (lsa_flags act) LINUX_SA_NOMASK) then LINUX_SIGADDSET (lsa_mask act) signum else lsa_mask act in
    modify (tset_sigmask newmask);;
    host_setmask "sigprocmask" newmask;;
    let rsp := u64 (rsp - sizeof_l_rt_sigframe) in
    vmm_write_register RSP rsp;;
    e ← lk (k_copy_to_user rsp frame);
    if negb (e =? 0) then mret (- LINUX_EFAULT)
    else
      vmm_write_register RDI signum;;
      vmm_write_register RSI (rsp + offsetof_sf_si);;
      vmm_write_register RDX (rsp + offsetof_sf_sc);;
      vmm_write_register RAX 0;;
      vmm_write_register RIP (lsa_handler act);;
      mret 0.

(** [die_with_forcedsig] ([src/main.c]): the signal ends the process. *)
Definition die_with_forcedsig {A} (sig : Z) : T A :=
  let dsig := linux_to_darwin_signal sig in
  lk (hcall "sigprocmask" [HI (D "SIG_SETMASK"); HI (clearf (u32 (-1)) (Z.shiftl 1 (dsig - 1)))]);;
  lk (hcall "sigaction" [HI dsig; HI (D "SIG_DFL"); HI 0]);;
  lk (hcall "raise" [HI dsig]);;
  halt AssertFail.

(** The loop of [wake_sighandler], in a state that has a task and what [meta_strace_sigdeliver] writes to:
    64 bits can be pending at most. *)
Fixpoint wake_sighandler_loop {St} `{HasTask St} `{SigTrace St} (fuel : nat) : M St unit :=
  match fuel with
  | O => halt Diverge
  | S fuel =>
    sig ← on_task pop_signal;
    if sig =? 0 then mret tt
    else
      sigdeliver sig;;
      act ← on_task (action_at (sig - 1));
      if (lsa_handler act =? LINUX_SIG_DFL) || (lsa_handler act =? LINUX_SIG_IGN) then wake_sighandler_loop fuel
      else
        on_task (
          r ← setup_sigframe sig;
          if r <? 0 then die_with_forcedsig LINUX_SIGSEGV
          else
            when_ (testf (lsa_flags act) LINUX_SA_ONESHOT)
              (set_action (sig - 1) (mk_l_sigaction LINUX_SIG_DFL (lsa_flags act) (lsa_restorer act) (lsa_mask act))))
  end.

Definition wake_sighandler {St} `{HasTask St} `{SigTrace St} : M St unit := wake_sighandler_loop 65.

(** ** System calls *)

Definition sys_alarm (seconds : Z) : T Z := lk (sysw "alarm" [HI seconds]).

Definition l_sigaction_bytes (a : l_sigaction) : list Z :=
  enc [(8%nat, lsa_handler a); (8%nat, lsa_flags a); (8%nat, lsa_restorer a); (8%nat, lsa_mask a)].

(** [if (copy_from_user(...)) return -LINUX_EFAULT;] and the rest. *)
Definition t_copy_in (ptr n : Z) (rest : list Z -> T Z) : T Z :=
  '(e, bs) ← lk (k_copy_from_user ptr n);
  if negb (e =? 0) then mret (- LINUX_EFAULT) else rest bs.
(** [if (ptr != 0 && copy_to_user(...)) return -LINUX_EFAULT;] and the rest. *)
Definition t_copy_out (ptr : Z) (bs : list Z) (rest : T Z) : T Z :=
  e ← (if negb (ptr =? 0) then lk (k_copy_to_user ptr bs) else mret 0);
  if negb (e =? 0) then mret (- LINUX_EFAULT) else rest.

Definition sys_rt_sigaction (sig act oact size : Z) : T Z :=
  if (sig <=? 0) || (sig >? LINUX_NSIG) || (sig =? LINUX_SIGKILL) || (sig =? LINUX_SIGSTOP) || negb (size =? sizeof_l_sigset)
  then mret (- LINUX_EINVAL)
  else
    old ← action_at (sig - 1);
    t_copy_out oact (l_sigaction_bytes old)
      (if act =? 0 then mret 0
       else t_copy_in act sizeof_l_sigaction (fun bs =>
         let dflt := (field bs 0 8 =? LINUX_SIG_DFL) || (field bs 0 8 =? LINUX_SIG_IGN) in
         let lact := mk_l_sigaction (field bs 0 8) (if dflt then field bs 8 8 else Z.lor (field bs 8 8) LINUX_SA_SIGINFO)
                       (field bs 16 8) (field bs 24 8) in
         let handler := if dflt then (if lsa_handler lact =? LINUX_SIG_DFL then D "SIG_DFL" else D "SIG_IGN")
                        else D "__host_signal_handler" in
         err ← lk (sysw "sigaction" (sigaction_args (linux_to_darwin_signal sig) (linux_to_darwin_sigaction lact handler)));
         when_ (err >=? 0) (set_action (sig - 1) lact);;
         mret err)).

Definition LINUX_SIGDELSET_KS (m : Z) : Z := LINUX_SIGDELSET (LINUX_SIGDELSET m LINUX_SIGKILL) LINUX_SIGSTOP.

Definition sys_rt_sigprocmask (how nset oset size : Z) : T Z :=
  if negb (size =? sizeof_l_sigset) then mret (- LINUX_EINVAL)
  else
    t ← get;
    t_copy_out oset (le_encode 8 (t_sigmask t))
      (if nset =? 0 then mret 0
       else t_copy_in nset sizeof_l_sigset (fun bs =>
         let lset := LINUX_SIGDELSET_KS (le_decode bs) in
         let go m :=
           modify (tset_sigmask m);;
           r ← host_setmask "pthread_sigmask" m;
           let err := syswrap (h_ret r) (h_errno r) in
           mret (if err <? 0 then err else 0) in
         if how =? LINUX_SIG_BLOCK then go (Z.lor (t_sigmask t) lset)
         else if how =? LINUX_SIG_UNBLOCK then go (clearf (t_sigmask t) lset)
         else if how =? LINUX_SIG_SETMASK then go lset
         else mret (- LINUX_EINVAL))).

(** [rt_sigsuspend] up to its wait: an error, or the two masks to put back, the
    guest's and the host's. *)
Definition rt_sigsuspend_begin (nset size : Z) : T (flow (Z * list Z)) :=
  if negb (size =? sizeof_l_sigset) then mret (Ret (- LINUX_EINVAL))
  else
    t ← get;
    '(e, bs) ← lk (k_copy_from_user nset sizeof_l_sigset);
    if negb (e =? 0) then mret (Ret (- LINUX_EFAULT))
    else
      let lnset := LINUX_SIGDELSET_KS (le_decode bs) in
      r ← host_setmask "pthread_sigmask" lnset;
      modify (tset_sigmask lnset);;
      mret (Go (t_sigmask t, outbuf (h_out r) 0)).
(** Its end, when a signal was handled. *)
Definition rt_sigsuspend_end (old : Z * list Z) : T Z :=
  lk (hcall "pthread_sigmask" [HI (D "SIG_SETMASK"); HB old.2]);;
  modify (tset_sigmask old.1);;
  mret (- LINUX_EINTR).

Definition sys_rt_sigpending (set size : Z) : T Z :=
  if size >? sizeof_l_sigset then mret (- LINUX_EINVAL)
  else
    t ← get;
    e ← lk (k_copy_to_user set (take (Z.to_nat size) (le_encode 8 (t_sigpending t))));
    mret (if e >? 0 then - LINUX_EFAULT else 0).

(** [restore_sigcontext] on the bytes of a frame, [uc_mcontext] at 48. *)
Definition restore_sigcontext (frame : list Z) : T unit :=
  modify (fun t => tset_regs (foldl (fun f p => upd_reg p.1 p.2 f) (t_regs t)
    (imap (fun i r => (r, field frame (48 + 8 * i) 8)) context_regs ++
     imap (fun i r => (r, field frame (192 + 2 * i) 2)) context_segs)) t).

Definition sys_rt_sigreturn : T Z :=
  rsp ← vmm_read_register RSP;
  '(e, frame) ← lk (k_copy_from_user (u64 (rsp - 8)) sizeof_l_rt_sigframe);
  if negb (e =? 0) then die_with_forcedsig LINUX_SIGSEGV
  else
    restore_sigcontext frame;;
    let mask := field frame 216 8 in
    modify (tset_sigmask mask);;
    host_setmask "sigprocmask" mask;;
    rip ← vmm_read_register RIP;
    vmm_write_register RIP (rip - 2);;
    vmm_read_register RAX.

Definition sys_sigaltstack (uss uoss : Z) : T Z :=
  rsp ← vmm_read_register RSP;
  t ← get;
  let oss := mk_l_stack (ss_sp (t_sas t)) (sas_ss_flags t rsp) (ss_size (t_sas t)) in
  t_copy_out uoss (enc (l_stack_fields oss (field (uninit (k_trace (t_kern t))) 0 4)))
    (if uss =? 0 then mret 0
     else if testf (ss_flags oss) LINUX_SS_ONSTACK then mret (- LINUX_EPERM)
     else t_copy_in uss sizeof_l_stack (fun bs =>
       let ss := mk_l_stack (field bs 0 8) (s32 (field bs 8 4)) (field bs 16 8) in
       if ss_size ss <? LINUX_MINSIGSTKSZ then mret (- LINUX_ENOMEM)
       else
         let mode := s32 (clearf (u32 (ss_flags ss)) LINUX_SS_AUTODISARM) in
         if negb (mode =? D "SS_DISABLE") && negb (mode =? D "SS_ONSTACK") && negb (mode =? 0) then mret (- LINUX_EINVAL)
         else modify (tset_sas ss);; mret 0)).

Definition sys_kill (pid sig : Z) : T Z := send_signal pid sig.

End Signal.

(** ** Fields of encoded structures *)

Definition width (fs : list (nat * Z)) : nat := sum_list (fst <$> fs).

Lemma enc_app fs1 fs2 : enc (fs1 ++ fs2) = enc fs1 ++ enc fs2.
Proof. apply bind_app. Qed.

Lemma enc_cons n v fs : enc ((n, v) :: fs) = le_encode n v ++ enc fs.
Proof. done. Qed.

Lemma enc_length fs : length (enc fs) = width fs.
Proof.
  unfold width. induction fs as [|[n v] fs IH]; [done|]. rewrite enc_cons, length_app, IH, le_encode_length. done.
Qed.

(** A field that fits its width is read back. *)
Lemma field_enc fs j n v : fs !! j = Some (n, v) -> 0 <= v < 256 ^ Z.of_nat n ->
  field (enc fs) (width (take j fs)) n = v.
Proof.
  intros E Hv. rewrite <- (take_drop_middle fs j (n, v) E) at 1. rewrite enc_app. unfold field.
  rewrite drop_app_length' by (by rewrite enc_length). rewrite enc_cons.
  rewrite take_app_length' by (by rewrite le_encode_length). by apply le_decode_encode.
Qed.

(** ** What a handler gives back *)

Section Frame.
Context `{OS} `{DarwinErrno} `{DarwinConst}.

(** Values a register, a segment selector and a mask can have. *)
Definition cpu_ok (t : tstate) : Prop :=
  Forall (fun r => 0 <= t_regs t r < 2 ^ 64) context_regs /\ Forall (fun r => 0 <= t_regs t r < 2 ^ 16) context_segs /\
  0 <= t_sigmask t < 2 ^ 64.

Lemma sigframe_length t act sig u : length (sigframe t act sig u) = 440%nat.
Proof. unfold sigframe. rewrite enc_length. reflexivity. Qed.

(** The fields of the frame the return reads. *)
Lemma sigframe_fields t act sig u : cpu_ok t ->
  Forall (fun p => field (sigframe t act sig u) p.1 8 = t_regs t p.2) (imap (fun i r => ((48 + 8 * i)%nat, r)) context_regs) /\
  Forall (fun p => field (sigframe t act sig u) p.1 2 = t_regs t p.2) (imap (fun i r => ((192 + 2 * i)%nat, r)) context_segs) /\
  field (sigframe t act sig u) 216 8 = t_sigmask t.
Proof.
  intros (Hr & Hs & Hm). unfold sigframe. set (L := _ ++ _).
  assert (forall j n v off, L !! j = Some (n, v) -> width (take j L) = off -> 0 <= v < 256 ^ Z.of_nat n -> field (enc L) off n = v) as Hf.
  { intros j n v off E <- Hv. by apply field_enc. }
  unfold context_regs, context_segs in Hr, Hs. rewrite !Forall_cons in Hr. rewrite !Forall_cons in Hs.
  split; [|split].
  - unfold context_regs. cbn [imap]. unfold compose. repeat apply Forall_cons_2; [..|apply Forall_nil_2]; cbn [fst snd Nat.add Nat.mul].
    1: apply (Hf 7%nat). 4: apply (Hf 8%nat). 7: apply (Hf 9%nat). 10: apply (Hf 10%nat). 13: apply (Hf 11%nat).
    16: apply (Hf 12%nat). 19: apply (Hf 13%nat). 22: apply (Hf 14%nat). 25: apply (Hf 15%nat). 28: apply (Hf 16%nat).
    31: apply (Hf 17%nat). 34: apply (Hf 18%nat). 37: apply (Hf 19%nat). 40: apply (Hf 20%nat). 43: apply (Hf 21%nat).
    46: apply (Hf 22%nat). 49: apply (Hf 23%nat). 52: apply (Hf 24%nat).
    all: try reflexivity; change (256 ^ Z.of_nat 8) with (2 ^ 64); tauto.
  - unfold context_segs. cbn [imap]. unfold compose. repeat apply Forall_cons_2; [..|apply Forall_nil_2]; cbn [fst snd Nat.add Nat.mul].
    1: apply (Hf 25%nat). 4: apply (Hf 26%nat). 7: apply (Hf 27%nat). 10: apply (Hf 28%nat).
    all: try reflexivity; change (256 ^ Z.of_nat 2) with (2 ^ 16); tauto.
  - apply (Hf 31%nat); try reflexivity. change (256 ^ Z.of_nat 8) with (2 ^ 64). lia.
Qed.

(** [restore_sigcontext] puts every register back. *)
Lemma restore_regs t0 act sig u f : cpu_ok t0 ->
  Forall (fun r => foldl (fun f p => upd_reg p.1 p.2 f) f
    (imap (fun i r => (r, field (sigframe t0 act sig u) (48 + 8 * i) 8)) context_regs ++
     imap (fun i r => (r, field (sigframe t0 act sig u) (192 + 2 * i) 2)) context_segs) r = t_regs t0 r) (context_regs ++ context_segs).
Proof.
  intros Hc. destruct (sigframe_fields t0 act sig u Hc) as (Hr & Hs & _). set (fr := sigframe t0 act sig u) in *. clearbody fr.
  unfold context_regs, context_segs in Hr, Hs. cbn [imap] in Hr, Hs. unfold compose in Hr, Hs. rewrite !Forall_cons in Hr. rewrite !Forall_cons in Hs. cbn [fst snd Nat.add Nat.mul] in Hr, Hs.
  unfold context_regs, context_segs. cbn [imap app]. unfold compose. cbn [Nat.add Nat.mul]. repeat apply Forall_cons_2; [..|apply Forall_nil_2].
  all: etransitivity; [lazy [foldl fst snd upd_reg decide decide_rel]; reflexivity|]; cbv beta; tauto.
Qed.

(** Where the frame of a signal goes. *)
Definition frame_addr (t : tstate) (act : l_sigaction) : Z :=
  (if testf (lsa_flags act) LINUX_SA_ONSTACK && (clearf (u32 (sas_ss_flags t (t_regs t RSP))) LINUX_SS_AUTODISARM =? 0)
   then u64 (ss_sp (t_sas t) + ss_size (t_sas t)) else t_regs t RSP) - sizeof_l_rt_sigframe.

Definition t_um (t : tstate) : umem := k_um (t_kern t).

(** The guest's buffer is mapped, to distinct bytes of the host. *)
Definition buffer_ok (u : umem) (a n : Z) : Prop :=
  umem_ok u /\ 0 <= a /\ a + n < 2 ^ 64 - 4096 /\
  (forall i, 0 <= i < n -> is_Some (translate u (a + i))) /\
  (forall i j, 0 <= i < j -> j < n -> translate u (a + i) <> translate u (a + j)).

Lemma buffer_sub u a n b m : buffer_ok u a n -> a <= b -> b + m <= a + n -> buffer_ok u b m.
Proof.
  intros (Hu & Ha & Hb & Hm & Hi) Hab Hbm. split_and!; try done; try lia.
  - intros i Hr. replace (b + i) with (a + (b - a + i)) by lia. apply Hm. lia.
  - intros i j Hij Hj. replace (b + i) with (a + (b - a + i)) by lia. replace (b + j) with (a + (b - a + j)) by lia. apply Hi; lia.
Qed.

Lemma user_write_mm bs : forall u a, u_mm (user_write u a bs) = u_mm u /\ u_vkern (user_write u a bs) = u_vkern u.
Proof.
  induction bs as [|b bs IH]; intros u a; cbn [user_write]; [done|]. destruct (translate u a); [|done]. apply (IH (set_hmem _ u)).
Qed.

(** [copy_to_user] into such a buffer. *)
Lemma lk_copy_to_ok t a bs : buffer_ok (t_um t) a (Z.of_nat (length bs)) ->
  exists u, lk (k_copy_to_user a bs) t = Done 0 (tset_kern (set_um u (t_kern t)) t) /\
  user_bytes u a (length bs) = bs /\ (forall b, translate u b = translate (t_um t) b) /\ umem_ok u /\
  (forall h, (forall i, 0 <= i < Z.of_nat (length bs) -> translate (t_um t) (a + i) <> Some h) -> hmem u h = hmem (t_um t) h) /\
  u_mm u = u_mm (t_um t) /\ u_vkern u = u_vkern (t_um t).
Proof.
  intros (Hu & Ha & Hb & Hm & Hi). destruct (user_write_bytes (t_um t) a bs Hm Hi) as (W1 & W2 & W3).
  destruct (user_write_mm bs (t_um t) a) as [M1 M2].
  exists (user_write (t_um t) a bs). split_and!; try done.
  - apply lk_Done. rewrite k_copy_to_user_ok by done. f_equal. fold (t_um t).
    enough (user_mapped (t_um t) a (length bs) = length bs) by lia.
    assert (forall n b, user_mapped (user_write (t_um t) a bs) b n = user_mapped (t_um t) b n) as Hmap.
    { induction n as [|n IH]; intros b; cbn [user_mapped]; [done|]. by rewrite W3, IH. }
    rewrite <- Hmap, <- user_bytes_length. by rewrite W1.
  - unfold umem_ok in *. by rewrite M1, M2.
Qed.

Lemma action_ok t i act : 0 <= i -> t_sigaction t !! Z.to_nat i = Some act -> action_at i t = Done act t.
Proof. intros Hi E. unfold action_at. msimp. destruct (Z.ltb_spec i 0); [lia|]. by rewrite E. Qed.

(** The state in which a handler starts. *)
Lemma setup_sigframe_ok t signum act : 1 <= signum <= LINUX_NSIG -> t_sigaction t !! Z.to_nat (signum - 1) = Some act ->
  testf (lsa_flags act) LINUX_SA_RESTORER = true -> buffer_ok (t_um t) (frame_addr t act) sizeof_l_rt_sigframe ->
  exists t1, setup_sigframe signum t = Done 0 t1 /\
    user_bytes (t_um t1) (frame_addr t act) 440 = sigframe t act signum (uninit (k_trace (t_kern t))) /\
    (forall b, translate (t_um t1) b = translate (t_um t) b) /\ umem_ok (t_um t1) /\
    t_regs t1 RIP = u64 (lsa_handler act) /\ t_regs t1 RSP = frame_addr t act /\ t_regs t1 RDI = signum /\
    t_regs t1 RSI = frame_addr t act + offsetof_sf_si /\ t_regs t1 RDX = frame_addr t act + offsetof_sf_sc /\
    t_sigmask t1 = (if negb (testf (lsa_flags act) LINUX_SA_NOMASK) then LINUX_SIGADDSET (lsa_mask act) signum else lsa_mask act) /\
    t_sigaction t1 = t_sigaction t.
Proof.
  intros Hs Ea Hr Hb. pose proof Hb as (_ & Hb0 & Hb1 & _). unfold sizeof_l_rt_sigframe in Hb1.
  set (frame := sigframe t act signum (uninit (k_trace (t_kern t)))).
  assert (Z.of_nat (length frame) = 440) as Hlen by (unfold frame; by rewrite sigframe_length).
  unfold setup_sigframe. destruct (Z.leb_spec signum LINUX_NSIG); [|unfold LINUX_NSIG in *; lia].
  erewrite bind_Done by reflexivity. erewrite bind_Done by reflexivity.
  erewrite bind_Done by (apply action_ok; [lia|done]). erewrite bind_Done by reflexivity. rewrite Hr. cbn [negb].
  set (mask := if negb _ then _ else _).
  set (t' := tset_sigmask mask (if testf (ss_flags (t_sas t)) LINUX_SS_AUTODISARM then tset_sas (mk_l_stack 0 LINUX_SS_DISABLE 0) t else t)).
  assert ((when_ (testf (ss_flags (t_sas t)) LINUX_SS_AUTODISARM) reset_sas;; modify (tset_sigmask mask)) t = Done tt t') as E1.
  { unfold t'. by destruct (testf (ss_flags (t_sas t)) LINUX_SS_AUTODISARM). }
  assert (t_regs t' = t_regs t /\ t_sigmask t' = mask /\ t_sigaction t' = t_sigaction t /\ t_kern t' = t_kern t) as (F1 & F2 & F3 & F4).
  { unfold t'. by destruct (testf (ss_flags (t_sas t)) LINUX_SS_AUTODISARM). }
  set (rsp := if _ && _ then _ else _). assert (u64 (rsp - sizeof_l_rt_sigframe) = frame_addr t act) as Ersp.
  { assert (frame_addr t act = rsp - sizeof_l_rt_sigframe) as -> by reflexivity. apply wrap_small.
    assert (frame_addr t act = rsp - sizeof_l_rt_sigframe) as Ef by reflexivity. unfold sizeof_l_rt_sigframe in *. lia. }
  rewrite Ersp. set (fa := frame_addr t act) in *.
  set (t2 := tset_regs (upd_reg RSP (u64 fa) (t_regs t'))
    (tset_kern (add_event (mk_event "sigprocmask" [HI (D "SIG_SETMASK"); HI (linux_to_darwin_sigset mask)]
      (os (k_trace (t_kern t')) "sigprocmask" [HI (D "SIG_SETMASK"); HI (linux_to_darwin_sigset mask)])) (t_kern t')) t')).
  destruct (lk_copy_to_ok t2 fa frame) as (u & Ec & Eu & Et & Hu & _).
  { unfold t_um. cbn [t2 t_kern tset_regs tset_kern add_event k_um]. rewrite F4, Hlen. exact Hb. }
  eexists. split.
  { etransitivity; [|reflexivity]. unfold mbind at 1, M_bind at 1. revert E1. unfold mbind at 1, M_bind at 1.
    destruct (when_ _ _ t) as [[] t1'|]; [|done]. intros E1. erewrite bind_Done by exact E1.
    erewrite bind_Done by reflexivity. erewrite bind_Done by reflexivity. fold t2. erewrite bind_Done by exact Ec. reflexivity. }
  unfold t_um. cbn [t_kern t_regs t_sigmask t_sigaction tset_kern tset_regs set_um k_um t2].
  rewrite (wrap_small 64 fa) by lia.
  split; [rewrite <- Eu; f_equal; unfold frame; by rewrite sigframe_length|].
  split; [intros b; rewrite Et; unfold t_um; cbn [t2 t_kern tset_regs tset_kern add_event k_um]; by rewrite F4|]. split; [done|].
  assert (LINUX_NSIG = 64) by done. unfold offsetof_sf_si, offsetof_sf_sc.
  repeat split; unfold upd_reg; repeat (rewrite decide_True by done || rewrite decide_False by done);
    try (apply wrap_small; lia); done.
Qed.

Lemma rax_saved : RAX ∈ context_regs.
Proof. by apply (bool_decide_unpack _). Qed.
Lemma rip_saved : RIP ∈ context_regs.
Proof. by apply (bool_decide_unpack _). Qed.

(** [rt_sigreturn] on a frame that [setup_sigframe] wrote. *)
Lemma sigreturn_ok t0 act sig u t2 fa : cpu_ok t0 -> umem_ok (t_um t2) -> 0 <= fa -> fa + 440 < 2 ^ 64 - 4096 ->
  t_regs t2 RSP = fa + 8 -> user_bytes (t_um t2) fa 440 = sigframe t0 act sig u ->
  exists t3, sys_rt_sigreturn t2 = Done (t_regs t0 RAX) t3 /\ t_um t3 = t_um t2 /\ t_sigmask t3 = t_sigmask t0 /\
    t_regs t3 RIP = u64 (t_regs t0 RIP - 2) /\
    Forall (fun r => r <> RIP -> t_regs t3 r = t_regs t0 r) (context_regs ++ context_segs).
Proof.
  intros Hc Hu Hfa Hfb Hsp Hbs. set (fr := sigframe t0 act sig u) in *.
  assert (length fr = 440%nat) as Hlen by apply sigframe_length.
  unfold sys_rt_sigreturn. erewrite bind_Done by reflexivity. rewrite Hsp.
  replace (fa + 8 - 8) with fa by lia. rewrite wrap_small by lia.
  assert (lk (k_copy_from_user fa sizeof_l_rt_sigframe) t2 = Done (0, fr) t2) as Ec.
  { etransitivity; [apply lk_Done|].
    - apply (k_copy_from_user_ok (t_kern t2) fa sizeof_l_rt_sigframe); [exact Hu|done|done|exact Hfb].
    - change (Z.to_nat sizeof_l_rt_sigframe) with 440%nat. fold (t_um t2). rewrite Hbs, Hlen. by destruct t2. }
  erewrite bind_Done by exact Ec. cbn [Z.eqb negb].
  pose proof (restore_regs t0 act sig u (t_regs t2) Hc) as Hr. destruct (sigframe_fields t0 act sig u Hc) as (_ & _ & Hm).
  fold fr in Hr, Hm. unfold restore_sigcontext. set (f := foldl _ _ _) in Hr. rewrite Forall_forall in Hr.
  eexists. split.
  { erewrite bind_Done by reflexivity. erewrite bind_Done by reflexivity. erewrite bind_Done by reflexivity.
    erewrite bind_Done by reflexivity. erewrite bind_Done by reflexivity. unfold vmm_read_register. msimp.
    cbn [t_regs tset_regs tset_sigmask tset_kern]. fold f. rewrite upd_reg_ne by done. f_equal. apply Hr, elem_of_app. left. apply rax_saved. }
  split; [done|]. split; [exact Hm|]. cbn [t_regs tset_regs tset_sigmask tset_kern]. fold f. split.
  - rewrite upd_reg_eq. do 2 f_equal. apply Hr, elem_of_app. left. apply rip_saved.
  - apply Forall_forall. intros r Hin Hne. rewrite upd_reg_ne by done. by apply Hr.
Qed.

(** The guest's way from the start of a handler to its return: registers, memory
    and the kernel's state may change in any way, but the handler returns with the
    stack pointer it got (the return address popped) and has not written to the
    frame. *)
Definition handler_ran (fa : Z) (t1 t2 : tstate) : Prop :=
  t_regs t2 RSP = fa + 8 /\ t_regs t2 RAX = LSYS_rt_sigreturn /\ umem_ok (t_um t2) /\
  user_bytes (t_um t2) fa 440 = user_bytes (t_um t1) fa 440.

(** A signal handler gives back the registers and the mask that its frame saved.  When a
    signal with a handler is delivered, the handler starts with the signal's
    number and the addresses of its information and context as arguments, with the
    restorer as its return address and the mask of its action; and whatever it does
    short of writing to its frame, the [rt_sigreturn] it ends with, from the entry
    of the system call to the next instruction of the guest, gives every register
    and segment selector and the signal mask the values they had before. *)
Theorem sigframe_roundtrip {S} `{HasTaskOk S} t signum act (tbl : sc_table S) h fa :
  fa = frame_addr t act -> cpu_ok t -> 1 <= signum <= LINUX_NSIG -> t_sigaction t !! Z.to_nat (signum - 1) = Some act ->
  0 <= lsa_restorer act < 2 ^ 64 -> testf (lsa_flags act) LINUX_SA_RESTORER = true ->
  buffer_ok (t_um t) fa sizeof_l_rt_sigframe -> tbl LSYS_rt_sigreturn = Some h ->
  (forall a1 a2 a3 a4 a5 a6, runs_as (h a1 a2 a3 a4 a5 a6) sys_rt_sigreturn) ->
  exists t1, setup_sigframe signum t = Done 0 t1 /\
  (t_regs t1 RIP = u64 (lsa_handler act) /\ t_regs t1 RSP = fa /\ t_regs t1 RDI = signum /\
   t_regs t1 RSI = fa + offsetof_sf_si /\ t_regs t1 RDX = fa + offsetof_sf_sc /\
   field (user_bytes (t_um t1) fa 440) 0 8 = lsa_restorer act /\
   t_sigmask t1 = (if negb (testf (lsa_flags act) LINUX_SA_NOMASK) then LINUX_SIGADDSET (lsa_mask act) signum else lsa_mask act)) /\
  forall s2, handler_ran fa t1 (task_of s2) ->
  exists s3, syscall_exit tbl true s2 = Done true s3 /\
    Forall (fun r => t_regs (task_of s3) r = t_regs t r) (context_regs ++ context_segs) /\
    t_sigmask (task_of s3) = t_sigmask t /\ t_um (task_of s3) = t_um (task_of s2).
Proof.
  intros -> Hc Hs Ea Hres Hr Hb Ht Hh. pose proof Hb as (_ & Hb0 & Hb1 & _). unfold sizeof_l_rt_sigframe in Hb1.
  destruct (setup_sigframe_ok t signum act Hs Ea Hr Hb) as (t1 & E & Eb & Et & Hu & R1 & R2 & R3 & R4 & R5 & Rm & _).
  exists t1. split; [done|]. split.
  { repeat split; try done. rewrite Eb. unfold sigframe. set (L := _ ++ _).
    apply (field_enc L 0 8 (lsa_restorer act)); [reflexivity|]. exact Hres. }
  intros s2 (Hsp & Hax & Hu2 & Hfr). rewrite Eb in Hfr.
  destruct (sigreturn_ok t act signum _ (task_of s2) (frame_addr t act) Hc Hu2 Hb0 Hb1 Hsp Hfr) as (t3 & E3 & Um & Sm & Rip & Rs).
  assert (0 <= t_regs t RAX < 2 ^ 64 /\ 0 <= t_regs t RIP < 2 ^ 64) as [Xax Xip].
  { destruct Hc as [Hc _]. rewrite Forall_forall in Hc. split; apply Hc; [apply rax_saved|apply rip_saved]. }
  destruct (Hh (t_regs (task_of s2) RDI) (t_regs (task_of s2) RSI) (t_regs (task_of s2) RDX) (t_regs (task_of s2) R10)
    (t_regs (task_of s2) R8) (t_regs (task_of s2) R9) s2 _ _ E3) as (s4 & E4 & T4).
  exists (set_task (sysret (t_regs t RAX) t3) s4). split.
  { rewrite (syscall_exit_run tbl true s2 h (t_regs t RAX) s4); rewrite ?Hax; try done. by rewrite T4. }
  rewrite task_of_set.
  unfold sysret.
  cbn [t_regs tset_regs t_sigmask t_kern]. split; [|split; [done|exact Um]].
  rewrite Forall_forall in Rs. apply Forall_forall. intros r Hin. rewrite (wrap_small 64 (t_regs t RAX)) by done.
  destruct (decide (r = RIP)) as [->|Hip].
  - rewrite upd_reg_eq, upd_reg_ne, Rip by done. unfold wrap. rewrite Zplus_mod_idemp_l. replace (t_regs t RIP - 2 + 2) with (t_regs t RIP) by lia.
    by apply Z.mod_small.
  - rewrite upd_reg_ne by done. unfold upd_reg. case_decide as Hra; [by subst r|]. by apply Rs.
Qed.

(** ** Which signal is delivered *)

(** Pending, not blocked, and with a handler of the guest. *)
Definition deliverable (t : tstate) (s : Z) : Prop :=
  1 <= s /\ Z.testbit (t_sigpending t) (s - 1) = true /\ Z.testbit (t_sigmask t) (s - 1) = false.
Definition handled (t : tstate) (s : Z) : Prop :=
  exists act, t_sigaction t !! Z.to_nat (s - 1) = Some act /\ lsa_handler act <> LINUX_SIG_DFL /\ lsa_handler act <> LINUX_SIG_IGN.

(** The pending set without the unblocked signals up to [k]. *)
Definition drop_upto (t : tstate) (k : Z) : tstate :=
  tset_sigpending (clearf (t_sigpending t) (clearf (Z.ones k) (t_sigmask t))) t.

(** What follows when [sig] was chosen. *)
Definition deliver (sig : Z) : T unit :=
  act ← action_at (sig - 1);
  r ← setup_sigframe sig;
  if r <? 0 then die_with_forcedsig LINUX_SIGSEGV
  else
    when_ (testf (lsa_flags act) LINUX_SA_ONESHOT)
      (set_action (sig - 1) (mk_l_sigaction LINUX_SIG_DFL (lsa_flags act) (lsa_restorer act) (lsa_mask act))).

Lemma sigbit_small s : 1 <= s <= 64 -> sigbit s = 2 ^ (s - 1).
Proof.
  intros Hs. unfold sigbit. rewrite (Z.mod_small (s - 1)) by lia. rewrite Z.shiftl_1_l. apply wrap_small.
  split; [lia|]. apply Z.pow_lt_mono_r; lia.
Qed.

Lemma drop_upto_bit t k i : 0 <= k -> 0 <= i ->
  Z.testbit (t_sigpending (drop_upto t k)) i = Z.testbit (t_sigpending t) i && negb ((i <? k) && negb (Z.testbit (t_sigmask t) i)).
Proof.
  intros Hk Hi. unfold drop_upto, clearf. cbn [t_sigpending tset_sigpending]. rewrite !Z.ldiff_spec.
  destruct (Z.ltb_spec i k); [rewrite Z.ones_spec_low by lia; done|rewrite Z.ones_spec_high by lia; done].
Qed.

Lemma drop_upto_eq t k p : 0 <= k -> 0 <= t_sigpending t -> 0 <= p ->
  (forall i, 0 <= i -> Z.testbit p i = Z.testbit (t_sigpending t) i && negb ((i <? k) && negb (Z.testbit (t_sigmask t) i))) ->
  drop_upto t k = tset_sigpending p t.
Proof.
  intros Hk Ht Hp Hb. unfold drop_upto. f_equal. apply Z.bits_inj'. intros i Hi. rewrite Hb by done.
  by rewrite <- (drop_upto_bit t k i).
Qed.

(** One [pop_signal]: the least unblocked pending signal above [k]. *)
Lemma pop_signal_ok t k : 0 <= k -> 0 <= t_sigpending t -> (forall s, deliverable t s -> s < 32) ->
  (pop_signal (drop_upto t k) = Done 0 (drop_upto t k) /\ forall s, deliverable t s -> s <= k) \/
  exists s, k < s < 32 /\ deliverable t s /\ (forall s', k < s' < s -> ~ deliverable t s') /\
    pop_signal (drop_upto t k) = Done s (drop_upto t s).
Proof.
  intros Hk Hp Hsm. set (x := clearf (t_sigpending (drop_upto t k)) (t_sigmask t)).
  assert (forall s, 1 <= s -> Z.testbit x (s - 1) = true <-> k < s /\ deliverable t s) as Hx.
  { intros s Hs. unfold x, clearf. rewrite Z.ldiff_spec, drop_upto_bit by lia. unfold deliverable.
    destruct (Z.testbit (t_sigpending t) (s - 1)), (Z.testbit (t_sigmask t) (s - 1)), (Z.ltb_spec (s - 1) k); cbn;
      split; intros; try done; try lia; destruct_and?; try done; split_and!; try done; lia. }
  assert (0 <= x) as Hx0.
  { unfold x, drop_upto, clearf. cbn [t_sigpending tset_sigpending]. apply Z.ldiff_nonneg. left. apply Z.ldiff_nonneg. by left. }
  unfold pop_signal. erewrite bind_Done by reflexivity. cbn [t_sigmask drop_upto tset_sigpending]. fold (drop_upto t k).
  change (t_sigpending (tset_sigpending ?p t)) with p. fold x.
  destruct (Z.eqb_spec x 0) as [E0|E0].
  { left. split; [done|]. intros s Hs. destruct (Z.le_gt_cases s k) as [|Hgt]; [done|].
    pose proof Hs as [Hs1 _]. assert (Z.testbit x (s - 1) = true) as Hb by (by apply Hx; [|split]). rewrite E0, Z.bits_0 in Hb. done. }
  right. destruct (ffs_from_ok 32 0 x ltac:(lia)) as [[_ Hz]|(X1 & X2 & X3)].
  { exfalso. apply E0, Z.bits_inj'. intros i Hi. rewrite Z.bits_0.
    destruct (Z.testbit x i) eqn:Eb; [|done]. assert (k < i + 1 /\ deliverable t (i + 1)) as [_ Hd].
    { apply Hx; [lia|]. by replace (i + 1 - 1) with i by lia. }
    specialize (Hsm _ Hd). rewrite Hz in Eb by lia. done. }
  fold (ffs x) in *. set (s := ffs x) in *. assert (k < s /\ deliverable t s) as [Hks Hd] by (apply Hx; [lia|done]).
  pose proof (Hsm s Hd) as H32. exists s. split; [lia|]. split; [done|]. split.
  { intros s' Hs' Hd'. assert (Z.testbit x (s' - 1) = true) as Hb by (apply Hx; [lia|split; [lia|done]]). rewrite X3 in Hb by lia. done. }
  destruct (Z.ltb_spec 0 s), (Z.ltb_spec s 32); try lia. cbn [andb]. erewrite bind_Done by reflexivity.
  erewrite bind_Done by reflexivity. unfold mret, M_ret. f_equal. cbn [t_sigpending tset_sigpending drop_upto].
  symmetry.
  change (drop_upto t s = tset_sigpending (CLEAR_SIGBIT (t_sigpending (drop_upto t k)) s) t).
  apply drop_upto_eq; [lia|done| |].
  { unfold CLEAR_SIGBIT, clearf. apply Z.ldiff_nonneg. left. unfold drop_upto, clearf. apply Z.ldiff_nonneg. by left. }
  intros i Hi. unfold CLEAR_SIGBIT, clearf. rewrite sigbit_small by lia. rewrite Z.ldiff_spec, drop_upto_bit, Z.pow2_bits_eqb by lia.
  destruct (Z.eqb_spec (s - 1) i) as [<-|Hne].
  - destruct Hd as (_ & -> & ->). destruct (Z.ltb_spec (s - 1) s); [|lia]. destruct (Z.ltb_spec (s - 1) k); [lia|]. done.
  - destruct (Z.ltb_spec i k), (Z.ltb_spec i s); try lia; cbn; rewrite ?andb_true_r; try done.
    destruct (Z.testbit (t_sigpending t) i) eqn:Ep; [|done]. destruct (Z.testbit (t_sigmask t) i) eqn:Em; [done|].
    assert (Z.testbit x i = true) as Hb; [|rewrite X3 in Hb by lia; done].
    replace i with (i + 1 - 1) by lia. apply Hx; [lia|]. split; [lia|]. split; [lia|]. by replace (i + 1 - 1) with i by lia.
Qed.

Lemma wake_sighandler_first t : 0 <= t_sigpending t -> length (t_sigaction t) = 64%nat -> (forall s, deliverable t s -> s < 32) ->
  (exists s, deliverable t s /\ handled t s /\ (forall s', s' < s -> deliverable t s' -> ~ handled t s') /\
     wake_sighandler t = deliver s (drop_upto t s)) \/
  ((forall s, deliverable t s -> ~ handled t s) /\
   wake_sighandler t = Done tt (tset_sigpending (Z.land (t_sigpending t) (t_sigmask t)) t)).
Proof.
  intros Hp Hlen Hsm.
  assert (forall fuel k, 0 <= k -> (Z.to_nat (32 - k) < fuel)%nat -> (forall s', s' <= k -> deliverable t s' -> ~ handled t s') ->
    (exists s, deliverable t s /\ handled t s /\ (forall s', s' < s -> deliverable t s' -> ~ handled t s') /\
       wake_sighandler_loop fuel (drop_upto t k) = deliver s (drop_upto t s)) \/
    ((forall s, deliverable t s -> ~ handled t s) /\
     wake_sighandler_loop fuel (drop_upto t k) = Done tt (tset_sigpending (Z.land (t_sigpending t) (t_sigmask t)) t))) as Hloop.
  { induction fuel as [|fuel IH]; intros k Hk Hf Hlow; [lia|]. cbn [wake_sighandler_loop].
    destruct (pop_signal_ok t k Hk Hp Hsm) as [[E Hall]|(s & Hs & Hd & Hleast & E)].
    - right. split; [intros s Hs; apply Hlow; auto|]. erewrite bind_Done by exact (on_task_Done _ _ _ _ E). cbn [Z.eqb]. unfold mret, M_ret. f_equal.
      apply drop_upto_eq; [done|done|apply Z.land_nonneg; by left|]. intros i Hi. rewrite Z.land_spec.
      destruct (Z.testbit (t_sigpending t) i) eqn:Ep; [|done]. destruct (Z.testbit (t_sigmask t) i) eqn:Em; cbn.
      { by rewrite andb_false_r. } assert (deliverable t (i + 1)) as Hd.
      { split; [lia|]. by replace (i + 1 - 1) with i by lia. } specialize (Hall _ Hd). destruct (Z.ltb_spec i k); [done|lia].
    - erewrite bind_Done by exact (on_task_Done _ _ _ _ E). destruct (Z.eqb_spec s 0); [lia|]. erewrite bind_Done by reflexivity.
      destruct (lookup_lt_is_Some_2 (t_sigaction t) (Z.to_nat (s - 1))) as [act Ea]; [lia|].
      erewrite bind_Done by (apply on_task_Done, action_ok; [lia|exact Ea]).
      assert (forall s', s' < s -> deliverable t s' -> ~ handled t s') as Hlow'.
      { intros s' Hs' Hd'. destruct (Z.le_gt_cases s' k); [by apply Hlow|]. by destruct (Hleast s'); [lia|]. }
      destruct (Z.eqb_spec (lsa_handler act) LINUX_SIG_DFL) as [Edf|Edf]; [|destruct (Z.eqb_spec (lsa_handler act) LINUX_SIG_IGN) as [Eig|Eig]]; cbn [orb].
      1,2: apply IH; [lia|lia|]; intros s' Hs' Hd'; (destruct (decide (s' = s)) as [->|]; [|apply Hlow'; [lia|done]]);
        intros (act' & Ea' & ? & ?); simplify_eq.
      left. exists s. split; [done|]. split; [by exists act|]. split; [done|].
      rewrite on_task_id. symmetry. exact (bind_Done _ _ _ _ _ (action_ok (drop_upto t s) (s - 1) act ltac:(lia) Ea)). }
  assert (drop_upto t 0 = t) as E0. { rewrite (drop_upto_eq t 0 (t_sigpending t)); [by destruct t|lia|done|done|].
    intros i Hi. destruct (Z.ltb_spec i 0); [lia|]. by rewrite andb_true_r. }
  specialize (Hloop 65%nat 0). rewrite E0 in Hloop. apply Hloop; [lia|lia|]. intros s' Hs' (Hd & _). lia.
Qed.

(** C23: Signals are delivered lowest number first, and the loop that looks for
    one ends.  Of the pending and unblocked signals, those without a handler of the
    guest are dropped from the lowest up; the first with a handler is delivered, in
    the state in which it and the dropped ones are no longer pending, and the ones
    above it stay pending.  When none has a handler, all unblocked signals are
    dropped and nothing else changes. *)
Theorem wake_sighandler_spec t : 0 <= t_sigpending t -> length (t_sigaction t) = 64%nat -> (forall s, deliverable t s -> s < 32) ->
  (exists s, deliverable t s /\ handled t s /\ (forall s', s' < s -> deliverable t s' -> ~ handled t s') /\
     wake_sighandler t = deliver s (drop_upto t s)) \/
  ((forall s, deliverable t s -> ~ handled t s) /\
   wake_sighandler t = Done tt (tset_sigpending (Z.land (t_sigpending t) (t_sigmask t)) t)).
Proof. apply wake_sighandler_first. Qed.

End Frame.

(** ** Witnesses *)

(** A buffer within one page is mapped to distinct bytes. *)
Lemma buffer_one_page u a n h : umem_ok u -> 0 <= a -> a + n < 2 ^ 64 - 4096 -> a mod 4096 + n <= 4096 ->
  translate u a = Some h -> 0 <= h -> h + n < 2 ^ 64 -> buffer_ok u a n.
Proof.
  intros Hu Ha Hb Hpg Ht Hh Hhn.
  assert (forall i, 0 <= i < n -> translate u (a + i) = Some (h + i)) as Hlin.
  { intros i Hi. rewrite (translate_page u Hu a (a + i)); [|lia|lia|Z.div_mod_to_equations; lia]. rewrite Ht. cbn. f_equal.
    unfold host_add. replace (a + i - a) with i by lia. apply wrap_small. lia. }
  split_and!; try done.
  - intros i Hi. rewrite Hlin by done. by eexists.
  - intros i j Hi Hj. rewrite !Hlin by lia. intros [= E]. lia.
Qed.

#[local] Existing Instances macos_errno macos_const.
#[local] Instance demo_os : OS := {| os := fun _ _ _ => mk_hres 0 0 []; uninit := fun _ => [] |}.

(** Signal 10 has a handler, signals 2, 3 and 10 are pending and 3 is blocked. *)
Definition handler10 : l_sigaction := mk_l_sigaction 0x11000 LINUX_SA_RESTORER 0x11800 0.
Definition sig_demo : tstate :=
  mk_tstate (mk_kstate u3p (mk_fileinfo 0 (mk_fdtable 0 0 [] [] []) (mk_fdtable 0 0 [] [] [])) (mk_cred 0 0 0) [])
    (fun r => if decide (r = RSP) then 0x12f00 else if decide (r = RIP) then 0x10010 else 0) (fun _ => 0)
    (<[9%nat := handler10]> (replicate 64 (mk_l_sigaction 0 0 0 0))) 4 (2 + 4 + 512) (mk_l_stack 0 LINUX_SS_DISABLE 0) 1 0 0 0 1.

Lemma sig_demo_cpu : cpu_ok sig_demo.
Proof. split; [|split]; apply (bool_decide_unpack _); vm_compute; exact I. Qed.

Lemma sig_demo_buffer : buffer_ok (t_um sig_demo) 0x12d48 sizeof_l_rt_sigframe.
Proof.
  destruct (translate (t_um sig_demo) 0x12d48) as [h|] eqn:E; [|vm_compute in E; discriminate].
  apply (buffer_one_page _ _ _ h); [apply u3p_ok|lia|vm_compute; congruence|vm_compute; congruence|exact E|..];
    vm_compute in E; injection E as <-; vm_compute; congruence.
Qed.

Lemma sigframe_roundtrip_witness :
  exists t1, setup_sigframe 10 sig_demo = Done 0 t1 /\ t_regs t1 RIP = 0x11000 /\ t_regs t1 RSP = 0x12d48.
Proof.
  destruct (sigframe_roundtrip sig_demo 10 handler10 (fun n => if n =? 15 then Some (fun _ _ _ _ _ _ => on_task (S := tstate) sys_rt_sigreturn) else None)
    (fun _ _ _ _ _ _ => on_task sys_rt_sigreturn) 0x12d48)
    as (t1 & E & (R1 & R2 & _) & _).
  - reflexivity.
  - apply sig_demo_cpu.
  - unfold LINUX_NSIG. lia.
  - reflexivity.
  - vm_compute. split; congruence.
  - reflexivity.
  - apply sig_demo_buffer.
  - reflexivity.
  - intros. apply on_task_runs_as.
  - exists t1. split; [exact E|]. split; [exact R1|exact R2].
Defined.

Lemma wake_sighandler_spec_witness : wake_sighandler sig_demo = deliver 10 (drop_upto sig_demo 10).
Proof.
  destruct (wake_sighandler_spec sig_demo) as [(s & (H1 & Hd & Hm) & (act & Ha & Hn1 & Hn2) & Hlow & E)|[Hno _]].
  - vm_compute. congruence.
  - reflexivity.
  - intros s (H1 & Hd & _). destruct (Z.le_gt_cases s 31); [lia|]. exfalso.
    assert (t_sigpending sig_demo < 2 ^ (s - 1)).
    { apply Z.lt_le_trans with (2 ^ 31); [vm_compute; reflexivity|]. apply Z.pow_le_mono_r; lia. }
    rewrite Z.bits_above_log2 in Hd; [done|vm_compute; congruence|]. apply Z.log2_lt_pow2; [vm_compute; reflexivity|done].
  - assert (s = 10) as ->; [|exact E]. destruct (Z.eq_dec s 10) as [|Hne]; [done|exfalso].
    cbn [t_sigaction sig_demo] in Ha. rewrite list_lookup_insert_ne in Ha by lia. apply lookup_replicate in Ha as [-> _]. by apply Hn1.
  - exfalso. apply (Hno 10); [vm_compute; split_and!; congruence|]. exists handler10. vm_compute. split_and!; congruence.
Defined.
