(* ===== verification/Debug.v ===== *)
(** * Messages of the kernel ([src/debug.c])

    [printk], [warnk] and [panic] append to log files that are open or not, and to the
    standard error.  A message is the text its format gives; the time, the
    process and thread numbers and the backtrace are the host's. *)

From S2P Require Import Prelude.
From stdpp Require Import pretty.

#[local] Open Scope Z_scope.

(** ** Text *)

Definition nl : string := String (Ascii.ascii_of_nat 10) EmptyString.
Definition quote : string := String (Ascii.ascii_of_nat 34) EmptyString.
Definition esc : string := String (Ascii.ascii_of_nat 27) EmptyString.

(** [%d] and [%lld] *)
Definition fmt_d (x : Z) : string := pretty x.

(** [%x] of a number that is not negative, with at least [w] digits *)
Definition hex_digit (d : Z) : Ascii.ascii := Ascii.ascii_of_nat (Z.to_nat (if d <? 10 then 48 + d else 87 + d)).
Fixpoint hex_digits (n : nat) (x : Z) : string :=
  match n with O => EmptyString | S n => hex_digits n (x / 16) +:+ String (hex_digit (x mod 16)) EmptyString end.
Definition fmt_x (w x : Z) : string := hex_digits (Z.to_nat (Z.max w (if x =? 0 then 1 else Z.log2 x / 4 + 1))) x.

(** ** Logs *)

(** [printk_sink], [warnk_sink], the standard error, and the limit of core dumps *)
Record dstate := mk_dstate { printk_sink : option string; warnk_sink : option string; stderr_ : string; rlim_core : Z * Z }.

Definition set_printk_sink s (d : dstate) : dstate := mk_dstate s (warnk_sink d) (stderr_ d) (rlim_core d).
Definition set_warnk_sink s (d : dstate) : dstate := mk_dstate (printk_sink d) s (stderr_ d) (rlim_core d).
Definition set_stderr s (d : dstate) : dstate := mk_dstate (printk_sink d) (warnk_sink d) s (rlim_core d).
Definition set_rlim_core l (d : dstate) : dstate := mk_dstate (printk_sink d) (warnk_sink d) (stderr_ d) l.

Section Debug.
(** The process, the thread, and what [backtrace_symbols] answers *)
Context (pid tid : Z) (frames : list string).

Abbreviation DM := (M dstate).

Definition print_to_sink (sink : option string) (mes : string) : option string :=
  sink ← sink; Some (sink +:+ "[" +:+ fmt_d pid +:+ ":" +:+ fmt_d tid +:+ "] " +:+ mes).

Definition printk (mes : string) : DM unit := modify (fun d => set_printk_sink (print_to_sink (printk_sink d) mes) d).

Definition warnk (mes : string) : DM unit :=
  printk ("WARNING: " +:+ mes);;
  modify (fun d => set_warnk_sink (print_to_sink (warnk_sink d) mes) d).

(** The ten innermost frames *)
Definition backtrace : string :=
  let strings := take 10 frames in
  "[" +:+ fmt_d pid +:+ ":" +:+ fmt_d tid +:+ "] Obtained " +:+ fmt_d (Z.of_nat (length strings)) +:+ " stack frames." +:+ nl +:+
  foldr (fun s rest => s +:+ nl +:+ rest) EmptyString strings.
Definition printbt_to_sink (sink : option string) : option string := sink ← sink; Some (sink +:+ backtrace).

Definition magenda : string := esc +:+ "[35m".
Definition reset : string := esc +:+ "[0m".

Definition fprintf_stderr (mes : string) : DM unit := modify (fun d => set_stderr (stderr_ d +:+ mes) d).

(** [err] is what [strerror(errno)] gives, [ans] what [getchar] answers when the user is
    asked, [infinity] is [RLIM_INFINITY]. *)
Definition panic (given err : string) (ans infinity : Z) {A} : DM A :=
  let mes := "!!PANIC!!" +:+ nl +:+ "perror is " +:+ quote +:+ err +:+ quote +:+ " if it is valid" +:+ nl +:+ given +:+ nl in
  printk ("!!PANIC!!" +:+ mes);;
  modify (fun d => set_printk_sink (printbt_to_sink (printk_sink d)) d);;
  modify (fun d => set_warnk_sink (print_to_sink (warnk_sink d) mes) d);;
  modify (fun d => set_warnk_sink (printbt_to_sink (warnk_sink d)) d);;
  fprintf_stderr (magenda +:+ mes);;
  fprintf_stderr backtrace;;
  fprintf_stderr (reset +:+ nl);;
  d ← get;
  when_ ((rlim_core d).1 =? 0)
    (fprintf_stderr (magenda +:+ "Set the ulimit value to unlimited to generate the coredump? [Y/n] " +:+ reset);;
     when_ ((ans =? 10) || (ans =? 13) || (ans =? 89) || (ans =? 121)) (modify (set_rlim_core (infinity, infinity))));;
  fprintf_stderr (magenda +:+ "aborting.." +:+ reset +:+ nl);;
  halt Panic.

End Debug.

(** ** Messages reach the logs *)

Lemma app_string_assoc (a b c : string) : (a +:+ b) +:+ c = a +:+ b +:+ c.
Proof. induction a as [|x a IH]; [done|]. exact (f_equal (String x) IH). Qed.

Lemma app_string_nil (a : string) : a +:+ EmptyString = a.
Proof. induction a as [|x a IH]; [done|]. exact (f_equal (String x) IH). Qed.

(** [holds s log]: the text [s] is in the log. *)
Definition holds (s log : string) : Prop := exists a b, log = a +:+ s +:+ b.

Lemma holds_refl s : holds s s.
Proof. exists EmptyString, EmptyString. exact (eq_sym (app_string_nil s)). Qed.

Lemma holds_l s l1 l2 : holds s l1 -> holds s (l1 +:+ l2).
Proof. intros (a & b & ->). exists a, (b +:+ l2). by rewrite !app_string_assoc. Qed.

Lemma holds_r s l1 l2 : holds s l2 -> holds s (l1 +:+ l2).
Proof. intros (a & b & ->). exists (l1 +:+ a), b. by rewrite !app_string_assoc. Qed.

Create HintDb text.
#[export] Hint Resolve holds_refl holds_l holds_r : text.

(** [panic] never returns; before the process ends its message is in every log that is open,
    and on the standard error, and the limit of core dumps has changed only if it was 0 and the user agreed. *)
Theorem panic_reports pid tid frames given err ans infinity {A} d :
  exists d', panic pid tid frames given err ans infinity d = @Stop dstate A Panic d' /\
    holds given (stderr_ d') /\
    (forall l, printk_sink d = Some l -> exists l', printk_sink d' = Some l' /\ holds l l' /\ holds given l') /\
    (forall l, warnk_sink d = Some l -> exists l', warnk_sink d' = Some l' /\ holds l l' /\ holds given l') /\
    rlim_core d' = (if ((rlim_core d).1 =? 0) && ((ans =? 10) || (ans =? 13) || (ans =? 89) || (ans =? 121))
                    then (infinity, infinity) else rlim_core d).
Proof.
  unfold panic, printk, fprintf_stderr. msimp. cbn [rlim_core set_stderr set_warnk_sink set_printk_sink].
  destruct ((rlim_core d).1 =? 0); [destruct (_ || _)|]; eexists; (split; [reflexivity|]);
    cbn [printk_sink warnk_sink stderr_ rlim_core set_stderr set_warnk_sink set_printk_sink set_rlim_core andb];
    (split; [eauto 20 with text|]); split_and!; try done; intros l ->; eexists; (split; [reflexivity|]); split; eauto 30 with text.
Qed.

(** A warning goes to both logs. *)
Lemma warnk_reports pid tid mes d :
  exists d', warnk pid tid mes d = Done tt d' /\ stderr_ d' = stderr_ d /\
    (forall l, printk_sink d = Some l -> exists l', printk_sink d' = Some l' /\ holds l l' /\ holds mes l') /\
    (forall l, warnk_sink d = Some l -> exists l', warnk_sink d' = Some l' /\ holds l l' /\ holds mes l').
Proof.
  unfold warnk, printk. msimp. eexists. split; [reflexivity|]. split; [done|].
  cbn [printk_sink warnk_sink set_warnk_sink set_printk_sink].
  split; intros l ->; eexists; (split; [reflexivity|]); split; eauto 20 with text.
Qed.
