(* ===== verification/Strace.v ===== *)
(** * Tracing of system calls ([src/meta_strace.c])

    [DEFINE_SYSCALL] calls [meta_strace_pre] before and [meta_strace_post] after every
    handler.  When a trace file is open they print the call; they read guest memory
    without checks, so that a bad pointer ends the process. *)

From S2P Require Import Prelude RBTree Const Errno Conv Mm Mmap MmapFacts MmInv MmSys UserMem FdTable Kernel Files Path FileOps Task Signal Debug.

#[local] Open Scope Z_scope.

(** ** Output *)

(** A computation that writes to the trace file: the state is the text so far. *)
Abbreviation L := (M string).
Definition out (s : string) : L unit := modify (fun o => o +:+ s).

(** An argument as [MK_STRACE_CALL] passes it: the names of its type and of the parameter,
    and the register *)
Record sc_arg := mk_sc_arg { a_type : string; a_name : string; a_value : Z }.

(** [MK_STRACE_CALL(0, 0)] *)
Definition terminator : sc_arg := mk_sc_arg "0" "0" 0.

(** [meta_strace_hook]: number, arguments, result *)
Definition meta_strace_hook : Type := Z -> list sc_arg -> Z -> L unit.

Definition linux_errno_str (val : Z) : string := default "(No errno Matched)"%string (strtable LINUX_ERRNO val).
Definition linux_signum_str (val : Z) : string := default "(No signum Matched)"%string (strtable LINUX_STSIGNUM val).

(** [isprint] of a [char] in the C locale *)
Definition isprint (c : Z) : bool := (0x20 <=? c) && (c <=? 0x7e).

Section Print.
Context `{Heap} (t : tstate).

(** A [char] is signed; [%02x] prints it as an [unsigned int]. *)
Definition print_char (c : Z) : L unit :=
  if c =? 10 then out "\n"
  else if negb (isprint (swrap 8 c)) then out ("\x" +:+ fmt_x 2 (u32 (swrap 8 c)))
  else out (String (Ascii.ascii_of_nat (Z.to_nat c)) EmptyString).

(** The byte at a guest address: the pointer [guest_to_host] gives is not checked. *)
Definition guest_byte (ga : Z) : L Z := h ← deref (translate (t_um t) ga); mret (hmem (t_um t) h).

Fixpoint print_gstr_loop (n : nat) (str : Z) : L unit :=
  match n with
  | O => mret tt
  | S n =>
    c ← guest_byte (u64 str);
    if c =? 0 then mret tt else print_char c;; print_gstr_loop n (str + 1)
  end.

Definition print_gstr (str maxlen : Z) : L unit :=
  out quote;; print_gstr_loop (Z.to_nat maxlen) str;; out quote.

Definition print_arg (a : sc_arg) : L unit :=
  out (a_name a +:+ ": ");;
  if String.eqb (a_type a) "gstr_t" then print_gstr (a_value a) 50
  else if String.eqb (a_type a) "gaddr_t" then
    out ("0x" +:+ fmt_x 16 (u64 (a_value a)) +:+ " [host: 0x" +:+ fmt_x 16 (default 0 (translate (t_um t) (a_value a))) +:+ "]")
  else if String.eqb (a_type a) "int" then out (fmt_d (s64 (a_value a)))
  else out ("0x" +:+ fmt_x 1 (u64 (a_value a))).

(** A loop over the arguments with commas between them *)
Fixpoint each (f : nat -> sc_arg -> L unit) (i : nat) (args : list sc_arg) : L unit :=
  match args with
  | [] => mret tt
  | a :: args => when_ (0 <? i)%nat (out ", ");; f i a;; each f (S i) args
  end.

Definition print_args : meta_strace_hook := fun _ args _ => each (fun _ => print_arg) 0 args.

Definition print_ret : meta_strace_hook := fun _ _ ret =>
  out ("): ret = 0x" +:+ fmt_x 1 (u64 ret));;
  when_ (s64 ret <? 0) (out ("[" +:+ linux_errno_str (s32 (u64 (- ret))) +:+ "]"));;
  out nl.

(** ** Hooks of single system calls *)

(** The arguments, the second printed as a string of at most [len] bytes *)
Definition print_buf (len : Z) (args : list sc_arg) : L unit :=
  each (fun i a => if (i =? 1)%nat then out (a_name a +:+ ": ");; print_gstr (a_value a) len else print_arg a) 0 args.

Definition trace_read_pre : meta_strace_hook := fun _ _ _ => mret tt.
Definition trace_read_post : meta_strace_hook := fun num args ret => print_buf (MIN 50 (u64 ret)) args;; print_ret num args ret.
Definition trace_write_pre : meta_strace_hook := fun _ args _ =>
  size ← deref (args !! 2%nat); print_buf (MIN 50 (u64 (a_value size))) args.
Definition trace_recvfrom_pre : meta_strace_hook := fun _ _ _ => mret tt.
Definition trace_recvfrom_post : meta_strace_hook := fun num args ret =>
  print_buf (MIN 50 (u64 ret)) args;; print_ret num args ret.
Definition trace_sendto_pre : meta_strace_hook := fun _ args _ =>
  size ← deref (args !! 2%nat); print_buf (MIN 50 (u64 (a_value size))) args.

(** A word and a string of host memory; [fuel] bounds the length. *)
Definition host_word (h : Z) : Z := le_decode (host_read (hmem (t_um t)) h 8).
Fixpoint host_string (fuel : nat) (h : Z) : L string :=
  match fuel with
  | O => halt Diverge
  | S fuel =>
    let c := hmem (t_um t) (u64 h) in
    if c =? 0 then mret EmptyString
    else s ← host_string fuel (h + 1); mret (String (Ascii.ascii_of_nat (Z.to_nat c)) s)
  end.

(** [while (argv[exec_argc] != 0) exec_argc++]: the words before the first zero *)
Fixpoint exec_args (fuel : nat) (h : Z) : L (list Z) :=
  match fuel with
  | O => halt Diverge
  | S fuel =>
    let p := host_word h in
    if p =? 0 then mret [] else ps ← exec_args fuel (h + 8); mret (p :: ps)
  end.

(** Darwin's [printf] prints a null pointer as [(null)]. *)
Fixpoint print_dargv (fuel : nat) (ps : list Z) : L unit :=
  match ps with
  | [] => mret tt
  | p :: ps =>
    s ← match translate (t_um t) p with None => mret "(null)"%string | Some h => host_string fuel h end;
    out (quote +:+ s +:+ quote +:+ ", ");; print_dargv fuel ps
  end.

(** The null pointer is read when [argv] is not mapped. *)
Definition trace_execve_pre (fuel : nat) : meta_strace_hook := fun _ args _ =>
  argv ← deref (args !! 1%nat);
  h ← deref (translate (t_um t) (a_value argv));
  ps ← exec_args fuel h;
  (if stack_ok (8 * Z.of_nat (length ps)) then mret tt else halt Overflow);;
  path ← deref (args !! 0%nat);
  envp ← deref (args !! 2%nat);
  print_arg path;;
  out ", [";;
  print_dargv fuel ps;;
  out "], ";;
  print_arg envp.

Definition print_sigset (sigset : Z) : L unit :=
  out "[";;
  foldr (fun i rest => when_ (LINUX_SIGISMEMBER sigset i) (out (linux_signum_str i +:+ ", "));; rest) (mret tt) (seqZ 1 (LINUX_SIGRTMIN - 1));;
  out "]".

Definition how_name (how : Z) : string :=
  if how =? LINUX_SIG_BLOCK then "BLOCK" else if how =? LINUX_SIG_UNBLOCK then "UNBLOCK"
  else if how =? LINUX_SIG_SETMASK then "SETMASK" else "UNKNOWN_HOW".

Definition trace_rt_sigprocmask_pre : meta_strace_hook := fun _ _ _ => mret tt.
Definition trace_rt_sigprocmask_post : meta_strace_hook := fun num args ret =>
  each (fun i a =>
    if (i =? 0)%nat then
      second ← deref (args !! 1%nat);
      out (a_name second +:+ ": ");;
      out (how_name (a_value a))
    else if (i =? 1)%nat || (i =? 2)%nat then
      if a_value a =? 0 then out "NULL (";; print_sigset (t_sigmask t);; out ")"
      else
        '(e, bs) ← match copy_from_user (t_um t) (a_value a) 8 with Some r => mret r | None => halt Diverge end;
        if negb (e =? 0) then out "FAULT..." else print_sigset (le_decode bs)
    else print_arg a) 0 args;;
  print_ret num args ret.

(** [strace_pre_hooks] and [strace_post_hooks]: for [rt_sigprocmask] the two are exchanged. *)
Definition LSYS_read : Z := 0.
Definition LSYS_write : Z := 1.
Definition LSYS_rt_sigprocmask : Z := 14.
Definition LSYS_sendto : Z := 44.
Definition LSYS_recvfrom : Z := 45.
Definition LSYS_execve : Z := 59.

Definition strace_pre_hooks (fuel : nat) (num : Z) : option meta_strace_hook :=
  if num =? LSYS_read then Some trace_read_pre
  else if num =? LSYS_recvfrom then Some trace_recvfrom_pre
  else if num =? LSYS_write then Some trace_write_pre
  else if num =? LSYS_sendto then Some trace_sendto_pre
  else if num =? LSYS_execve then Some (trace_execve_pre fuel)
  else if num =? LSYS_rt_sigprocmask then Some trace_rt_sigprocmask_post
  else None.
Definition strace_post_hooks (num : Z) : option meta_strace_hook :=
  if num =? LSYS_read then Some trace_read_post
  else if num =? LSYS_recvfrom then Some trace_recvfrom_post
  else if num =? LSYS_rt_sigprocmask then Some trace_rt_sigprocmask_pre
  else None.

(** ** The entry points *)

(** At most six arguments, up to the terminator; more are not read. *)
Fixpoint va_args (n : nat) (ap : list sc_arg) : L (list sc_arg) :=
  match n, ap with
  | O, _ => mret []
  | S _, [] => halt Fault
  | S n, a :: ap =>
    if bool_decide (String.get 0 (a_type a) = Some (Ascii.ascii_of_nat 48)) then mret []
    else args ← va_args n ap; mret (a :: args)
  end.

Definition do_meta_strace (num : Z) (name : string) (def : meta_strace_hook) (hooks : Z -> option meta_strace_hook) (ret : Z)
    (ap : list sc_arg) : L unit :=
  args ← va_args 6 ap;
  if String.eqb name "unimplemented" then out "<unimplemented systemcall>";; def (-1) args ret
  else match hooks num with Some hook => hook num args ret | None => def num args ret end.

(** Nothing happens when no trace file is open; the text is written under [strace_sync]. *)
Definition to_sink (c : L unit) : M (option string) unit := fun sink =>
  match sink with
  | None => Done tt None
  | Some o => match c o with Done _ o => Done tt (Some o) | Stop w o => Stop (Tracing w) (Some o) end
  end.

Context (pid tid : Z) (fuel : nat).

Definition trace_head : string := "[" +:+ fmt_d pid +:+ ":" +:+ fmt_d tid +:+ "] ".

Definition meta_strace_pre (num : Z) (name : string) (ap : list sc_arg) : M (option string) unit :=
  to_sink (out (trace_head +:+ name +:+ "(");; do_meta_strace num name print_args (strace_pre_hooks fuel) 0 ap).

Definition meta_strace_post (num : Z) (name : string) (ret : Z) (ap : list sc_arg) : M (option string) unit :=
  to_sink (do_meta_strace num name print_ret strace_post_hooks ret ap).

Definition meta_strace_sigdeliver (signum : Z) : M (option string) unit :=
  to_sink (out (trace_head +:+ "--- " +:+ linux_signum_str signum +:+ " ---" +:+ nl)).

(** [meta_strace_info] does not check that the file is open. *)
Definition meta_strace_info (mes : string) : M (option string) unit := fun sink =>
  match sink with None => Stop Fault None | Some o => Done tt (Some (o +:+ "INFO: " +:+ mes)) end.

End Print.

(** ** The wrapper of a handler ([DEFINE_SCWRAPPER] of [include/common.h]) *)

(** The calling process and thread, and a bound for the strings the trace of [execve] reads *)
Class TraceEnv := { trace_pid : tstate -> Z; trace_tid : tstate -> Z; trace_fuel : nat }.

(** A state with the trace file beside it *)
#[global] Instance pair_task {St B} `{HasTask St} : HasTask (St * B) :=
  {| task_of s := task_of s.1; set_task t s := (set_task t s.1, s.2) |}.
#[global] Instance pair_task_ok {St B} `{HasTaskOk St} : HasTaskOk (St * B).
Proof.
  split; [intros t [s b]|intros [s b]|intros t u [s b]]; simpl; by rewrite ?task_of_set, ?set_task_of, ?set_task_twice.
Qed.

Lemma on_task_pair {St B A} `{HasTask St} (c : T A) (s : St) (b : B) a t :
  c (task_of s) = Done a t -> on_task c (s, b) = Done a (set_task t s, b).
Proof. intros E. unfold on_task. cbn [task_of pair_task fst]. by rewrite E. Qed.

Section Wrapper.
Context `{Heap} `{TraceEnv} {St : Type} `{HasTask St}.

(** A computation that does not see the trace file, and one that does nothing else *)
Definition unseen {A} (c : M St A) : M (St * option string) A := fun s =>
  match c s.1 with Done a s1 => Done a (s1, s.2) | Stop w s1 => Stop w (s1, s.2) end.
Definition tracing (c : tstate -> M (option string) unit) : M (St * option string) unit := fun s =>
  match c (task_of s.1) s.2 with Done _ o => Done tt (s.1, o) | Stop w o => Stop w (s.1, o) end.

(** The handler may run a loop of its own, whose system calls are traced too. *)
Definition scwrapper (num : Z) (name : string) (args : list sc_arg) (handler : M (St * option string) Z) : M (St * option string) Z :=
  let ap := args ++ [terminator] in
  tracing (fun t => meta_strace_pre t (trace_pid t) (trace_tid t) trace_fuel num name ap);;
  ret ← handler;
  tracing (fun t => meta_strace_post t num name ret ap);;
  mret ret.

(** The signals are traced when they are taken from the pending set. *)
#[global] Instance traced_signals : SigTrace (St * option string) :=
  {| sigdeliver sig := tracing (fun t => meta_strace_sigdeliver (trace_pid t) (trace_tid t) sig) |}.

End Wrapper.

(** ** What tracing changes *)

(** How the code that traces can stop the process: at an address that is not mapped, or out of the stack *)
Definition crash (w : stop) : bool := match w with Fault | Overflow | Diverge => true | _ => false end.

(** [c] only adds to the text, and stops in no other way. *)
Definition appends {A} (c : L A) : Prop :=
  (forall o, c o = match c EmptyString with Done a x => Done a (o +:+ x) | Stop w x => Stop w (o +:+ x) end) /\
  (forall w x, c EmptyString = Stop w x -> crash w = true).

Lemma appends_ret {A} (a : A) : appends (mret a).
Proof. split; [|done]. intros o. msimp. by rewrite app_string_nil. Qed.

Lemma appends_halt {A} w : crash w = true -> appends (halt w : L A).
Proof. intros Hw. split; [|by intros w' x [= <- _]]. intros o. msimp. by rewrite app_string_nil. Qed.
Lemma appends_fault {A} : appends (halt Fault : L A).
Proof. by apply appends_halt. Qed.
Lemma appends_overflow {A} : appends (halt Overflow : L A).
Proof. by apply appends_halt. Qed.
Lemma appends_diverge {A} : appends (halt Diverge : L A).
Proof. by apply appends_halt. Qed.

Lemma appends_out s : appends (out s).
Proof. done. Qed.

Lemma appends_bind {A B} (c : L A) (k : A -> L B) : appends c -> (forall a, appends (k a)) -> appends (c ≫= k).
Proof.
  intros [Hc Hc'] Hk. split.
  - intros o. unfold mbind, M_bind. rewrite (Hc o). destruct (c EmptyString) as [a x|w x]; [|done].
    rewrite (proj1 (Hk a) (o +:+ x)), (proj1 (Hk a) x). destruct (k a EmptyString); by rewrite app_string_assoc.
  - intros w x. unfold mbind, M_bind. destruct (c EmptyString) as [a y|w' y]; [|intros [= -> _]; by apply (Hc' _ y)].
    rewrite (proj1 (Hk a)). destruct (k a EmptyString) as [|w' z] eqn:E; [done|]. intros [= -> _]. by apply (proj2 (Hk a) _ z).
Qed.

Lemma appends_deref {A} (o : option A) : appends (deref o).
Proof. destruct o; [apply appends_ret|apply appends_fault]. Qed.

Lemma appends_when b (c : L unit) : appends c -> appends (when_ b c).
Proof. destruct b; [done|]. intros _. apply appends_ret. Qed.

Create HintDb trace.
#[local] Hint Resolve appends_ret appends_fault appends_overflow appends_diverge appends_out appends_bind appends_deref appends_when : trace.

Section Appends.
Context `{Heap} (t : tstate).

Ltac cases := repeat match goal with |- appends (if ?b then _ else _) => destruct b end.

Lemma print_gstr_appends str n : appends (print_gstr t str n).
Proof.
  unfold print_gstr. apply appends_bind; [auto with trace|intros _]. apply appends_bind; [|auto with trace].
  generalize (Z.to_nat n) as m. intros m. revert str. induction m as [|m IH]; intros str; cbn [print_gstr_loop]; [auto with trace|].
  apply appends_bind; [unfold guest_byte; eauto with trace|]. intros c. cases; [auto with trace|].
  apply appends_bind; [unfold print_char; cases; auto with trace|auto].
Qed.
#[local] Hint Resolve print_gstr_appends : trace.

Lemma print_arg_appends a : appends (print_arg t a).
Proof. unfold print_arg. apply appends_bind; [auto with trace|]. intros _. cases; auto with trace. Qed.
#[local] Hint Resolve print_arg_appends : trace.

Lemma each_appends f args : (forall i a, appends (f i a)) -> forall i, appends (each f i args).
Proof. intros Hf. induction args as [|a args IH]; intros i; cbn [each]; auto 6 with trace. Qed.

Lemma print_buf_appends n args : appends (print_buf t n args).
Proof. apply each_appends. intros i a. cases; auto with trace. Qed.
#[local] Hint Resolve print_buf_appends : trace.

Lemma print_ret_appends num args ret : appends (print_ret num args ret).
Proof. unfold print_ret. auto 8 with trace. Qed.
#[local] Hint Resolve print_ret_appends : trace.

Lemma host_string_appends fuel : forall h, appends (host_string t fuel h).
Proof. induction fuel as [|fuel IH]; intros h; cbn [host_string]; [auto with trace|]. cases; auto 6 with trace. Qed.
#[local] Hint Resolve host_string_appends : trace.

Lemma exec_args_appends fuel : forall h, appends (exec_args t fuel h).
Proof. induction fuel as [|fuel IH]; intros h; cbn [exec_args]; [auto with trace|]. cases; auto 6 with trace. Qed.

Lemma print_dargv_appends fuel ps : appends (print_dargv t fuel ps).
Proof.
  induction ps as [|p ps IH]; cbn [print_dargv]; [auto with trace|]. apply appends_bind; [|auto with trace].
  destruct (translate _ p); auto with trace.
Qed.
#[local] Hint Resolve exec_args_appends print_dargv_appends : trace.

Lemma execve_appends fuel num args ret : appends (trace_execve_pre t fuel num args ret).
Proof.
  unfold trace_execve_pre. do 10 (apply appends_bind; [cases; auto with trace|intros ?]). auto with trace.
Qed.

Lemma print_sigset_appends s : appends (print_sigset s).
Proof.
  unfold print_sigset. apply appends_bind; [auto with trace|intros _]. apply appends_bind; [|auto with trace].
  induction (seqZ 1 (LINUX_SIGRTMIN - 1)) as [|i l IH]; cbn [foldr]; auto 6 with trace.
Qed.
#[local] Hint Resolve print_sigset_appends : trace.

Lemma sigprocmask_appends num args ret : appends (trace_rt_sigprocmask_post t num args ret).
Proof.
  unfold trace_rt_sigprocmask_post. apply appends_bind; [|auto with trace]. apply each_appends. intros i a. cases; auto 7 with trace.
  apply appends_bind; [destruct (copy_from_user _ _ _); auto with trace|]. intros [e bs]. cases; auto with trace.
Qed.
#[local] Hint Resolve execve_appends sigprocmask_appends : trace.

Lemma va_args_appends n : forall ap, appends (va_args n ap).
Proof. induction n as [|n IH]; intros [|a ap]; cbn [va_args]; auto with trace. cases; auto 6 with trace. Qed.

Lemma pre_hooks_appends fuel num hook : strace_pre_hooks t fuel num = Some hook -> forall n args ret, appends (hook n args ret).
Proof.
  unfold strace_pre_hooks. intros E n args ret. repeat case_match; simplify_eq;
    unfold trace_read_pre, trace_recvfrom_pre, trace_write_pre, trace_sendto_pre; auto with trace.
Qed.

Lemma post_hooks_appends num hook : strace_post_hooks t num = Some hook -> forall n args ret, appends (hook n args ret).
Proof.
  unfold strace_post_hooks. intros E n args ret. repeat case_match; simplify_eq;
    unfold trace_read_post, trace_recvfrom_post, trace_rt_sigprocmask_pre; auto with trace.
Qed.

Lemma do_meta_strace_appends num name def hooks ret ap :
  (forall n args ret, appends (def n args ret)) ->
  (forall hook, hooks num = Some hook -> forall n args ret, appends (hook n args ret)) ->
  appends (do_meta_strace num name def hooks ret ap).
Proof.
  intros Hd Hh. unfold do_meta_strace. apply appends_bind; [apply va_args_appends|]. intros args.
  destruct (String.eqb name "unimplemented"); [auto with trace|]. destruct (hooks num) eqn:E; eauto.
Qed.

Lemma print_args_appends num args ret : appends (print_args t num args ret).
Proof. apply each_appends. auto with trace. Qed.

End Appends.

(** The string at [str] can be read: up to a zero byte, or [n] bytes of it. *)
Fixpoint gstr_ok (u : umem) (n : nat) (str : Z) : bool :=
  match n with
  | O => true
  | S n => match translate u (u64 str) with None => false | Some h => (hmem u h =? 0) || gstr_ok u n (str + 1) end
  end.

(** The strings among the arguments can be read; [len] is given when the second argument is a
    buffer of that length. *)
Fixpoint strings_ok (u : umem) (len : option Z) (i : nat) (args : list sc_arg) : bool :=
  match args with
  | [] => true
  | a :: args =>
    match len with
    | Some n => if (i =? 1)%nat then gstr_ok u (Z.to_nat n) (a_value a) else negb (String.eqb (a_type a) "gstr_t") || gstr_ok u 50 (a_value a)
    | None => negb (String.eqb (a_type a) "gstr_t") || gstr_ok u 50 (a_value a)
    end && strings_ok u len (S i) args
  end.

(** What the trace reads before and after a call of number [num] *)
Definition pre_ok (u : umem) (num : Z) (args : list sc_arg) : bool :=
  if (num =? LSYS_read) || (num =? LSYS_recvfrom) then true
  else if (num =? LSYS_write) || (num =? LSYS_sendto) then
    match args !! 2%nat with Some size => strings_ok u (Some (MIN 50 (u64 (a_value size)))) 0 args | None => false end
  else negb ((num =? LSYS_execve) || (num =? LSYS_rt_sigprocmask)) && strings_ok u None 0 args.
Definition post_ok (u : umem) (num : Z) (args : list sc_arg) (ret : Z) : bool :=
  if (num =? LSYS_read) || (num =? LSYS_recvfrom) then strings_ok u (Some (MIN 50 (u64 ret))) 0 args else true.

(** A printer that returns *)
Definition prints {A} (c : L A) (a : A) : Prop := forall o, exists text, c o = Done a (o +:+ text).

Lemma prints_ret {A} (a : A) : prints (mret a) a.
Proof. intros o. exists EmptyString. msimp. by rewrite app_string_nil. Qed.

Lemma prints_out s : prints (out s) tt.
Proof. intros o. by exists s. Qed.

Lemma prints_bind {A B} (c : L A) (k : A -> L B) a b : prints c a -> prints (k a) b -> prints (c ≫= k) b.
Proof.
  intros Hc Hk o. destruct (Hc o) as [x E]. destruct (Hk (o +:+ x)) as [y E2]. exists (x +:+ y).
  unfold mbind, M_bind. by rewrite E, E2, app_string_assoc.
Qed.

Lemma prints_when b (c : L unit) : prints c tt -> prints (when_ b c) tt.
Proof. destruct b; [done|]. intros _. apply prints_ret. Qed.

Create HintDb prints.
#[local] Hint Resolve prints_ret prints_out prints_when : prints.

Section Prints.
Context `{Heap} (t : tstate).

Lemma print_gstr_prints str n : gstr_ok (t_um t) (Z.to_nat n) str = true -> prints (print_gstr t str n) tt.
Proof.
  intros Hg. unfold print_gstr. apply prints_bind with tt; [auto with prints|]. apply prints_bind with tt; [|auto with prints].
  revert str Hg. generalize (Z.to_nat n) as m. intros m. induction m as [|m IH]; intros str Hg; cbn [print_gstr_loop gstr_ok] in *;
    [auto with prints|].
  unfold guest_byte. destruct (translate (t_um t) (u64 str)) as [h|]; [|done].
  apply prints_bind with (hmem (t_um t) h); [apply prints_bind with h; apply prints_ret|].
  destruct (hmem (t_um t) h =? 0); [auto with prints|]. apply prints_bind with tt; [|by apply IH].
  unfold print_char. repeat case_match; auto with prints.
Qed.

Lemma print_arg_prints a : negb (String.eqb (a_type a) "gstr_t") || gstr_ok (t_um t) 50 (a_value a) = true -> prints (print_arg t a) tt.
Proof.
  intros Hg. unfold print_arg. apply prints_bind with tt; [auto with prints|].
  destruct (String.eqb (a_type a) "gstr_t"); [by apply print_gstr_prints|].
  destruct (String.eqb (a_type a) "gaddr_t"); [|destruct (String.eqb (a_type a) "int")]; auto with prints.
Qed.

Lemma each_prints f len args : forall i,
  (forall i a, match len with
     | Some n => if (i =? 1)%nat then gstr_ok (t_um t) (Z.to_nat n) (a_value a) else negb (String.eqb (a_type a) "gstr_t") || gstr_ok (t_um t) 50 (a_value a)
     | None => negb (String.eqb (a_type a) "gstr_t") || gstr_ok (t_um t) 50 (a_value a)
     end = true -> prints (f i a) tt) ->
  strings_ok (t_um t) len i args = true -> prints (each f i args) tt.
Proof.
  induction args as [|a args IH]; intros i Hf Hs; cbn [each strings_ok] in *; [auto with prints|].
  apply andb_true_iff in Hs as [Ha Hs]. apply prints_bind with tt; [auto with prints|]. apply prints_bind with tt; [by apply Hf|by apply IH].
Qed.

Lemma print_args_prints num args ret : strings_ok (t_um t) None 0 args = true -> prints (print_args t num args ret) tt.
Proof. apply each_prints. intros i a Ha. by apply print_arg_prints. Qed.

Lemma print_buf_prints n args : strings_ok (t_um t) (Some n) 0 args = true -> prints (print_buf t n args) tt.
Proof.
  apply each_prints. intros i a Ha. destruct (i =? 1)%nat; [|by apply print_arg_prints].
  apply prints_bind with tt; [auto with prints|by apply print_gstr_prints].
Qed.

Lemma print_ret_prints num args ret : prints (print_ret num args ret) tt.
Proof. unfold print_ret. do 2 (apply prints_bind with tt; [auto with prints|]). auto with prints. Qed.

Lemma va_args_prints n args : (length args <= n)%nat ->
  Forall (fun a => String.get 0 (a_type a) <> Some (Ascii.ascii_of_nat 48)) args -> prints (va_args n (args ++ [terminator])) args.
Proof.
  revert args. induction n as [|n IH]; intros args Hl Hf.
  { destruct args; [apply prints_ret|simpl in Hl; lia]. }
  destruct args as [|a args]; cbn [app va_args]; [rewrite bool_decide_true by done; apply prints_ret|].
  apply Forall_cons in Hf as [Ha Hf]. rewrite bool_decide_false by done.
  apply prints_bind with args; [apply IH; [simpl in Hl; lia|done]|apply prints_ret].
Qed.

Lemma pre_prints pid tid fuel num name args : (length args <= 6)%nat ->
  Forall (fun a => String.get 0 (a_type a) <> Some (Ascii.ascii_of_nat 48)) args -> name <> "unimplemented"%string ->
  pre_ok (t_um t) num args = true ->
  prints (out (trace_head pid tid +:+ name +:+ "(");; do_meta_strace num name (print_args t) (strace_pre_hooks t fuel) 0 (args ++ [terminator])) tt.
Proof.
  intros Hl Hf Hn Hok. apply prints_bind with tt; [auto with prints|]. unfold do_meta_strace.
  apply prints_bind with args; [by apply va_args_prints|]. rewrite (proj2 (String.eqb_neq _ _)) by done.
  unfold pre_ok in Hok. unfold strace_pre_hooks, trace_write_pre, trace_sendto_pre.
  destruct (num =? LSYS_read); [apply prints_ret|]. destruct (num =? LSYS_recvfrom); [apply prints_ret|].
  assert (forall size, args !! 2%nat = Some size -> strings_ok (t_um t) (Some (MIN 50 (u64 (a_value size)))) 0 args = true ->
    prints (size ← deref (args !! 2%nat); print_buf t (MIN 50 (u64 (a_value size))) args) tt) as Hb.
  { intros size E Hs. rewrite E. apply prints_bind with size; [apply prints_ret|by apply print_buf_prints]. }
  destruct (num =? LSYS_write); [destruct (args !! 2%nat) eqn:E; [by eapply Hb|done]|].
  destruct (num =? LSYS_sendto); [destruct (args !! 2%nat) eqn:E; [by eapply Hb|done]|].
  simpl in Hok. destruct (num =? LSYS_execve); [done|]. destruct (num =? LSYS_rt_sigprocmask); [done|]. by apply print_args_prints.
Qed.

Lemma post_prints num name args ret : (length args <= 6)%nat ->
  Forall (fun a => String.get 0 (a_type a) <> Some (Ascii.ascii_of_nat 48)) args -> name <> "unimplemented"%string ->
  post_ok (t_um t) num args ret = true ->
  prints (do_meta_strace num name print_ret (strace_post_hooks t) ret (args ++ [terminator])) tt.
Proof.
  intros Hl Hf Hn Hok. unfold do_meta_strace.
  apply prints_bind with args; [by apply va_args_prints|]. rewrite (proj2 (String.eqb_neq _ _)) by done.
  unfold post_ok in Hok. unfold strace_post_hooks.
  destruct (num =? LSYS_read); [apply prints_bind with tt; [by apply print_buf_prints|apply print_ret_prints]|].
  destruct (num =? LSYS_recvfrom); [apply prints_bind with tt; [by apply print_buf_prints|apply print_ret_prints]|].
  destruct (num =? LSYS_rt_sigprocmask); [apply prints_ret|apply print_ret_prints].
Qed.

End Prints.

Section Transparent.
Context `{Heap} `{TraceEnv} {St : Type} `{HasTask St}.

Lemma to_sink_appends c o u sink : appends c -> to_sink c (Some o) = Done u sink -> exists text, sink = Some (o +:+ text).
Proof.
  intros Hc E. unfold to_sink in E. rewrite (proj1 Hc o) in E. destruct (c EmptyString) as [a x|]; simplify_eq. by exists x.
Qed.

Lemma pre_appends t num name ap :
  appends (out (trace_head (trace_pid t) (trace_tid t) +:+ name +:+ "(");;
    do_meta_strace num name (print_args t) (strace_pre_hooks t trace_fuel) 0 ap).
Proof.
  apply appends_bind; [apply appends_out|]. intros _. apply do_meta_strace_appends; [intros; apply print_args_appends|apply pre_hooks_appends].
Qed.

Lemma post_appends t num name ret ap : appends (do_meta_strace num name print_ret (strace_post_hooks t) ret ap).
Proof. apply do_meta_strace_appends; [intros; apply print_ret_appends|apply post_hooks_appends]. Qed.

Lemma to_sink_prints c o : prints c tt -> exists text, to_sink c (Some o) = Done tt (Some (o +:+ text)).
Proof. intros Hc. unfold to_sink. destruct (Hc o) as [x ->]. by exists x. Qed.

(** With no trace file open the wrapper adds nothing. *)
Lemma scwrapper_off num name args (h : M (St * option string) Z) s r s' :
  h (s, None) = Done r (s', None) -> scwrapper num name args h (s, None) = Done r (s', None).
Proof.
  intros E. unfold scwrapper, tracing. msimp. cbn [fst snd to_sink meta_strace_pre meta_strace_post]. by rewrite E.
Qed.

(** A traced system call does to the task what the handler does, when the trace prints no strings. *)
Lemma scwrapper_runs_as `{!HasTaskOk St} num name args (c : T Z) :
  (length args <= 6)%nat -> Forall (fun a => String.get 0 (a_type a) <> Some (Ascii.ascii_of_nat 48)) args ->
  name <> "unimplemented"%string -> (forall u, pre_ok u num args = true) -> (forall u r, post_ok u num args r = true) ->
  runs_as (S := St * option string) (scwrapper num name args (on_task c)) c.
Proof.
  intros Hl Hf Hn Hpre Hpost [s sink] r t E. set (s' := set_task t s).
  assert (on_task c (s, sink) = Done r (s', sink)) as Eh by (by apply on_task_pair).
  assert (task_of s' = t) as Es by apply task_of_set.
  destruct sink as [o|]; [|exists (s', None); split; [by apply scwrapper_off|done]].
  unfold scwrapper, tracing. unfold mbind, M_bind, mret, M_ret. cbn [fst snd].
  destruct (to_sink_prints _ o (pre_prints (task_of s) (trace_pid (task_of s)) (trace_tid (task_of s)) trace_fuel num name args Hl Hf Hn (Hpre _))) as [x E1].
  unfold meta_strace_pre. rewrite E1.
  assert (on_task c (s, Some (o +:+ x)) = Done r (s', Some (o +:+ x))) as -> by (by apply on_task_pair).
  cbn [fst snd]. destruct (to_sink_prints _ (o +:+ x) (post_prints (task_of s') num name args r Hl Hf Hn (Hpost _ _))) as [y E2].
  unfold meta_strace_post. rewrite E2. exists (s', Some ((o +:+ x) +:+ y)). split; [done|]. exact Es.
Qed.

(** C15: tracing does not interfere with system calls.  Without a trace file the wrapper of a
    handler is the handler.  With one, a call that returns gives the result and the state
    the handler alone gives, and has only added text to the file; and it does return when the
    handler does and the strings the trace prints, of the arguments before the call and of a buffer that was read
    after it, are mapped. *)
Theorem strace_transparent num name args (handler : M St Z) s :
  scwrapper num name args (unseen handler) (s, None) = unseen handler (s, None) /\
  forall o,
    (forall r s' sink, scwrapper num name args (unseen handler) (s, Some o) = Done r (s', sink) ->
       handler s = Done r s' /\ exists text, sink = Some (o +:+ text)) /\
    (forall r s', handler s = Done r s' -> (length args <= 6)%nat ->
       Forall (fun a => String.get 0 (a_type a) <> Some (Ascii.ascii_of_nat 48)) args -> name <> "unimplemented"%string ->
       pre_ok (t_um (task_of s)) num args = true -> post_ok (t_um (task_of s')) num args r = true ->
       exists text, scwrapper num name args (unseen handler) (s, Some o) = Done r (s', Some (o +:+ text))).
Proof.
  split.
  { destruct (handler s) as [r s'|w s'] eqn:E.
    - assert (unseen handler (s, None) = Done r (s', None)) as Eu by (unfold unseen; cbn [fst snd]; by rewrite E).
      by rewrite (scwrapper_off _ _ _ _ _ _ _ Eu).
    - unfold scwrapper, unseen, tracing. msimp. cbn [fst snd to_sink meta_strace_pre meta_strace_post]. by rewrite E. }
  intros o. split.
  - intros r s' sink E. unfold scwrapper, unseen, tracing in E. unfold mbind, M_bind, mret, M_ret in E. cbn [fst snd] in E.
    destruct (meta_strace_pre _ _ _ _ _ _ _ _) as [u1 k1|] eqn:E1; [|done]. cbn [fst snd] in E.
    destruct (handler s) as [r1 s1|] eqn:Eh; [|done]. cbn [fst snd] in E.
    destruct (meta_strace_post _ _ _ _ _ _) as [u2 k2|] eqn:E2; simplify_eq. split; [done|].
    apply to_sink_appends in E1 as [x ->]; [|apply pre_appends]. apply to_sink_appends in E2 as [y ->]; [|apply post_appends].
    exists (x +:+ y). by rewrite app_string_assoc.
  - intros r s' Eh Hl Hf Hn Hpre Hpost. unfold scwrapper, unseen, tracing. unfold mbind, M_bind, mret, M_ret. cbn [fst snd].
    destruct (to_sink_prints _ o (pre_prints (task_of s) (trace_pid (task_of s)) (trace_tid (task_of s)) trace_fuel num name args Hl Hf Hn Hpre)) as [x E1].
    unfold meta_strace_pre. rewrite E1. cbn [fst snd]. rewrite Eh. cbn [fst snd].
    destruct (to_sink_prints _ (o +:+ x) (post_prints (task_of s') num name args r Hl Hf Hn Hpost)) as [y E2].
    unfold meta_strace_post. rewrite E2. exists (x +:+ y). by rewrite app_string_assoc.
Qed.

(** *** Computations that are indifferent to the trace file

    With a file open they do to the rest of the state what they do without one and add text to the file,
    unless the code that traces crashes. *)
Definition trace_crash (w : stop) : bool := match w with Tracing w => crash w | _ => false end.

Definition indifferent {A} (c : M (St * option string) A) : Prop := forall s o,
  match c (s, Some o) with
  | Done a (s', sink) => c (s, None) = Done a (s', None) /\ exists x, sink = Some (o +:+ x)
  | Stop w (s', sink) => (trace_crash w = true \/ c (s, None) = Stop w (s', None)) /\ exists x, sink = Some (o +:+ x)
  end.

Lemma indifferent_bind {A B} (c : M (St * option string) A) (k : A -> M (St * option string) B) :
  indifferent c -> (forall a, indifferent (k a)) -> indifferent (c ≫= k).
Proof.
  intros Hc Hk s o. unfold mbind, M_bind. specialize (Hc s o). destruct (c (s, Some o)) as [a [s1 sink]|w [s1 sink]].
  - destruct Hc as [-> [x ->]]. specialize (Hk a s1 (o +:+ x)).
    destruct (k a (s1, Some (o +:+ x))) as [b [s2 sink]|w [s2 sink]]; destruct Hk as [? [y ->]];
      (split; [done|]); exists (x +:+ y); by rewrite app_string_assoc.
  - destruct Hc as [[Hw| ->] Hx]; (split; [|done]); [by left|by right].
Qed.

Lemma indifferent_ret {A} (a : A) : indifferent (mret a).
Proof. intros s o. split; [done|]. exists EmptyString. by rewrite app_string_nil. Qed.

Lemma indifferent_halt {A} w : indifferent (halt w : M (St * option string) A).
Proof. intros s o. split; [by right|]. exists EmptyString. by rewrite app_string_nil. Qed.

Lemma indifferent_unseen {A} (c : M St A) : indifferent (unseen c).
Proof.
  intros s o. unfold unseen. cbn [fst snd]. destruct (c s); (split; [by eauto|]); exists EmptyString; by rewrite app_string_nil.
Qed.

Lemma indifferent_on_task {A} (c : T A) : indifferent (on_task c).
Proof.
  intros s o. unfold on_task. cbn [fst snd task_of set_task pair_task].
  destruct (c (task_of s)); (split; [by eauto|]); exists EmptyString; by rewrite app_string_nil.
Qed.

(** A computation that looks at the task *)
Lemma indifferent_get {A} (k : tstate -> M (St * option string) A) :
  (forall t, indifferent (k t)) -> indifferent (s ← get; k (task_of s)).
Proof. intros Hk s o. apply (Hk (task_of s) s o). Qed.

Lemma indifferent_tracing c : (forall t, exists l, c t = to_sink l /\ appends l) -> indifferent (tracing c).
Proof.
  intros Hc s o. unfold tracing. cbn [fst snd]. destruct (Hc (task_of s)) as (l & -> & Hl & Hw). unfold to_sink.
  rewrite (Hl o). destruct (l EmptyString) as [a x|w x] eqn:E; (split; [|by exists x]); [done|]. left. by apply (Hw w x).
Qed.

Lemma indifferent_scwrapper num name args h : indifferent h -> indifferent (scwrapper num name args h).
Proof.
  intros Hh. unfold scwrapper. apply indifferent_bind; [apply indifferent_tracing|intros _].
  { intros t. eexists. split; [reflexivity|]. apply pre_appends. }
  apply indifferent_bind; [done|]. intros r. apply indifferent_bind; [apply indifferent_tracing|intros _; apply indifferent_ret].
  intros t. eexists. split; [reflexivity|]. apply post_appends.
Qed.

Lemma indifferent_sigdeliver sig : indifferent (sigdeliver sig).
Proof. apply indifferent_tracing. intros t. eexists. split; [reflexivity|]. apply appends_out. Qed.

(** *** The delivery of a signal, traced *)

Lemma sigdeliver_prints sig s sink : exists sink', sigdeliver sig (s, sink) = Done tt (s, sink').
Proof. destruct sink as [o|]; eexists; reflexivity. Qed.

Lemma wake_sighandler_traced `{OS} `{DarwinErrno} `{DarwinConst} `{!HasTaskOk St} s sink a t :
  wake_sighandler (task_of s) = Done a t -> exists sink', wake_sighandler (s, sink) = Done a (set_task t s, sink').
Proof.
  unfold wake_sighandler. generalize 65%nat as fuel. intros fuel. revert s sink t. induction fuel as [|fuel IH]; intros s sink t E; [done|].
  cbn [wake_sighandler_loop] in *. unfold mbind at 1, M_bind at 1 in E. rewrite on_task_id in E.
  destruct (pop_signal (task_of s)) as [sig t1|] eqn:Ep; [|done]. erewrite bind_Done by exact (on_task_pair _ _ _ _ _ Ep).
  destruct (sig =? 0); [injection E as <- <-; by eexists|].
  destruct (sigdeliver_prints sig (set_task t1 s) sink) as [sink1 Es]. erewrite bind_Done by exact Es.
  do 2 (unfold mbind at 1, M_bind at 1 in E; cbn [sigdeliver untraced_task mret M_ret] in E). rewrite on_task_id in E.
  destruct (action_at (sig - 1) t1) as [act t2|] eqn:Ea; [|done].
  erewrite bind_Done by (apply on_task_pair; rewrite task_of_set; exact Ea). rewrite set_task_twice.
  destruct (_ || _).
  - destruct (IH (set_task t2 s) sink1 t) as [sink2 E2]; [by rewrite task_of_set|]. exists sink2. by rewrite E2, set_task_twice.
  - rewrite on_task_id in E. exists sink1. erewrite on_task_pair by (rewrite task_of_set; exact E). by rewrite set_task_twice.
Qed.

End Transparent.

(** ** Runs *)

(** A task whose kernel has the descriptors 3 and 4 open and a host with something to read; its
    memory has the string [a], a newline, and the byte [0x80] at [0x10000]. *)
Definition trace_demo : tstate :=
  mk_tstate (set_um (user_write u3p 0x10000 [97; 10; 128; 0]) k34) (fun _ => 0) (fun _ => 0) [] 2 0 (mk_l_stack 0 0 0) 1 0 0 0 1.

Definition read_args (buf : Z) : list sc_arg := [mk_sc_arg "int" "fd" 3; mk_sc_arg "gaddr_t" "buf_ptr" buf; mk_sc_arg "size_t" "size" 5].
Definition path_args (path : Z) : list sc_arg := [mk_sc_arg "gstr_t" "path" path; mk_sc_arg "int" "mode" 0].
Definition mask_args : list sc_arg :=
  [mk_sc_arg "int" "how" 0; mk_sc_arg "gaddr_t" "nset" 0; mk_sc_arg "gaddr_t" "oset" 0; mk_sc_arg "size_t" "size" 4].

Section Runs.
#[local] Existing Instances macos_errno macos_const roomy_heap io_os.

#[local] Instance demo_trace : TraceEnv := {| trace_pid _ := 7; trace_tid _ := 1; trace_fuel := 64 |}.

Definition traced (num : Z) (name : string) (args : list sc_arg) (handler : T Z) : M (tstate * option string) Z :=
  scwrapper num name args (unseen handler).

Lemma strace_transparent_witness :
  exists text, traced 21 "access" (path_args 0x10000) (mret (- LINUX_ENOENT)) (trace_demo, Some EmptyString) =
    Done (- LINUX_ENOENT) (trace_demo, Some text).
Proof.
  destruct (strace_transparent 21 "access" (path_args 0x10000) (mret (- LINUX_ENOENT)) trace_demo) as [_ Ht].
  destruct (proj2 (Ht EmptyString) (- LINUX_ENOENT) trace_demo) as [text E];
    [reflexivity|simpl; lia|repeat constructor; done|done|vm_compute; reflexivity|reflexivity|].
  exists text. exact E.
Defined.

(** The text of a call, the characters of a string escaped; a byte above 127 is printed as a negative number. *)
Example trace_text :
  traced 21 "access" (path_args 0x10000) (mret (- LINUX_ENOENT)) (trace_demo, Some EmptyString) =
  Done (- LINUX_ENOENT) (trace_demo, Some ("[7:1] access(path: " +:+ quote +:+ "a\n\xffffff80" +:+ quote +:+
    ", mode: 0): ret = 0xfffffffffffffffe[LINUX_ENOENT]" +:+ nl)).
Proof. vm_compute. reflexivity. Qed.

(** With a trace file open, a [read] into an unmapped buffer and a path that is a bad pointer end
    the process, where without one they answer -EFAULT; and [rt_sigprocmask], whose hooks are
    exchanged, is traced with the result 0 before it runs, whatever its result is. *)
Theorem trace_departures :
  (exists t', lk (sys_read 3 0 5) trace_demo = Done (- LINUX_EFAULT) t' /\
     exists s, traced LSYS_read "read" (read_args 0) (lk (sys_read 3 0 5)) (trace_demo, Some EmptyString) = Stop (Tracing Fault) s) /\
  (exists s, traced 21 "access" (path_args 0) (mret (- LINUX_EFAULT)) (trace_demo, Some EmptyString) = Stop (Tracing Fault) s) /\
  traced LSYS_rt_sigprocmask "rt_sigprocmask" mask_args (sys_rt_sigprocmask 0 0 0 4) (trace_demo, Some EmptyString) =
  Done (- LINUX_EINVAL) (trace_demo, Some ("[7:1] rt_sigprocmask(nset: BLOCK, NULL ([LINUX_SIGINT, ]), NULL ([LINUX_SIGINT, ]), size: 0x4): ret = 0x0" +:+ nl)).
Proof.
  split; [|split; [|vm_compute; reflexivity]].
  - eexists. split; [vm_compute; reflexivity|]. eexists. vm_compute. reflexivity.
  - eexists. vm_compute. reflexivity.
Qed.

End Runs.
