(* ===== verification/Exec.v ===== *)
(** * Program execution ([src/proc/exec.c])

    [execve] reads its arguments from guest memory, throws the old process image
    away, maps the program's segments and its interpreter's, and builds the initial
    stack.  The state adds to a task's the part of the memory system the task does
    not have: the kernel's break and the calls of the hypervisor.  Messages on
    [stderr] are left out. *)

From S2P Require Import Prelude RBTree Const Errno Conv Mm Mmap MmapFacts MmInv MmSys UserMem FdTable Kernel Files Path FileOps PathOps Task Signal.

(** ** [src/proc/elf.h], [include/x86/vm.h], [include/linux/misc.h] *)

Definition ET_EXEC : Z := 2.
Definition ET_DYN : Z := 3.
Definition EM_X86_64 : Z := 62.
Definition PT_LOAD : Z := 1.
Definition PT_INTERP : Z := 3.
Definition PF_X : Z := 0x1.
Definition PF_W : Z := 0x2.
Definition PF_R : Z := 0x4.
Definition AT_NULL : Z := 0.
Definition AT_PHDR : Z := 3.
Definition AT_PHENT : Z := 4.
Definition AT_PHNUM : Z := 5.
Definition AT_PAGESZ : Z := 6.
Definition AT_BASE : Z := 7.
Definition AT_ENTRY : Z := 9.
Definition AT_RANDOM : Z := 25.
Definition ELFMAG : list Z := [127; 69; 76; 70].
Definition STACK_SIZE : Z := Z.shiftl 1 21.
Definition STACK_TOP : Z := 0x0000007fc0000000.
Definition LINUX_MAX_ARG_STRLEN : Z := 0x1000 * 32.
Definition LINUX_MAX_ARG_STRINGS : Z := 0x7FFFFFFF.
Definition SEG_CODE : Z := 1.
Definition SEG_DATA : Z := 2.
Definition GSEL (s r : Z) : Z := Z.lor (Z.shiftl s 3) r.

(** The fields of [Elf64_Ehdr] and [Elf64_Phdr] the code reads. *)
Record Elf64_Ehdr := mk_ehdr { e_type : Z; e_machine : Z; e_entry : Z; e_phoff : Z; e_phentsize : Z; e_phnum : Z }.
Record Elf64_Phdr := mk_phdr { p_type : Z; p_flags : Z; p_offset : Z; p_vaddr : Z; p_filesz : Z; p_memsz : Z }.
Definition sizeof_Elf64_Ehdr : Z := 64.
Definition sizeof_Elf64_Phdr : Z := 56.

(** ** State *)

(** What a fresh mapping of the host holds, by the calls before. *)
Class HostMem := { fresh_bytes : list hostcall -> Z -> Z }.

Record xstate := mk_xstate { x_task : tstate; x_brk : Z; x_calls : list hostcall }.
Definition x_um (x : xstate) : umem := t_um (x_task x).

#[global] Instance xstate_task : HasTask xstate := {| task_of := x_task; set_task t x := mk_xstate t (x_brk x) (x_calls x) |}.
#[global] Instance xstate_task_ok : HasTaskOk xstate.
Proof. split; [done|by intros []|done]. Qed.

Abbreviation X := (M xstate).

Definition ltask {A} (c : M tstate A) : X A := fun x =>
  match c (x_task x) with
  | Done a t => Done a (mk_xstate t (x_brk x) (x_calls x))
  | Stop w t => Stop w (mk_xstate t (x_brk x) (x_calls x))
  end.

Section Exec.
Context `{OS} `{DarwinErrno} `{DarwinConst} `{Heap} `{Host} `{HostMem}.

(** Host memory after the calls [new], latest first, that followed [old]. *)
Fixpoint after_calls (new old : list hostcall) (hm : Z -> Z) : Z -> Z :=
  match new with
  | [] => hm
  | e :: new' =>
    let hm := after_calls new' old hm in
    match e with
    | HMmap len _ _ _ _ (Some p) => fun a => if (p <=? a) && (a <? p + len) then fresh_bytes (new ++ old) a else hm a
    | HMemcpy dst src n => fun a => if (dst <=? a) && (a <? dst + n) then hm (src + (a - dst)) else hm a
    | _ => hm
    end
  end.

(** An operation of the memory system. *)
Definition lw {A} (c : M world A) : X A := fun x =>
  let u := x_um x in
  let back w :=
    let new := take (length (w_trace w) - length (x_calls x)) (w_trace w) in
    mk_xstate (tset_kern (set_um (mk_umem (w_mm w) (w_vkern w) (after_calls new (x_calls x) (hmem u))) (t_kern (x_task x))) (x_task x))
      (noah_kern_brk w) (w_trace w) in
  match c (mk_world (u_mm u) (u_vkern u) (x_brk x) (x_calls x)) with
  | Done a w => Done a (back w)
  | Stop s w => Stop s (back w)
  end.

Definition lkx {A} (c : M kstate A) : X A := ltask (lk c).

(** ** The file as mapped by the host *)

(** Bytes past the end of the file are zero up to the end of the page. *)
Definition dbytes (data : list Z) (off n : Z) : X (list Z) :=
  if (0 <=? off) && (off + n <=? roundup (Z.of_nat (length data)) PAGE)
  then mret (take (Z.to_nat n) (drop (Z.to_nat off) (data ++ replicate 4096 0)))
  else halt Fault.

Definition read_ehdr (data : list Z) : X Elf64_Ehdr :=
  bs ← dbytes data 0 sizeof_Elf64_Ehdr;
  mret (mk_ehdr (field bs 16 2) (field bs 18 2) (field bs 24 8) (field bs 32 8) (field bs 54 2) (field bs 56 2)).

(** [p[i]] with [p] at [e_phoff] *)
Definition read_phdr (data : list Z) (ehdr : Elf64_Ehdr) (i : Z) : X Elf64_Phdr :=
  bs ← dbytes data (e_phoff ehdr + i * sizeof_Elf64_Phdr) sizeof_Elf64_Phdr;
  mret (mk_phdr (field bs 0 4) (field bs 4 4) (field bs 8 8) (field bs 16 8) (field bs 32 8) (field bs 40 8)).

Definition is_elf (data : list Z) : bool := bool_decide (take 4 data = ELFMAG).

(** ** Segments *)

Definition segment_prot (flags : Z) : Z :=
  let prot := 0 in
  let prot := if testf flags PF_X then Z.lor prot LINUX_PROT_EXEC else prot in
  let prot := if testf flags PF_W then Z.lor prot LINUX_PROT_WRITE else prot in
  if testf flags PF_R then Z.lor prot LINUX_PROT_READ else prot.

Definition seg_base (ph : Elf64_Phdr) (load_addr : Z) : Z := clearf (u64 (p_vaddr ph + load_addr)) (PAGE - 1).
Definition seg_offset (ph : Elf64_Phdr) (load_addr : Z) : Z := Z.land (u64 (p_vaddr ph + load_addr)) (PAGE - 1).
Definition seg_size (ph : Elf64_Phdr) (load_addr : Z) : Z := roundup (u64 (p_memsz ph + seg_offset ph load_addr)) PAGE.

(** The body of the loops over [PT_LOAD] segments; returns the new [map_top]. *)
Definition load_segment (data : list Z) (ph : Elf64_Phdr) (load_addr map_top : Z) : X Z :=
  let vaddr := seg_base ph load_addr in
  let offset := seg_offset ph load_addr in
  let size := seg_size ph load_addr in
  assert_ (negb (vaddr =? 0));;
  lw (do_mmap vaddr size (Z.lor PROT_READ PROT_WRITE) (segment_prot (p_flags ph))
        (Z.lor LINUX_MAP_PRIVATE (Z.lor LINUX_MAP_FIXED LINUX_MAP_ANONYMOUS)) (-1) 0);;
  bs ← dbytes data (p_offset ph) (p_filesz ph);
  lkx (k_copy_to_user (u64 (vaddr + offset)) bs);;
  mret (MAX map_top (roundup (u64 (vaddr + size)) PAGE)).

Fixpoint interp_segments (n : nat) (i : Z) (data : list Z) (h : Elf64_Ehdr) (load_addr map_top : Z) : X Z :=
  match n with
  | O => mret map_top
  | S n =>
    ph ← read_phdr data h i;
    map_top ← (if negb (p_type ph =? PT_LOAD) then mret map_top else load_segment data ph load_addr map_top);
    interp_segments n (i + 1) data h load_addr map_top
  end.

(** [fstat(fd, &st)]: size and mode; [mmap(0, st.st_size, ..., fd, 0)]: the file. *)
Definition host_fstat (fd : Z) : X (Z * Z) :=
  r ← lkx (hcall "fstat" [HI fd]); mret (field (outbuf (h_out r) 0) 0 8, field (outbuf (h_out r) 1) 0 2).
Definition host_map_file (fd size : Z) : X (list Z) :=
  r ← lkx (hcall "mmap" [HI size; HI fd]);
  if h_ret r <? 0 then halt Fault else mret (outbuf (h_out r) 0).

Definition set_start_brk_x (v : Z) : X unit := lw (on_mm (modify (set_start_brk v))).

Definition load_elf_interp (path : list Z) (load_addr : Z) : X Z :=
  fd ← lkx (vkern_open path LINUX_O_RDONLY 0);
  if fd <? 0 then mret (-1)
  else
    '(st_size, _) ← host_fstat fd;
    data ← host_map_file fd st_size;
    lkx (vkern_close fd);;
    assert_ (is_elf data);;
    h ← read_ehdr data;
    if negb ((e_type h =? ET_EXEC) || (e_type h =? ET_DYN)) then mret (- LINUX_ENOEXEC)
    else if negb (e_machine h =? EM_X86_64) then mret (- LINUX_ENOEXEC)
    else
      map_top ← interp_segments (Z.to_nat (e_phnum h)) 0 data h load_addr 0;
      ltask (vmm_write_vmcs "GUEST_RIP" (load_addr + e_entry h));;
      set_start_brk_x map_top;;
      lkx (hcall "munmap" [HI st_size]);;
      mret 0.

(** ** The initial stack *)

(** [strlen(s) + 1] bytes *)
Definition cstr (s : list Z) : list Z := s ++ [0].

Definition push (bs : list Z) : X Z :=
  let size := roundup (Z.of_nat (length bs)) 8 in
  rsp ← ltask (vmm_read_register RSP);
  let rsp := u64 (rsp - size) in
  ltask (vmm_write_register RSP rsp);;
  lkx (k_copy_to_user rsp bs);;
  mret rsp.

(** The loops that push the addresses of the strings [ss], last first; [buf] is the
    block of strings and [args_start] its address in the guest. *)
Fixpoint push_strings (ss : list (list Z)) (ptr args_start : Z) (buf : list Z) : X unit :=
  match ss with
  | [] => mret tt
  | s :: ss =>
    let ptr := u64 (ptr - (Z.of_nat (length s) + 1)) in
    push (le_encode 8 ptr);;
    assert_ (bool_decide (until_nul (drop (Z.to_nat (ptr - args_start)) buf) = s));;
    push_strings ss ptr args_start buf
  end.

Definition auxv (interp_base : Z) (ehdr : Elf64_Ehdr) (exe_base global_offset rand_ptr : Z) : list (Z * Z) :=
  [(AT_BASE, interp_base); (AT_ENTRY, u64 (e_entry ehdr + global_offset)); (AT_PHDR, u64 (exe_base + e_phoff ehdr));
   (AT_PHENT, e_phentsize ehdr); (AT_PHNUM, e_phnum ehdr); (AT_PAGESZ, PAGE); (AT_RANDOM, rand_ptr); (AT_NULL, 0)].
Definition auxv_bytes (aux : list (Z * Z)) : list Z := enc (aux ≫= (fun p => [(8%nat, p.1); (8%nat, p.2)])).

(** The part of [init_userstack] below the strings. *)
Definition push_vectors (argv envp : list (list Z)) (aux : list (Z * Z)) (args_start : Z) : X unit :=
  let args := argv ≫= cstr in
  let buf := args ++ (envp ≫= cstr) in
  let args_end := u64 (args_start + Z.of_nat (length args)) in
  let env_end := u64 (args_start + Z.of_nat (length buf)) in
  push (auxv_bytes aux);;
  push (le_encode 8 0);;
  push_strings (rev envp) env_end args_start buf;;
  push (le_encode 8 0);;
  push_strings (rev argv) args_end args_start buf;;
  push (le_encode 8 (Z.of_nat (length argv)));;
  mret tt.

(** [init_userstack] behind the mapping of the stack. *)
Definition fill_userstack (argv envp : list (list Z)) (exe_base : Z) (ehdr : Elf64_Ehdr) (global_offset interp_base : Z) : X unit :=
  ltask (vmm_write_register RSP STACK_TOP);;
  ltask (vmm_write_register RBP STACK_TOP);;
  x ← get;
  rand_ptr ← push (take 16 (uninit (k_trace (t_kern (x_task x))) ++ replicate 16 0));
  args_start ← push ((argv ≫= cstr) ++ (envp ≫= cstr));
  push_vectors argv envp (auxv interp_base ehdr exe_base global_offset rand_ptr) args_start.

(** The arrays are on the host's stack, whose size neither the code nor the model checks. *)
Definition init_userstack (argv envp : list (list Z)) (exe_base : Z) (ehdr : Elf64_Ehdr) (global_offset interp_base : Z) : X unit :=
  lw (do_mmap (STACK_TOP - STACK_SIZE) STACK_SIZE (Z.lor PROT_READ PROT_WRITE) (Z.lor LINUX_PROT_READ LINUX_PROT_WRITE)
        (Z.lor LINUX_MAP_PRIVATE (Z.lor LINUX_MAP_FIXED LINUX_MAP_ANONYMOUS)) (-1) 0);;
  fill_userstack argv envp exe_base ehdr global_offset interp_base.

(** ** ELF files *)

(** The loop of [load_elf]: [load_base] once it is set, and [map_top]. *)
Fixpoint elf_segments (n : nat) (i : Z) (data : list Z) (ehdr : Elf64_Ehdr) (global_offset : Z)
    (load_base : option Z) (map_top : Z) : X (option Z * Z) :=
  match n with
  | O => mret (load_base, map_top)
  | S n =>
    ph ← read_phdr data ehdr i;
    if negb (p_type ph =? PT_LOAD) then elf_segments n (i + 1) data ehdr global_offset load_base map_top
    else
      map_top ← load_segment data ph global_offset map_top;
      let load_base := match load_base with
                       | Some b => Some b
                       | None => Some (u64 (p_vaddr ph - p_offset ph + global_offset))
                       end in
      elf_segments n (i + 1) data ehdr global_offset load_base map_top
  end.

(** The first [PT_INTERP] header. *)
Fixpoint find_interp (n : nat) (i : Z) (data : list Z) (ehdr : Elf64_Ehdr) : X (option Elf64_Phdr) :=
  match n with
  | O => mret None
  | S n =>
    ph ← read_phdr data ehdr i;
    if p_type ph =? PT_INTERP then mret (Some ph) else find_interp n (i + 1) data ehdr
  end.

Definition load_elf (data : list Z) (argv envp : list (list Z)) : X Z :=
  assert_ (is_elf data);;
  ehdr ← read_ehdr data;
  if negb (e_type ehdr =? ET_EXEC) && negb (e_type ehdr =? ET_DYN) then mret (- LINUX_ENOEXEC)
  else if negb (e_machine ehdr =? EM_X86_64) then mret (- LINUX_ENOEXEC)
  else
    let global_offset := if e_type ehdr =? ET_DYN then 0x400000 else 0 in
    '(load_base, map_top) ← elf_segments (Z.to_nat (e_phnum ehdr)) 0 data ehdr global_offset None 0;
    assert_ (bool_decide (is_Some load_base));;
    interp ← find_interp (Z.to_nat (e_phnum ehdr)) 0 data ehdr;
    ok ← (match interp with
          | Some ph =>
            path ← dbytes data (p_offset ph) (p_filesz ph);
            r ← load_elf_interp (until_nul path) map_top;
            mret (negb (r <? 0))
          | None =>
            ltask (vmm_write_vmcs "GUEST_RIP" (e_entry ehdr + global_offset));;
            set_start_brk_x map_top;;
            mret true
          end);
    if negb ok then mret (-1)
    else
      init_userstack argv envp (default 0 load_base) ehdr global_offset
        (match interp with Some _ => map_top | None => 0 end);;
      mret 1.

(** ** Scripts *)

Definition SB_ARGC_MAX : nat := 2.
Definition LINUX_ENAMETOOLONG : Z := Eval vm_compute in default 0 (constant LINUX_ERRNO "ENAMETOOLONG").

(** [isspace] of the C locale *)
Definition isspace (c : Z) : bool := ((9 <=? c) && (c <=? 13)) || (c =? 32).

(** [while (isspace( *script) && *script != '\n') script++]; the byte at the end
    of the file, 0, is no space. *)
Fixpoint skip_blanks (script : list Z) : list Z :=
  match script with
  | c :: rest => if isspace c && negb (c =? 10) then skip_blanks rest else script
  | [] => []
  end.

(** [for (n = 0; !isspace(script[n]); ++n)]: the word and what follows it, [None]
    when the end of the file comes first.  (A file of whole pages whose first line
    has no end is read one byte past its mapping; here that byte is 0.) *)
Fixpoint take_word (script : list Z) : option (list Z * list Z) :=
  match script with
  | [] => None
  | c :: rest => if isspace c then Some ([], script) else '(w, r) ← take_word rest; Some (c :: w, r)
  end.

(** The words of the first line, at most [n]. *)
Fixpoint script_words (n : nat) (script : list Z) : Z + list (list Z) :=
  match n with
  | O => inr []
  | S n =>
    match take_word (skip_blanks script) with
    | None | Some ([], _) => inr []
    | Some (w, rest) =>
      if Z.of_nat (length w) >? LINUX_PATH_MAX - 1 then inl (- LINUX_ENAMETOOLONG)
      else match script_words n rest with inl e => inl e | inr ws => inr (w :: ws) end
    end
  end.

(** [load_script] up to the call of [do_exec]: the new arguments. *)
Definition script_argv (data elf_path : list Z) (argv : list (list Z)) : Z + list (list Z) :=
  match script_words SB_ARGC_MAX (drop 2 data) with
  | inl e => inl e
  | inr [] => inl (- LINUX_EFAULT)
  | inr ws => inr (ws ++ elf_path :: drop 1 argv)
  end.

(** ** [do_exec] *)

(** The registers; the state of the FPU ([init_fpu]) is left out. *)
Definition init_reg_state : T unit :=
  vmm_write_register RAX 0;; vmm_write_register RBX 0;; vmm_write_register RCX 0;; vmm_write_register RDX 0;;
  vmm_write_register RSI 0;; vmm_write_register RDI 0;; vmm_write_register R8 0;; vmm_write_register R9 0;;
  vmm_write_register R10 0;; vmm_write_register R11 0;; vmm_write_register R12 0;; vmm_write_register R13 0;;
  vmm_write_register R14 0;; vmm_write_register R15 0;;
  vmm_write_vmcs "GUEST_FS" 0;; vmm_write_vmcs "GUEST_ES" 0;; vmm_write_vmcs "GUEST_GS" 0;; vmm_write_vmcs "GUEST_DS" 0;;
  vmm_write_vmcs "GUEST_CS" (GSEL SEG_CODE 0);; vmm_write_vmcs "GUEST_DS" (GSEL SEG_DATA 0);;
  vmm_write_vmcs "GUEST_FS_BASE" 0;; vmm_write_vmcs "GUEST_GS_BASE" 0;; vmm_write_vmcs "GUEST_LDTR" 0.

Definition prepare_newproc : X unit :=
  ltask (modify (tset_nr_tasks 1));;
  lw destroy_mm;;
  lw (on_mm (put init_mm));;
  ltask init_reg_state;;
  ltask reset_signal_state;;
  ltask (modify (fun t => tset_tids (t_tid t) 0 0 t));;
  ltask (modify (tset_robust 0));;
  lkx close_cloexec.

(** [src/main.c] *)
Definition drop_privilege : X unit :=
  u ← lkx (hcall "getuid" []);
  r ← lkx (hcall "seteuid" [HI (h_ret u)]);
  if negb (h_ret r =? 0) then halt Panic else mret tt.
Definition elevate_privilege : X unit :=
  lkx (modify (fun k => set_cred (mk_cred (c_uid (k_cred k)) 0 0) k));;
  r ← lkx (hcall "seteuid" [HI 0]);
  if negb (h_ret r =? 0) then halt Panic else mret tt.

Definition S_ISREG (mode : Z) : bool := Z.land mode (D "S_IFMT") =? D "S_IFREG".

(** A script is executed by another [do_exec]; [fuel] bounds the chain of
    interpreters, which the code does not. *)
Fixpoint do_exec (fuel : nat) (elf_path : list Z) (argv envp : list (list Z)) : X Z :=
  match fuel with
  | O => halt Diverge
  | S fuel =>
    err ← lkx (do_access elf_path (D "X_OK"));
    if err <? 0 then mret err
    else
      fd ← lkx (vkern_open elf_path LINUX_O_RDONLY 0);
      if fd <? 0 then mret fd
      else
        x ← get;
        if t_nr_tasks (x_task x) >? 1 then mret (- LINUX_EINVAL)
        else
          '(st_size, st_mode) ← host_fstat fd;
          if negb (S_ISREG st_mode) then lkx (vkern_close fd);; mret (- LINUX_EACCES)
          else
            prepare_newproc;;
            data ← host_map_file fd st_size;
            lkx (vkern_close fd);;
            drop_privilege;;
            err ← (if (4 <=? st_size) && is_elf data then
                     err ← load_elf data argv envp;
                     if err <? 0 then mret (Some err)
                     else (if testf st_mode 2048 then elevate_privilege else mret tt);; mret None
                   else if (2 <=? st_size) && bool_decide (take 2 data = [35; 33]) then
                     match script_argv data elf_path argv with
                     | inl e => mret (Some e)
                     | inr newargv =>
                       if bool_decide (argv = []) then halt Fault   (* memcpy of (argc - 1) * 8 bytes *)
                       else do_exec fuel (default [] (head newargv)) newargv envp;; mret None
                     end
                   else mret (Some (- LINUX_ENOEXEC)));
            match err with
            | Some e => mret e
            | None =>
              lkx (hcall "munmap" [HI st_size]);;
              lw (on_mm (modify (fun m => set_current_brk (start_brk m) m)));;
              mret 0
            end
  end.

(** ** [execve] *)

(** A loop of at most [n] rounds, [n] in binary. *)
Fixpoint loop {A B} (n : positive) (body : A -> X (A + B)) (a : A) : X (A + B) :=
  let twice p a := r ← loop p body a; match r with inl a => loop p body a | inr b => mret (inr b) end in
  match n with
  | xH => body a
  | xO p => twice p a
  | xI p => r ← body a; match r with inl a => twice p a | inr b => mret (inr b) end
  end.

(** One round of the loops that copy [argv] and [envp]: the strings so far, last
    first, and either an error or all of them. *)
Definition copy_string (gptr : Z) (acc : list (list Z)) : X (list (list Z) + (Z + list (list Z))) :=
  let i := Z.of_nat (length acc) in
  '(e, bs) ← lkx (k_copy_from_user (u64 (gptr + 8 * i)) 8);
  if negb (e =? 0) then mret (inr (inl (- LINUX_EFAULT)))
  else
    let addr := le_decode bs in
    if addr =? 0 then mret (inr (inr (rev acc)))
    else if i + 1 + 1 >? LINUX_MAX_ARG_STRINGS then mret (inr (inl (- LINUX_E2BIG)))
    else
      x ← get;
      match strnlen_user (x_um x) addr LINUX_MAX_ARG_STRLEN with
      | None => halt Diverge
      | Some size =>
        if size =? 0 then mret (inr (inl (- LINUX_EFAULT)))
        else if size >? LINUX_MAX_ARG_STRLEN then mret (inr (inl (- LINUX_E2BIG)))
        else
          '(_, s) ← lkx (k_copy_from_user addr size);
          mret (inl (until_nul s :: acc))
      end.

Definition copy_strings (gptr : Z) : X (Z + list (list Z)) :=
  r ← loop 0x80000000 (copy_string gptr) [];
  match r with inl _ => halt Diverge | inr r => mret r end.

Definition sys_execve (fuel : nat) (gelf_path gargv genvp : Z) : X Z :=
  '(_, elf_path) ← lkx (k_strncpy_from_user gelf_path LINUX_PATH_MAX);
  a ← copy_strings gargv;
  match a with
  | inl err => mret err
  | inr argv =>
    e ← copy_strings genvp;
    match e with
    | inl err => mret err
    | inr envp =>
      err ← do_exec fuel elf_path argv envp;
      if err <? 0 then mret err
      else
        entry ← ltask (vmm_read_register RIP);
        ltask (vmm_write_register RIP (entry - 2));;
        mret err
    end
  end.

End Exec.

(** ** Reading guest memory *)

Lemma user_bytes_ext u u' m : forall a,
  (forall i, 0 <= i < Z.of_nat m -> translate u' (a + i) = translate u (a + i)) ->
  (forall i h, 0 <= i < Z.of_nat m -> translate u (a + i) = Some h -> hmem u' h = hmem u h) ->
  user_bytes u' a m = user_bytes u a m.
Proof.
  induction m as [|m IH]; intros a Ht Hh; [done|]. cbn [user_bytes].
  assert (translate u' a = translate u a) as -> by (rewrite <- (Z.add_0_r a); apply Ht; lia).
  destruct (translate u a) as [h|] eqn:E; [|done]. f_equal.
  - apply (Hh 0); [lia|]. by rewrite Z.add_0_r.
  - apply IH; intros i; [intros Hi|intros h' Hi]; rewrite <- Z.add_assoc; [apply Ht|apply Hh]; lia.
Qed.

Lemma user_bytes_app u n m : forall a, (forall i, 0 <= i < Z.of_nat n -> is_Some (translate u (a + i))) ->
  user_bytes u a (n + m) = user_bytes u a n ++ user_bytes u (a + Z.of_nat n) m.
Proof.
  induction n as [|n IH]; intros a Hm; [by rewrite Z.add_0_r|]. cbn [user_bytes Nat.add].
  destruct (Hm 0) as [h Hh]; [lia|]. rewrite Z.add_0_r in Hh. rewrite Hh. cbn [app]. f_equal.
  rewrite IH; [do 2 f_equal; lia|]. intros i Hi. rewrite <- Z.add_assoc. apply Hm. lia.
Qed.

Lemma mapped_length u n : forall a, (forall i, 0 <= i < Z.of_nat n -> is_Some (translate u (a + i))) -> length (user_bytes u a n) = n.
Proof.
  induction n as [|n IH]; intros a Hm; cbn [user_bytes]; [done|]. destruct (Hm 0) as [h Hh]; [lia|]. rewrite Z.add_0_r in Hh.
  rewrite Hh. cbn [length]. f_equal. apply IH. intros i Hi. rewrite <- Z.add_assoc. apply Hm. lia.
Qed.

(** ** Pushing *)

Section Stack.
Context `{OS} `{DarwinErrno} `{DarwinConst} `{HostOk} `{HostMem}.

Definition stack_low : Z := STACK_TOP - STACK_SIZE.

(** The stack from the stack pointer [sp] to its top holds [bs]. *)
Record stack_at (x : xstate) (sp : Z) (bs : list Z) : Prop := {
  sa_rsp : t_regs (x_task x) RSP = sp;
  sa_low : stack_low <= sp;
  sa_top : sp + Z.of_nat (length bs) = STACK_TOP;
  sa_buffer : buffer_ok (x_um x) stack_low STACK_SIZE;
  sa_bytes : user_bytes (x_um x) sp (length bs) = bs;
}.

Lemma roundup8 n : 0 <= n < 2 ^ 40 -> n <= roundup n 8 < n + 8 /\ roundup n 8 mod 8 = 0.
Proof. intros. apply roundup_spec; lia. Qed.

Lemma ltask_Done {A} (c : M tstate A) x a t : c (x_task x) = Done a t -> ltask c x = Done a (mk_xstate t (x_brk x) (x_calls x)).
Proof. unfold ltask. by intros ->. Qed.

Lemma buffer_ext u u' a n : (forall b, translate u' b = translate u b) -> umem_ok u' -> buffer_ok u a n -> buffer_ok u' a n.
Proof.
  intros Ht Hu' (_ & Ha & Hb & Hm & Hi). split_and!; try done; intros; rewrite !Ht; auto.
Qed.

Lemma stack_consts : stack_low = 0x7fbfe00000 /\ STACK_TOP = 0x7fc0000000 /\ STACK_SIZE = 0x200000.
Proof. done. Qed.

Lemma push_ok x sp bs data : stack_at x sp bs -> Z.of_nat (length data) <= STACK_SIZE ->
  let n := roundup (Z.of_nat (length data)) 8 in stack_low <= sp - n ->
  exists x' pad, push data x = Done (sp - n) x' /\ stack_at x' (sp - n) (data ++ pad ++ bs) /\
    Z.of_nat (length pad) = n - Z.of_nat (length data).
Proof.
  intros Hs Hd n Hlow. destruct Hs as [Hr Hl Ht Hb Hbs]. pose proof Hb as (_ & _ & _ & Hmap & Hinj).
  destruct stack_consts as (C1 & C2 & C3). rewrite C1 in *. rewrite C2 in *. rewrite C3 in *.
  destruct (roundup8 (Z.of_nat (length data))) as [Hn _]; [lia|]. fold n in Hn.
  assert (u64 (sp - n) = sp - n) as Eu64 by (apply wrap_small; lia).
  set (x1 := mk_xstate (tset_regs (upd_reg RSP (sp - n) (t_regs (x_task x))) (x_task x)) (x_brk x) (x_calls x)).
  destruct (lk_copy_to_ok (x_task x1) (sp - n) data) as (u & Ec & Eu & Et & Hu & Eh & _).
  { apply (buffer_sub _ 0x7fbfe00000 0x200000); [exact Hb|lia|lia]. }
  set (x2 := mk_xstate (tset_kern (set_um u (t_kern (x_task x1))) (x_task x1)) (x_brk x) (x_calls x)).
  assert (forall i, 0 <= i < 0x200000 -> is_Some (translate u (0x7fbfe00000 + i))) as Hmap'.
  { intros i Hi. rewrite Et. apply Hmap. done. }
  exists x2, (user_bytes u (sp - n + Z.of_nat (length data)) (Z.to_nat (n - Z.of_nat (length data)))).
  assert (length (user_bytes u (sp - n + Z.of_nat (length data)) (Z.to_nat (n - Z.of_nat (length data)))) =
    Z.to_nat (n - Z.of_nat (length data))) as Hpad.
  { apply mapped_length. intros i Hi. replace (sp - n + Z.of_nat (length data) + i) with
      (0x7fbfe00000 + (sp - n + Z.of_nat (length data) + i - 0x7fbfe00000)) by lia. apply Hmap'. lia. }
  split; [|split; [|rewrite Hpad; lia]].
  - assert (ltask (vmm_write_register RSP (sp - n)) x = Done tt x1) as Ew.
    { unfold ltask, vmm_write_register, modify. by rewrite Eu64. }
    assert (ltask (vmm_read_register RSP) x = Done sp x) as Er by (destruct x as [[]]; cbn in *; by subst).
    unfold push. fold n. rewrite (bind_Done _ _ _ _ _ Er). cbv zeta. rewrite Eu64, (bind_Done _ _ _ _ _ Ew).
    erewrite bind_Done by exact (ltask_Done _ x1 _ _ Ec). done.
  - constructor; unfold x_um; cbn [x_task x2 x1 t_regs tset_kern tset_regs t_um t_kern set_um k_um].
    + apply upd_reg_eq.
    + rewrite C1. lia.
    + rewrite !length_app, Hpad, C2. lia.
    + apply (buffer_ext (x_um x)); [exact Et|exact Hu|]. by rewrite C1, C3.
    + rewrite !length_app, Hpad. rewrite user_bytes_app.
      2: { intros i Hi. replace (sp - n + i) with (0x7fbfe00000 + (sp - n + i - 0x7fbfe00000)) by lia. apply Hmap'. lia. }
      rewrite user_bytes_app.
      2: { intros i Hi. replace (sp - n + Z.of_nat (length data) + i) with (0x7fbfe00000 + (sp - n + Z.of_nat (length data) + i - 0x7fbfe00000)) by lia.
           apply Hmap'. lia. }
      f_equal; [exact Eu|]. f_equal. replace (sp - n + Z.of_nat (length data) + Z.of_nat (Z.to_nat (n - Z.of_nat (length data)))) with sp by lia.
      rewrite <- Hbs at 2. apply user_bytes_ext; [intros; apply Et|]. intros i h Hi Ei. apply Eh. intros j Hj Ej.
      apply (Hinj (sp - n + j - 0x7fbfe00000) (sp + i - 0x7fbfe00000)); [lia|lia|].
      replace (0x7fbfe00000 + (sp - n + j - 0x7fbfe00000)) with (sp - n + j) by lia.
      replace (0x7fbfe00000 + (sp + i - 0x7fbfe00000)) with (sp + i) by lia. rewrite Ei. exact Ej.
Qed.

(** A push of whole words leaves no gap. *)
Lemma push_words x sp bs data : stack_at x sp bs -> Z.of_nat (length data) mod 8 = 0 -> stack_low <= sp - Z.of_nat (length data) ->
  exists x', push data x = Done (sp - Z.of_nat (length data)) x' /\ stack_at x' (sp - Z.of_nat (length data)) (data ++ bs).
Proof.
  intros Hs Hm Hl. pose proof (sa_top _ _ _ Hs). destruct stack_consts as (C1 & C2 & C3).
  assert (roundup (Z.of_nat (length data)) 8 = Z.of_nat (length data)) as Er by (apply roundup_aligned; lia).
  destruct (push_ok x sp bs data Hs) as (x' & pad & E & Hs' & Hp); [lia|by rewrite Er|]. rewrite Er in *.
  destruct pad; [|cbn in Hp; lia]. by exists x'.
Qed.

(** The addresses of strings laid out one after the other from [base]. *)
Fixpoint addrs (base : Z) (ss : list (list Z)) : list Z :=
  match ss with
  | [] => []
  | s :: ss => base :: addrs (base + Z.of_nat (length s) + 1) ss
  end.
Definition words (l : list Z) : list Z := l ≫= le_encode 8.

Lemma addrs_snoc ss s : forall base, addrs base (ss ++ [s]) = addrs base ss ++ [base + Z.of_nat (length (ss ≫= cstr))].
Proof.
  induction ss as [|s0 ss IH]; intros base; cbn [addrs app mbind list_bind]; [by rewrite Z.add_0_r|].
  rewrite IH. unfold cstr at 2. rewrite !length_app. cbn [length]. do 3 f_equal. lia.
Qed.

Lemma addrs_length ss : forall base, length (addrs base ss) = length ss.
Proof. induction ss as [|s ss IH]; intros base; [done|]. cbn. by rewrite IH. Qed.

Lemma words_app l1 l2 : words (l1 ++ l2) = words l1 ++ words l2.
Proof. apply bind_app. Qed.

Lemma words_length l : length (words l) = (8 * length l)%nat.
Proof. induction l as [|v l IH]; [done|]. unfold words in *. rewrite bind_cons, length_app, le_encode_length, IH. cbn [length]. lia. Qed.

Definition no_nul (s : list Z) : Prop := Forall (fun b => b <> 0) s.

(** One of the loops over the strings: their addresses, in the strings' order. *)
Lemma push_strings_ok ss : forall x sp bs buf pre post base,
  stack_at x sp bs -> Forall no_nul ss -> buf = pre ++ (rev ss ≫= cstr) ++ post ->
  0 <= base -> base + Z.of_nat (length buf) < 2 ^ 64 -> stack_low <= sp - 8 * Z.of_nat (length ss) ->
  exists x', push_strings ss (base + Z.of_nat (length (pre ++ (rev ss ≫= cstr)))) base buf x = Done tt x' /\
    stack_at x' (sp - 8 * Z.of_nat (length ss)) (words (addrs (base + Z.of_nat (length pre)) (rev ss)) ++ bs).
Proof.
  induction ss as [|s ss IH]; intros x sp bs buf pre post base Hs Hn Hbuf Hb0 Hb1 Hl.
  { exists x. split; [done|]. cbn. by rewrite Z.sub_0_r. }
  apply Forall_cons in Hn as [Hn0 Hn]. cbn [rev] in *. rewrite bind_app, bind_singleton in *.
  rewrite <- app_assoc in Hbuf. cbn [length] in Hl.
  set (blk := rev ss ≫= cstr) in *. cbn [push_strings].
  assert (length (cstr s) = S (length s)) as Hcs by (unfold cstr; rewrite length_app; cbn; lia).
  assert (Z.of_nat (length buf) = Z.of_nat (length pre) + Z.of_nat (length blk) + Z.of_nat (length s) + 1 + Z.of_nat (length post)) as Hlen.
  { rewrite Hbuf, !length_app, Hcs. lia. }
  assert (u64 (base + Z.of_nat (length (pre ++ blk ++ cstr s)) - (Z.of_nat (length s) + 1)) = base + Z.of_nat (length (pre ++ blk))) as ->.
  { rewrite !length_app, Hcs. rewrite wrap_small by lia. lia. }
  destruct (push_words x sp bs (le_encode 8 (base + Z.of_nat (length (pre ++ blk)))) Hs) as (x1 & E1 & Hs1);
    rewrite le_encode_length in *; [done|lia|]. cbv zeta. rewrite (bind_Done _ _ _ _ _ E1).
  replace (Z.to_nat (base + Z.of_nat (length (pre ++ blk)) - base)) with (length (pre ++ blk)) by lia.
  assert (until_nul (drop (length (pre ++ blk)) buf) = s) as Eu.
  { rewrite Hbuf, app_assoc, drop_app_length. unfold cstr. rewrite <- app_assoc. apply until_nul_app, Hn0. }
  rewrite Eu, bool_decide_eq_true_2 by done. erewrite bind_Done by reflexivity.
  destruct (IH x1 (sp - Z.of_nat 8) _ buf pre (cstr s ++ post) base Hs1 Hn Hbuf Hb0 Hb1) as (x2 & E2 & Hs2); [lia|].
  exists x2. split; [exact E2|]. rewrite addrs_snoc, words_app, <- app_assoc. fold blk. cbn [words mbind list_bind]. rewrite app_nil_r.
  replace (base + Z.of_nat (length pre) + Z.of_nat (length blk)) with (base + Z.of_nat (length (pre ++ blk))) by (rewrite length_app; lia).
  replace (sp - 8 * Z.of_nat (length (s :: ss))) with (sp - Z.of_nat 8 - 8 * Z.of_nat (length ss)) by (cbn [length]; lia). exact Hs2.
Qed.

(** ** What the program finds *)

Definition word_at (u : umem) (a v : Z) : Prop := user_bytes u a 8 = le_encode 8 v.
Definition string_at (u : umem) (a : Z) (s : list Z) : Prop := user_bytes u a (S (length s)) = cstr s.

Lemma bytes_split u a bs1 bs2 : (forall i, 0 <= i < Z.of_nat (length bs1) -> is_Some (translate u (a + i))) ->
  user_bytes u a (length (bs1 ++ bs2)) = bs1 ++ bs2 ->
  user_bytes u a (length bs1) = bs1 /\ user_bytes u (a + Z.of_nat (length bs1)) (length bs2) = bs2.
Proof.
  intros Hm E. rewrite length_app, user_bytes_app in E by done. apply app_inj_1 in E; [done|]. by apply mapped_length.
Qed.

Lemma buffer_mapped u a n b m : buffer_ok u a n -> a <= b -> b + m <= a + n -> forall i, 0 <= i < m -> is_Some (translate u (b + i)).
Proof. intros Hb Hab Hbm. by destruct (buffer_sub u a n b m Hb Hab Hbm) as (_ & _ & _ & Hm & _). Qed.

Lemma words_at u l : forall a, buffer_ok u a (Z.of_nat (length (words l))) -> user_bytes u a (length (words l)) = words l ->
  forall i v, l !! i = Some v -> word_at u (a + 8 * Z.of_nat i) v.
Proof.
  induction l as [|w l IH]; intros a Hb E i v Hi; [done|]. rewrite words_length in Hb. cbn [length] in Hb.
  change (words (w :: l)) with (le_encode 8 w ++ words l) in E.
  apply bytes_split in E as [E1 E2]; rewrite le_encode_length in *; [|apply (buffer_mapped _ _ _ _ _ Hb); lia].
  destruct i as [|i]; [|simpl in Hi].
  - injection Hi as ->. by rewrite Z.add_0_r.
  - replace (a + 8 * Z.of_nat (S i)) with (a + Z.of_nat 8 + 8 * Z.of_nat i) by lia. apply IH; [|done|done].
    rewrite words_length. apply (buffer_sub _ _ _ _ _ Hb); lia.
Qed.

Lemma strings_at u ss : forall a, buffer_ok u a (Z.of_nat (length (ss ≫= cstr))) -> user_bytes u a (length (ss ≫= cstr)) = ss ≫= cstr ->
  Forall2 (string_at u) (addrs a ss) ss.
Proof.
  induction ss as [|s ss IH]; intros a Hb E; cbn [addrs]; [constructor|]. rewrite bind_cons in *. rewrite length_app in Hb.
  assert (length (cstr s) = S (length s)) as Hcs by (unfold cstr; rewrite length_app; cbn; lia).
  apply bytes_split in E as [E1 E2]; [|apply (buffer_mapped _ _ _ _ _ Hb); lia]. constructor.
  - unfold string_at. by rewrite <- Hcs.
  - replace (a + Z.of_nat (length s) + 1) with (a + Z.of_nat (length (cstr s))) by lia. apply IH; [|done].
    apply (buffer_sub _ _ _ _ _ Hb); lia.
Qed.

Definition flat (aux : list (Z * Z)) : list Z := aux ≫= (fun p => [p.1; p.2]).

Lemma auxv_words aux : auxv_bytes aux = words (flat aux).
Proof.
  unfold auxv_bytes. induction aux as [|p aux IH]; [done|]. rewrite bind_cons, enc_app, IH.
  unfold flat, words. rewrite bind_cons, bind_app. f_equal.
Qed.

(** The part of the stack with known contents, split. *)
Lemma stack_split x sp bs1 bs2 : stack_at x sp (bs1 ++ bs2) ->
  (buffer_ok (x_um x) sp (Z.of_nat (length bs1)) /\ user_bytes (x_um x) sp (length bs1) = bs1) /\
  buffer_ok (x_um x) (sp + Z.of_nat (length bs1)) (Z.of_nat (length bs2)) /\
  user_bytes (x_um x) (sp + Z.of_nat (length bs1)) (length bs2) = bs2.
Proof.
  intros [_ Hl Ht Hb E]. rewrite length_app in Ht. destruct stack_consts as (C1 & C2 & C3). rewrite C1 in *. rewrite C2 in *. rewrite C3 in *.
  apply bytes_split in E as [E1 E2]; [|apply (buffer_mapped _ _ _ _ _ Hb); lia].
  split_and!; try done; apply (buffer_sub _ _ _ _ _ Hb); lia.
Qed.

Lemma set_regs_ok x r v : ltask (vmm_write_register r v) x =
  Done tt (mk_xstate (tset_regs (upd_reg r (u64 v) (t_regs (x_task x))) (x_task x)) (x_brk x) (x_calls x)).
Proof. done. Qed.

(** The words at the stack pointer. *)
Definition start_words (argv envp : list (list Z)) (aux : list (Z * Z)) (base : Z) : list Z :=
  Z.of_nat (length argv) :: addrs base argv ++ 0 :: addrs (base + Z.of_nat (length (argv ≫= cstr))) envp ++ 0 :: flat aux.

Lemma start_words_length argv envp aux base :
  Z.of_nat (length (start_words argv envp aux base)) = Z.of_nat (length argv) + Z.of_nat (length envp) + 3 + 2 * Z.of_nat (length aux).
Proof.
  assert (length (flat aux) = 2 * length aux)%nat as Hf.
  { induction aux as [|p aux IH]; [done|]. unfold flat in *. rewrite bind_cons, length_app, IH. cbn [length]. lia. }
  unfold start_words. cbn [length]. rewrite length_app. cbn [length]. rewrite length_app. cbn [length]. rewrite !addrs_length, Hf. lia.
Qed.

Lemma words_cons v l : words (v :: l) = le_encode 8 v ++ words l.
Proof. apply bind_cons. Qed.

Lemma push_vectors_ok argv envp aux base x rest :
  let buf := (argv ≫= cstr) ++ (envp ≫= cstr) in let ws := start_words argv envp aux base in
  stack_at x base (buf ++ rest) -> Forall no_nul argv -> Forall no_nul envp -> stack_low <= base - 8 * Z.of_nat (length ws) ->
  exists x', push_vectors argv envp aux base x = Done tt x' /\ stack_at x' (base - 8 * Z.of_nat (length ws)) (words ws ++ buf ++ rest).
Proof.
  intros buf ws Hs Ha He Hl. pose proof (start_words_length argv envp aux base) as Hws. fold ws in Hws. rewrite Hws in *.
  pose proof (sa_low _ _ _ Hs) as B0. pose proof (sa_top _ _ _ Hs) as B1.
  destruct stack_consts as (C1 & C2 & C3). rewrite C1 in *. rewrite C2 in *. rewrite length_app in B1.
  assert (Z.of_nat (length (argv ≫= cstr)) <= Z.of_nat (length buf)) as B2 by (unfold buf; rewrite length_app; lia).
  assert (length (words (flat aux)) = 16 * length aux)%nat as Hfl.
  { rewrite words_length. unfold flat. clear. induction aux as [|p aux IH]; [done|]. rewrite bind_cons, length_app. cbn [length] in *. lia. }
  unfold push_vectors. cbv zeta. fold buf. rewrite !wrap_small by lia. rewrite auxv_words.
  destruct (push_words _ _ _ (words (flat aux)) Hs) as (x3 & E3 & Hs3); rewrite ?Hfl in *;
    [rewrite Nat2Z.inj_mul; Z.div_mod_to_equations; lia|rewrite C1; lia|].
  destruct (push_words _ _ _ (le_encode 8 0) Hs3) as (x4 & E4 & Hs4); rewrite ?le_encode_length in *; [done|rewrite C1; lia|].
  destruct (push_strings_ok (rev envp) x4 _ _ buf (argv ≫= cstr) [] base Hs4) as (x5 & E5 & Hs5);
    rewrite ?rev_involutive, ?length_rev, ?app_nil_r in *; try done; [by apply Forall_rev|lia|lia|rewrite C1; lia|].
  destruct (push_words _ _ _ (le_encode 8 0) Hs5) as (x6 & E6 & Hs6); rewrite ?le_encode_length in *; [done|rewrite C1; lia|].
  destruct (push_strings_ok (rev argv) x6 _ _ buf [] (envp ≫= cstr) base Hs6) as (x7 & E7 & Hs7);
    rewrite ?rev_involutive, ?length_rev, ?app_nil_l in *; try done; [by apply Forall_rev|lia|lia|rewrite C1; lia|].
  destruct (push_words _ _ _ (le_encode 8 (Z.of_nat (length argv))) Hs7) as (x8 & E8 & Hs8); rewrite ?le_encode_length in *;
    [done|rewrite C1; lia|].
  exists x8. split.
  - rewrite (bind_Done _ _ _ _ _ E3), (bind_Done _ _ _ _ _ E4), (bind_Done _ _ _ _ _ E5), (bind_Done _ _ _ _ _ E6).
    by rewrite (bind_Done _ _ _ _ _ E7), (bind_Done _ _ _ _ _ E8).
  - match type of Hs8 with stack_at _ ?s ?l => match goal with |- stack_at _ ?s' ?l' =>
      replace s' with s by lia; replace l' with l; [exact Hs8|] end end.
    unfold ws, start_words. cbn [length]. rewrite Z.add_0_r. repeat (rewrite words_cons || rewrite words_app). by rewrite <- !app_assoc.
Qed.

(** [fill_userstack] on a mapped stack. *)
Lemma fill_userstack_ok x argv envp exe_base ehdr global_offset interp_base :
  buffer_ok (x_um x) stack_low STACK_SIZE -> Forall no_nul argv -> Forall no_nul envp ->
  let buf := (argv ≫= cstr) ++ (envp ≫= cstr) in let len := Z.of_nat (length buf) in
  16 + roundup len 8 + 8 * (Z.of_nat (length argv) + Z.of_nat (length envp) + 19) <= STACK_SIZE -> len <= STACK_SIZE ->
  exists x' rnd base rest, fill_userstack argv envp exe_base ehdr global_offset interp_base x = Done tt x' /\
    let ws := start_words argv envp (auxv interp_base ehdr exe_base global_offset rnd) base in
    stack_at x' (base - 8 * Z.of_nat (length ws)) (words ws ++ buf ++ rest) /\
    base + roundup len 8 = rnd /\ rnd + 16 = STACK_TOP.
Proof.
  intros Hb Ha He buf len Hsz Hlen. destruct stack_consts as (C1 & C2 & C3). rewrite C3 in Hsz, Hlen.
  unfold fill_userstack. rewrite (bind_Done _ _ _ _ _ (set_regs_ok _ _ _)), (bind_Done _ _ _ _ _ (set_regs_ok _ _ _)).
  set (x0 := mk_xstate _ _ _). erewrite (bind_Done get) by reflexivity.
  set (rndb := take 16 _). assert (length rndb = 16%nat) as Hr.
  { unfold rndb. rewrite length_take, length_app, length_replicate. lia. }
  assert (stack_at x0 STACK_TOP []) as Hs0.
  { constructor; rewrite ?C1, ?C2, ?C3; [done|done|cbn; lia|by rewrite <- C1, <- C3|done]. }
  destruct (push_words _ _ _ rndb Hs0) as (x1 & E1 & Hs1); [by rewrite Hr|rewrite Hr, C1, C2; lia|].
  rewrite (bind_Done _ _ _ _ _ E1). rewrite Hr in *. cbv zeta. fold buf. destruct (roundup8 len) as [Hrl Hrm]; [lia|].
  destruct (push_ok _ _ _ buf Hs1) as (x2 & pad & E2 & Hs2 & Hpad); fold len; [rewrite C3; lia|rewrite C1, C2; lia|].
  fold len in E2, Hs2, Hpad. rewrite (bind_Done _ _ _ _ _ E2). set (aux := auxv _ _ _ _ _).
  destruct (push_vectors_ok argv envp aux _ _ _ Hs2 Ha He) as (x3 & E3 & Hs3).
  { rewrite start_words_length, C1, C2. change (length aux) with 8%nat. lia. }
  eexists x3, (STACK_TOP - Z.of_nat 16), _, _. split; [exact E3|]. split; [exact Hs3|]. lia.
Qed.

(** ** The stack is mapped *)

Definition xworld (x : xstate) : world := mk_world (u_mm (x_um x)) (u_vkern (x_um x)) (x_brk x) (x_calls x).

Lemma lw_Done {A} (c : M world A) x a w : c (xworld x) = Done a w ->
  exists x', lw c x = Done a x' /\ xworld x' = w.
Proof.
  unfold lw, xworld. intros ->. eexists. split; [done|]. by destruct w.
Qed.

(** A buffer whose addresses are mapped in order from [p] on. *)
Lemma linear_buffer u a n p : umem_ok u -> 0 <= a -> a + n < 2 ^ 64 - 4096 -> n <= 2 ^ 64 ->
  (forall i, 0 <= i < n -> host_of <$> aspace (u_mm u) (a + i) = Some (u64 (p + i))) -> buffer_ok u a n.
Proof.
  intros Hu Ha Hb Hn Has. assert (forall i, 0 <= i < n -> translate u (a + i) = Some (u64 (p + i))) as Ht.
  { intros i Hi. unfold translate. rewrite guest_to_host_aspace; [|apply Hu|apply Hu|lia].
    specialize (Has i Hi). destruct (aspace (u_mm u) (a + i)); [done|discriminate]. }
  split_and!; try done.
  - intros i Hi. rewrite Ht by done. by eexists.
  - intros i j Hi Hj. rewrite !Ht by lia. intros [= E]. unfold u64, wrap in E.
    assert ((p + i) / 2 ^ 64 = (p + j) / 2 ^ 64 \/ (p + i) / 2 ^ 64 < (p + j) / 2 ^ 64) as [Hd|Hd] by (Z.div_mod_to_equations; lia);
      Z.div_mod_to_equations; lia.
Qed.

Definition exec_flags : Z := Z.lor LINUX_MAP_PRIVATE (Z.lor LINUX_MAP_FIXED LINUX_MAP_ANONYMOUS).
Definition RW : Z := Z.lor PROT_READ PROT_WRITE.

(** The host provides [sz] bytes at [p] for the range at [addr], which is free. *)
Record can_map (x : xstate) (addr sz p : Z) : Prop := {
  cm_inv : winv (xworld x);
  cm_addr : 0 < addr /\ addr mod 4096 = 0;
  cm_size : 0 < sz <= 2 ^ 31 - 4096 /\ sz mod 4096 = 0;
  cm_top : addr + sz <= user_addr_max;
  cm_free y r : heap (u_mm (x_um x)) !! y = Some r -> ~ overlaps (key addr sz) r;
  cm_host : host_mmap (x_calls x) sz RW (linux_to_darwin_mflags (mmap_flags exec_flags)) (-1) 0 = inl p;
  cm_page : p mod 4096 = 0 /\ 0 <= p /\ p + sz <= 2 ^ 64;
  cm_hv tr : hv_vm_map_ok tr = true;
}.

(** [mmap_at] of a range that is free: what the regions and the trace are then. *)
Lemma mmap_at_free w addr sz dp pr fl fd off p :
  winv w -> 0 < addr -> addr mod 4096 = 0 -> 0 < sz <= 2 ^ 31 -> sz mod 4096 = 0 -> addr + sz <= user_addr_max ->
  (forall y r, heap (w_mm w) !! y = Some r -> ~ overlaps (key addr sz) r) ->
  host_mmap (w_trace w) sz dp (linux_to_darwin_mflags fl) fd off = inl p -> p mod 4096 = 0 -> (forall tr, hv_vm_map_ok tr = true) ->
  exists w', mmap_at addr sz dp pr fl fd off w = Done addr w' /\ same_frame w w' /\
    (forall a, aspace (w_mm w') a = if (addr <=? a) && (a <? addr + sz) then Some (u64 (p + a - addr), pr, fl, fd)
                                    else aspace (w_mm w) a) /\
    w_trace w' = HvMap p addr sz (linux_mprot_to_hv_mflag pr) :: HvUnmap addr sz ::
      HMmap sz dp (linux_to_darwin_mflags fl) fd off (Some p) :: w_trace w.
Proof.
  intros Hw Ha Hal Hs Hsal Ht Hno Hp Hpal Hhv. unfold user_addr_max in Ht.
  assert (roundup sz PAGE = sz) as Hr by (change PAGE with 4096; apply roundup_aligned; lia).
  set (w1 := mk_world (w_mm w) (w_vkern w) (noah_kern_brk w) (HMmap sz dp (linux_to_darwin_mflags fl) fd off (Some p) :: w_trace w)).
  assert (reg_ok (mk_region p addr sz pr fl fd (s32 off))) as Hreg by (constructor; cbn; lia).
  destruct (record_map_ok w1 p addr sz pr fl fd (s32 off) (linux_mprot_to_hv_mflag pr)) as (w' & E & Hm & Hf & _ & Has & _ & Htr); try done.
  { apply (inv_mm _ Hw). }
  exists w'. split_and!; try done; [|by destruct Hf].
  unfold mmap_at. erewrite (bind_Done get) by reflexivity. cbv zeta. rewrite Hp.
  erewrite bind_Done by reflexivity. erewrite bind_Done; [exact E|]. unfold do_munmap.
  rewrite (proj2 (is_page_aligned_spec _)) by done. cbv zeta. cbn [negb]. erewrite (bind_Done get) by reflexivity. rewrite Hr.
  pose proof (find_region_range_spec _ (inv_mm _ Hw) addr sz) as Hfr. cbn [w_mm].
  destruct (find_region_range addr sz (w_mm w)) as [y|]; [|reflexivity].
  destruct Hfr as (r & Hy & Ho); [lia..|]. by destruct (Hno y r).
Qed.

(** A fresh anonymous mapping, as [exec] makes them. *)
Lemma map_fresh x addr sz pr p : can_map x addr sz p ->
  exists w, do_mmap addr sz RW pr exec_flags (-1) 0 (xworld x) = Done addr w /\ winv w /\ w_vkern w = u_vkern (x_um x) /\
    (forall a, aspace (w_mm w) a = if (addr <=? a) && (a <? addr + sz) then Some (u64 (p + a - addr), pr, mmap_flags exec_flags, -1)
                                   else aspace (u_mm (x_um x)) a) /\
    w_trace w = HvMap p addr sz (linux_mprot_to_hv_mflag pr) :: HvUnmap addr sz ::
      HMmap sz RW (linux_to_darwin_mflags (mmap_flags exec_flags)) (-1) 0 (Some p) :: x_calls x.
Proof.
  intros [Hw [Ha Hal] [Hs Hsal] Ht Hno Hp [Hpal _] Hhv].
  assert (roundup sz PAGE = sz) as Hr by (change PAGE with 4096; apply roundup_aligned; lia).
  destruct (mmap_at_free (xworld x) addr sz RW pr (mmap_flags exec_flags) (-1) 0 p) as (w & E & Hf & Has & Htr); try done; [lia|].
  assert (do_mmap addr sz RW pr exec_flags (-1) 0 (xworld x) = Done addr w) as Ed.
  { rewrite do_mmap_eq by done. erewrite bind_Done by reflexivity. by rewrite Hr. }
  exists w. split_and!; try done; [|apply (sf_vkern _ _ Hf)].
  assert (mmap_guard user_addr_max (xworld x) addr sz exec_flags) as Hg.
  { unfold mmap_guard, user_addr_max in *. change (testf _ _) with true. cbv iota. rewrite Hr. lia. }
  apply (ensures_elim _ _ _ _ _ (do_mmap_inv (xworld x) addr sz RW pr exec_flags (-1) 0 Hw Hg) Ed).
Qed.

(** The state after an operation that mapped the fresh host memory at [p]. *)
Lemma lw_mapped {A} (c : M world A) x a w ha ga sz hvp dp fl fd off p : c (xworld x) = Done a w ->
  w_trace w = HvMap ha ga sz hvp :: HvUnmap ga sz :: HMmap sz dp fl fd off (Some p) :: x_calls x ->
  exists x', lw c x = Done a x' /\ xworld x' = w /\ x_task x' = tset_kern (set_um (x_um x') (t_kern (x_task x))) (x_task x) /\
    forall h, hmem (x_um x') h = if (p <=? h) && (h <? p + sz) then fresh_bytes (drop 2 (x_calls x')) h else hmem (x_um x) h.
Proof.
  intros E Htr. unfold lw. fold (xworld x). rewrite E. eexists. split; [done|]. split; [by destruct w|]. split; [done|].
  intros h. cbn [hmem x_um t_um x_task t_kern tset_kern set_um k_um x_calls]. rewrite Htr. cbn [length drop].
  replace (S (S (S (length (x_calls x)))) - length (x_calls x))%nat with 3%nat by lia. done.
Qed.

Lemma lw_map x addr sz pr p : can_map x addr sz p -> exists x', lw (do_mmap addr sz RW pr exec_flags (-1) 0) x = Done addr x' /\
  winv (xworld x') /\ buffer_ok (x_um x') addr sz /\
  (forall a, aspace (u_mm (x_um x')) a = if (addr <=? a) && (a <? addr + sz) then Some (u64 (p + a - addr), pr, mmap_flags exec_flags, -1)
                                         else aspace (u_mm (x_um x)) a) /\ u_vkern (x_um x') = u_vkern (x_um x) /\
  (forall h, hmem (x_um x') h = if (p <=? h) && (h <? p + sz) then fresh_bytes (drop 2 (x_calls x')) h else hmem (x_um x) h).
Proof.
  intros Hc. destruct (map_fresh x addr sz pr p Hc) as (w & E & Hw & Hv & Has & Htr).
  destruct (lw_mapped _ _ _ _ _ _ _ _ _ _ _ _ _ E Htr) as (x' & E' & <- & _ & Hh). exists x'. split_and!; try done.
  destruct Hc. unfold user_addr_max in *. apply (linear_buffer _ _ _ p); try lia; [split; apply Hw|].
  intros i Hi. change (u_mm (x_um x')) with (w_mm (xworld x')). rewrite Has.
  destruct (Z.leb_spec addr (addr + i)), (Z.ltb_spec (addr + i) (addr + sz)); try lia. cbn. do 2 f_equal. lia.
Qed.

(** An [mmap] at an address of the code's choosing *)
Lemma mmap_free_top w addr len dp pr flags fd off p :
  let top := current_mmap_top (w_mm w) in
  let sz := roundup len PAGE in
  winv w -> 0 <= addr -> addr mod 4096 = 0 -> 0 < len <= 2 ^ 31 - 4096 -> top + sz <= user_addr_max -> flags_ok flags ->
  testf (mmap_flags flags) LINUX_MAP_FIXED = false ->
  (forall y r, heap (w_mm w) !! y = Some r -> ~ overlaps (key top sz) r) ->
  host_mmap (w_trace w) sz dp (linux_to_darwin_mflags (mmap_flags flags)) (mmap_fd flags fd) (mmap_off flags off) = inl p ->
  p mod 4096 = 0 -> (forall tr, hv_vm_map_ok tr = true) ->
  exists w', do_mmap addr len dp pr flags fd off w = Done top w' /\ winv w' /\ w_vkern w' = w_vkern w /\
    (forall a, aspace (w_mm w') a = if (top <=? a) && (a <? top + sz) then Some (u64 (p + a - top), pr, mmap_flags flags, mmap_fd flags fd)
                                    else aspace (w_mm w) a) /\
    w_trace w' = HvMap p top sz (linux_mprot_to_hv_mflag pr) :: HvUnmap top sz ::
      HMmap sz dp (linux_to_darwin_mflags (mmap_flags flags)) (mmap_fd flags fd) (mmap_off flags off) (Some p) :: w_trace w.
Proof.
  intros top sz Hw Ha0 Hal Hl Hu Hfl Hfix Hno Hh Hp Hhv.
  pose proof (inv_top _ Hw) as Ht. pose proof (inv_top_al _ Hw) as Hta. fold top in Ht, Hta.
  destruct (roundup_spec len 4096) as [Hr1 Hr2]; [lia..|]. change PAGE with 4096 in *. fold sz in Hr1, Hr2.
  set (w1 := mk_world (set_mmap_top (top + sz) (w_mm w)) (w_vkern w) (noah_kern_brk w) (w_trace w)).
  assert (winv w1) as Hw1 by (apply winv_top; [done|lia|by rewrite Zplus_mod, Hr2, Hta]).
  destruct (mmap_at_free w1 top sz dp pr (mmap_flags flags) (mmap_fd flags fd) (mmap_off flags off) p) as (w' & E & Hf & Has & Htr);
    try done; try lia.
  assert (do_mmap addr len dp pr flags fd off w = Done top w') as Ed.
  { rewrite (do_mmap_eq addr len) by done. rewrite Hfix. unfold alloc_region. msimp. unfold on_mm. simpl.
    change PAGE with 4096. unfold user_addr_max in *. fold sz. rewrite (roundup_aligned sz 4096) by (done || lia).
    fold top. rewrite (wrap_small 64 (top + _)), wrap_small by lia. replace (top + sz - sz) with top by lia. exact E. }
  exists w'. split_and!; try done; [|apply (sf_vkern _ _ Hf)].
  assert (mmap_guard user_addr_max w addr len flags) as Hg.
  { unfold mmap_guard, user_addr_max in *. rewrite Hfix. change PAGE with 4096. fold sz. lia. }
  apply (ensures_elim _ _ _ _ _ (do_mmap_inv w addr len dp pr flags fd off Hw Hg) Ed).
Qed.

(** C24: The stack a program starts with.  [init_userstack] always returns when the
    host provides the stack's memory and the strings fit; the program then finds at
    its stack pointer the number of arguments, the addresses of the arguments, a null
    word, the addresses of the environment strings, a null word and the auxiliary
    vector, in this order and with no gap; every address is that of the string it
    stands for, complete with its terminating NUL, and [AT_RANDOM] is the address of
    sixteen bytes of the stack. *)
Theorem userstack_layout x argv envp exe_base ehdr global_offset interp_base p :
  can_map x stack_low STACK_SIZE p -> Forall no_nul argv -> Forall no_nul envp ->
  let len := Z.of_nat (length ((argv ≫= cstr) ++ (envp ≫= cstr))) in
  16 + roundup len 8 + 8 * (Z.of_nat (length argv) + Z.of_nat (length envp) + 19) <= STACK_SIZE -> len <= STACK_SIZE ->
  exists x' pargs penv rnd, init_userstack argv envp exe_base ehdr global_offset interp_base x = Done tt x' /\
    (forall i v, (Z.of_nat (length argv) :: pargs ++ 0 :: penv ++ 0 :: flat (auxv interp_base ehdr exe_base global_offset rnd)) !! i = Some v ->
       word_at (x_um x') (t_regs (x_task x') RSP + 8 * Z.of_nat i) v) /\
    Forall2 (string_at (x_um x')) pargs argv /\ Forall2 (string_at (x_um x')) penv envp /\
    stack_low <= t_regs (x_task x') RSP /\ t_regs (x_task x') RSP < rnd /\ rnd + 16 = STACK_TOP.
Proof.
  intros Hc Ha He len Hsz Hlen. destruct (lw_map x stack_low STACK_SIZE (Z.lor LINUX_PROT_READ LINUX_PROT_WRITE) p Hc) as (x0 & E0 & _ & Hb & _).
  destruct (fill_userstack_ok x0 argv envp exe_base ehdr global_offset interp_base Hb Ha He Hsz Hlen) as (x' & rnd & base & rest & E & Hs & Er & Et).
  exists x', (addrs base argv), (addrs (base + Z.of_nat (length (argv ≫= cstr))) envp), rnd.
  split; [unfold init_userstack; rewrite (bind_Done _ _ _ _ _ E0); exact E|]. fold len in Er.
  set (ws := start_words _ _ _ _) in Hs. pose proof (sa_rsp _ _ _ Hs) as Hsp. pose proof (sa_low _ _ _ Hs) as Hlo. rewrite <- Hsp in Hs.
  destruct (stack_split _ _ _ _ Hs) as [(B1 & E1) (B2 & E2)]. rewrite Hsp, words_length in B2, E2.
  replace (base - 8 * Z.of_nat (length ws) + Z.of_nat (8 * length ws)) with base in B2, E2 by lia.
  destruct (roundup8 len) as [Hr _]; [rewrite (proj2 (proj2 stack_consts)) in *; lia|].
  rewrite <- (app_assoc (argv ≫= cstr)) in B2, E2. set (env := (envp ≫= cstr) ++ rest) in *. rewrite length_app in B2.
  apply bytes_split in E2 as [E2 E3]; [|apply (buffer_mapped _ _ _ _ _ B2); lia]. unfold env in *. rewrite length_app in B2.
  apply bytes_split in E3 as [E3 _]; [|apply (buffer_mapped _ _ _ _ _ B2); lia]. split_and!.
  - intros i v Hi. by apply (words_at _ ws).
  - apply strings_at; [|done]. apply (buffer_sub _ _ _ _ _ B2); lia.
  - apply strings_at; [|done]. apply (buffer_sub _ _ _ _ _ B2); lia.
  - by rewrite Hsp.
  - rewrite Hsp. unfold ws. rewrite start_words_length. lia.
  - done.
Qed.

(** ** Segments *)

Lemma dbytes_ok data off n x : 0 <= off -> 0 <= n -> off + n <= Z.of_nat (length data) -> Z.of_nat (length data) < 2 ^ 63 ->
  dbytes data off n x = Done (take (Z.to_nat n) (drop (Z.to_nat off) data)) x.
Proof.
  intros Ho Hn Hl Hb. unfold dbytes. destruct (roundup_spec (Z.of_nat (length data)) PAGE) as [Hr _]; [done|lia|change PAGE with 4096; lia|].
  destruct (Z.leb_spec 0 off), (Z.leb_spec (off + n) (roundup (Z.of_nat (length data)) PAGE)); try lia. cbn [andb].
  unfold mret, M_ret. f_equal. rewrite drop_app_le, take_app_le; [done|rewrite length_drop; lia|lia].
Qed.

Lemma user_bytes_const u v n : forall a, (forall i, 0 <= i < Z.of_nat n -> exists h, translate u (a + i) = Some h /\ hmem u h = v) ->
  user_bytes u a n = replicate n v.
Proof.
  induction n as [|n IH]; intros a Hm; [done|]. cbn [user_bytes replicate]. destruct (Hm 0) as (h & Ht & Hh); [lia|].
  rewrite Z.add_0_r in Ht. rewrite Ht. f_equal; [done|]. apply IH. intros i Hi. rewrite <- Z.add_assoc. apply Hm. lia.
Qed.

(** The pages of a segment. *)
Lemma seg_range ph load_addr : 0 <= p_vaddr ph + load_addr -> 0 <= p_memsz ph -> p_vaddr ph + load_addr + p_memsz ph <= user_addr_max ->
  seg_base ph load_addr + seg_offset ph load_addr = p_vaddr ph + load_addr /\ 0 <= seg_offset ph load_addr < 4096 /\
  0 <= seg_base ph load_addr /\ seg_base ph load_addr mod 4096 = 0 /\ seg_size ph load_addr mod 4096 = 0 /\
  p_memsz ph + seg_offset ph load_addr <= seg_size ph load_addr < p_memsz ph + seg_offset ph load_addr + 4096.
Proof.
  unfold user_addr_max, seg_base, seg_offset, seg_size, seg_offset, clearf. intros Ha Hm Ht. rewrite (wrap_small 64 (p_vaddr ph + load_addr)) by lia.
  set (a := p_vaddr ph + load_addr) in *. change (PAGE - 1) with (Z.ones 12). rewrite Z.land_ones, Z.ldiff_ones_r, Z.shiftl_mul_pow2, Z.shiftr_div_pow2 by lia.
  change (2 ^ 12) with 4096. pose proof (Z.mod_pos_bound a 4096 ltac:(lia)). rewrite (wrap_small 64 (p_memsz ph + _)) by lia.
  destruct (roundup_spec (p_memsz ph + a mod 4096) PAGE) as [Hr Hrm]; [done|lia|change PAGE with 4096; lia|].
  change PAGE with 4096 in *. split_and!; try done; Z.div_mod_to_equations; lia.
Qed.

(** C25: A loadable segment is in memory as its header says.  When the segment's
    pages are free and the host provides memory for them, zeroed as for every
    anonymous mapping, the program sees from the segment's address on the
    [p_filesz] bytes the file holds at [p_offset], and zeros from there to
    [p_memsz]; every page of the segment has the protection of the header's flags,
    all other addresses keep their mapping and the host's memory outside the new
    mapping its contents. *)
Theorem segment_image x data ph load_addr map_top p :
  let base := seg_base ph load_addr in let size := seg_size ph load_addr in
  can_map x base size p -> (forall calls a, fresh_bytes calls a = 0) ->
  0 <= p_vaddr ph + load_addr -> p_vaddr ph + load_addr + p_memsz ph <= user_addr_max -> 0 <= p_filesz ph <= p_memsz ph ->
  0 <= p_offset ph -> p_offset ph + p_filesz ph <= Z.of_nat (length data) -> Z.of_nat (length data) < 2 ^ 63 ->
  exists x', load_segment data ph load_addr map_top x = Done (MAX map_top (base + size)) x' /\ winv (xworld x') /\
    user_bytes (x_um x') (p_vaddr ph + load_addr) (Z.to_nat (p_memsz ph)) =
      take (Z.to_nat (p_filesz ph)) (drop (Z.to_nat (p_offset ph)) data) ++ replicate (Z.to_nat (p_memsz ph - p_filesz ph)) 0 /\
    (forall a, aspace (u_mm (x_um x')) a = if (base <=? a) && (a <? base + size)
       then Some (u64 (p + a - base), segment_prot (p_flags ph), mmap_flags exec_flags, -1) else aspace (u_mm (x_um x)) a) /\
    (forall h, ~ p <= h < p + size -> hmem (x_um x') h = hmem (x_um x) h).
Proof.
  intros base size Hc Hz Hv Ht Hf Ho Hl Hb. destruct (seg_range ph load_addr) as (R1 & R2 & R3 & R4 & R5 & R6); [lia..|]. fold base size in R1, R3, R4, R5, R6.
  destruct (lw_map x base size (segment_prot (p_flags ph)) p Hc) as (x1 & E1 & Hw1 & Hbuf & Has & Hvk & Hh).
  destruct Hc as [_ [Hb0 _] _ Htop _ _ (_ & Hp0 & Hp1) _]. unfold user_addr_max in *.
  set (bs := take (Z.to_nat (p_filesz ph)) (drop (Z.to_nat (p_offset ph)) data)).
  assert (length bs = Z.to_nat (p_filesz ph)) as Hbs by (unfold bs; rewrite length_take, length_drop; lia).
  destruct (lk_copy_to_ok (x_task x1) (p_vaddr ph + load_addr) bs) as (u & Ec & Eu & Et & Hu & Eh & Em & Ev).
  { apply (buffer_sub _ _ _ _ _ Hbuf); lia. }
  exists (mk_xstate (tset_kern (set_um u (t_kern (x_task x1))) (x_task x1)) (x_brk x1) (x_calls x1)).
  split.
  { unfold load_segment. fold base size. cbv zeta. rewrite (proj2 (Z.eqb_neq base 0)) by lia. cbn [negb]. erewrite bind_Done by reflexivity.
    rewrite (bind_Done _ _ _ _ _ E1). rewrite (bind_Done _ _ _ _ _ (dbytes_ok data (p_offset ph) (p_filesz ph) x1 Ho ltac:(lia) Hl Hb)). fold bs.
    rewrite R1. rewrite (wrap_small 64 (p_vaddr ph + load_addr)) by lia. erewrite bind_Done by exact (ltask_Done _ x1 _ _ Ec).
    rewrite (wrap_small 64 (base + size)) by lia. rewrite roundup_aligned; [done|done|change PAGE with 4096; lia|].
    change PAGE with 4096. rewrite Zplus_mod, R4, R5. done. }
  unfold xworld, x_um in *. cbn [x_task x_brk x_calls t_kern tset_kern t_um set_um k_um]. rewrite Em, Ev. split; [done|].
  assert (forall a, base <= a < base + size -> translate u a = Some (p + (a - base))) as Htr.
  { intros a Hr. rewrite Et. unfold translate. rewrite guest_to_host_aspace; [|apply Hbuf|apply Hbuf|lia]. rewrite Has.
    destruct (Z.leb_spec base a), (Z.ltb_spec a (base + size)); try lia. cbn. rewrite wrap_small by lia. f_equal. lia. }
  split_and!; [|done|].
  - replace (Z.to_nat (p_memsz ph)) with (length bs + Z.to_nat (p_memsz ph - p_filesz ph))%nat by lia.
    rewrite user_bytes_app by (intros i Hi; rewrite Htr by lia; by eexists). rewrite Eu. f_equal. apply user_bytes_const. intros i Hi.
    eexists. split; [apply Htr; lia|]. rewrite Eh.
    + rewrite Hh, Hz. destruct (Z.leb_spec p (p + (p_vaddr ph + load_addr + Z.of_nat (length bs) + i - base))),
        (Z.ltb_spec (p + (p_vaddr ph + load_addr + Z.of_nat (length bs) + i - base)) (p + size)); done || lia.
    + intros j Hj. rewrite <- Et, Htr by lia. intros [= E]. lia.
  - intros h Hn. rewrite Eh.
    + rewrite Hh. destruct (Z.leb_spec p h), (Z.ltb_spec h (p + size)); done || lia.
    + intros j Hj. rewrite <- Et, Htr by lia. intros [= E]. lia.
Qed.

End Stack.

(** ** A concrete run *)

Section ExecRuns.
#[local] Existing Instances macos_errno macos_const demo_os demo_host.
#[local] Instance demo_hostmem : HostMem := {| fresh_bytes := fun _ _ => 0 |}.

Definition x_init : xstate := mk_xstate (tset_kern (set_um (mk_umem init_mm init_mm (fun _ => 0)) (t_kern sig_demo)) sig_demo) user_addr_max [].
Definition demo_ehdr : Elf64_Ehdr := mk_ehdr ET_EXEC EM_X86_64 0x401000 64 56 2.

#[local] Instance demo_host_ok : HostOk.
Proof. constructor. intros. by exists 22. Qed.

Lemma x_init_can_map addr sz p : 0 < addr /\ addr mod 4096 = 0 -> 0 < sz <= 2 ^ 31 - 4096 /\ sz mod 4096 = 0 -> addr + sz <= user_addr_max ->
  host_mmap [] sz RW (linux_to_darwin_mflags (mmap_flags exec_flags)) (-1) 0 = inl p -> p mod 4096 = 0 /\ 0 <= p /\ p + sz <= 2 ^ 64 ->
  can_map x_init addr sz p.
Proof. intros. constructor; try done. apply init_winv. Qed.

Lemma userstack_layout_witness :
  exists x' pargs penv, init_userstack [str "ls"; str "-l"] [str "HOME=/"] 0x400000 demo_ehdr 0 0 x_init = Done tt x' /\
    word_at (x_um x') (t_regs (x_task x') RSP) 2 /\ Forall2 (string_at (x_um x')) pargs [str "ls"; str "-l"] /\
    Forall2 (string_at (x_um x')) penv [str "HOME=/"].
Proof.
  destruct (userstack_layout x_init [str "ls"; str "-l"] [str "HOME=/"] 0x400000 demo_ehdr 0 0 0x100000000)
    as (x' & pargs & penv & rnd & E & Hws & Hpa & Hpe & _).
  - apply x_init_can_map; repeat split; vm_compute; congruence.
  - unfold no_nul. apply (bool_decide_unpack _). vm_compute. exact I.
  - unfold no_nul. apply (bool_decide_unpack _). vm_compute. exact I.
  - vm_compute. discriminate.
  - vm_compute. discriminate.
  - exists x', pargs, penv. split; [exact E|]. split; [|split; assumption].
    replace (t_regs (x_task x') RSP) with (t_regs (x_task x') RSP + 8 * Z.of_nat 0) by lia. apply Hws. reflexivity.
Defined.

(** A segment of 5 bytes of the file and a page of zeros. *)
Definition demo_phdr : Elf64_Phdr := mk_phdr PT_LOAD (Z.lor PF_R PF_W) 2 0x402ffe 5 0x1005.

Lemma segment_image_witness :
  exists x', load_segment [1; 2; 3; 4; 5; 6; 7; 8] demo_phdr 0 0 x_init = Done 0x405000 x' /\
    user_bytes (x_um x') 0x402ffe 6 = [3; 4; 5; 6; 7; 0].
Proof.
  destruct (segment_image x_init [1; 2; 3; 4; 5; 6; 7; 8] demo_phdr 0 0 0x100000000) as (x' & E & _ & Hu & _).
  - apply x_init_can_map; repeat split; vm_compute; congruence.
  - reflexivity.
  - vm_compute. discriminate.
  - vm_compute. discriminate.
  - vm_compute. split; discriminate.
  - vm_compute. discriminate.
  - vm_compute. discriminate.
  - vm_compute. reflexivity.
  - exists x'. split; [exact E|]. rewrite (user_bytes_take _ _ 6 (Z.to_nat (p_memsz demo_phdr))) by (vm_compute; lia).
    change 0x402ffe with (p_vaddr demo_phdr + 0). rewrite Hu. vm_compute. reflexivity.
Defined.

End ExecRuns.

(** ** Scripts *)

Definition blank (c : Z) : Prop := c = 32 \/ c = 9.
Definition word (w : list Z) : Prop := w <> [] /\ Forall (fun c => isspace c = false) w /\ Z.of_nat (length w) < LINUX_PATH_MAX.

Lemma skip_blanks_ok b rest : Forall blank b -> (forall c l, rest = c :: l -> isspace c = false \/ c = 10) -> skip_blanks (b ++ rest) = rest.
Proof.
  intros Hb Hr. induction Hb as [|c b [-> | ->] _ IH]; cbn; [|done..]. destruct rest as [|c l]; [done|]. cbn.
  destruct (Hr c l eq_refl) as [-> | ->]; [done|]. by rewrite andb_false_r.
Qed.

Lemma take_word_ok w c rest : Forall (fun c => isspace c = false) w -> isspace c = true -> take_word (w ++ c :: rest) = Some (w, c :: rest).
Proof. intros Hw Hc. induction Hw as [|d w Hd _ IH]; cbn; [by rewrite Hc|]. by rewrite Hd, IH. Qed.

Lemma script_word n b w c rest : Forall blank b -> word w -> isspace c = true ->
  script_words (S n) (b ++ w ++ c :: rest) = match script_words n (c :: rest) with inl e => inl e | inr ws => inr (w :: ws) end.
Proof.
  intros Hb (Hn & Hw & Hl) Hc. cbn [script_words]. rewrite skip_blanks_ok; [|done|].
  - rewrite take_word_ok by done. destruct w as [|d w]; [done|]. destruct (Z.gtb_spec (Z.of_nat (length (d :: w))) (LINUX_PATH_MAX - 1)); [lia|done].
  - intros d l E. left. destruct Hw; [done|]. by injection E as -> _.
Qed.

Lemma script_end n rest : script_words n (10 :: rest) = inr [].
Proof. by destruct n. Qed.

(** The first line of a script.  A line [#! interpreter] or [#! interpreter
    argument], with blanks around the words, runs the interpreter with the argument
    if there is one, the script's path, and the caller's arguments but the first;
    whatever follows the second word on the line is ignored. *)
Theorem script_argv_spec elf_path argv b1 b2 b3 interp arg rest :
  Forall blank b1 -> Forall blank b2 -> Forall blank b3 -> b2 <> [] -> word interp -> word arg ->
  script_argv ([35; 33] ++ b1 ++ interp ++ b3 ++ 10 :: rest) elf_path argv = inr (interp :: elf_path :: drop 1 argv) /\
  (forall c, isspace c = true ->
     script_argv ([35; 33] ++ b1 ++ interp ++ b2 ++ arg ++ c :: rest) elf_path argv = inr (interp :: arg :: elf_path :: drop 1 argv)).
Proof.
  intros Hb1 Hb2 Hb3 Hne Hi Ha.
  assert (forall b l, Forall blank b -> exists c r, b ++ 10 :: l = c :: r /\ isspace c = true) as Hsp.
  { intros b l [|c b' [-> | ->] _]; cbn; eexists _, _; done. }
  unfold script_argv, SB_ARGC_MAX. split; [|intros c Hc].
  - change (drop 2 _) with (b1 ++ interp ++ b3 ++ 10 :: rest). destruct (Hsp b3 rest Hb3) as (c & r & E & Hc). rewrite E, script_word, <- E by done.
    cbn [script_words]. rewrite skip_blanks_ok; [done|done|]. intros ? ? [= <- <-]. by right.
  - change (drop 2 _) with (b1 ++ interp ++ b2 ++ arg ++ c :: rest). destruct Hb2 as [|d b2' Hd Hb2']; [done|].
    assert (isspace d = true) by by destruct Hd as [-> | ->].
    rewrite <- (app_comm_cons b2'), script_word by done. rewrite (app_comm_cons b2'), script_word; [done| |done|done]. by constructor.
Qed.

Lemma script_argv_spec_witness :
  script_argv (str "#! /bin/sh -e
ls") (str "a.sh") [str "a.sh"; str "x"] = inr [str "/bin/sh"; str "-e"; str "a.sh"; str "x"].
Proof.
  destruct (script_argv_spec (str "a.sh") [str "a.sh"; str "x"] [32] [32] [] (str "/bin/sh") (str "-e") (str "ls")) as [_ E].
  1-4: try discriminate; apply (bool_decide_unpack _); vm_compute; exact I.
  1-2: split; [discriminate|split; [|reflexivity]]; repeat constructor.
  exact (E 10 eq_refl).
Defined.
