(* ===== verification/Fork.v ===== *)
(** * Forking ([lib/vmm.c], [include/x86/vmx.h], [src/proc/fork.c])

    A process has one virtual machine, which does not survive [fork]: the parent
    saves its virtual CPU, destroys the machine, forks, and both processes build a
    new machine from the saved registers and the regions of [struct mm].  A thread
    gets a virtual CPU of its own, started from the saved state of its creator.

    The state of the FPU and the MSRs ([init_msr]) has no counterpart in the model;
    of the list of virtual CPUs it keeps the length. *)

From S2P Require Import Prelude RBTree Const Errno Conv Mm Mmap MmapFacts MmInv MmSys UserMem FdTable Kernel Task Signal Exec.

(** ** [include/x86/vmx.h] *)

Inductive vmcs_entry := FIELD (x : string) | MASK (x : string).

(** [VMCS_FIELD_ENTRIES] without the end mark [VMCS_MAX] *)
Definition VMCS_FIELD_ENTRIES : list vmcs_entry :=
  [
    MASK "VPID"; FIELD "CTRL_POSTED_INT_N_VECTOR"; FIELD "CTRL_EPTP_INDEX"; FIELD "GUEST_ES"; FIELD "GUEST_CS";
    FIELD "GUEST_SS"; FIELD "GUEST_DS"; FIELD "GUEST_FS"; FIELD "GUEST_GS"; FIELD "GUEST_LDTR"; FIELD "GUEST_TR";
    FIELD "GUEST_INT_STATUS"; MASK "HOST_ES"; MASK "HOST_CS"; MASK "HOST_SS"; MASK "HOST_DS"; MASK "HOST_FS";
    MASK "HOST_GS"; MASK "HOST_TR"; FIELD "CTRL_IO_BITMAP_A"; FIELD "CTRL_IO_BITMAP_B"; FIELD "CTRL_MSR_BITMAPS";
    FIELD "CTRL_VMEXIT_MSR_STORE_ADDR"; FIELD "CTRL_VMEXIT_MSR_LOAD_ADDR"; FIELD "CTRL_VMENTRY_MSR_LOAD_ADDR";
    FIELD "CTRL_EXECUTIVE_VMCS_PTR"; FIELD "CTRL_TSC_OFFSET"; FIELD "CTRL_VIRTUAL_APIC"; FIELD "CTRL_APIC_ACCESS";
    FIELD "CTRL_POSTED_INT_DESC_ADDR"; FIELD "CTRL_VMFUNC_CTRL"; FIELD "CTRL_EPTP"; FIELD "CTRL_EOI_EXIT_BITMAP_0";
    FIELD "CTRL_EOI_EXIT_BITMAP_1"; FIELD "CTRL_EOI_EXIT_BITMAP_2"; FIELD "CTRL_EOI_EXIT_BITMAP_3";
    FIELD "CTRL_EPTP_LIST_ADDR"; FIELD "CTRL_VMREAD_BITMAP_ADDR"; FIELD "CTRL_VMWRITE_BITMAP_ADDR";
    FIELD "CTRL_VIRT_EXC_INFO_ADDR"; FIELD "CTRL_XSS_EXITING_BITMAP"; MASK "GUEST_PHYSICAL_ADDRESS";
    FIELD "GUEST_LINK_POINTER"; FIELD "GUEST_IA32_DEBUGCTL"; FIELD "GUEST_IA32_PAT"; FIELD "GUEST_IA32_EFER";
    FIELD "GUEST_IA32_PERF_GLOBAL_CTRL"; FIELD "GUEST_PDPTE0"; FIELD "GUEST_PDPTE1"; FIELD "GUEST_PDPTE2";
    FIELD "GUEST_PDPTE3"; MASK "HOST_IA32_PAT"; MASK "HOST_IA32_EFER"; MASK "HOST_IA32_PERF_GLOBAL_CTRL";
    FIELD "CTRL_PIN_BASED"; FIELD "CTRL_CPU_BASED"; FIELD "CTRL_EXC_BITMAP"; FIELD "CTRL_PF_ERROR_MASK";
    FIELD "CTRL_PF_ERROR_MATCH"; FIELD "CTRL_CR3_COUNT"; FIELD "CTRL_VMEXIT_CONTROLS";
    FIELD "CTRL_VMEXIT_MSR_STORE_COUNT"; FIELD "CTRL_VMEXIT_MSR_LOAD_COUNT"; FIELD "CTRL_VMENTRY_CONTROLS";
    FIELD "CTRL_VMENTRY_MSR_LOAD_COUNT"; FIELD "CTRL_VMENTRY_IRQ_INFO"; FIELD "CTRL_VMENTRY_EXC_ERROR";
    FIELD "CTRL_VMENTRY_INSTR_LEN"; FIELD "CTRL_TPR_THRESHOLD"; FIELD "CTRL_CPU_BASED2"; FIELD "CTRL_PLE_GAP";
    FIELD "CTRL_PLE_WINDOW"; MASK "RO_INSTR_ERROR"; MASK "RO_EXIT_REASON"; MASK "RO_VMEXIT_IRQ_INFO";
    MASK "RO_VMEXIT_IRQ_ERROR"; MASK "RO_IDT_VECTOR_INFO"; MASK "RO_IDT_VECTOR_ERROR"; MASK "RO_VMEXIT_INSTR_LEN";
    MASK "RO_VMX_INSTR_INFO"; FIELD "GUEST_ES_LIMIT"; FIELD "GUEST_CS_LIMIT"; FIELD "GUEST_SS_LIMIT";
    FIELD "GUEST_DS_LIMIT"; FIELD "GUEST_FS_LIMIT"; FIELD "GUEST_GS_LIMIT"; FIELD "GUEST_LDTR_LIMIT";
    FIELD "GUEST_TR_LIMIT"; FIELD "GUEST_GDTR_LIMIT"; FIELD "GUEST_IDTR_LIMIT"; FIELD "GUEST_ES_AR";
    FIELD "GUEST_CS_AR"; FIELD "GUEST_SS_AR"; FIELD "GUEST_DS_AR"; FIELD "GUEST_FS_AR"; FIELD "GUEST_GS_AR";
    FIELD "GUEST_LDTR_AR"; FIELD "GUEST_TR_AR"; FIELD "GUEST_IGNORE_IRQ"; FIELD "GUEST_ACTIVITY_STATE";
    FIELD "GUEST_SMBASE"; FIELD "GUEST_IA32_SYSENTER_CS"; FIELD "GUEST_VMX_TIMER_VALUE";
    FIELD "HOST_IA32_SYSENTER_CS"; FIELD "CTRL_CR0_MASK"; FIELD "CTRL_CR4_MASK"; FIELD "CTRL_CR0_SHADOW";
    FIELD "CTRL_CR4_SHADOW"; FIELD "CTRL_CR3_VALUE0"; FIELD "CTRL_CR3_VALUE1"; FIELD "CTRL_CR3_VALUE2";
    FIELD "CTRL_CR3_VALUE3"; MASK "RO_EXIT_QUALIFIC"; MASK "RO_IO_RCX"; MASK "RO_IO_RSI"; MASK "RO_IO_RDI";
    MASK "RO_IO_RIP"; MASK "RO_GUEST_LIN_ADDR"; FIELD "GUEST_CR0"; FIELD "GUEST_CR3"; FIELD "GUEST_CR4";
    FIELD "GUEST_ES_BASE"; FIELD "GUEST_CS_BASE"; FIELD "GUEST_SS_BASE"; FIELD "GUEST_DS_BASE"; FIELD "GUEST_FS_BASE";
    FIELD "GUEST_GS_BASE"; FIELD "GUEST_LDTR_BASE"; FIELD "GUEST_TR_BASE"; FIELD "GUEST_GDTR_BASE";
    FIELD "GUEST_IDTR_BASE"; FIELD "GUEST_DR7"; FIELD "GUEST_RSP"; FIELD "GUEST_RIP"; FIELD "GUEST_RFLAGS";
    FIELD "GUEST_DEBUG_EXC"; FIELD "GUEST_SYSENTER_ESP"; FIELD "GUEST_SYSENTER_EIP"; MASK "HOST_CR0"; MASK "HOST_CR3";
    MASK "HOST_CR4"; MASK "HOST_FS_BASE"; MASK "HOST_GS_BASE"; MASK "HOST_TR_BASE"; MASK "HOST_GDTR_BASE";
    MASK "HOST_IDTR_BASE"; MASK "HOST_IA32_SYSENTER_ESP"; MASK "HOST_IA32_SYSENTER_EIP"; MASK "HOST_RSP";
    MASK "HOST_RIP"
  ].

Definition vmcs_field_masked_list : list string :=
  VMCS_FIELD_ENTRIES ≫= (fun e => match e with FIELD x => [x] | MASK _ => [] end).

(** [include/linux/misc.h] *)
Definition LINUX_CLONE_VM : Z := 0x00000100.
Definition LINUX_CLONE_FS : Z := 0x00000200.
Definition LINUX_CLONE_FILES : Z := 0x00000400.
Definition LINUX_CLONE_SIGHAND : Z := 0x00000800.
Definition LINUX_CLONE_THREAD : Z := 0x00010000.
Definition LINUX_CLONE_SYSVSEM : Z := 0x00040000.
Definition LINUX_CLONE_SETTLS : Z := 0x00080000.
Definition LINUX_CLONE_PARENT_SETTID : Z := 0x00100000.
Definition LINUX_CLONE_CHILD_CLEARTID : Z := 0x00200000.
Definition LINUX_CLONE_DETACHED : Z := 0x00400000.
Definition LINUX_CLONE_CHILD_SETTID : Z := 0x01000000.
Definition LINUX_SIGCHLD : Z := 17.

(** ** State *)

(** What a new virtual CPU holds. *)
Class HostCpu := { fresh_regs : list hostcall -> reg -> Z; fresh_vmcs : list hostcall -> string -> Z }.

Record vstate := mk_vstate { v_x : xstate; nr_vcpus : Z }.

#[global] Instance vstate_task : HasTask vstate :=
  {| task_of v := task_of (v_x v); set_task t v := mk_vstate (set_task t (v_x v)) (nr_vcpus v) |}.
#[global] Instance vstate_task_ok : HasTaskOk vstate.
Proof. split; [done|by intros [[]]|done]. Qed.

Abbreviation V := (M vstate).

Definition lx {A} (c : M xstate A) : V A := fun v =>
  match c (v_x v) with
  | Done a x => Done a (mk_vstate x (nr_vcpus v))
  | Stop w x => Stop w (mk_vstate x (nr_vcpus v))
  end.

(** [struct vcpu_snapshot] *)
Record vcpu_snapshot := mk_snapshot { vcpu_reg : list Z; vmcs : list Z }.

Section Fork.
Context `{OS} `{DarwinErrno} `{DarwinConst} `{Host} `{HostMem} `{HostCpu}.

(** ** Saving and restoring a virtual CPU ([lib/vmm.c]) *)

Fixpoint read_all {A} (read : A -> T Z) (l : list A) : T (list Z) :=
  match l with
  | [] => mret []
  | a :: l => v ← read a; vs ← read_all read l; mret (v :: vs)
  end.
Fixpoint write_all {A} (write : A -> Z -> T unit) (l : list A) (vs : list Z) : T unit :=
  match l, vs with
  | a :: l, v :: vs => write a v;; write_all write l vs
  | _, _ => mret tt
  end.

Definition vmm_snapshot_vcpu : T vcpu_snapshot :=
  rs ← read_all vmm_read_register x86_reg_list;
  fs ← read_all vmm_read_vmcs vmcs_field_masked_list;
  mret (mk_snapshot rs fs).

Definition vmm_restore_vcpu (s : vcpu_snapshot) : T unit :=
  write_all vmm_write_vmcs vmcs_field_masked_list (vmcs s);;
  write_all vmm_write_register x86_reg_list (vcpu_reg s).

(** [hv_vcpu_create]: the calling thread's virtual CPU is a new one. *)
Definition hv_vcpu_create : X unit :=
  r ← lkx (hcall "hv_vcpu_create" []);
  if negb (h_ret r =? 0) then halt Panic
  else x ← get; ltask (modify (fun t => tset_vmcs (fresh_vmcs (x_calls x)) (tset_regs (fresh_regs (x_calls x)) t))).

(** ** The virtual machine *)

Definition vmm_snapshot : V vcpu_snapshot :=
  v ← get;
  if nr_vcpus v >? 1 then halt (Exit 1) else lx (ltask vmm_snapshot_vcpu).

Fixpoint destroy_vcpus (n : nat) : X unit :=
  match n with
  | O => mret tt
  | S n =>
    r ← lkx (hcall "hv_vcpu_destroy" []);
    if negb (h_ret r =? 0) then halt Panic else destroy_vcpus n
  end.

(** The calling thread's virtual CPU *)
Definition vmm_destroy_vcpu : V unit :=
  modify (fun v => mk_vstate (v_x v) (nr_vcpus v - 1));;
  lx (lkx (hcall "hv_vcpu_destroy" []));;
  mret tt.

Definition vmm_destroy : V unit :=
  v ← get;
  lx (destroy_vcpus (Z.to_nat (nr_vcpus v)));;
  r ← lx (lkx (hcall "hv_vm_destroy" []));
  if negb (h_ret r =? 0) then halt Panic else mret tt.

(** One of the loops of [restore_ept] *)
Fixpoint map_regions (m : mm) (l : list ptr) : M world bool :=
  match l with
  | [] => mret true
  | p :: l =>
    r ← deref (heap m !! p);
    w ← get;
    if hv_vm_map_ok (w_trace w) then
      call (HvMap (haddr r) (gaddr r) (Mm.size r) (linux_mprot_to_hv_mflag (prot r)));;
      map_regions m l
    else mret false
  end.

Definition restore_ept : M world bool :=
  w ← get;
  ok ← map_regions (w_vkern w) (mm_regions (w_vkern w));
  if negb ok then mret false
  else map_regions (w_mm w) (mm_regions (w_mm w)).

(** [hv_vm_create], once more when there was no device *)
Definition hv_vm_create : X Z := r ← lkx (hcall "hv_vm_create" []); mret (h_ret r).
Definition create_vm : X unit :=
  ret ← hv_vm_create;
  ret ← (if negb (ret =? 0) && (ret =? D "HV_NO_DEVICE") then lkx (hcall "sleep" [HI 0]);; hv_vm_create else mret ret);
  if negb (ret =? 0) then halt Panic else lw (call HvVmCreate).

(** The answer of [restore_ept] is ignored. *)
Definition vmm_reentry (s : vcpu_snapshot) : V unit :=
  lx create_vm;;
  v ← get;
  if nr_vcpus v >? 1 then halt (Exit 1)
  else
    lx hv_vcpu_create;;
    lx (ltask (vmm_restore_vcpu s));;
    lx (lw restore_ept);;
    mret tt.

(** ** New processes and threads ([src/proc/fork.c]) *)

Definition init_task (clone_flags child_tid tls : Z) : T unit :=
  modify (tset_sigmask 0);;
  modify (tset_sigpending 0);;
  tid ← (if testf clone_flags LINUX_CLONE_THREAD
         then r ← lk (hcall "pthread_threadid_np" []); mret (field (outbuf (h_out r) 0) 0 8)
         else r ← lk (hcall "getpid" []); mret (u64 (h_ret r)));
  let set_child_tid := if testf clone_flags LINUX_CLONE_CHILD_SETTID then child_tid else 0 in
  let clear_child_tid := if testf clone_flags LINUX_CLONE_CHILD_CLEARTID then child_tid else 0 in
  modify (tset_tids tid set_child_tid clear_child_tid);;
  when_ (negb (set_child_tid =? 0)) (e ← lk (k_copy_to_user set_child_tid (le_encode 4 (u32 tid))); assert_ (e =? 0));;
  when_ (testf clone_flags LINUX_CLONE_SETTLS) (vmm_write_vmcs "GUEST_FS_BASE" tls).

(** Both processes return from [fork] in the same state, with different answers. *)
Definition __do_clone_process (clone_flags newsp parent_tid child_tid tls : Z) : V Z :=
  s ← vmm_snapshot;
  vmm_destroy;;
  ret ← lx (lkx (sysw "fork" []));
  vmm_reentry s;;
  if ret <? 0 then mret ret
  else if ret =? 0 then lx (ltask (init_task clone_flags child_tid tls));; mret ret
  else if testf clone_flags LINUX_CLONE_PARENT_SETTID then
    e ← lx (lkx (k_copy_to_user parent_tid (le_encode 4 (u32 ret))));
    mret (if negb (e =? 0) then - LINUX_EFAULT else ret)
  else mret ret.

(** [vmm_create_vcpu] with a snapshot, in a thread that has no virtual CPU *)
Definition vmm_create_vcpu (s : vcpu_snapshot) : V unit :=
  lx hv_vcpu_create;;
  lx (ltask (vmm_restore_vcpu s));;
  modify (fun v => mk_vstate (v_x v) (nr_vcpus v + 1)).

(** [__start_thread] up to [main_loop], in the new thread *)
Definition __start_thread (s : vcpu_snapshot) (clone_flags newsp parent_tid child_tid tls : Z) : V unit :=
  vmm_create_vcpu s;;
  lx (ltask (vmm_write_register RAX 0));;
  lx (ltask (vmm_write_register RSP newsp));;
  rip ← lx (ltask (vmm_read_register RIP));
  lx (ltask (vmm_write_register RIP (rip + 2)));;
  lx (ltask (modify (fun t => tset_nr_tasks (t_nr_tasks t + 1) t)));;
  lx (ltask (modify (tset_sigpending 0)));;
  lx (ltask (init_task clone_flags child_tid tls));;
  when_ (testf clone_flags LINUX_CLONE_PARENT_SETTID)
    (t ← lx (ltask get); e ← lx (lkx (k_copy_to_user parent_tid (le_encode 8 (t_tid t)))); assert_ (e =? 0)).

(** The thread-local [task] and virtual CPU of a thread that has just started *)
Definition new_task (t : tstate) : tstate :=
  mk_tstate (t_kern t) (fun _ => 0) (fun _ => 0) (t_sigaction t) 0 0 (mk_l_stack 0 0 0) 0 0 0 0 (t_nr_tasks t).

(** The creator goes on with its own [task] and the state the threads share. *)
Definition resume_task (own shared : tstate) : tstate :=
  mk_tstate (t_kern shared) (t_regs own) (t_vmcs own) (t_sigaction shared) (t_sigmask own) (t_sigpending own) (t_sas own)
    (t_tid own) (t_set_child_tid own) (t_clear_child_tid own) (t_robust_list own) (t_nr_tasks shared).

(** The creator sleeps until the new thread has signalled it; a thread that cannot
    be created never does.  Returns the thread's identifier and its task. *)
Definition __do_clone_thread (clone_flags newsp parent_tid child_tid tls : Z) : V (Z * tstate) :=
  s ← lx (ltask vmm_snapshot_vcpu);
  r ← lx (lkx (hcall "pthread_create" []));
  if negb (h_ret r =? 0) then halt Diverge
  else
    own ← lx (ltask get);
    modify (set_task (new_task own));;
    __start_thread s clone_flags newsp parent_tid child_tid tls;;
    child ← lx (ltask get);
    modify (set_task (resume_task own child));;
    r ← lx (lkx (hcall "pthread_threadid_np" [HI 1]));
    mret (s32 (field (outbuf (h_out r) 0) 0 8), child).

Definition clone_implemented (clone_flags : Z) : Z :=
  let implemented := Z.lor LINUX_CLONE_THREAD (Z.lor LINUX_CLONE_DETACHED (Z.lor LINUX_CLONE_SETTLS
    (Z.lor LINUX_CLONE_CHILD_SETTID (Z.lor LINUX_CLONE_CHILD_CLEARTID LINUX_CLONE_PARENT_SETTID)))) in
  if testf clone_flags LINUX_CLONE_THREAD
  then Z.lor implemented (Z.lor LINUX_CLONE_VM (Z.lor LINUX_CLONE_FS (Z.lor LINUX_CLONE_FILES
         (Z.lor LINUX_CLONE_SIGHAND LINUX_CLONE_SYSVSEM))))
  else implemented.

(** The inner [needed] shadows the outer one, which stays 0: nothing is required. *)
Definition do_clone (clone_flags newsp parent_tid child_tid tls : Z) : V (Z * option tstate) :=
  let sigtype := Z.land clone_flags 0xff in
  assert_ ((sigtype =? LINUX_SIGCHLD) || (sigtype =? 0));;
  let clone_flags := clearf clone_flags 0xff in
  let needed := 0 in
  if negb (clearf clone_flags (clone_implemented clone_flags) =? 0) || negb (Z.land clone_flags needed =? needed)
  then mret (- LINUX_EINVAL, None)
  else if testf clone_flags LINUX_CLONE_THREAD
  then '(tid, child) ← __do_clone_thread clone_flags newsp parent_tid child_tid tls; mret (tid, Some child)
  else ret ← __do_clone_process clone_flags newsp parent_tid child_tid tls; mret (ret, None).

Definition sys_clone (clone_flags newsp parent_tid child_tid tls : Z) : V (Z * option tstate) :=
  do_clone clone_flags newsp parent_tid child_tid tls.
Definition sys_fork : V (Z * option tstate) := do_clone LINUX_SIGCHLD 0 0 0 0.
Definition sys_vfork : V (Z * option tstate) := do_clone LINUX_SIGCHLD 0 0 0 0.

End Fork.

(** ** A saved virtual CPU comes back *)

Lemma read_all_ok {A} (read : A -> T Z) (f : tstate -> A -> Z) l t :
  (forall a, read a t = Done (f t a) t) -> read_all read l t = Done (f t <$> l) t.
Proof.
  intros Hr. induction l as [|a l IH]; [done|]. cbn [read_all]. rewrite (bind_Done _ _ _ _ _ (Hr a)), (bind_Done _ _ _ _ _ IH). done.
Qed.

(** The value of a VMCS field *)
Definition vmcs_value (t : tstate) (x : string) : Z :=
  match vmcs_reg x with Some r => t_regs t r | None => t_vmcs t x end.

Lemma snapshot_ok t : vmm_snapshot_vcpu t = Done (mk_snapshot (t_regs t <$> x86_reg_list) (vmcs_value t <$> vmcs_field_masked_list)) t.
Proof.
  unfold vmm_snapshot_vcpu. erewrite bind_Done by (apply (read_all_ok _ t_regs); done).
  erewrite bind_Done; [done|]. apply (read_all_ok _ vmcs_value). intros x. unfold vmm_read_vmcs, vmcs_value. by destruct (vmcs_reg x).
Qed.

(** The rest of a task's state. *)
Definition same_task (t t' : tstate) : Prop :=
  t' = tset_vmcs (t_vmcs t') (tset_regs (t_regs t') t).

Lemma same_task_refl t : same_task t t.
Proof. by destruct t. Qed.
Lemma same_task_trans t1 t2 t3 : same_task t1 t2 -> same_task t2 t3 -> same_task t1 t3.
Proof. unfold same_task. intros -> ->. done. Qed.

Lemma write_regs_ok f l : (forall r, 0 <= f r < 2 ^ 64) -> forall t, exists t', write_all vmm_write_register l (f <$> l) t = Done tt t' /\
  same_task t t' /\ t_vmcs t' = t_vmcs t /\ forall r, t_regs t' r = if bool_decide (r ∈ l) then f r else t_regs t r.
Proof.
  intros Hf. induction l as [|r0 l IH]; intros t; [exists t; split_and!; [done|apply same_task_refl|done|done]|].
  cbn [write_all fmap list_fmap]. erewrite bind_Done by reflexivity. set (t1 := tset_regs _ t).
  destruct (IH t1) as (t' & E & Hs & Hv & Hr). exists t'. split_and!; [exact E|eapply same_task_trans; [|exact Hs]; by destruct t|by rewrite Hv|].
  intros r. rewrite Hr. cbn [t_regs t1 tset_regs]. unfold upd_reg. rewrite wrap_small by apply Hf.
  destruct (decide (r = r0)) as [->|Hne]; [by rewrite (bool_decide_eq_true_2 (r0 ∈ r0 :: l)) by set_solver; case_bool_decide|].
  rewrite (bool_decide_ext (r ∈ r0 :: l) (r ∈ l)) by set_solver. done.
Qed.

Lemma write_vmcs_ok f l : (forall x, 0 <= f x < 2 ^ 64) -> forall t, exists t', write_all vmm_write_vmcs l (f <$> l) t = Done tt t' /\
  same_task t t' /\ forall x, vmcs_reg x = None -> t_vmcs t' x = if bool_decide (x ∈ l) then f x else t_vmcs t x.
Proof.
  intros Hf. induction l as [|x0 l IH]; intros t; [exists t; split_and!; [done|apply same_task_refl|done]|].
  cbn [write_all fmap list_fmap].
  assert (exists t1, vmm_write_vmcs x0 (f x0) t = Done tt t1 /\ same_task t t1 /\
    forall x, vmcs_reg x = None -> t_vmcs t1 x = if decide (x = x0) then f x0 else t_vmcs t x) as (t1 & E1 & Hs1 & Hv1).
  { unfold vmm_write_vmcs. destruct (vmcs_reg x0) as [r|] eqn:E0.
    - eexists. split_and!; [done|by destruct t|]. intros x Hx. rewrite decide_False by congruence. done.
    - eexists. split_and!; [done|by destruct t|]. intros x Hx. cbn. unfold upd_vmcs. rewrite wrap_small by apply Hf. done. }
  rewrite (bind_Done _ _ _ _ _ E1). destruct (IH t1) as (t' & E & Hs & Hv). exists t'. split_and!; [exact E|by eapply same_task_trans|].
  intros x Hx. rewrite Hv, Hv1 by done.
  destruct (decide (x = x0)) as [->|Hne]; [by rewrite (bool_decide_eq_true_2 (x0 ∈ x0 :: l)) by set_solver; case_bool_decide|].
  rewrite (bool_decide_ext (x ∈ x0 :: l) (x ∈ l)) by set_solver. done.
Qed.

Definition cpu_range (t : tstate) : Prop := (forall r, 0 <= t_regs t r < 2 ^ 64) /\ (forall x, 0 <= t_vmcs t x < 2 ^ 64).

(** The virtual CPUs agree: on every register, and on every saved VMCS field. *)
Definition same_cpu (t t' : tstate) : Prop :=
  (forall r, t_regs t' r = t_regs t r) /\ (forall x, x ∈ vmcs_field_masked_list -> vmcs_value t' x = vmcs_value t x).

Lemma reg_in_list r : r ∈ x86_reg_list.
Proof. apply list_elem_of_lookup. exists (reg_number r). apply reg_listed. Qed.

Lemma restore_ok t t0 : cpu_range t -> exists t', vmm_restore_vcpu (mk_snapshot (t_regs t <$> x86_reg_list) (vmcs_value t <$> vmcs_field_masked_list)) t0 = Done tt t' /\
  same_task t0 t' /\ same_cpu t t'.
Proof.
  intros [Hr Hv]. assert (forall x, 0 <= vmcs_value t x < 2 ^ 64) as Hval by (intros x; unfold vmcs_value; destruct (vmcs_reg x); auto).
  destruct (write_vmcs_ok (vmcs_value t) vmcs_field_masked_list Hval t0) as (t1 & E1 & Hs1 & Hv1).
  destruct (write_regs_ok (t_regs t) x86_reg_list Hr t1) as (t2 & E2 & Hs2 & Hv2 & Hr2).
  assert (forall r, t_regs t2 r = t_regs t r) as Hregs by (intros r; rewrite Hr2, bool_decide_eq_true_2; [done|apply reg_in_list]).
  exists t2. split; [|split; [by eapply same_task_trans|split; [exact Hregs|]]].
  - unfold vmm_restore_vcpu. cbn [vmcs vcpu_reg]. rewrite (bind_Done _ _ _ _ _ E1). exact E2.
  - intros x Hx. unfold vmcs_value. destruct (vmcs_reg x) as [r|] eqn:E; [apply Hregs|]. rewrite Hv2, Hv1 by done.
    rewrite bool_decide_eq_true_2 by done. unfold vmcs_value. by rewrite E.
Qed.

Section Machine.
Context `{OS} `{DarwinErrno} `{DarwinConst} `{Host} `{HostMem} `{HostCpu}.

(** ** The memory of the new machine *)

Definition map_event (r : mm_region) : hostcall := HvMap (haddr r) (gaddr r) (Mm.size r) (linux_mprot_to_hv_mflag (prot r)).

Lemma ept_maps a rs : forall tr, (forall r r', r ∈ rs -> r' ∈ rs -> containsb a r = true -> containsb a r' = true -> attr_at r a = attr_at r' a) ->
  ept (rev (map_event <$> rs) ++ tr) a = match List.find (containsb a) rs with Some r => Some (host_of (attr_at r a)) | None => ept tr a end.
Proof.
  induction rs as [|r rs IH]; intros tr Hu; [done|]. cbn [fmap list_fmap rev List.find]. rewrite <- app_assoc, IH by (intros; apply Hu; set_solver).
  destruct (List.find (containsb a) rs) as [r'|] eqn:Ef.
  - apply find_some in Ef as [Hin Hc]. destruct (containsb a r) eqn:Er; [|done]. rewrite (Hu r r'); [done| | |done|done]; [set_solver|].
    apply list_elem_of_In in Hin. set_solver.
  - cbn [app ept map_event]. unfold containsb. by destruct (_ && _).
Qed.

Lemma ept_regions m a tr : mm_ok m ->
  ept (rev (map_event <$> region_list m) ++ tr) a = match aspace m a with Some p => Some (host_of p) | None => ept tr a end.
Proof.
  intros Hm. unfold aspace. rewrite ept_maps; [by destruct (List.find _ _)|]. intros r r' Hr Hr' Hc Hc'. unfold region_list in *.
  apply list_elem_of_omap in Hr as (p & _ & Hp), Hr' as (p' & _ & Hp').
  apply (inj Some). rewrite <- (aspace_in _ Hm _ _ _ Hp), <- (aspace_in _ Hm _ _ _ Hp'); [done| |]; by apply containsb_spec.
Qed.

Definition with_trace (w : world) (tr : list hostcall) : world := mk_world (w_mm w) (w_vkern w) (noah_kern_brk w) tr.

Lemma map_regions_ok m l : (forall p, p ∈ l -> is_Some (heap m !! p)) -> (forall tr, hv_vm_map_ok tr = true) -> forall w,
  map_regions m l w = Done true (with_trace w (rev (map_event <$> omap (fun x => heap m !! x) l) ++ w_trace w)).
Proof.
  intros Hl Hhv. induction l as [|p l IH]; intros w; [by destruct w|]. cbn [map_regions]. destruct (Hl p) as [r Hp]; [set_solver|].
  rewrite Hp. erewrite (bind_Done (deref _)) by reflexivity. erewrite (bind_Done get) by reflexivity. rewrite Hhv. erewrite (bind_Done (call _)) by reflexivity.
  rewrite IH by (intros; apply Hl; set_solver). cbn [omap list_omap]. rewrite Hp. cbn [fmap list_fmap rev]. by rewrite <- app_assoc.
Qed.

(** [restore_ept] tells a new machine about every region. *)
Lemma restore_ept_ok w : mm_ok (w_mm w) -> mm_ok (w_vkern w) -> (forall tr, hv_vm_map_ok tr = true) ->
  exists new, restore_ept w = Done true (with_trace w (new ++ w_trace w)) /\
    (forall e, e ∈ new -> exists r, e = map_event r) /\
    forall a, ept (new ++ w_trace w) a = match aspace (w_mm w) a with Some p => Some (host_of p) | None =>
      match aspace (w_vkern w) a with Some p => Some (host_of p) | None => ept (w_trace w) a end end.
Proof.
  intros Hm Hk Hhv. exists (rev (map_event <$> region_list (w_mm w)) ++ rev (map_event <$> region_list (w_vkern w))). split_and!.
  - unfold restore_ept. erewrite (bind_Done get) by reflexivity.
    erewrite bind_Done by (apply map_regions_ok; [intros p Hp; by apply (ok_heap _ Hk)|done]). cbn [negb].
    rewrite map_regions_ok; [|intros p Hp; by apply (ok_heap _ Hm)|done]. unfold with_trace. cbn. by rewrite <- app_assoc.
  - intros e He. rewrite list_elem_of_In, in_app_iff, <- !in_rev, <- !list_elem_of_In, !list_elem_of_fmap in He.
    destruct He as [(r & -> & _)|(r & -> & _)]; by exists r.
  - intros a. rewrite <- app_assoc, !ept_regions by done. done.
Qed.

(** Calls that leave the host's memory alone. *)
Definition quiet (e : hostcall) : Prop := match e with HMmap _ _ _ _ _ _ | HMemcpy _ _ _ => False | _ => True end.

Lemma after_quiet new old hm : (forall e, e ∈ new -> quiet e) -> after_calls new old hm = hm.
Proof.
  induction new as [|e new IH]; intros Hq; [done|]. cbn [after_calls]. rewrite IH by (intros; apply Hq; set_solver).
  pose proof (Hq e ltac:(set_solver)). by destruct e.
Qed.

Lemma lw_quiet {A} (c : M world A) x a new : c (xworld x) = Done a (with_trace (xworld x) (new ++ x_calls x)) ->
  (forall e, e ∈ new -> quiet e) -> lw c x = Done a (mk_xstate (x_task x) (x_brk x) (new ++ x_calls x)).
Proof.
  intros E Hq. unfold lw. fold (xworld x). rewrite E. cbn [w_trace with_trace w_mm w_vkern noah_kern_brk xworld].
  rewrite length_app, Nat.add_sub, take_app_length, after_quiet by done. by destruct x as [[[[]]] ?].
Qed.

(** ** [fork] *)

Definition set_trace (tr : list event) (k : kstate) : kstate := mk_kstate (k_um k) (k_fi k) (k_cred k) tr.

(** Everything but the host's events and the virtual CPU stays. *)
Definition kept (t t' : tstate) : Prop :=
  same_task (tset_kern (set_trace (k_trace (t_kern t')) (t_kern t)) t) t'.

Lemma kept_refl t : kept t t.
Proof. by destruct t as [[]]. Qed.
Lemma kept_trans t1 t2 t3 : kept t1 t2 -> kept t2 t3 -> kept t1 t3.
Proof. unfold kept, same_task. intros E1 E2. rewrite E2 at 1. rewrite E1. done. Qed.
Lemma same_task_kept t t' : same_task t t' -> kept t t'.
Proof. unfold kept, same_task. intros ->. by destruct t as [[]]. Qed.

(** A step of the process that keeps its state and its memory. *)
Record quiet_step (v v' : vstate) : Prop := {
  qs_task : kept (x_task (v_x v)) (x_task (v_x v'));
  qs_brk : x_brk (v_x v') = x_brk (v_x v);
  qs_vcpus : nr_vcpus v' = nr_vcpus v;
}.

Lemma quiet_trans v1 v2 v3 : quiet_step v1 v2 -> quiet_step v2 v3 -> quiet_step v1 v3.
Proof. intros [A1 A2 A3] [B1 B2 B3]. constructor; [by eapply kept_trans|congruence|congruence]. Qed.

Lemma quiet_um v v' : quiet_step v v' -> x_um (v_x v') = x_um (v_x v).
Proof. intros [A _ _]. unfold x_um, t_um. rewrite A. done. Qed.

(** The same virtual CPU and calls of the hypervisor. *)
Definition idle (v v' : vstate) : Prop :=
  t_regs (x_task (v_x v')) = t_regs (x_task (v_x v)) /\ t_vmcs (x_task (v_x v')) = t_vmcs (x_task (v_x v)) /\ x_calls (v_x v') = x_calls (v_x v).

Lemma call_ok name args v : exists r v', lx (lkx (hcall name args)) v = Done r v' /\
  r = os (k_trace (t_kern (x_task (v_x v)))) name args /\ quiet_step v v' /\ idle v v'.
Proof.
  eexists _, _. split; [reflexivity|]. split; [done|]. split; [|done]. constructor; [|done|done]. by destruct v as [[[[]]] ?].
Qed.

(** The hypervisor grants what [fork] asks it for. *)
Definition hv_works : Prop := forall tr name args,
  name ∈ ["hv_vcpu_create"; "hv_vcpu_destroy"; "hv_vm_create"; "hv_vm_destroy"] -> h_ret (os tr name args) = 0.

Lemma vmm_destroy_ok v : hv_works -> nr_vcpus v = 1 -> exists v', vmm_destroy v = Done tt v' /\ quiet_step v v' /\ idle v v'.
Proof.
  intros Hhv Hn. unfold vmm_destroy. erewrite (bind_Done get) by reflexivity. rewrite Hn. change (Z.to_nat 1) with 1%nat.
  destruct (call_ok "hv_vcpu_destroy" [] v) as (r1 & v1 & E1 & R1 & Q1 & I1). destruct (call_ok "hv_vm_destroy" [] v1) as (r2 & v2 & E2 & R2 & Q2 & I2).
  exists v2. split; [|split; [by eapply quiet_trans|unfold idle in *; intuition congruence]].
  assert (lx (destroy_vcpus 1) v = Done tt v1) as Ed.
  { revert E1. unfold lx. cbn [destroy_vcpus]. destruct (lkx (hcall "hv_vcpu_destroy" []) (v_x v)) as [r x|] eqn:E; [|done].
    intros [= -> <-]. rewrite (bind_Done _ _ _ _ _ E), R1, Hhv by set_solver. done. }
  rewrite (bind_Done _ _ _ _ _ Ed), (bind_Done _ _ _ _ _ E2), R2, Hhv by set_solver. done.
Qed.

Lemma create_vm_ok v : hv_works -> exists v', lx create_vm v = Done tt v' /\ quiet_step v v' /\
  x_calls (v_x v') = HvVmCreate :: x_calls (v_x v).
Proof.
  intros Hhv. set (x := v_x v). unfold create_vm, hv_vm_create, lx. fold x.
  destruct (call_ok "hv_vm_create" [] v) as (r & v1 & E & R & Q & I). unfold lx in E. fold x in E.
  destruct (lkx (hcall "hv_vm_create" []) x) as [r' x1|] eqn:Ex; [|done]. injection E as -> <-.
  assert (h_ret r = 0) as Hr by (rewrite R; apply Hhv; set_solver).
  erewrite bind_Done by (erewrite (bind_Done _ _ _ _ _ Ex); reflexivity). rewrite Hr. cbn [negb Z.eqb andb].
  erewrite (bind_Done (mret _)) by reflexivity. cbn [negb Z.eqb].
  rewrite (lw_quiet (call HvVmCreate) x1 tt [HvVmCreate]); [|done|by intros e ->%list_elem_of_singleton].
  eexists. split; [reflexivity|]. destruct I as (_ & _ & Ic). cbn in Ic. destruct Q as [Q1 Q2 Q3]. split; [by constructor|]. cbn. by rewrite Ic.
Qed.

(** The new machine has the old one's CPU and the process's memory. *)
Lemma vmm_reentry_ok t v : hv_works -> (forall tr, hv_vm_map_ok tr = true) -> nr_vcpus v = 1 -> cpu_range t ->
  mm_ok (u_mm (x_um (v_x v))) -> mm_ok (u_vkern (x_um (v_x v))) ->
  exists v', vmm_reentry (mk_snapshot (t_regs t <$> x86_reg_list) (vmcs_value t <$> vmcs_field_masked_list)) v = Done tt v' /\
    quiet_step v v' /\ same_cpu t (x_task (v_x v')) /\
    forall a, ept (x_calls (v_x v')) a = host_of <$> match aspace (u_mm (x_um (v_x v))) a with Some p => Some p | None => aspace (u_vkern (x_um (v_x v))) a end.
Proof.
  intros Hhv Hmap Hn Hc Hm Hk. unfold vmm_reentry.
  destruct (create_vm_ok v Hhv) as (v1 & E1 & Q1 & C1). rewrite (bind_Done _ _ _ _ _ E1). erewrite (bind_Done get) by reflexivity.
  rewrite (qs_vcpus _ _ Q1), Hn. cbn [Z.gtb Z.compare Pos.compare Pos.compare_cont].
  assert (exists v2, lx hv_vcpu_create v1 = Done tt v2 /\ quiet_step v1 v2 /\ x_calls (v_x v2) = x_calls (v_x v1)) as (v2 & E2 & Q2 & C2).
  { destruct (call_ok "hv_vcpu_create" [] v1) as (r & v' & E & R & Q & I). unfold lx, hv_vcpu_create in *.
    destruct (lkx (hcall "hv_vcpu_create" []) (v_x v1)) as [r' x1|] eqn:Ex; [|done]. injection E as -> <-. rewrite (bind_Done _ _ _ _ _ Ex), R, Hhv by set_solver.
    cbn [negb Z.eqb]. erewrite (bind_Done get) by reflexivity. eexists. split; [reflexivity|]. destruct I as (_ & _ & Ic). split; [|exact Ic].
    destruct Q as [Qt Qb Qn]. constructor; [|exact Qb|exact Qn]. eapply kept_trans; [exact Qt|]. apply same_task_kept. reflexivity. }
  rewrite (bind_Done _ _ _ _ _ E2). destruct (restore_ok t (x_task (v_x v2)) Hc) as (t3 & E3 & S3 & Same3).
  set (v3 := mk_vstate (mk_xstate t3 (x_brk (v_x v2)) (x_calls (v_x v2))) (nr_vcpus v2)).
  assert (quiet_step v2 v3) as Q3 by (constructor; [by apply same_task_kept|done|done]).
  assert (quiet_step v v3) as Q by (eapply quiet_trans; [exact Q1|]; by eapply quiet_trans).
  erewrite bind_Done by (unfold lx; rewrite (ltask_Done _ _ _ _ E3); reflexivity). fold v3.
  destruct (restore_ept_ok (xworld (v_x v3))) as (new & E4 & Hnew & He); [unfold xworld; cbn [w_mm]; by rewrite (quiet_um _ _ Q)|unfold xworld; cbn [w_vkern]; by rewrite (quiet_um _ _ Q)|done|].
  erewrite bind_Done by (unfold lx; rewrite (lw_quiet _ _ _ _ E4); [reflexivity|]; intros e Hin; by destruct (Hnew e Hin) as [r ->]).
  eexists. split; [reflexivity|]. cbn [v_x x_task x_calls]. split; [by destruct Q; constructor|]. split; [exact Same3|].
  intros a. specialize (He a). cbn [w_mm w_vkern w_trace xworld] in He. rewrite (quiet_um _ _ Q) in He. rewrite He. cbn [v3 v_x x_calls]. rewrite C2, C1.
  by destruct (aspace (u_mm (x_um (v_x v))) a), (aspace (u_vkern (x_um (v_x v))) a).
Qed.

Lemma winv_same_ept w w' : winv w -> w_mm w' = w_mm w -> w_vkern w' = w_vkern w -> noah_kern_brk w' = noah_kern_brk w ->
  (forall a, ept (w_trace w') a = ept (w_trace w) a) -> winv w'.
Proof. intros [] Em Ev Eb Ee. constructor; rewrite ?Em, ?Ev, ?Eb; try done. intros a Ha. rewrite Ee. by apply inv_sync_at. Qed.

Lemma vmm_snapshot_ok v : nr_vcpus v = 1 -> vmm_snapshot v =
  Done (mk_snapshot (t_regs (x_task (v_x v)) <$> x86_reg_list) (vmcs_value (x_task (v_x v)) <$> vmcs_field_masked_list)) v.
Proof.
  intros Hn. unfold vmm_snapshot. erewrite (bind_Done get) by reflexivity. rewrite Hn. unfold lx. cbn [Z.gtb Z.compare Pos.compare Pos.compare_cont].
  rewrite (ltask_Done _ _ _ _ (snapshot_ok _)). by destruct v as [[]].
Qed.

Lemma init_task_plain t : exists t', init_task 0 0 0 t = Done tt t' /\ t_regs t' = t_regs t /\ t_vmcs t' = t_vmcs t /\ t_um t' = t_um t /\
  t_sigmask t' = 0 /\ t_sigpending t' = 0 /\ t_set_child_tid t' = 0 /\ t_clear_child_tid t' = 0 /\
  t_tid t' = u64 (h_ret (os (tail (k_trace (t_kern t'))) "getpid" [])).
Proof.
  unfold init_task. do 2 erewrite (bind_Done (modify _)) by reflexivity. change (testf 0 _) with false. cbv iota zeta.
  erewrite bind_Done by (erewrite bind_Done by reflexivity; reflexivity). erewrite (bind_Done (modify _)) by reflexivity.
  eexists. split; [reflexivity|]. done.
Qed.

Lemma sys_fork_eq v : sys_fork v = (ret ← __do_clone_process 0 0 0 0 0; mret (ret, None)) v.
Proof. reflexivity. Qed.

(** C22: [fork] gives both processes a machine like the one it destroyed.  When the
    hypervisor grants the new machine, [fork] returns in the parent and in the child
    with every register and every saved VMCS field as before, the memory unchanged and
    translated by the new machine exactly as by the old one; the parent keeps its
    task, and the child's has no pending or blocked signals, its own identifier and no
    address to clear. *)
Theorem fork_spec v : let t := x_task (v_x v) in
  winv (xworld (v_x v)) -> nr_vcpus v = 1 -> cpu_range t -> hv_works -> (forall tr, hv_vm_map_ok tr = true) ->
  exists ret v', let t' := x_task (v_x v') in sys_fork v = Done (ret, None) v' /\ same_cpu t t' /\ x_um (v_x v') = x_um (v_x v) /\
    (forall a, ept (x_calls (v_x v')) a = ept (x_calls (v_x v)) a) /\ winv (xworld (v_x v')) /\
    (ret <> 0 -> kept t t') /\
    (ret = 0 -> t_sigmask t' = 0 /\ t_sigpending t' = 0 /\ t_set_child_tid t' = 0 /\ t_clear_child_tid t' = 0 /\
       t_tid t' = u64 (h_ret (os (tail (k_trace (t_kern t'))) "getpid" []))).
Proof.
  intros t Hw Hn Hc Hhv Hmap. pose proof (inv_mm _ Hw) as Hm. pose proof (inv_vkern _ Hw) as Hk. rewrite sys_fork_eq.
  destruct (vmm_destroy_ok v Hhv Hn) as (v1 & E1 & Q1 & I1).
  destruct (call_ok "fork" [] v1) as (r & v2 & E2 & R2 & Q2 & I2). set (ret := syswrap (h_ret r) (h_errno r)).
  assert (quiet_step v v2) as Q by by eapply quiet_trans.
  destruct (vmm_reentry_ok t v2 Hhv Hmap) as (v3 & E3 & Q3 & S3 & He); rewrite ?(quiet_um _ _ Q); try done; [by rewrite (qs_vcpus _ _ Q)|].
  rewrite (quiet_um _ _ Q) in He. assert (quiet_step v v3) as Q' by by eapply quiet_trans.
  assert (forall a, ept (x_calls (v_x v3)) a = ept (x_calls (v_x v)) a) as He' by (intros a; rewrite He; symmetry; apply (inv_sync _ Hw)).
  assert (forall v', x_um (v_x v') = x_um (v_x v) -> x_brk (v_x v') = x_brk (v_x v3) -> x_calls (v_x v') = x_calls (v_x v3) -> winv (xworld (v_x v'))) as Hw'.
  { intros v' Eu Eb Ec. apply (winv_same_ept _ _ Hw); cbn; rewrite ?Eu, ?Eb, ?Ec; try done. apply Q'. }
  assert (__do_clone_process 0 0 0 0 0 v = (if ret <? 0 then mret ret else if ret =? 0 then lx (ltask (init_task 0 0 0));; mret ret else mret ret) v3) as Ec.
  { unfold __do_clone_process. rewrite (bind_Done _ _ _ _ _ (vmm_snapshot_ok v Hn)), (bind_Done _ _ _ _ _ E1).
    assert (lx (lkx (sysw "fork" [])) v1 = Done ret v2) as E2' by (unfold ret; injection E2 as <- <-; reflexivity).
    rewrite (bind_Done _ _ _ _ _ E2'), (bind_Done _ _ _ _ _ E3). done. }
  destruct (Z.eqb_spec ret 0) as [Ez|Hnz].
  - destruct (init_task_plain (x_task (v_x v3))) as (t4 & E4 & Hreg & Hvm & Hum & Hch). rewrite Ez in Ec. cbn [Z.ltb Z.compare] in Ec.
    erewrite bind_Done in Ec by (unfold lx; rewrite (ltask_Done _ _ _ _ E4); reflexivity).
    eexists 0, _. rewrite (bind_Done _ _ _ _ _ Ec). split; [reflexivity|]. cbn [v_x x_task x_calls x_brk].
    assert (x_um (mk_xstate t4 (x_brk (v_x v3)) (x_calls (v_x v3))) = x_um (v_x v)) as Hu by (rewrite <- (quiet_um _ _ Q'); exact Hum).
    split_and!; try done; [by destruct S3; split; unfold vmcs_value in *; rewrite ?Hreg, ?Hvm|].
    by apply (Hw' (mk_vstate (mk_xstate t4 (x_brk (v_x v3)) (x_calls (v_x v3))) (nr_vcpus v3))).
  - exists ret, v3. assert (__do_clone_process 0 0 0 0 0 v = Done ret v3) as E by (rewrite Ec; by destruct (ret <? 0)).
    rewrite (bind_Done _ _ _ _ _ E). split; [done|].
    split_and!; try done; [by apply quiet_um|by apply Hw'; [apply quiet_um| |]|intros _; apply Q'].
Qed.

End Machine.

(** ** A concrete run *)

Section ForkRuns.
#[local] Existing Instances macos_errno macos_const demo_os demo_host demo_hostmem.
#[local] Instance demo_cpu : HostCpu := {| fresh_regs := fun _ _ => 7; fresh_vmcs := fun _ _ => 7 |}.

Lemma fork_spec_witness : exists ret v', sys_fork (mk_vstate x_init 1) = Done (ret, None) v' /\ t_regs (x_task (v_x v')) RSP = 0x12f00.
Proof.
  destruct (fork_spec (mk_vstate x_init 1)) as (ret & v' & E & [Hr _] & _).
  - apply init_winv.
  - reflexivity.
  - split; [|intros x; cbn; lia]. intros r. cbn. repeat case_decide; lia.
  - intros tr name args _. reflexivity.
  - reflexivity.
  - exists ret, v'. split; [exact E|]. rewrite Hr. reflexivity.
Defined.

End ForkRuns.
