(* ===== verification/Process.v ===== *)
(** * Processes: identity, credentials, limits, waiting, exit ([src/proc/process.c])

    Locks are left out: handlers run one at a time.  [exit] needs the futexes
    besides the task, which share guest memory. *)

From S2P Require Import Prelude RBTree Const Errno Conv Mm Mmap MmInv MmSys UserMem FdTable Kernel Files Task Signal Futex.

(** ** Constants ([include/linux/misc.h], [include/linux/futex.h], [include/noah.h]) *)

Definition LINUX_RLIMIT_CPU : Z := 0.
Definition LINUX_RLIMIT_FSIZE : Z := 1.
Definition LINUX_RLIMIT_DATA : Z := 2.
Definition LINUX_RLIMIT_STACK : Z := 3.
Definition LINUX_RLIMIT_CORE : Z := 4.
Definition LINUX_RLIMIT_RSS : Z := 5.
Definition LINUX_RLIMIT_NPROC : Z := 6.
Definition LINUX_RLIMIT_NOFILE : Z := 7.
Definition LINUX_RLIMIT_MEMLOCK : Z := 8.
Definition LINUX_RLIMIT_AS : Z := 9.
Definition LINUX_RLIM_NLIMITS : Z := 10.
Definition LINUX_ARCH_SET_GS : Z := 0x1001.
Definition LINUX_ARCH_SET_FS : Z := 0x1002.
Definition LINUX_ARCH_GET_FS : Z := 0x1003.
Definition LINUX_ARCH_GET_GS : Z := 0x1004.
Definition LINUX_WNOHANG : Z := 0x00000001.
Definition LINUX_WUNTRACED : Z := 0x00000002.
Definition LINUX_WEXITED : Z := 0x00000004.
Definition LINUX_WCONTINUED : Z := 0x00000008.
Definition LINUX_PR_SET_NAME : Z := 15.
Definition LINUX_RELEASE : list Z := str "4.6.4".
Definition LINUX_VERSION : list Z := str "#1 SMP PREEMPT Mon Jul 11 19:12:32 CEST 2016".
(** [(l_uid_t) -1] *)
Definition NOID : Z := 2 ^ 32 - 1.

Section Process.
Context `{OS} `{DarwinErrno} `{DarwinConst}.

(** ** Credentials *)

Definition sys_getuid : K Z := k ← get; mret (c_uid (k_cred k)).
Definition sys_geteuid : K Z := k ← get; mret (c_euid (k_cred k)).

Definition can_setresxid (c : cred) (id : Z) : bool :=
  (c_euid c =? 0) || (c_euid c =? id) || (c_uid c =? id) || (c_suid c =? id).

(** The three parts of [do_setresuid], each with what follows it; a failed call of
    the host is a panic ([cred_management_err]). *)
Definition set_ruid (ruid : Z) (rest : K Z) : K Z :=
  if ruid =? NOID then rest
  else
    k ← get;
    if negb (can_setresxid (k_cred k) ruid) then mret (- LINUX_EPERM)
    else if negb (ruid =? 0) && negb (c_euid (k_cred k) =? 0) then halt Panic
    else
      put (set_cred (mk_cred ruid (c_euid (k_cred k)) (c_suid (k_cred k))) k);;
      r ← sysw "setruid" [HI ruid];
      if r <? 0 then halt Panic else rest.

Definition set_euid (euid : Z) (rest : K Z) : K Z :=
  if euid =? NOID then rest
  else
    k ← get;
    if negb (can_setresxid (k_cred k) euid) then mret (- LINUX_EPERM)
    else if negb (c_euid (k_cred k) =? 0) && negb (euid =? c_uid (k_cred k)) && negb (c_suid (k_cred k) =? 0)
    then assert_ (euid =? c_suid (k_cred k));; halt Panic
    else
      put (set_cred (mk_cred (c_uid (k_cred k)) euid (c_suid (k_cred k))) k);;
      r ← sysw "seteuid" [HI euid];
      if r <? 0 then halt Panic else rest.

Definition set_suid (suid : Z) (rest : K Z) : K Z :=
  if suid =? NOID then rest
  else
    k ← get;
    if negb (can_setresxid (k_cred k) suid) then mret (- LINUX_EPERM)
    else put (set_cred (mk_cred (c_uid (k_cred k)) (c_euid (k_cred k)) suid) k);; rest.

Definition do_setresuid (ruid euid suid : Z) : K Z := set_ruid ruid (set_euid euid (set_suid suid (mret 0))).

Definition sys_setresuid (ruid euid suid : Z) : K Z := do_setresuid ruid euid suid.

Definition sys_getresuid (ruid euid suid : Z) : K Z :=
  k ← get;
  let c := k_cred k in
  e ← k_copy_to_user ruid (le_encode 4 (c_uid c));
  if negb (e =? 0) then mret (- LINUX_EFAULT)
  else
    e ← k_copy_to_user euid (le_encode 4 (c_euid c));
    if negb (e =? 0) then mret (- LINUX_EFAULT)
    else copy_out suid (le_encode 4 (c_suid c)) 0.

Definition sys_setuid (uid : Z) : K Z :=
  if uid =? NOID then mret (- LINUX_EINVAL)
  else
    k ← get;
    let c := k_cred k in
    if c_euid c =? 0 then do_setresuid uid uid uid
    else if negb (c_uid c =? uid) && negb (c_suid c =? uid) then mret (- LINUX_EPERM)
    else do_setresuid NOID uid NOID.

(** ** Calls of the host *)

Definition sys_sched_yield : K Z := hcall "sleep" [HI 0];; mret 0.
Definition sys_getpid : K Z := sysw "getpid" [].
Definition sys_getgid : K Z := sysw "getgid" [].
Definition sys_setgid (gid : Z) : K Z := sysw "setgid" [HI gid].
Definition sys_getegid : K Z := sysw "getegid" [].
Definition sys_setresgid (rgid egid sgid : Z) : K Z := sysw "setregid" [HI rgid; HI egid].
Definition sys_setsid : K Z := sysw "setsid" [].
Definition sys_setpgid (pid pgid : Z) : K Z := sysw "setpgid" [HI pid; HI pgid].
Definition sys_getppid : K Z := sysw "getppid" [].
Definition sys_getpgrp : K Z := sysw "getpgrp" [].
Definition sys_getpgid (pid : Z) : K Z := sysw "getpgid" [HI pid].
Definition sys_getsid (pid : Z) : K Z := sysw "getsid" [HI pid].
Definition sys_getpriority (which who : Z) : K Z := sysw "getpriority" [HI which; HI who].
Definition sys_setpriority (which who niceval : Z) : K Z := sysw "setpriority" [HI which; HI who; HI niceval].

Definition sys_getresgid (rgid egid sgid : Z) : K Z :=
  r ← hcall "getgid" [];
  e ← k_copy_to_user rgid (le_encode 4 (u32 (h_ret r)));
  if negb (e =? 0) then mret (- LINUX_EFAULT)
  else
    r ← hcall "getegid" [];
    e ← k_copy_to_user egid (le_encode 4 (u32 (h_ret r)));
    if negb (e =? 0) then mret (- LINUX_EFAULT)
    else
      r ← hcall "getgid" [];
      copy_out sgid (le_encode 4 (u32 (h_ret r))) 0.

(** The whole buffer is copied out, also what the host did not fill in. *)
Definition sys_getgroups (gidsetsize grouplist_ptr : Z) : K Z :=
  k ← get;
  let n := u64 (gidsetsize * 4) in
  '(r, o) ← sysw_out "getgroups" [HI gidsetsize];
  if r <? 0 then mret r
  else copy_out grouplist_ptr (take (Z.to_nat n) (outbuf o 0 ++ uninit (k_trace k))) r.

Definition sys_setgroups (gidsetsize grouplist_ptr : Z) : K Z :=
  copy_in grouplist_ptr (u64 (gidsetsize * 4)) (fun gl => sysw "setgroups" [HI gidsetsize; HB gl]).

(** ** Limits and usage *)

(** An unknown resource is number 0 of the host. *)
Definition linux_to_darwin_rlimopts (l_resource : Z) : Z :=
  if l_resource =? LINUX_RLIMIT_CPU then D "RLIMIT_CPU"
  else if l_resource =? LINUX_RLIMIT_FSIZE then D "RLIMIT_FSIZE"
  else if l_resource =? LINUX_RLIMIT_DATA then D "RLIMIT_DATA"
  else if l_resource =? LINUX_RLIMIT_STACK then D "RLIMIT_STACK"
  else if l_resource =? LINUX_RLIMIT_CORE then D "RLIMIT_CORE"
  else if l_resource =? LINUX_RLIMIT_RSS then D "RLIMIT_RSS"
  else if l_resource =? LINUX_RLIMIT_NPROC then D "RLIMIT_NPROC"
  else if l_resource =? LINUX_RLIMIT_NOFILE then D "RLIMIT_NOFILE"
  else if l_resource =? LINUX_RLIMIT_MEMLOCK then D "RLIMIT_MEMLOCK"
  else if l_resource =? LINUX_RLIMIT_AS then D "RLIMIT_AS"
  else 0.

Definition sys_getrlimit (l_resource rl_ptr : Z) : K Z :=
  if l_resource >=? LINUX_RLIM_NLIMITS then mret (- LINUX_EINVAL)
  else
    let resource := linux_to_darwin_rlimopts l_resource in
    '(r, o) ← sysw_out "getrlimit" [HI resource];
    if r <? 0 then mret r
    else
      let rl := (field (outbuf o 0) 0 8, field (outbuf o 0) 8 8) in
      let l_rl := darwin_to_linux_rlimit darwin_to_linux_rlimit_nofile resource rl in
      copy_out rl_ptr (enc [(8%nat, l_rl.1); (8%nat, l_rl.2)]) r.

Definition sys_setrlimit (resource rlim : Z) : K Z := mret (- LINUX_ENOSYS).

(** Darwin's [struct rusage]: two [struct timeval] of 8 + 4 bytes (and padding), and
    fourteen longs. *)
Definition darwin_to_linux_rusage (ru : list Z) : list Z :=
  enc ([(8%nat, field ru 0 8); (8%nat, u64 (s32 (field ru 8 4))); (8%nat, field ru 16 8); (8%nat, u64 (s32 (field ru 24 4)))] ++
       ((fun i => (8%nat, field ru (32 + 8 * i) 8)) <$> seq 0 14)).

Definition sys_getrusage (who rusage_ptr : Z) : K Z :=
  '(r, o) ← sysw_out "getrusage" [HI who];
  if r <? 0 then mret r else copy_out rusage_ptr (darwin_to_linux_rusage (outbuf o 0)) 0.

Definition sys_sched_getaffinity (pid len user_mask_ptr : Z) : K Z :=
  if len <? 32 then mret (- LINUX_EINVAL) else copy_out user_mask_ptr (1 :: replicate 31 0) 32.

(** ** Fixed answers *)

Definition sys_tgkill : K Z := mret (- LINUX_ENOSYS).
Definition sys_capget (header_ptr data_ptr : Z) : K Z := mret 0.

(** [strncpy(buf, s, 64)] into 65 bytes of the stack *)
Definition uts_field (s : list Z) (last : Z) : list Z := take 64 (s ++ replicate 64 0) ++ [last].

Definition sys_uname (buf_ptr : Z) : K Z :=
  k ← get;
  let u i := default 0 (uninit (k_trace k) !! i) in
  '(err, o) ← sysw_out "gethostname" [HI 64];
  if err <? 0 then mret err
  else
    let nodename := take 65 (take 64 (outbuf o 0) ++ drop (length (take 64 (outbuf o 0))) (u <$> seq 65 65)) in
    copy_out buf_ptr
      (uts_field (str "Linux") (u 64%nat) ++ nodename ++ uts_field LINUX_RELEASE (u 194%nat) ++ uts_field LINUX_VERSION (u 259%nat) ++
       uts_field (str "x86_64") (u 324%nat) ++ uts_field (str "GNU/Linux") (u 389%nat)) 0.

Definition sys_prctl (option arg1 : Z) : K Z :=
  if option =? LINUX_PR_SET_NAME then
    copy_in arg1 16 (fun buf => hcall "pthread_setname_np" [HS (until_nul (take 15 buf))];; mret 0)
  else mret (- LINUX_EINVAL).

(** ** The task *)

Definition do_gettid : T Z := t ← get; mret (t_tid t).
Definition sys_gettid : T Z := do_gettid.

Definition sys_arch_prctl (code addr : Z) : T Z :=
  if code =? LINUX_ARCH_SET_GS then vmm_write_vmcs "GUEST_GS_BASE" addr;; mret 0
  else if code =? LINUX_ARCH_SET_FS then vmm_write_vmcs "GUEST_FS_BASE" addr;; mret 0
  else if code =? LINUX_ARCH_GET_FS then v ← vmm_read_vmcs "GUEST_FS_BASE"; lk (copy_out addr (le_encode 8 v) 0)
  else if code =? LINUX_ARCH_GET_GS then v ← vmm_read_vmcs "GUEST_GS_BASE"; lk (copy_out addr (le_encode 8 v) 0)
  else mret (- LINUX_EINVAL).

Definition sys_set_tid_address (tidptr : Z) : T Z :=
  modify (fun t => tset_tids (t_tid t) (t_set_child_tid t) tidptr t);; do_gettid.

(** The error is the host's. *)
Definition sys_set_robust_list (head len : Z) : T Z :=
  if negb (len =? 24) then mret (- D "EINVAL") else modify (tset_robust head);; mret 0.

(** ** Waiting *)

Definition linux_to_darwin_waitopts (options : Z) : Z :=
  let opts := if testf options LINUX_WNOHANG then D "WNOHANG" else 0 in
  let opts := if testf options LINUX_WUNTRACED then Z.lor opts (D "WUNTRACED") else opts in
  let opts := if testf options LINUX_WCONTINUED then Z.lor opts (D "WCONTINUED") else opts in
  if testf options LINUX_WEXITED then Z.lor opts (D "WEXITED") else opts.

(** The macros of [sys/wait.h] *)
Definition WSTATUS (x : Z) : Z := Z.land x 0x7f.
Definition WSTOPSIG (x : Z) : Z := Z.shiftr x 8.
Definition WIFEXITED (x : Z) : bool := WSTATUS x =? 0.
Definition WEXITSTATUS (x : Z) : Z := Z.land (Z.shiftr x 8) 0xff.
Definition WIFSIGNALED (x : Z) : bool := negb (WSTATUS x =? 0x7f) && negb (WSTATUS x =? 0).
Definition WTERMSIG (x : Z) : Z := WSTATUS x.
Definition WCOREDUMP (x : Z) : bool := testf x 0x80.
Definition WIFSTOPPED (x : Z) : bool := (WSTATUS x =? 0x7f) && negb (WSTOPSIG x =? 0x13).

(** The status [wait4] stores *)
Definition wait_status (status : Z) : Z :=
  if WIFEXITED status then Z.shiftl (WEXITSTATUS status) 8
  else if WIFSIGNALED status then
    let st := darwin_to_linux_signal (WTERMSIG status) in
    if WCOREDUMP status then Z.lor st 0x80 else st
  else if WIFSTOPPED status then Z.lor (Z.shiftl (darwin_to_linux_signal (WSTOPSIG status)) 8) 0x7f
  else 0.

(** The usage is copied as the host returned it. *)
Definition sys_wait4 (pid status_ptr options rusage_ptr : Z) : K Z :=
  '(ret, o) ← sysw_out "wait4" [HI pid; HI (linux_to_darwin_waitopts options)];
  if ret <? 0 then mret ret
  else
    let status := s32 (field (outbuf o 0) 0 4) in
    e ← (if negb (rusage_ptr =? 0) then k_copy_to_user rusage_ptr (take 144 (outbuf o 1)) else mret 0);
    if negb (e =? 0) then mret (- LINUX_EFAULT)
    else if negb (status_ptr =? 0) then copy_out status_ptr (le_encode 4 (u32 (wait_status status))) ret
    else mret ret.

End Process.

(** ** Exit *)

(** A task and the futexes of its process; guest memory is the task's. *)
Record pstate := mk_pstate { p_task : tstate; p_futex : fstate }.

Abbreviation P := (M pstate).

Definition pt {A} (c : M tstate A) : P A := fun p =>
  match c (p_task p) with
  | Done a t => Done a (mk_pstate t (p_futex p))
  | Stop w t => Stop w (mk_pstate t (p_futex p))
  end.
Definition pf {A} (c : M fstate A) : P A := fun p =>
  let back s := mk_pstate (tset_kern (set_um (f_um s) (t_kern (p_task p))) (p_task p)) s in
  match c (fset_um (t_um (p_task p)) (p_futex p)) with
  | Done a s => Done a (back s)
  | Stop w s => Stop w (back s)
  end.

Section Exit.
Context `{OS} `{DarwinErrno} `{DarwinConst}.

(** The first half of [exit] and [exit_group] *)
Definition clear_tid (rest : P Z) : P Z :=
  t ← pt get;
  if t_clear_child_tid t =? 0 then rest
  else
    e ← pt (lk (k_copy_to_user (t_clear_child_tid t) (le_encode 4 0)));
    if negb (e =? 0) then mret (- LINUX_EFAULT)
    else pf (do_futex_wake (t_clear_child_tid t) 1);; rest.

(** The calling thread ends here, and the process with its last thread.  The list of tasks is not
    modelled, nor the count of CPUs ([nr_vcpus]), of which [vmm_destroy_vcpu] takes this one. *)
Definition sys_exit (reason : Z) : P Z :=
  clear_tid (
    pt (lk (hcall "hv_vcpu_destroy" []));;
    t ← pt get;
    (if t_nr_tasks t =? 1 then mret tt else pt (modify (fun t => tset_nr_tasks (t_nr_tasks t - 1) t)));;
    halt (Exit reason)).

Definition sys_exit_group (reason : Z) : P Z := clear_tid (halt (Exit reason)).

End Exit.

(** ** Credentials never grow *)

Definition ids (c : cred) : list Z := [c_uid c; c_euid c; c_suid c].

Section Cred.
Context `{OS} `{DarwinErrno} `{DarwinConst}.
Implicit Types (k : kstate) (c : cred) (s : list Z).

Definition within s k : Prop := c_uid (k_cred k) ∈ s /\ c_euid (k_cred k) ∈ s /\ c_suid (k_cred k) ∈ s.
Definition keeps_ids s (c : K Z) : Prop := forall k, within s k -> ensures c (fun _ => within s) k.

Lemma within_ids k : within (ids (k_cred k)) k.
Proof. unfold within, ids. set_solver. Qed.

(** An id the checks let pass is one the process has, when it is not root. *)
Lemma can_within s k id : 0 ∉ s -> within s k -> can_setresxid (k_cred k) id = true -> id ∈ s.
Proof.
  intros Hz (Hu & He & Hs) Hc. unfold can_setresxid in Hc. rewrite !orb_true_iff, !Z.eqb_eq in Hc.
  destruct Hc as [[[Hc|Hc]|Hc]|Hc]; congruence.
Qed.

Lemma sysw_eq name args k : let r := os (k_trace k) name args in
  sysw name args k = Done (syswrap (h_ret r) (h_errno r)) (add_event (mk_event name args r) k).
Proof. done. Qed.

Lemma host_keeps s name args rest : keeps_ids s rest ->
  keeps_ids s (r ← sysw name args; if r <? 0 then halt Panic else rest).
Proof. intros Hr k Hk. unfold ensures. rewrite (bind_Done _ _ _ _ _ (sysw_eq name args k)). destruct (Z.ltb _ 0); [done|]. by apply Hr. Qed.

Lemma put_keeps s k (rest : K Z) c : keeps_ids s rest -> within s (set_cred c k) -> ensures (put (set_cred c k);; rest) (fun _ => within s) k.
Proof. intros Hr Hk. estep. estep. by apply Hr. Qed.

Lemma set_keeps s ruid euid suid rest : 0 ∉ s -> keeps_ids s rest ->
  keeps_ids s (set_ruid ruid rest) /\ keeps_ids s (set_euid euid rest) /\ keeps_ids s (set_suid suid rest).
Proof.
  intros Hz Hr. split_and!; intros k Hk; unfold set_ruid, set_euid, set_suid;
    (destruct (_ =? NOID); [by apply Hr|]); estep; estep; destruct (can_setresxid _ _) eqn:Ec; cbn [negb]; try (estep; exact Hk);
    apply (can_within s) in Ec; try done; destruct Hk as (Hu & He & Hs).
  - destruct (_ && _); [estep|]. apply put_keeps; [by apply host_keeps|done].
  - destruct (_ && _); [estep; estep; estep|]. apply put_keeps; [by apply host_keeps|done].
  - by apply put_keeps.
Qed.

Lemma do_setresuid_keeps s ruid euid suid : 0 ∉ s -> keeps_ids s (do_setresuid ruid euid suid).
Proof.
  intros Hz. assert (keeps_ids s (mret 0)) as Hr by by intros k Hk.
  destruct (set_keeps s ruid euid suid _ Hz Hr) as (_ & _ & H3). destruct (set_keeps s ruid euid suid _ Hz H3) as (_ & H2' & _).
  by destruct (set_keeps s ruid euid suid _ Hz H2').
Qed.

(** A call that changes ids, by any of the process's threads. *)
Inductive cred_step k : kstate -> Prop :=
| step_setresuid ruid euid suid r k' : sys_setresuid ruid euid suid k = Done r k' -> cred_step k k'
| step_setuid uid r k' : sys_setuid uid k = Done r k' -> cred_step k k'.

Lemma cred_step_within s k k' : 0 ∉ s -> within s k -> cred_step k k' -> within s k'.
Proof.
  intros Hz Hk [ruid euid suid r ? E|uid r ? E]; eapply (ensures_elim _ (fun _ => within s)) in E; try done; [by apply do_setresuid_keeps|].
  unfold sys_setuid. estep; [by estep|]. estep. estep. estep; [by apply do_setresuid_keeps|]. estep; [by estep|by apply do_setresuid_keeps].
Qed.

Lemma cred_reach_within s k k' : 0 ∉ s -> within s k -> rtc cred_step k k' -> within s k'.
Proof. intros Hz Hk Hr. induction Hr; eauto using cred_step_within. Qed.

Lemma K_get {A} (f : kstate -> K A) k : (get ≫= f) k = f k k.
Proof. done. Qed.
Lemma K_put {A} (f : unit -> K A) k1 k : (put k1 ≫= f) k = f tt k1.
Proof. done. Qed.
Lemma K_sysw {A} name args (f : Z -> K A) k : let r := os (k_trace k) name args in
  (sysw name args ≫= f) k = f (syswrap (h_ret r) (h_errno r)) (add_event (mk_event name args r) k).
Proof. done. Qed.

(** The credentials a successful [setuid] of root leaves. *)
Lemma setuid_root k u : c_euid (k_cred k) = 0 -> u <> NOID ->
  match sys_setuid u k with
  | Done r k' => r = 0 /\ k_cred k' = mk_cred u u u
  | Stop w _ => w = Panic
  end.
Proof.
  intros He Hu. unfold sys_setuid. rewrite (proj2 (Z.eqb_neq u NOID) Hu). cbv iota. rewrite K_get. cbv zeta. rewrite He. cbn [Z.eqb].
  unfold do_setresuid, set_ruid, set_euid, set_suid, can_setresxid. rewrite (proj2 (Z.eqb_neq u NOID) Hu). cbv iota.
  rewrite K_get. rewrite He. cbn [Z.eqb orb negb]. rewrite andb_false_r. rewrite K_put.
  rewrite K_sysw. destruct (Z.ltb _ 0); [done|]. rewrite K_get.
  cbn [k_cred add_event set_cred c_uid c_euid c_suid Z.eqb orb negb andb]. rewrite K_put.
  rewrite K_sysw. destruct (Z.ltb _ 0); [done|]. rewrite K_get.
  cbn [k_cred add_event set_cred c_uid c_euid c_suid]. rewrite Z.eqb_refl, orb_true_r. cbn [orb negb]. done.
Qed.

(** C34: A process cannot gain an identity.  When none of its user ids is root's, no
    sequence of [setuid] and [setresuid] calls gives it an id it did not have; and when
    root calls [setuid] for another user, the call succeeds (or the kernel stops, the
    host having refused), all three ids become that user's and stay so for good. *)
Theorem credentials_safe k :
  (0 ∉ ids (k_cred k) -> forall k' id, rtc cred_step k k' -> id ∈ ids (k_cred k') -> id ∈ ids (k_cred k)) /\
  (c_euid (k_cred k) = 0 -> forall u, u <> 0 -> u <> NOID ->
     match sys_setuid u k with
     | Done r k1 => r = 0 /\ forall k2, rtc cred_step k1 k2 -> k_cred k2 = mk_cred u u u
     | Stop w _ => w = Panic
     end).
Proof.
  split.
  - intros Hz k' id Hr Hid. destruct (cred_reach_within _ _ _ Hz (within_ids k) Hr) as (Hu & He & Hs). unfold ids in *. set_solver.
  - intros He u Hu Hn. pose proof (setuid_root k u He Hn) as Hd. destruct (sys_setuid u k) as [r k1|w k1]; [|done].
    destruct Hd as [-> Hc]. split; [done|]. intros k2 Hr.
    destruct (cred_reach_within [u] k1 k2) as (U1 & U2 & U3); [set_solver| |done|].
    + unfold within. rewrite Hc. set_solver.
    + destruct (k_cred k2). cbn in *. set_solver.
Qed.

End Cred.

(** ** Wait status *)

(** What the C library of the guest makes of a status *)
Definition l_WIFEXITED (st : Z) : bool := Z.land st 0x7f =? 0.
Definition l_WEXITSTATUS (st : Z) : Z := Z.shiftr (Z.land st 0xff00) 8.
Definition l_WIFSIGNALED (st : Z) : bool := negb (Z.land st 0x7f =? 0) && negb (Z.land st 0x7f =? 0x7f).
Definition l_WTERMSIG (st : Z) : Z := Z.land st 0x7f.
Definition l_WCOREDUMP (st : Z) : bool := testf st 0x80.
Definition l_WIFSTOPPED (st : Z) : bool := Z.land st 0xff =? 0x7f.

Section Status.
Context `{DarwinSignalOk}.

Lemma small_signal n v (P : Z -> bool) : (n, v) ∈ std_signals -> forallb P (seqZ 1 31) = true -> P v = true.
Proof.
  intros Hin Hf. destruct (std_signal_value n v Hin) as [Hv _]. change LINUX_SIGRTMIN with 32 in Hv. rewrite forallb_forall in Hf. apply Hf.
  apply list_elem_of_In, elem_of_seqZ. lia.
Qed.

(** [wait4] translates how a child ended.  The guest's macros read from the
    stored status an exit with the same exit code, a death by the Linux signal that
    stands for the host's, with the same core dump flag, or a stop by that signal. *)
Theorem wait_status_decodes status :
  (WIFEXITED status = true -> l_WIFEXITED (wait_status status) = true /\ l_WEXITSTATUS (wait_status status) = WEXITSTATUS status) /\
  (forall n v, (n, v) ∈ std_signals -> WIFSIGNALED status = true -> WTERMSIG status = D n ->
     l_WIFSIGNALED (wait_status status) = true /\ l_WTERMSIG (wait_status status) = v /\ l_WCOREDUMP (wait_status status) = WCOREDUMP status) /\
  (forall n v, (n, v) ∈ std_signals -> WIFSTOPPED status = true -> WSTOPSIG status = D n ->
     l_WIFSTOPPED (wait_status status) = true /\ l_WEXITSTATUS (wait_status status) = v).
Proof.
  unfold wait_status. split_and!.
  - intros ->. unfold l_WIFEXITED, l_WEXITSTATUS. set (e := WEXITSTATUS status).
    assert (0 <= e < 256) as He by (unfold e, WEXITSTATUS; change 0xff with (Z.ones 8); rewrite Z.land_ones by lia; apply Z.mod_pos_bound; lia).
    clearbody e. rewrite Z.shiftl_mul_pow2 by lia. split.
    + change 0x7f with (Z.ones 7). rewrite Z.land_ones by lia. apply Z.eqb_eq. change (2 ^ 8) with (2 * 2 ^ 7). rewrite Z.mul_assoc. apply Z.mod_mul. lia.
    + rewrite Z.shiftr_land. change (Z.shiftr 0xff00 8) with (Z.ones 8). rewrite Z.shiftr_div_pow2, Z.div_mul by lia. rewrite Z.land_ones by lia. apply Z.mod_small. lia.
  - intros n v Hin Hs Ht. unfold WIFEXITED, WIFSIGNALED in *. apply andb_true_iff in Hs as [Hs1 Hs2]. apply negb_true_iff in Hs2. rewrite Hs2, Hs1. cbn [andb negb].
    rewrite Ht. destruct (signal_values n v Hin) as (_ & -> & _).
    pose proof (small_signal n v (fun v => l_WIFSIGNALED v && (l_WTERMSIG v =? v) && negb (l_WCOREDUMP v) && l_WIFSIGNALED (Z.lor v 0x80) &&
      (l_WTERMSIG (Z.lor v 0x80) =? v) && l_WCOREDUMP (Z.lor v 0x80)) Hin eq_refl) as Hb. cbv beta in Hb.
    rewrite !andb_true_iff, !Z.eqb_eq, negb_true_iff in Hb. destruct (WCOREDUMP status); tauto.
  - intros n v Hin Hs Ht. unfold WIFEXITED, WIFSIGNALED in *. rewrite Hs. unfold WIFSTOPPED in Hs. apply andb_true_iff in Hs as [Hs _]. apply Z.eqb_eq in Hs. rewrite Hs. cbn [Z.eqb Pos.eqb negb andb].
    rewrite Ht. destruct (signal_values n v Hin) as (_ & -> & _).
    pose proof (small_signal n v (fun v => l_WIFSTOPPED (Z.lor (Z.shiftl v 8) 0x7f) && (l_WEXITSTATUS (Z.lor (Z.shiftl v 8) 0x7f) =? v)) Hin eq_refl) as Hb.
    cbv beta in Hb. rewrite andb_true_iff, Z.eqb_eq in Hb. exact Hb.
Qed.

End Status.

(** ** Exit *)

Section Joins.
Context `{OS} `{DarwinErrno} `{DarwinConst}.

Lemma pt_Done {A} (c : M tstate A) p a t : c (p_task p) = Done a t -> pt c p = Done a (mk_pstate t (p_futex p)).
Proof. unfold pt. by intros ->. Qed.

(** C35: A thread that ends is joined.  [exit] of a thread with an address to clear
    ends it after it has stored a zero at the address and woken exactly the thread
    that has waited there longest, if any; the other waiters, queues and entries are
    as before, and the process has one thread less, unless it was the last. *)
Theorem exit_joins p reason a : let s := fset_um (t_um (p_task p)) (p_futex p) in
  t_clear_child_tid (p_task p) = a -> a <> 0 -> buffer_ok (t_um (p_task p)) a 4 -> queues_ok s ->
  exists p', sys_exit reason p = Stop (Exit reason) p' /\
    user_bytes (t_um (p_task p')) a 4 = [0; 0; 0; 0] /\
    queue_of (p_futex p') a = drop 1 (queue_of s a) /\ signalled (p_futex p') = list_to_set (take 1 (queue_of s a)) ∪ signalled s /\
    (forall b, b <> a -> queue_of (p_futex p') b = queue_of s b) /\ entries (p_futex p') = entries s /\ blocked (p_futex p') = blocked s /\
    t_nr_tasks (p_task p') = if t_nr_tasks (p_task p) =? 1 then 1 else t_nr_tasks (p_task p) - 1.
Proof.
  intros s Ha Hnz Hb Hq. destruct (lk_copy_to_ok (p_task p) a (le_encode 4 0)) as (u & Ec & Eu & _); [exact Hb|].
  set (t1 := tset_kern (set_um u (t_kern (p_task p))) (p_task p)). set (p1 := mk_pstate t1 (p_futex p)).
  set (s1 := fset_um u (p_futex p)). assert (queues_ok s1) as Hq1 by (destruct Hq; by constructor).
  destruct (wake_ok s1 a 1 None Hq1) as (q & Ew & _ & _ & Hqv). change (queue_of s1 a) with (queue_of s a) in *.
  pose proof (wake_split_plain (entries s1) 1 (queue_of s a)) as Hsp. cbn [Z.ltb Z.compare] in Hsp. change (Z.to_nat 1) with 1%nat in Hsp.
  rewrite Hsp in Ew. cbn [fst snd] in Ew. set (s2 := woken a _ _ _) in Ew.
  set (t2 := tset_kern (set_um u (t_kern t1)) t1).
  assert (pf (do_futex_wake a 1) p1 = Done (Z.of_nat (length (take 1 (queue_of s a)))) (mk_pstate t2 s2)) as Ef.
  { unfold pf. change (fset_um (t_um (p_task p1)) (p_futex p1)) with s1. unfold do_futex_wake. by rewrite Ew. }
  assert (pt get p = Done (p_task p) p) as Eg by by destruct p.
  unfold sys_exit, clear_tid. rewrite (bind_Done _ _ _ _ _ Eg), Ha, (proj2 (Z.eqb_neq a 0) Hnz), (bind_Done _ _ _ _ _ (pt_Done _ _ _ _ Ec)).
  cbn [Z.eqb negb]. fold t1. fold p1. rewrite (bind_Done _ _ _ _ _ Ef).
  erewrite bind_Done by (apply pt_Done; reflexivity). erewrite bind_Done by (apply pt_Done; reflexivity).
  assert (forall v, queue_of s2 v = if decide (v = a) then drop 1 (queue_of s a) else queue_of s v) as Hs2.
  { intros v. unfold queue_of at 1. cbn [s2 woken pfutex]. rewrite lookup_insert. case_decide as Hv; [subst; by rewrite decide_True|].
    rewrite decide_False by done. apply Hqv. }
  cbn [p_task p_futex t_nr_tasks tset_kern t2 t1]. destruct (Z.eqb_spec (t_nr_tasks (p_task p)) 1) as [E1|E1].
  - erewrite bind_Done by reflexivity. eexists. split; [reflexivity|]. cbn [p_task p_futex]. rewrite Hs2, decide_True by done.
    split_and!; try done. intros b Hne. by rewrite Hs2, decide_False.
  - erewrite bind_Done by (apply pt_Done; reflexivity). eexists. split; [reflexivity|]. cbn [p_task p_futex]. rewrite Hs2, decide_True by done.
    split_and!; try done. intros b Hne. by rewrite Hs2, decide_False.
Qed.

End Joins.

(** ** Concrete runs *)

Section ProcessRuns.
#[local] Existing Instances macos_errno macos_const demo_os macos_signal_ok.

(** Root drops to user 501. *)
Definition root_state : kstate := set_cred (mk_cred 501 0 0) (t_kern sig_demo).

Lemma credentials_safe_witness : exists k1, sys_setuid 501 root_state = Done 0 k1 /\ forall k2, rtc cred_step k1 k2 -> k_cred k2 = mk_cred 501 501 501.
Proof.
  destruct (credentials_safe root_state) as [_ Hs]. specialize (Hs eq_refl 501 ltac:(lia) ltac:(unfold NOID; lia)).
  destruct (sys_setuid 501 root_state) as [r k1|w k1] eqn:E; [|vm_compute in E; discriminate].
  destruct Hs as [-> Hs]. exists k1. split; [reflexivity|exact Hs].
Defined.

Lemma wait_status_decodes_witness : l_WTERMSIG (wait_status 9) = 9 /\ l_WEXITSTATUS (wait_status 0x2a00) = 42.
Proof.
  split; [apply (wait_status_decodes 9) with "SIGKILL"|apply (wait_status_decodes 0x2a00)];
    try (vm_compute; reflexivity). apply (bool_decide_unpack _). vm_compute. exact I.
Defined.

(** A thread waits for the end of another, with its identifier at 0x12d48. *)
Definition joiner : fstate := mk_fstate (t_um sig_demo) {[ 0x12d48 := [1%positive] ]} {[ 1%positive := mk_entry 0x12d48 FUTEX_BITSET_MATCH_ANY ]} 2 ∅
  {[ 7 := mk_waiter 1 false None ]}.
Definition ending : pstate := mk_pstate (tset_nr_tasks 2 (tset_tids 8 0 0x12d48 sig_demo)) joiner.

Lemma joiner_ok : queues_ok (fset_um (t_um (p_task ending)) joiner).
Proof.
  constructor; cbn.
  - intros u l p [<- <-]%lookup_singleton_Some ->%list_elem_of_singleton. split; [set_solver|]. eexists. split; [apply lookup_singleton_eq|done].
  - intros u l [<- <-]%lookup_singleton_Some. apply NoDup_singleton.
  - intros p e [<- <-]%lookup_singleton_Some _. exists [1%positive]. split; [apply lookup_singleton_eq|by left].
  - set_solver.
  - intros p [e [<- _]%lookup_singleton_Some]. done.
Qed.

Lemma exit_joins_witness : exists p', sys_exit 0 ending = Stop (Exit 0) p' /\ queue_of (p_futex p') 0x12d48 = [] /\ t_nr_tasks (p_task p') = 1.
Proof.
  destruct (exit_joins ending 0 0x12d48) as (p' & E & _ & Hq & _ & _ & _ & _ & Hn).
  - reflexivity.
  - lia.
  - apply (buffer_sub _ _ _ _ _ sig_demo_buffer); vm_compute; congruence.
  - apply joiner_ok.
  - exists p'. split; [exact E|]. rewrite Hq, Hn. split; vm_compute; reflexivity.
Defined.

End ProcessRuns.
