(* ===== verification/PageTable.v ===== *)
(** * Page tables of the guest ([include/x86/vm.h], [src/mm/pdp.h], [src/mm/mm.c])

    The guest runs in long mode with one page directory pointer table of one-gigabyte
    pages.  The file holds the tables as the sources initialise them, the set-up
    [init_page], the address translation of the processor as the Intel manual
    (volume 3, 4-level paging) defines it, and the theorem that the guest's linear
    addresses are its physical ones. *)

From S2P Require Import Prelude RBTree Const Errno Conv Mm Mmap MmapFacts MmInv MmSys UserMem FdTable Kernel Task Signal Exec Fork.

(** ** [include/x86/vm.h] *)

Definition PTE_P : Z := 0x001.
Definition PTE_W : Z := 0x002.
Definition PTE_U : Z := 0x004.
Definition PTE_PS : Z := 0x080.
Definition NR_PAGE_ENTRY : Z := 512.

(** ** [src/mm/pdp.h] *)

(** [a | PTE_PS | PTE_U | PTE_W | PTE_P] *)
Definition gpage (a : Z) : Z := Z.lor (Z.lor (Z.lor (Z.lor a PTE_PS) PTE_U) PTE_W) PTE_P.

(** Entries 0 to 127 *)
Definition pdp_0 : list Z :=
  [gpage 0x0; gpage 0x40000000; gpage 0x80000000; gpage 0xc0000000;
   gpage 0x100000000; gpage 0x140000000; gpage 0x180000000; gpage 0x1c0000000;
   gpage 0x200000000; gpage 0x240000000; gpage 0x280000000; gpage 0x2c0000000;
   gpage 0x300000000; gpage 0x340000000; gpage 0x380000000; gpage 0x3c0000000;
   gpage 0x400000000; gpage 0x440000000; gpage 0x480000000; gpage 0x4c0000000;
   gpage 0x500000000; gpage 0x540000000; gpage 0x580000000; gpage 0x5c0000000;
   gpage 0x600000000; gpage 0x640000000; gpage 0x680000000; gpage 0x6c0000000;
   gpage 0x700000000; gpage 0x740000000; gpage 0x780000000; gpage 0x7c0000000;
   gpage 0x800000000; gpage 0x840000000; gpage 0x880000000; gpage 0x8c0000000;
   gpage 0x900000000; gpage 0x940000000; gpage 0x980000000; gpage 0x9c0000000;
   gpage 0xa00000000; gpage 0xa40000000; gpage 0xa80000000; gpage 0xac0000000;
   gpage 0xb00000000; gpage 0xb40000000; gpage 0xb80000000; gpage 0xbc0000000;
   gpage 0xc00000000; gpage 0xc40000000; gpage 0xc80000000; gpage 0xcc0000000;
   gpage 0xd00000000; gpage 0xd40000000; gpage 0xd80000000; gpage 0xdc0000000;
   gpage 0xe00000000; gpage 0xe40000000; gpage 0xe80000000; gpage 0xec0000000;
   gpage 0xf00000000; gpage 0xf40000000; gpage 0xf80000000; gpage 0xfc0000000;
   gpage 0x1000000000; gpage 0x1040000000; gpage 0x1080000000; gpage 0x10c0000000;
   gpage 0x1100000000; gpage 0x1140000000; gpage 0x1180000000; gpage 0x11c0000000;
   gpage 0x1200000000; gpage 0x1240000000; gpage 0x1280000000; gpage 0x12c0000000;
   gpage 0x1300000000; gpage 0x1340000000; gpage 0x1380000000; gpage 0x13c0000000;
   gpage 0x1400000000; gpage 0x1440000000; gpage 0x1480000000; gpage 0x14c0000000;
   gpage 0x1500000000; gpage 0x1540000000; gpage 0x1580000000; gpage 0x15c0000000;
   gpage 0x1600000000; gpage 0x1640000000; gpage 0x1680000000; gpage 0x16c0000000;
   gpage 0x1700000000; gpage 0x1740000000; gpage 0x1780000000; gpage 0x17c0000000;
   gpage 0x1800000000; gpage 0x1840000000; gpage 0x1880000000; gpage 0x18c0000000;
   gpage 0x1900000000; gpage 0x1940000000; gpage 0x1980000000; gpage 0x19c0000000;
   gpage 0x1a00000000; gpage 0x1a40000000; gpage 0x1a80000000; gpage 0x1ac0000000;
   gpage 0x1b00000000; gpage 0x1b40000000; gpage 0x1b80000000; gpage 0x1bc0000000;
   gpage 0x1c00000000; gpage 0x1c40000000; gpage 0x1c80000000; gpage 0x1cc0000000;
   gpage 0x1d00000000; gpage 0x1d40000000; gpage 0x1d80000000; gpage 0x1dc0000000;
   gpage 0x1e00000000; gpage 0x1e40000000; gpage 0x1e80000000; gpage 0x1ec0000000;
   gpage 0x1f00000000; gpage 0x1f40000000; gpage 0x1f80000000; gpage 0x1fc0000000].

(** Entries 128 to 255 *)
Definition pdp_1 : list Z :=
  [gpage 0x2000000000; gpage 0x2040000000; gpage 0x2080000000; gpage 0x20c0000000;
   gpage 0x2100000000; gpage 0x2140000000; gpage 0x2180000000; gpage 0x21c0000000;
   gpage 0x2200000000; gpage 0x2240000000; gpage 0x2280000000; gpage 0x22c0000000;
   gpage 0x2300000000; gpage 0x2340000000; gpage 0x2380000000; gpage 0x23c0000000;
   gpage 0x2400000000; gpage 0x2440000000; gpage 0x2480000000; gpage 0x24c0000000;
   gpage 0x2500000000; gpage 0x2540000000; gpage 0x2580000000; gpage 0x25c0000000;
   gpage 0x2600000000; gpage 0x2640000000; gpage 0x2680000000; gpage 0x26c0000000;
   gpage 0x2700000000; gpage 0x2740000000; gpage 0x2780000000; gpage 0x27c0000000;
   gpage 0x2800000000; gpage 0x2840000000; gpage 0x2880000000; gpage 0x28c0000000;
   gpage 0x2900000000; gpage 0x2940000000; gpage 0x2980000000; gpage 0x29c0000000;
   gpage 0x2a00000000; gpage 0x2a40000000; gpage 0x2a80000000; gpage 0x2ac0000000;
   gpage 0x2b00000000; gpage 0x2b40000000; gpage 0x2b80000000; gpage 0x2bc0000000;
   gpage 0x2c00000000; gpage 0x2c40000000; gpage 0x2c80000000; gpage 0x2cc0000000;
   gpage 0x2d00000000; gpage 0x2d40000000; gpage 0x2d80000000; gpage 0x2dc0000000;
   gpage 0x2e00000000; gpage 0x2e40000000; gpage 0x2e80000000; gpage 0x2ec0000000;
   gpage 0x2f00000000; gpage 0x2f40000000; gpage 0x2f80000000; gpage 0x2fc0000000;
   gpage 0x3000000000; gpage 0x3040000000; gpage 0x3080000000; gpage 0x30c0000000;
   gpage 0x3100000000; gpage 0x3140000000; gpage 0x3180000000; gpage 0x31c0000000;
   gpage 0x3200000000; gpage 0x3240000000; gpage 0x3280000000; gpage 0x32c0000000;
   gpage 0x3300000000; gpage 0x3340000000; gpage 0x3380000000; gpage 0x33c0000000;
   gpage 0x3400000000; gpage 0x3440000000; gpage 0x3480000000; gpage 0x34c0000000;
   gpage 0x3500000000; gpage 0x3540000000; gpage 0x3580000000; gpage 0x35c0000000;
   gpage 0x3600000000; gpage 0x3640000000; gpage 0x3680000000; gpage 0x36c0000000;
   gpage 0x3700000000; gpage 0x3740000000; gpage 0x3780000000; gpage 0x37c0000000;
   gpage 0x3800000000; gpage 0x3840000000; gpage 0x3880000000; gpage 0x38c0000000;
   gpage 0x3900000000; gpage 0x3940000000; gpage 0x3980000000; gpage 0x39c0000000;
   gpage 0x3a00000000; gpage 0x3a40000000; gpage 0x3a80000000; gpage 0x3ac0000000;
   gpage 0x3b00000000; gpage 0x3b40000000; gpage 0x3b80000000; gpage 0x3bc0000000;
   gpage 0x3c00000000; gpage 0x3c40000000; gpage 0x3c80000000; gpage 0x3cc0000000;
   gpage 0x3d00000000; gpage 0x3d40000000; gpage 0x3d80000000; gpage 0x3dc0000000;
   gpage 0x3e00000000; gpage 0x3e40000000; gpage 0x3e80000000; gpage 0x3ec0000000;
   gpage 0x3f00000000; gpage 0x3f40000000; gpage 0x3f80000000; gpage 0x3fc0000000].

(** Entries 256 to 383 *)
Definition pdp_2 : list Z :=
  [gpage 0x4000000000; gpage 0x4040000000; gpage 0x4080000000; gpage 0x40c0000000;
   gpage 0x4100000000; gpage 0x4140000000; gpage 0x4180000000; gpage 0x41c0000000;
   gpage 0x4200000000; gpage 0x4240000000; gpage 0x4280000000; gpage 0x42c0000000;
   gpage 0x4300000000; gpage 0x4340000000; gpage 0x4380000000; gpage 0x43c0000000;
   gpage 0x4400000000; gpage 0x4440000000; gpage 0x4480000000; gpage 0x44c0000000;
   gpage 0x4500000000; gpage 0x4540000000; gpage 0x4580000000; gpage 0x45c0000000;
   gpage 0x4600000000; gpage 0x4640000000; gpage 0x4680000000; gpage 0x46c0000000;
   gpage 0x4700000000; gpage 0x4740000000; gpage 0x4780000000; gpage 0x47c0000000;
   gpage 0x4800000000; gpage 0x4840000000; gpage 0x4880000000; gpage 0x48c0000000;
   gpage 0x4900000000; gpage 0x4940000000; gpage 0x4980000000; gpage 0x49c0000000;
   gpage 0x4a00000000; gpage 0x4a40000000; gpage 0x4a80000000; gpage 0x4ac0000000;
   gpage 0x4b00000000; gpage 0x4b40000000; gpage 0x4b80000000; gpage 0x4bc0000000;
   gpage 0x4c00000000; gpage 0x4c40000000; gpage 0x4c80000000; gpage 0x4cc0000000;
   gpage 0x4d00000000; gpage 0x4d40000000; gpage 0x4d80000000; gpage 0x4dc0000000;
   gpage 0x4e00000000; gpage 0x4e40000000; gpage 0x4e80000000; gpage 0x4ec0000000;
   gpage 0x4f00000000; gpage 0x4f40000000; gpage 0x4f80000000; gpage 0x4fc0000000;
   gpage 0x5000000000; gpage 0x5040000000; gpage 0x5080000000; gpage 0x50c0000000;
   gpage 0x5100000000; gpage 0x5140000000; gpage 0x5180000000; gpage 0x51c0000000;
   gpage 0x5200000000; gpage 0x5240000000; gpage 0x5280000000; gpage 0x52c0000000;
   gpage 0x5300000000; gpage 0x5340000000; gpage 0x5380000000; gpage 0x53c0000000;
   gpage 0x5400000000; gpage 0x5440000000; gpage 0x5480000000; gpage 0x54c0000000;
   gpage 0x5500000000; gpage 0x5540000000; gpage 0x5580000000; gpage 0x55c0000000;
   gpage 0x5600000000; gpage 0x5640000000; gpage 0x5680000000; gpage 0x56c0000000;
   gpage 0x5700000000; gpage 0x5740000000; gpage 0x5780000000; gpage 0x57c0000000;
   gpage 0x5800000000; gpage 0x5840000000; gpage 0x5880000000; gpage 0x58c0000000;
   gpage 0x5900000000; gpage 0x5940000000; gpage 0x5980000000; gpage 0x59c0000000;
   gpage 0x5a00000000; gpage 0x5a40000000; gpage 0x5a80000000; gpage 0x5ac0000000;
   gpage 0x5b00000000; gpage 0x5b40000000; gpage 0x5b80000000; gpage 0x5bc0000000;
   gpage 0x5c00000000; gpage 0x5c40000000; gpage 0x5c80000000; gpage 0x5cc0000000;
   gpage 0x5d00000000; gpage 0x5d40000000; gpage 0x5d80000000; gpage 0x5dc0000000;
   gpage 0x5e00000000; gpage 0x5e40000000; gpage 0x5e80000000; gpage 0x5ec0000000;
   gpage 0x5f00000000; gpage 0x5f40000000; gpage 0x5f80000000; gpage 0x5fc0000000].

(** Entries 384 to 511 *)
Definition pdp_3 : list Z :=
  [gpage 0x6000000000; gpage 0x6040000000; gpage 0x6080000000; gpage 0x60c0000000;
   gpage 0x6100000000; gpage 0x6140000000; gpage 0x6180000000; gpage 0x61c0000000;
   gpage 0x6200000000; gpage 0x6240000000; gpage 0x6280000000; gpage 0x62c0000000;
   gpage 0x6300000000; gpage 0x6340000000; gpage 0x6380000000; gpage 0x63c0000000;
   gpage 0x6400000000; gpage 0x6440000000; gpage 0x6480000000; gpage 0x64c0000000;
   gpage 0x6500000000; gpage 0x6540000000; gpage 0x6580000000; gpage 0x65c0000000;
   gpage 0x6600000000; gpage 0x6640000000; gpage 0x6680000000; gpage 0x66c0000000;
   gpage 0x6700000000; gpage 0x6740000000; gpage 0x6780000000; gpage 0x67c0000000;
   gpage 0x6800000000; gpage 0x6840000000; gpage 0x6880000000; gpage 0x68c0000000;
   gpage 0x6900000000; gpage 0x6940000000; gpage 0x6980000000; gpage 0x69c0000000;
   gpage 0x6a00000000; gpage 0x6a40000000; gpage 0x6a80000000; gpage 0x6ac0000000;
   gpage 0x6b00000000; gpage 0x6b40000000; gpage 0x6b80000000; gpage 0x6bc0000000;
   gpage 0x6c00000000; gpage 0x6c40000000; gpage 0x6c80000000; gpage 0x6cc0000000;
   gpage 0x6d00000000; gpage 0x6d40000000; gpage 0x6d80000000; gpage 0x6dc0000000;
   gpage 0x6e00000000; gpage 0x6e40000000; gpage 0x6e80000000; gpage 0x6ec0000000;
   gpage 0x6f00000000; gpage 0x6f40000000; gpage 0x6f80000000; gpage 0x6fc0000000;
   gpage 0x7000000000; gpage 0x7040000000; gpage 0x7080000000; gpage 0x70c0000000;
   gpage 0x7100000000; gpage 0x7140000000; gpage 0x7180000000; gpage 0x71c0000000;
   gpage 0x7200000000; gpage 0x7240000000; gpage 0x7280000000; gpage 0x72c0000000;
   gpage 0x7300000000; gpage 0x7340000000; gpage 0x7380000000; gpage 0x73c0000000;
   gpage 0x7400000000; gpage 0x7440000000; gpage 0x7480000000; gpage 0x74c0000000;
   gpage 0x7500000000; gpage 0x7540000000; gpage 0x7580000000; gpage 0x75c0000000;
   gpage 0x7600000000; gpage 0x7640000000; gpage 0x7680000000; gpage 0x76c0000000;
   gpage 0x7700000000; gpage 0x7740000000; gpage 0x7780000000; gpage 0x77c0000000;
   gpage 0x7800000000; gpage 0x7840000000; gpage 0x7880000000; gpage 0x78c0000000;
   gpage 0x7900000000; gpage 0x7940000000; gpage 0x7980000000; gpage 0x79c0000000;
   gpage 0x7a00000000; gpage 0x7a40000000; gpage 0x7a80000000; gpage 0x7ac0000000;
   gpage 0x7b00000000; gpage 0x7b40000000; gpage 0x7b80000000; gpage 0x7bc0000000;
   gpage 0x7c00000000; gpage 0x7c40000000; gpage 0x7c80000000; gpage 0x7cc0000000;
   gpage 0x7d00000000; gpage 0x7d40000000; gpage 0x7d80000000; gpage 0x7dc0000000;
   gpage 0x7e00000000; gpage 0x7e40000000; gpage 0x7e80000000; gpage 0x7ec0000000;
   gpage 0x7f00000000; gpage 0x7f40000000; gpage 0x7f80000000; Z.lor (Z.lor PTE_PS PTE_W) PTE_P].

Definition pdp : list Z := pdp_0 ++ pdp_1 ++ pdp_2 ++ pdp_3.

(** ** [src/mm/mm.c] *)

(** The initial contents of [pml4] and [gdt]; entries not named are zero. *)
Definition pml4 : list Z := Z.lor (Z.lor PTE_U PTE_W) PTE_P :: replicate 511 0.
Definition gdt : list Z := [0; 0x0020980000000000; 0x0000900000000000].

(** [include/x86/specialreg.h] *)
Definition CR0_PE : Z := 0x00000001.
Definition CR0_MP : Z := 0x00000002.
Definition CR0_EM : Z := 0x00000004.
Definition CR0_NE : Z := 0x00000020.
Definition CR0_PG : Z := 0x80000000.
Definition CR4_PAE : Z := 0x00000020.
Definition CR4_OSFXSR : Z := 0x00000200.
Definition CR4_OSXMMEXCPT : Z := 0x00000400.
Definition CR4_OSXSAVE : Z := Z.shiftl 1 18.
Definition CR4_VMXE : Z := 0x00002000.
Definition EFER_LME : Z := 0x00000100.
Definition EFER_LMA : Z := 0x00000400.
Definition MSR_TIME_STAMP_COUNTER : Z := 0x00000010.
Definition MSR_KERNEL_GS_BASE : Z := 0xc0000102.
Definition MSR_TSC_AUX : Z := 0xc0000103.
Definition XCR0_SSE_STATE : Z := 0x00000002.
Definition XCR0_AVX_STATE : Z := 0x00000004.

(** Where the linker put the page-aligned tables of the kernel. *)
Class KernImage := { pml4_addr : Z; pdp_addr : Z; gdt_addr : Z; idt_addr : Z }.

Section Init.
Context `{Host} `{HostMem} `{KernImage}.

(** A 64-bit word of host memory. *)
Definition load64 (h : Z) : X Z := x ← get; mret (le_decode (host_read (hmem (x_um x)) h 8)).
Definition store64 (h v : Z) : X unit :=
  ltask (lk (modify (fun k => set_um (set_hmem (host_write (hmem (k_um k)) h (le_encode 8 v)) (k_um k)) k))).

Definition HV_RW : Z := Z.lor HV_MEMORY_READ HV_MEMORY_WRITE.

(** [pml4_ptr] and [gdt_ptr] are variables of the kernel; the first is returned. *)
Definition init_page : X Z :=
  pml4_ptr ← lw (kmap pml4_addr 0x1000 HV_RW);
  pdp_ptr ← lw (kmap pdp_addr 0x1000 HV_RW);
  e ← load64 pml4_addr;
  store64 pml4_addr (Z.lor e (Z.land pdp_ptr 0x000ffffffffff000));;
  ltask (vmm_write_vmcs "GUEST_CR0" (Z.lor (Z.lor CR0_PG CR0_PE) CR0_NE));;
  ltask (vmm_write_vmcs "GUEST_CR3" pml4_ptr);;
  mret pml4_ptr.

End Init.

(** ** The translation of the processor *)

(** Bits 51..12 of an entry or of CR3. *)
Definition pte_addr (e : Z) : Z := Z.land e 0x000ffffffffff000.
Definition bit (e f : Z) : bool := negb (Z.land e f =? 0).

(** Where a linear address goes, and whether user code may go there, and write. *)
Record access := mk_access { a_phys : Z; a_user : bool; a_write : bool }.

(** 4-level paging; [phys] reads 64-bit words of guest-physical memory. *)
Section Walk.
Context (phys : Z -> option Z).

Definition entry_at (table la shift : Z) : option Z :=
  e ← phys (table + 8 * Z.land (Z.shiftr la shift) 511);
  if bit e PTE_P then Some e else None.

Definition leaf (es : list Z) (e la shift : Z) : option access :=
  let mask := Z.shiftl 1 shift - 1 in
  Some (mk_access (Z.lor (Z.ldiff (pte_addr e) mask) (Z.land la mask))
    (forallb (fun e => bit e PTE_U) es) (forallb (fun e => bit e PTE_W) es)).

(** Addresses with bit 47 clear. *)
Definition walk (cr3 la : Z) : option access :=
  e4 ← entry_at (pte_addr cr3) la 39;
  e3 ← entry_at (pte_addr e4) la 30;
  if bit e3 PTE_PS then leaf [e4; e3] e3 la 30
  else
    e2 ← entry_at (pte_addr e3) la 21;
    if bit e2 PTE_PS then leaf [e4; e3; e2] e2 la 21
    else
      e1 ← entry_at (pte_addr e2) la 12;
      leaf [e4; e3; e2; e1] e1 la 12.

End Walk.

(** Guest-physical memory as the hypervisor maps it to host memory. *)
Definition phys64 (x : xstate) (pa : Z) : option Z :=
  h ← ept (x_calls x) pa; Some (le_decode (host_read (hmem (x_um x)) h 8)).

(** Where an access of the guest ends up in host memory. *)
Definition guest_access (x : xstate) (la : Z) : option Z :=
  a ← walk (phys64 x) (t_regs (x_task x) CR3) la; ept (x_calls x) (a_phys a).

(** ** Facts *)

(** The table maps gigabyte [i] to itself, for user code and for writing; the last
    gigabyte goes to the first, for the kernel only. *)
Lemma pdp_lookup i : 0 <= i < 512 ->
  pdp !! Z.to_nat i = Some (if i =? 511 then 0x83 else i * 2 ^ 30 + 0x87).
Proof.
  intros Hi. assert (forallb (fun i => bool_decide (pdp !! Z.to_nat i = Some (if i =? 511 then 0x83 else i * 2 ^ 30 + 0x87)))
    (seqZ 0 512) = true) as Hf by (vm_compute; reflexivity).
  rewrite forallb_forall in Hf. apply (bool_decide_eq_true_1 _), Hf, list_elem_of_In, elem_of_seqZ. lia.
Qed.

(** The tables as the guest's processor sees them. *)
Record tables_at (x : xstate) (p4 p3 : Z) : Prop := {
  ta_cr3 : t_regs (x_task x) CR3 = p4;
  ta_p4 : 0 <= p4 < 2 ^ 52 /\ p4 mod 4096 = 0;
  ta_p3 : 0 <= p3 < 2 ^ 52 /\ p3 mod 4096 = 0;
  ta_pml4 i : 0 <= i < 512 -> phys64 x (p4 + 8 * i) = Some (if i =? 0 then p3 + 7 else 0);
  ta_pdp i : 0 <= i < 512 -> phys64 x (p3 + 8 * i) = pdp !! Z.to_nat i;
}.

Lemma pte_addr_val e : 0 <= e -> pte_addr e = (e mod 2 ^ 52) / 4096 * 4096.
Proof.
  intros He. unfold pte_addr. change 0x000ffffffffff000 with (Z.shiftl (Z.ones 40) 12).
  assert (Z.land e (Z.shiftl (Z.ones 40) 12) = Z.shiftl (Z.land (Z.shiftr e 12) (Z.ones 40)) 12) as ->.
  { apply Z.bits_inj'. intros n Hn. rewrite Z.land_spec, !Z.shiftl_spec, Z.land_spec by lia.
    destruct (Z.lt_ge_cases n 12).
    - rewrite (Z.testbit_neg_r _ (n - 12)) by lia. rewrite andb_false_r. rewrite (Z.testbit_neg_r _ (n - 12)) by lia. done.
    - rewrite Z.shiftr_spec by lia. do 2 f_equal. lia. }
  rewrite Z.land_ones, Z.shiftl_mul_pow2, Z.shiftr_div_pow2 by lia. change (2 ^ 12) with 4096.
  f_equal. change (2 ^ 52) with (4096 * 2 ^ 40). rewrite Z.rem_mul_r by lia.
  replace (e mod 4096 + 4096 * ((e / 4096) mod 2 ^ 40)) with (e mod 4096 + (e / 4096) mod 2 ^ 40 * 4096) by lia.
  rewrite Z.div_add by lia. rewrite (Z.div_small (e mod 4096)); [lia|]. apply Z.mod_pos_bound. lia.
Qed.

Lemma pte_addr_aligned p r : 0 <= p < 2 ^ 52 -> p mod 4096 = 0 -> 0 <= r < 4096 -> pte_addr (p + r) = p.
Proof.
  intros Hp Ha Hr. rewrite pte_addr_val by lia. pose proof (Z.div_mod p 4096 ltac:(lia)) as Ed.
  assert (p <= 2 ^ 52 - 4096). { change (2 ^ 52) with (4096 * 2 ^ 40) in *. nia. }
  rewrite Z.mod_small by lia. replace (p + r) with (r + p / 4096 * 4096) by lia.
  rewrite Z.div_add, (Z.div_small r) by lia. lia.
Qed.

Lemma bits_low p r f : 0 <= r < 4096 -> 0 <= f < 4096 -> p mod 4096 = 0 -> Z.land (p + r) f = Z.land r f.
Proof.
  intros Hr Hf Hp. apply Z.bits_inj'. intros n Hn. rewrite !Z.land_spec.
  destruct (Z.lt_ge_cases n 12).
  - f_equal. rewrite <- (Z.mod_pow2_bits_low (p + r) 12) by lia. change (2 ^ 12) with 4096.
    rewrite Zplus_mod, Hp, Z.add_0_l, Zmod_mod. rewrite <- (Z.mod_pow2_bits_low r 12) by lia. done.
  - replace (Z.testbit f n) with false; [by rewrite !andb_false_r|]. symmetry.
    destruct (decide (f = 0)) as [->|]; [apply Z.bits_0|]. apply Z.bits_above_log2; [lia|].
    apply Z.log2_lt_pow2; [lia|]. apply (Z.lt_le_trans _ (2 ^ 12)); [done || (simpl; lia)|]. apply Z.pow_le_mono_r; lia.
Qed.

Lemma index_val la s : 0 <= la -> 0 <= s -> Z.land (Z.shiftr la s) 511 = (la / 2 ^ s) mod 512.
Proof. intros Hl Hs. change 511 with (Z.ones 9). by rewrite Z.land_ones, Z.shiftr_div_pow2 by lia. Qed.

Lemma lor_disjoint a r s : 0 <= s -> 0 <= r < 2 ^ s -> Z.lor (a * 2 ^ s) r = a * 2 ^ s + r.
Proof.
  intros Hs Hr. symmetry. apply Z.add_nocarry_lor. apply Z.bits_inj'. intros n Hn. rewrite Z.land_spec, Z.bits_0.
  rewrite <- Z.shiftl_mul_pow2 by lia. rewrite Z.shiftl_spec by lia. destruct (Z.lt_ge_cases n s).
  - by rewrite Z.testbit_neg_r by lia.
  - replace (Z.testbit r n) with false; [apply andb_false_r|]. symmetry.
    destruct (decide (r = 0)) as [->|]; [apply Z.bits_0|]. apply Z.bits_above_log2; [lia|].
    apply Z.log2_lt_pow2; [lia|]. apply (Z.lt_le_trans _ (2 ^ s)); [lia|]. apply Z.pow_le_mono_r; lia.
Qed.

Lemma ldiff_aligned a s : 0 <= s -> Z.ldiff (a * 2 ^ s) (Z.ones s) = a * 2 ^ s.
Proof. intros Hs. rewrite Z.ldiff_ones_r, Z.shiftr_div_pow2, Z.div_mul, Z.shiftl_mul_pow2 by (try apply Z.pow_nonzero; lia). done. Qed.

(** The leaf of a gigabyte page at [g] with flags [f]. *)
Lemma leaf_gpage es g f la : 0 <= g < 2 ^ 22 -> 0 <= f < 4096 -> 0 <= la ->
  leaf es (g * 2 ^ 30 + f) la 30 =
  Some (mk_access (g * 2 ^ 30 + la mod 2 ^ 30) (forallb (fun e => bit e PTE_U) es) (forallb (fun e => bit e PTE_W) es)).
Proof.
  intros Hg Hf Hl. unfold leaf. do 2 f_equal.
  rewrite pte_addr_aligned; [|change (2 ^ 52) with (2 ^ 22 * 2 ^ 30); nia|change (2 ^ 30) with (2 ^ 18 * 4096);
    rewrite Z.mul_assoc; apply Z.mod_mul; lia|done].
  change (Z.shiftl 1 30 - 1) with (Z.ones 30). rewrite ldiff_aligned, Z.land_ones by lia.
  apply lor_disjoint; [lia|]. apply Z.mod_pos_bound. lia.
Qed.

Section Tables.
Context (x : xstate) (p4 p3 : Z) (Ht : tables_at x p4 p3).

Lemma walk_pml4 la : 0 <= la < 2 ^ 47 ->
  entry_at (phys64 x) (pte_addr (t_regs (x_task x) CR3)) la 39 = if la <? 2 ^ 39 then Some (p3 + 7) else None.
Proof.
  intros Hl. destruct (ta_p4 _ _ _ Ht) as [Hp4 Ha4]. destruct (ta_p3 _ _ _ Ht) as [Hp3 Ha3].
  rewrite (ta_cr3 _ _ _ Ht). replace p4 with (p4 + 0) at 1 by lia. rewrite pte_addr_aligned by (done || lia).
  unfold entry_at. rewrite index_val by lia. rewrite (ta_pml4 _ _ _ Ht) by (apply Z.mod_pos_bound; lia).
  assert (0 <= la / 2 ^ 39 < 512) as Hd.
  { split; [apply Z.div_pos; lia|]. apply Z.div_lt_upper_bound; lia. }
  rewrite (Z.mod_small (la / 2 ^ 39)) by lia. simpl. destruct (Z.ltb_spec la (2 ^ 39)).
  - rewrite Z.div_small by lia. simpl. unfold bit. rewrite bits_low by (unfold PTE_P; done || lia). done.
  - destruct (Z.eqb_spec (la / 2 ^ 39) 0) as [E|]; [|done]. apply Z.div_small_iff in E; lia.
Qed.

Lemma walk_gigabyte la : 0 <= la < 2 ^ 39 ->
  let g := la / 2 ^ 30 in
  walk (phys64 x) (t_regs (x_task x) CR3) la =
  Some (if g =? 511 then mk_access (la mod 2 ^ 30) false true else mk_access la true true).
Proof.
  intros Hl g. destruct (ta_p3 _ _ _ Ht) as [Hp3 Ha3]. unfold walk.
  rewrite walk_pml4 by (split; [lia|]; apply (Z.lt_le_trans _ (2 ^ 39)); [lia|apply Z.pow_le_mono_r; lia]).
  destruct (Z.ltb_spec la (2 ^ 39)); [|lia]. simpl.
  assert (0 <= g < 512) as Hg.
  { split; [apply Z.div_pos; lia|]. apply Z.div_lt_upper_bound; lia. }
  assert (bit (p3 + 7) PTE_U = true /\ bit (p3 + 7) PTE_W = true) as [Eu Ew].
  { unfold bit. rewrite !bits_low by (unfold PTE_U, PTE_W; done || lia). done. }
  unfold entry_at. rewrite pte_addr_aligned by (done || lia). rewrite (index_val la 30) by lia. fold g.
  rewrite (Z.mod_small g) by lia. rewrite (ta_pdp _ _ _ Ht), pdp_lookup by done. simpl.
  pose proof (Z.div_mod la (2 ^ 30) ltac:(lia)) as Ed. fold g in Ed.
  destruct (Z.eqb_spec g 511) as [Eg|Ng].
  - change 131 with (0 * 2 ^ 30 + 131). cbn [bit]. change (bit (0 * 2 ^ 30 + 131) PTE_P) with true.
    change (bit (0 * 2 ^ 30 + 131) PTE_PS) with true. cbv beta iota. simpl (mbind _ _). cbv beta iota.
    rewrite (leaf_gpage _ 0 131) by lia. simpl. rewrite Ew. by rewrite andb_false_r.
  - assert (forall f, 0 <= f < 4096 -> bit (g * 2 ^ 30 + 135) f = bit 135 f) as Hb.
    { intros f Hf. unfold bit. rewrite bits_low; [done|lia|done|]. change (2 ^ 30) with (2 ^ 18 * 4096).
      rewrite Z.mul_assoc. apply Z.mod_mul. lia. }
    rewrite (Hb PTE_P) by (unfold PTE_P; lia). change (bit 135 PTE_P) with true. cbv iota. simpl (mbind _ _). cbv beta iota.
    rewrite (Hb PTE_PS) by (unfold PTE_PS; lia). change (bit 135 PTE_PS) with true. cbv iota.
    rewrite leaf_gpage by lia. cbn [forallb]. rewrite Eu, Ew, (Hb PTE_U), (Hb PTE_W) by (unfold PTE_U, PTE_W; lia).
    simpl. do 2 f_equal. lia.
Qed.

End Tables.

(** In a state with the tables in place, an access of the guest below [user_addr_max]
    goes to the guest-physical page of the same address. *)
Lemma access_ept x p4 p3 la : tables_at x p4 p3 -> 0 <= la < user_addr_max -> guest_access x la = ept (x_calls x) la.
Proof.
  intros Ht Hl. assert (user_addr_max = 511 * 2 ^ 30) as Eu by reflexivity. unfold guest_access.
  rewrite (walk_gigabyte x p4 p3 Ht) by lia. simpl.
  destruct (Z.eqb_spec (la / 2 ^ 30) 511) as [E|_]; [|done].
  pose proof (Z.div_lt_upper_bound la (2 ^ 30) 511 ltac:(lia) ltac:(lia)). lia.
Qed.

(** It reaches the host memory the kernel computes for that address. *)
Lemma mmu_agrees x p4 p3 la :
  tables_at x p4 p3 -> winv (xworld x) -> 0 <= la < user_addr_max ->
  guest_access x la = guest_to_host (u_mm (x_um x)) (u_vkern (x_um x)) la.
Proof.
  intros Ht Hw Hl. rewrite (access_ept x p4 p3) by done. unfold user_addr_max in *.
  rewrite guest_to_host_aspace; [|apply (inv_mm _ Hw)|apply (inv_vkern _ Hw)|lia]. apply (inv_sync _ Hw).
Qed.

(** The last gigabyte is an alias of the first, open to the kernel's privilege level
    only, at which the guest runs. *)
Lemma top_gigabyte x p4 p3 la :
  tables_at x p4 p3 -> user_addr_max <= la < 2 ^ 39 ->
  walk (phys64 x) (t_regs (x_task x) CR3) la = Some (mk_access (la - user_addr_max) false true).
Proof.
  intros Ht Hl. assert (user_addr_max = 511 * 2 ^ 30) as Eu by reflexivity.
  rewrite (walk_gigabyte x p4 p3 Ht) by lia. simpl.
  assert (la = 2 ^ 30 * 511 + (la - 511 * 2 ^ 30)) as E by lia.
  assert (la / 2 ^ 30 = 511) as -> by (symmetry; apply (Z.div_unique la (2 ^ 30) 511 (la - 511 * 2 ^ 30)); lia).
  assert (la mod 2 ^ 30 = la - user_addr_max) as -> by (symmetry; apply (Z.mod_unique la (2 ^ 30) 511); lia).
  done.
Qed.

(** ** [init_page] *)

(** The 64-bit words [ws] in host memory from [a] on. *)
Definition words_at (hm : Z -> Z) (a : Z) (ws : list Z) : Prop :=
  forall i w, ws !! i = Some w -> le_decode (host_read hm (a + 8 * Z.of_nat i) 8) = w.

Lemma host_write_same hm h bs a : (forall j, 0 <= j < Z.of_nat (length bs) -> a <> u64 (h + j)) -> host_write hm h bs a = hm a.
Proof.
  revert hm h. induction bs as [|b bs IH]; intros hm h Ha; [done|]. simpl. rewrite IH.
  - destruct (Z.eqb_spec a (u64 h)) as [E|]; [|done]. exfalso. apply (Ha 0); [simpl; lia|]. by rewrite Z.add_0_r.
  - intros j Hj E. apply (Ha (1 + j)); [simpl; lia|]. rewrite E. f_equal. lia.
Qed.

Lemma host_write_at hm h bs j : 0 <= h -> h + Z.of_nat (length bs) <= 2 ^ 64 -> 0 <= j < Z.of_nat (length bs) ->
  Some (host_write hm h bs (h + j)) = bs !! Z.to_nat j.
Proof.
  revert hm h j. induction bs as [|b bs IH]; intros hm h j Hh Hb Hj; [simpl in Hj; lia|]. simpl in Hb, Hj. simpl.
  destruct (decide (j = 0)) as [->|].
  - rewrite host_write_same.
    + rewrite Z.add_0_r, wrap_small, Z.eqb_refl by lia. done.
    + intros i Hi E. rewrite wrap_small in E; lia.
  - replace (h + j) with (h + 1 + (j - 1)) by lia. rewrite IH by lia. replace (Z.to_nat j) with (S (Z.to_nat (j - 1))) by lia. done.
Qed.

Lemma host_read_ext hm hm' h n : (forall i, 0 <= i < n -> hm (host_add h i) = hm' (host_add h i)) -> host_read hm h n = host_read hm' h n.
Proof. intros E. unfold host_read. apply list_fmap_ext. intros j i Hj. apply E. apply lookup_seqZ in Hj. lia. Qed.

Lemma read_written hm h v : 0 <= h -> h + 8 <= 2 ^ 64 -> 0 <= v < 2 ^ 64 ->
  le_decode (host_read (host_write hm h (le_encode 8 v)) h 8) = v.
Proof.
  intros Hh Hb Hv. rewrite <- (le_decode_encode 8 v) at 2 by (change (256 ^ Z.of_nat 8) with (2 ^ 64); lia). f_equal.
  apply list_eq. intros i. unfold host_read. rewrite list_lookup_fmap. destruct (decide (i < 8)%nat) as [Hi|Hi].
  - rewrite lookup_seqZ_lt by lia. cbn [fmap option_fmap option_map]. unfold host_add. rewrite wrap_small by lia.
    rewrite host_write_at by (rewrite ?le_encode_length; lia). f_equal. lia.
  - rewrite lookup_seqZ_ge by lia. symmetry. apply lookup_ge_None. rewrite le_encode_length. lia.
Qed.

(** A word apart from the one written. *)
Lemma read_apart hm h v a : 0 <= h -> h + 8 <= 2 ^ 64 -> 0 <= a -> a + 8 <= 2 ^ 64 -> a + 8 <= h \/ h + 8 <= a ->
  host_read (host_write hm h (le_encode 8 v)) a 8 = host_read hm a 8.
Proof.
  intros Hh Hb Ha Hab Hd. apply host_read_ext. intros i Hi. unfold host_add. apply host_write_same. intros j Hj.
  rewrite le_encode_length in Hj. rewrite !wrap_small by lia. lia.
Qed.

Section InitPage.
Context `{Host} `{HostMem} `{KernImage}.

(** Where the tables lie and what they hold before [init_page]. *)
Record image_ok (hm : Z -> Z) : Prop := {
  im_pml4 : 0 <= pml4_addr /\ pml4_addr + 4096 <= 2 ^ 64 /\ pml4_addr mod 4096 = 0;
  im_pdp : 0 <= pdp_addr /\ pdp_addr + 4096 <= 2 ^ 64 /\ pdp_addr mod 4096 = 0;
  im_apart : pml4_addr + 4096 <= pdp_addr \/ pdp_addr + 4096 <= pml4_addr;
  im_words4 : words_at hm pml4_addr pml4;
  im_words3 : words_at hm pdp_addr pdp;
}.

Lemma kmap_run w p sz flags :
  winv w -> 0 < sz -> sz mod 4096 = 0 -> p mod 4096 = 0 -> noah_kern_brk w + sz < 2 ^ 64 ->
  (forall tr, hv_vm_map_ok tr = true) ->
  exists w', kmap p sz flags w = Done (noah_kern_brk w) w' /\ winv w' /\ noah_kern_brk w' = noah_kern_brk w + sz /\
    w_trace w' = [HvMap p (noah_kern_brk w) sz flags; HvUnmap (noah_kern_brk w) sz] ++ w_trace w /\ w_mm w' = w_mm w.
Proof.
  intros Hw Hs Hal Hp Hb Hhv. pose proof (kmap_inv w p sz flags Hw Hs Hb) as Hinv.
  pose proof (inv_kbrk _ Hw) as Hk. pose proof (inv_kbrk_al _ Hw) as Hka. unfold user_addr_max in Hk.
  set (rn := mk_region p (noah_kern_brk w) sz (hv_mflag_to_linux_mprot flags) (-1) (-1) 0).
  assert (reg_ok rn) as Hrn by (constructor; simpl; lia).
  destruct (record_region_ok (w_vkern w) p (noah_kern_brk w) sz (hv_mflag_to_linux_mprot flags) (-1) (-1) 0
    (inv_vkern _ Hw) Hrn) as (m' & E & _).
  { intros y r Hy [O1 O2]. simpl in *. destruct (ok_reg _ (inv_vkern _ Hw) _ _ Hy).
    pose proof (inv_kern _ Hw (Z.max (noah_kern_brk w) (gaddr r))) as Hkk. rewrite (aspace_in _ (inv_vkern _ Hw) _ _ _ Hy) in Hkk
      by (unfold contains; lia). specialize (Hkk ltac:(by eexists)). lia. }
  assert (exists w', kmap p sz flags w = Done (noah_kern_brk w) w' /\ w_mm w' = w_mm w /\
    w_trace w' = [HvMap p (noah_kern_brk w) sz flags; HvUnmap (noah_kern_brk w) sz] ++ w_trace w) as (w' & Ek & Em & Et).
  { unfold kmap, on_vkern. msimp. change 0xfff with (Z.ones 12). rewrite !Z.land_ones by lia. change (2 ^ 12) with 4096.
    rewrite Hal, Hp. cbn [Z.eqb]. rewrite E. unfold vmm_mmap. msimp.
    rewrite !(proj2 (is_page_aligned_spec _)) by done. unfold call. msimp. cbn [w_trace]. rewrite Hhv.
    cbn [w_mm w_vkern noah_kern_brk w_trace]. rewrite (wrap_small 64 (noah_kern_brk w + sz)) by lia. rewrite wrap_small by lia.
    eexists. split; [f_equal; lia|done]. }
  unfold ensures in Hinv. rewrite Ek in Hinv. destruct Hinv as (Hw' & _ & Eb & _). exists w'. done.
Qed.

(** [kmap] in the state of a task: the host's memory stays. *)
Lemma lw_kmap x p sz flags :
  winv (xworld x) -> 0 < sz -> sz mod 4096 = 0 -> p mod 4096 = 0 -> x_brk x + sz < 2 ^ 64 ->
  (forall tr, hv_vm_map_ok tr = true) ->
  exists x', lw (kmap p sz flags) x = Done (x_brk x) x' /\ winv (xworld x') /\ x_brk x' = x_brk x + sz /\
    x_calls x' = [HvMap p (x_brk x) sz flags; HvUnmap (x_brk x) sz] ++ x_calls x /\
    hmem (x_um x') = hmem (x_um x) /\ u_mm (x_um x') = u_mm (x_um x) /\ t_regs (x_task x') = t_regs (x_task x) /\
    t_vmcs (x_task x') = t_vmcs (x_task x).
Proof.
  intros Hw Hs Hal Hp Hb Hhv. destruct (kmap_run (xworld x) p sz flags) as (w' & E & Hw' & Eb & Et & Em); try done.
  unfold lw. fold (xworld x). rewrite E. eexists. split; [reflexivity|]. unfold xworld, x_um, t_um in *. simpl in *. rewrite Et.
  change (HvMap p (x_brk x) sz flags :: HvUnmap (x_brk x) sz :: x_calls x)
    with ([HvMap p (x_brk x) sz flags; HvUnmap (x_brk x) sz] ++ x_calls x) in *.
  rewrite length_app, Nat.add_sub, take_app_length, after_quiet by (apply (proj1 (Forall_forall quiet _)); repeat constructor).
  split_and!; try done. rewrite <- Et. by destruct w'.
Qed.

Lemma pml4_rest i : 0 <= i < 512 -> i <> 0 -> pml4 !! Z.to_nat i = Some 0.
Proof.
  intros Hi N. unfold pml4. replace (Z.to_nat i) with (S (Z.to_nat (i - 1))) by lia.
  change (replicate 511 0 !! Z.to_nat (i - 1) = Some 0). apply lookup_replicate. split; [done|lia].
Qed.

(** The state after the stores of [init_page]. *)
Definition paged (x : xstate) (hm : Z -> Z) (cr0 cr3 : Z) : xstate :=
  mk_xstate (tset_regs (upd_reg CR3 (u64 cr3) (upd_reg CR0 (u64 cr0) (t_regs (x_task x))))
    (tset_kern (set_um (set_hmem hm (x_um x)) (t_kern (x_task x))) (x_task x))) (x_brk x) (x_calls x).

Lemma init_page_run x :
  winv (xworld x) -> (forall tr, hv_vm_map_ok tr = true) -> image_ok (hmem (x_um x)) -> x_brk x + 0x2000 < 2 ^ 52 ->
  exists x2, init_page x = Done (x_brk x) (paged x2 (host_write (hmem (x_um x)) pml4_addr (le_encode 8 (x_brk x + 0x1007)))
      (Z.lor (Z.lor CR0_PG CR0_PE) CR0_NE) (x_brk x)) /\
    winv (xworld x2) /\ u_mm (x_um x2) = u_mm (x_um x) /\ t_vmcs (x_task x2) = t_vmcs (x_task x) /\ x_brk x2 = x_brk x + 0x2000 /\
    x_calls x2 = [HvMap pdp_addr (x_brk x + 0x1000) 0x1000 HV_RW; HvUnmap (x_brk x + 0x1000) 0x1000;
                  HvMap pml4_addr (x_brk x) 0x1000 HV_RW; HvUnmap (x_brk x) 0x1000] ++ x_calls x.
Proof.
  intros Hw Hhv Hi Hb. destruct Hi as [(A1 & A2 & A3) (B1 & B2 & B3) Hap H4 H3].
  pose proof (inv_kbrk _ Hw) as Hk. pose proof (inv_kbrk_al _ Hw) as Hka. unfold user_addr_max in Hk. simpl in Hk, Hka.
  destruct (lw_kmap x pml4_addr 0x1000 HV_RW Hw) as (x1 & E1 & Hw1 & Eb1 & Ec1 & Em1 & Eu1 & Er1 & Ev1); [lia|done|done|lia|done|].
  destruct (lw_kmap x1 pdp_addr 0x1000 HV_RW Hw1) as (x2 & E2 & Hw2 & Eb2 & Ec2 & Em2 & Eu2 & Er2 & Ev2); [lia|done|done|lia|done|].
  exists x2. split.
  - unfold init_page. erewrite bind_Done by exact E1. erewrite bind_Done by exact E2.
    assert (load64 pml4_addr x2 = Done 7 x2) as E3.
    { unfold load64. msimp. rewrite Em2, Em1. pose proof (H4 0%nat 7 eq_refl) as E7. rewrite Z.add_0_r in E7. by rewrite E7. }
    erewrite bind_Done by exact E3. rewrite Eb1.
    fold (pte_addr (x_brk x + 0x1000)). assert (pte_addr (x_brk x + 0x1000) = x_brk x + 0x1000) as ->.
    { replace (x_brk x + 0x1000) with (x_brk x + 0x1000 + 0) at 1 by lia. apply pte_addr_aligned; [lia| |lia].
      rewrite Zplus_mod, Hka. done. }
    assert (Z.lor 7 (x_brk x + 0x1000) = x_brk x + 0x1007) as ->.
    { rewrite Z.lor_comm. pose proof (Z.div_mod (x_brk x) 4096 ltac:(lia)) as Ed.
      replace (x_brk x + 0x1000) with ((x_brk x / 4096 + 1) * 2 ^ 12) by (change (2 ^ 12) with 4096; lia).
      rewrite lor_disjoint by lia. change (2 ^ 12) with 4096. lia. }
    unfold store64, ltask, lk, vmm_write_vmcs. msimp.
    change (vmcs_reg "GUEST_CR0") with (Some CR0). change (vmcs_reg "GUEST_CR3") with (Some CR3). cbv iota beta.
    unfold vmm_write_register. msimp. unfold paged, x_um, t_um in *. cbn. rewrite Em2, Em1. done.
  - rewrite Ec2, Ec1, Eb2, Eb1, Eu2, Eu1, Ev2, Ev1. split_and!; done || lia.
Qed.

Lemma init_page_tables x :
  winv (xworld x) -> (forall tr, hv_vm_map_ok tr = true) -> image_ok (hmem (x_um x)) -> x_brk x + 0x2000 < 2 ^ 52 ->
  exists x', init_page x = Done (x_brk x) x' /\ winv (xworld x') /\ tables_at x' (x_brk x) (x_brk x + 0x1000) /\
    t_regs (x_task x') CR0 = Z.lor (Z.lor CR0_PG CR0_PE) CR0_NE /\ t_vmcs (x_task x') = t_vmcs (x_task x) /\
    x_brk x' = x_brk x + 0x2000 /\ u_mm (x_um x') = u_mm (x_um x).
Proof.
  intros Hw Hhv Hi Hb. destruct (init_page_run x Hw Hhv Hi Hb) as (x2 & E & Hw2 & Em0 & Ev0 & Eb0 & Ec).
  set (x' := paged _ _ _ _) in E. destruct Hi as [(A1 & A2 & A3) (B1 & B2 & B3) Hap H4 H3].
  pose proof (inv_kbrk _ Hw) as Hk. pose proof (inv_kbrk_al _ Hw) as Hka. unfold user_addr_max in Hk. simpl in Hk, Hka.
  assert (winv (xworld x')) as Hw' by exact Hw2.
  assert (hmem (x_um x') = host_write (hmem (x_um x)) pml4_addr (le_encode 8 (x_brk x + 0x1007))) as Em by done.
  assert (forall pa, phys64 x' pa = (h ← ept (x_calls x2) pa; Some (le_decode (host_read (hmem (x_um x')) h 8)))) as Ep by done.
  assert (tables_at x' (x_brk x) (x_brk x + 0x1000)) as Ht.
  { constructor.
    - change (t_regs (x_task x') CR3) with (u64 (x_brk x)). apply wrap_small. lia.
    - split; [lia|done].
    - split; [lia|]. rewrite Zplus_mod, Hka. done.
    - intros i Hi. rewrite Ep, Ec. cbn [ept app].
      assert (forall a b c : Z, (a <=? b) && (b <? c) = bool_decide (a <= b < c)) as Hr
        by (intros; zcases; case_bool_decide; done || lia).
      rewrite !Hr, !(bool_decide_false (_ + _ <= _ < _)), (bool_decide_true (x_brk x <= _ < _)) by lia. cbn [mbind option_bind].
      replace (pml4_addr + (x_brk x + 8 * i) - x_brk x) with (pml4_addr + 8 * i) by lia. rewrite wrap_small by lia. f_equal.
      rewrite Em. destruct (Z.eqb_spec i 0) as [->|].
      + rewrite Z.add_0_r, read_written by lia. lia.
      + rewrite read_apart by lia. rewrite <- (Z2Nat.id i) at 1 by lia. apply H4. by apply pml4_rest.
    - intros i Hi. rewrite Ep, Ec. cbn [ept app]. zcases; cbn [andb]; try lia. cbn [mbind option_bind].
      replace (pdp_addr + (x_brk x + 0x1000 + 8 * i) - (x_brk x + 0x1000)) with (pdp_addr + 8 * i) by lia.
      rewrite wrap_small by lia. rewrite Em, read_apart by lia. rewrite pdp_lookup by done. f_equal.
      rewrite <- (Z2Nat.id i) at 1 by lia. apply H3. by apply pdp_lookup. }
  exists x'. done.
Qed.

(** C11: [init_page] returns and gives the guest an identity map: its page tables send
    every linear address below [user_addr_max] to the same physical address, writable
    and open to user code, so that an access of the guest reaches the host memory
    the kernel computes for that address. *)
Theorem init_page_identity x :
  winv (xworld x) -> (forall tr, hv_vm_map_ok tr = true) -> image_ok (hmem (x_um x)) -> x_brk x + 0x2000 < 2 ^ 52 ->
  exists x', init_page x = Done (x_brk x) x' /\ winv (xworld x') /\ tables_at x' (x_brk x) (x_brk x + 0x1000) /\
    forall la, 0 <= la < user_addr_max ->
      walk (phys64 x') (t_regs (x_task x') CR3) la = Some (mk_access la true true) /\
      guest_access x' la = guest_to_host (u_mm (x_um x')) (u_vkern (x_um x')) la.
Proof.
  intros Hw Hhv Hi Hb. destruct (init_page_tables x Hw Hhv Hi Hb) as (x' & E & Hw' & Ht & _). exists x'.
  split; [done|]. split; [done|]. split; [done|]. intros la Hl. split; [|by apply (mmu_agrees x' _ _ la Ht)].
  assert (user_addr_max = 511 * 2 ^ 30) as Eu by reflexivity. rewrite (walk_gigabyte x' _ _ Ht) by lia.
  destruct (Z.eqb_spec (la / 2 ^ 30) 511) as [E5|_]; [|done].
  pose proof (Z.div_lt_upper_bound la (2 ^ 30) 511 ltac:(lia) ltac:(lia)). lia.
Qed.

End InitPage.

(** Page tables stay in place when CR3 and the words of the tables do. *)
Lemma tables_words x x' p4 p3 :
  tables_at x p4 p3 -> t_regs (x_task x') CR3 = t_regs (x_task x) CR3 ->
  (forall a, a mod 8 = 0 -> p4 <= a < p4 + 4096 \/ p3 <= a < p3 + 4096 -> phys64 x' a = phys64 x a) -> tables_at x' p4 p3.
Proof.
  intros [A1 A2 A3 A4 A5] Hc Hw. constructor; [congruence|done|done|..]; intros i Hi; rewrite Hw;
    [apply A4; done|Z.div_mod_to_equations; lia|lia|apply A5; done|Z.div_mod_to_equations; lia|lia].
Qed.

(** Fresh host memory at [p]: no word the guest can reach lies in it. *)
Definition fresh_host (x : xstate) (p sz : Z) : Prop :=
  p mod 4096 = 0 /\ 0 < p /\ p + sz <= 2 ^ 64 /\
  forall a h, a mod 8 = 0 -> ept (x_calls x) a = Some h -> h + 8 <= p \/ p + sz <= h.

Lemma ept_range tr a h : ept tr a = Some h -> 0 <= h < 2 ^ 64.
Proof.
  induction tr as [|[] tr IH]; simpl; try done; destruct (_ && _); try done.
  intros [= <-]. apply Z.mod_pos_bound. lia.
Qed.

(** Enough for it: the host ranges the hypervisor was ever given lie elsewhere. *)
Definition apart (p sz : Z) (e : hostcall) : bool :=
  match e with
  | HvMap ha ga n _ =>
    (ha mod 8 =? 0) && (ga mod 8 =? 0) && (n mod 8 =? 0) && (0 <=? ha) && (ha + n <=? 2 ^ 64) && ((ha + n <=? p) || (p + sz <=? ha))
  | _ => true
  end.

Lemma apart_ept tr p sz a h : forallb (apart p sz) tr = true -> a mod 8 = 0 -> ept tr a = Some h -> h + 8 <= p \/ p + sz <= h.
Proof.
  intros Hf Ha. induction tr as [|e tr IH]; [done|]. cbn [forallb] in Hf. apply andb_true_iff in Hf as [He Hf]. specialize (IH Hf).
  destruct e as [|ha ga n hvp| | | | | | |]; simpl; try done; [|by destruct (_ && _)].
  destruct ((ga <=? a) && (a <? ga + n)) eqn:E; [|done]. intros [= <-]. cbn [apart] in He.
  rewrite !andb_true_iff, orb_true_iff, !Z.eqb_eq, !Z.leb_le in He. apply andb_true_iff in E as [E1%Z.leb_le E2%Z.ltb_lt].
  rewrite wrap_small by lia. Z.div_mod_to_equations; lia.
Qed.

Lemma phys64_fresh x x' p sz a : fresh_host x p sz -> a mod 8 = 0 -> ept (x_calls x') a = ept (x_calls x) a ->
  (forall h, ~ p <= h < p + sz -> hmem (x_um x') h = hmem (x_um x) h) -> phys64 x' a = phys64 x a.
Proof.
  intros (Hp & H0 & H1 & Hf) Ha He Hh. unfold phys64. rewrite He. destruct (ept (x_calls x) a) as [h|] eqn:E; [|done].
  pose proof (ept_range _ _ _ E) as Hr. specialize (Hf a h Ha E). cbn [mbind option_bind].
  rewrite (host_read_ext (hmem (x_um x')) (hmem (x_um x)) h 8); [done|]. intros i Hi. apply Hh.
  unfold host_add, wrap. destruct (Z.lt_ge_cases (h + i) (2 ^ 64)).
  - rewrite Z.mod_small by lia. lia.
  - assert ((h + i) mod 2 ^ 64 = h + i - 2 ^ 64) as -> by (symmetry; apply (Z.mod_unique _ _ 1); lia). Z.div_mod_to_equations; lia.
Qed.

(** Fresh host memory is mapped at [top]: the tables stay, and the guest's accesses to the range go there. *)
Lemma mapped_access x x' p4 p3 top sz p :
  tables_at x p4 p3 -> user_addr_max <= p4 -> user_addr_max <= p3 -> top + sz <= user_addr_max -> fresh_host x p sz ->
  t_regs (x_task x') CR3 = t_regs (x_task x) CR3 ->
  (forall a, ept (x_calls x') a = if (top <=? a) && (a <? top + sz) then Some (u64 (p + a - top)) else ept (x_calls x) a) ->
  (forall h, ~ p <= h < p + sz -> hmem (x_um x') h = hmem (x_um x) h) ->
  tables_at x' p4 p3 /\
  forall la, 0 <= la < user_addr_max -> guest_access x' la =
    if (top <=? la) && (la <? top + sz) then Some (u64 (p + la - top)) else guest_access x la.
Proof.
  intros Ht H4 H3 Htop Hf Hc He Hh. assert (tables_at x' p4 p3) as Ht'.
  { apply (tables_words x x'); [done..|]. intros a Ha Hr. apply (phys64_fresh x x' p sz); try done.
    rewrite He. destruct (Z.ltb_spec a (top + sz)); [lia|]. by rewrite andb_false_r. }
  split; [done|]. intros la Hl. by rewrite (access_ept x' p4 p3), (access_ept x p4 p3), He.
Qed.

(** Page tables stay in place when CR3, host memory and their mappings do. *)
Lemma tables_frame x x' p4 p3 :
  tables_at x p4 p3 -> t_regs (x_task x') CR3 = t_regs (x_task x) CR3 -> hmem (x_um x') = hmem (x_um x) ->
  (forall a, p4 <= a < p4 + 4096 \/ p3 <= a < p3 + 4096 -> ept (x_calls x') a = ept (x_calls x) a) -> tables_at x' p4 p3.
Proof.
  intros [A1 A2 A3 A4 A5] Hc Hm He. constructor; [congruence|done|done|..]; intros i Hi; unfold phys64; rewrite Hm, He by lia;
    [apply A4|apply A5]; done.
Qed.

(** ** Runs *)

(** A kernel image with its tables in consecutive pages. *)
Definition demo_image : KernImage := {| pml4_addr := 0x10000; pdp_addr := 0x11000; gdt_addr := 0x12000; idt_addr := 0x13000 |}.
Definition image_bytes : list Z := (pml4 ++ pdp) ≫= le_encode 8.
Definition image_mem (a : Z) : Z := if (0x10000 <=? a) && (a <? 0x12000) then default 0 (image_bytes !! Z.to_nat (a - 0x10000)) else 0.
Definition x_image : xstate :=
  mk_xstate (tset_kern (set_um (mk_umem init_mm init_mm image_mem) (t_kern sig_demo)) sig_demo) user_addr_max [].

Section Runs.
#[local] Existing Instances demo_host demo_image.

Definition zero_mem : HostMem := {| fresh_bytes _ _ := 0 |}.
#[local] Existing Instance zero_mem.

Lemma words_at_dec hm a ws :
  forallb (fun i => bool_decide (Some (le_decode (host_read hm (a + 8 * Z.of_nat i) 8)) = ws !! i)) (seq 0 (length ws)) = true ->
  words_at hm a ws.
Proof.
  intros Hf i w E. rewrite forallb_forall in Hf. pose proof (lookup_lt_Some _ _ _ E).
  specialize (Hf i ltac:(apply in_seq; lia)). apply bool_decide_eq_true_1 in Hf. congruence.
Qed.

Lemma image_loaded : image_ok image_mem.
Proof.
  constructor; [split_and!; vm_compute; congruence..|left; vm_compute; congruence| |]; apply words_at_dec; vm_compute; reflexivity.
Qed.

Lemma init_page_identity_witness :
  exists x', init_page x_image = Done user_addr_max x' /\ guest_access x' 0x401000 = guest_to_host (u_mm (x_um x')) (u_vkern (x_um x')) 0x401000.
Proof.
  destruct (init_page_identity x_image) as (x' & E & _ & _ & Hl); [apply init_winv|done|apply image_loaded|vm_compute; reflexivity|].
  exists x'. split; [exact E|]. apply Hl. unfold user_addr_max. lia.
Defined.

End Runs.
