(* ===== verification/Boot.v ===== *)
(** * Start-up ([src/main.c], [src/mm/mm.c], [lib/vmm.c], [src/debug.c])

    [main] drops privileges, creates the virtual machine with one virtual CPU, puts
    that CPU into long mode (VMCS controls, page tables, segments, FPU), sets up the
    first process, executes the program and enters the main loop.  The heap of
    [init_shm_malloc] and the futex table are states of their own ([ShmMalloc],
    [KHash]).  The answers of [getopt_long] and [realpath] are arguments. *)

From S2P Require Import Prelude RBTree Const Errno Conv Mm Mmap MmapFacts MmInv MmSys UserMem.
From S2P Require Import FdTable Kernel Files Path FileOps PathOps FdSys Task Signal Exec Fork PageTable.

(** [include/x86/vm.h] *)
Definition DESC_UNUSABLE : Z := 0x00010000.

(** Writes of VMCS fields and registers, in order. *)
Fixpoint write_vmcs_list (l : list (string * Z)) : T unit :=
  match l with [] => mret tt | (x, v) :: l => vmm_write_vmcs x v;; write_vmcs_list l end.
Fixpoint write_reg_list (l : list (reg * Z)) : T unit :=
  match l with [] => mret tt | (r, v) :: l => vmm_write_register r v;; write_reg_list l end.

Section Boot.
Context `{OS} `{DarwinErrno} `{DarwinConst} `{Heap} `{Host} `{HostMem} `{HostCpu} `{KernImage}.

(** ** Segments ([src/mm/mm.c]) *)

(** A global that nothing assigns. *)
Definition gdt_ptr : Z := 0.
Definition codeseg_ar : Z := 0x0000209B.
Definition dataseg_ar : Z := 0x00000093.

Definition segment_fields : list (string * Z) :=
  [("GUEST_GDTR_BASE", gdt_ptr); ("GUEST_GDTR_LIMIT", 3 * 8 - 1);
   ("GUEST_TR_BASE", 0); ("GUEST_TR_LIMIT", 0); ("GUEST_TR_AR", 0x0000008b);
   ("GUEST_LDTR_BASE", 0); ("GUEST_LDTR_LIMIT", 0); ("GUEST_LDTR_AR", DESC_UNUSABLE);
   ("GUEST_IDTR_BASE", 0); ("GUEST_IDTR_LIMIT", 0xffff);
   ("GUEST_CS_BASE", 0); ("GUEST_CS_LIMIT", 0); ("GUEST_CS_AR", codeseg_ar);
   ("GUEST_DS_BASE", 0); ("GUEST_DS_LIMIT", 0); ("GUEST_DS_AR", dataseg_ar);
   ("GUEST_ES", 0); ("GUEST_ES_BASE", 0); ("GUEST_ES_LIMIT", 0); ("GUEST_ES_AR", dataseg_ar);
   ("GUEST_FS", 0); ("GUEST_FS_BASE", 0); ("GUEST_FS_LIMIT", 0); ("GUEST_FS_AR", dataseg_ar);
   ("GUEST_GS", 0); ("GUEST_GS_BASE", 0); ("GUEST_GS_LIMIT", 0); ("GUEST_GS_AR", dataseg_ar);
   ("GUEST_SS", 0); ("GUEST_SS_BASE", 0); ("GUEST_SS_LIMIT", 0); ("GUEST_SS_AR", dataseg_ar)]%string.
Definition segment_regs : list (reg * Z) :=
  [(CS, GSEL SEG_CODE 0); (DS, GSEL SEG_DATA 0); (ES, GSEL SEG_DATA 0); (FS, GSEL SEG_DATA 0);
   (GS, GSEL SEG_DATA 0); (SS, GSEL SEG_DATA 0); (TR, 0); (LDTR, 0)].

Definition init_segment : X unit :=
  lw (kmap gdt_addr 0x1000 HV_RW);;
  ltask (write_vmcs_list segment_fields);;
  ltask (write_reg_list segment_regs).

(** ** The virtual CPU ([src/main.c]) *)

Definition cap2ctrl (cap ctrl : Z) : Z := Z.land (Z.lor ctrl (Z.land cap 0xffffffff)) (Z.shiftr cap 32).

Definition read_capability (name : string) : T Z :=
  r ← lk (hcall "hv_vmx_read_capability" [HI (D name)]); mret (u64 (fld (outbuf (h_out r) 0) 0)).

Definition init_vmcs : T unit :=
  pinbased ← read_capability "HV_VMX_CAP_PINBASED";
  procbased ← read_capability "HV_VMX_CAP_PROCBASED";
  procbased2 ← read_capability "HV_VMX_CAP_PROCBASED2";
  entry ← read_capability "HV_VMX_CAP_ENTRY";
  exit ← read_capability "HV_VMX_CAP_EXIT";
  write_vmcs_list
    [("CTRL_PIN_BASED", cap2ctrl pinbased 0);
     ("CTRL_CPU_BASED", cap2ctrl procbased (Z.lor (Z.lor (D "CPU_BASED_HLT") (D "CPU_BASED_CR8_LOAD")) (D "CPU_BASED_CR8_STORE")));
     ("CTRL_CPU_BASED2", cap2ctrl procbased2 0);
     ("CTRL_VMENTRY_CONTROLS", cap2ctrl entry (Z.lor (D "VMENTRY_LOAD_EFER") (D "VMENTRY_GUEST_IA32E")));
     ("CTRL_VMEXIT_CONTROLS", cap2ctrl exit (D "VMEXIT_LOAD_EFER"));
     ("CTRL_EXC_BITMAP", 0xffffffff); ("CTRL_CR0_SHADOW", 0); ("CTRL_CR4_MASK", 0); ("CTRL_CR4_SHADOW", 0)]%string.

Definition init_special_regs : T unit :=
  cr0 ← vmm_read_vmcs "GUEST_CR0";
  vmm_write_vmcs "GUEST_CR0" (Z.lor (clearf cr0 CR0_EM) CR0_MP);;
  cr4 ← vmm_read_vmcs "GUEST_CR4";
  vmm_write_vmcs "GUEST_CR4"
    (Z.lor (Z.lor (Z.lor (Z.lor (Z.lor cr4 CR4_PAE) CR4_OSFXSR) CR4_OSXMMEXCPT) CR4_VMXE) CR4_OSXSAVE);;
  efer ← vmm_read_vmcs "GUEST_IA32_EFER";
  vmm_write_vmcs "GUEST_IA32_EFER" (Z.lor (Z.lor efer EFER_LME) EFER_LMA).

(** [sizeof idt], 256 gates of 16 bytes *)
Definition sizeof_idt : Z := 256 * 16.

Definition init_idt : X unit :=
  idt_ptr ← lw (kmap idt_addr 0x1000 HV_RW);
  ltask (vmm_write_vmcs "GUEST_IDTR_BASE" idt_ptr);;
  ltask (vmm_write_vmcs "GUEST_IDTR_LIMIT" sizeof_idt).

(** [get_cpuid_count]: [eax] *)
Definition get_cpuid_count (leaf subleaf : Z) : T Z :=
  r ← lk (hcall "cpuid" [HI leaf; HI subleaf]); mret (u32 (fld (outbuf (h_out r) 0) 0)).

Definition init_regs : T unit :=
  vmm_write_register RFLAGS 0x2;;
  eax ← get_cpuid_count 0x0d 0x0;
  when_ (testf eax XCR0_SSE_STATE)
    (xcr0 ← vmm_read_register XCR0; vmm_write_register XCR0 (Z.lor xcr0 XCR0_SSE_STATE)).

(** [abort()] unless the call succeeded ([HV_SUCCESS] is 0) *)
Definition hv_must (name : string) (args : list harg) : T unit :=
  r ← lk (hcall name args); if negb (h_ret r =? 0) then halt AssertFail else mret tt.
Definition vmm_enable_native_msr (msr enable : Z) : T unit := hv_must "hv_vcpu_enable_native_msr" [HI msr; HI enable].
Definition vmm_write_fpstate (buffer : list Z) : T unit :=
  hv_must "hv_vcpu_write_fpstate" [HB buffer; HI (Z.of_nat (length buffer))].

Definition init_msr : T unit :=
  vmm_enable_native_msr MSR_TIME_STAMP_COUNTER 1;;
  vmm_enable_native_msr MSR_TSC_AUX 1;;
  vmm_enable_native_msr MSR_KERNEL_GS_BASE 1.

(** [struct fxregs_state]: the fields that are set, and 480 bytes that are not *)
Definition fxregs (rest : list Z) : list Z :=
  enc [(2%nat, 0x037f); (2%nat, 0); (2%nat, 0xffff); (2%nat, 0); (8%nat, 0); (8%nat, 0); (4%nat, 0x1f80); (4%nat, 0)]
  ++ take 480 (rest ++ replicate 480 0).

Definition init_fpu : T unit :=
  t ← get; vmm_write_fpstate (fxregs (uninit (k_trace (t_kern t)))).

(** ** The first process *)

Definition init_first_proc (root : list Z) : X unit :=
  ltask (modify (tset_nr_tasks 1));;
  lw (on_mm (put init_mm));;
  ltask init_signal;;
  r ← lkx (hcall "open" [HS root; HI (Z.lor (D "O_RDONLY") (D "O_DIRECTORY"))]);
  let rootfd := h_ret r in
  if rootfd <? 0 then halt (Exit 1)
  else
    lkx (init_fileinfo rootfd);;
    lkx (hcall "close" [HI rootfd]);;
    uid ← lkx (hcall "getuid" []);
    euid ← lkx (hcall "geteuid" []);
    suid ← lkx (hcall "geteuid" []);
    lkx (modify (set_cred (mk_cred (h_ret uid) (h_ret euid) (h_ret suid))));;
    pid ← lkx (hcall "getpid" []);
    ltask (modify (fun t => tset_tids (u64 (h_ret pid)) (t_set_child_tid t) (t_clear_child_tid t) t)).

(** The set-up of the virtual CPU within [init_vkernel] *)
Definition init_cpu : X unit :=
  ltask init_vmcs;;
  ltask init_msr;;
  init_page;;
  ltask init_special_regs;;
  init_segment;;
  init_idt;;
  ltask init_regs;;
  ltask init_fpu.

Definition init_vkernel (root : list Z) : X unit :=
  lw (on_vkern (put init_mm));;
  init_cpu;;
  init_first_proc root.

(** ** The virtual machine ([lib/vmm.c]) *)

Definition vmm_create : V unit :=
  modify (fun v => mk_vstate (v_x v) 0);;
  r ← lx (lkx (hcall "hv_vm_create" []));
  if negb (h_ret r =? 0) then halt Panic
  else
    lx (lw (call HvVmCreate));;
    lx hv_vcpu_create;;
    modify (fun v => mk_vstate (v_x v) (nr_vcpus v + 1)).

(** ** [main] *)

Definition check_platform_version : X unit :=
  r ← lkx (hcall "sysctlbyname" [HS (str "kern.hv_support")]);
  x ← get;
  let b := if h_ret r <? 0 then le_decode (take 4 (uninit (k_trace (t_kern (x_task x))))) else fld (outbuf (h_out r) 0) 0 in
  if b =? 0 then halt (Exit 1) else mret tt.

(** [init_sink] ([src/debug.c]) without what it prints *)
Definition init_sink (fn : list Z) : K unit :=
  r ← hcall "open" [HS fn; HI (Z.lor (D "O_RDWR") (D "O_CREAT")); HI 420];
  vkern_dup_fd (h_ret r) false;;
  hcall "close" [HI (h_ret r)];;
  mret tt.

(** What [getopt_long] answers: the option and its argument, for [-m] with the path
    [realpath] gives it. *)
Inductive opt := OptOutput (arg : list Z) | OptWarning (arg : list Z) | OptStrace (arg : list Z)
  | OptMnt (path : option (list Z)) | OptHelp.

Definition PATH_MAX : Z := 1024.
Definition strncpy_path (arg : list Z) : list Z := take (Z.to_nat PATH_MAX) arg.

(** [root] and [debug_paths] in the order [PRINTK_PATH], [WARNK_PATH], [STRACE_PATH] *)
Record options := mk_options { o_root : list Z; o_printk : list Z; o_warnk : list Z; o_strace : list Z }.

Fixpoint parse_options (l : list opt) (o : options) : V options :=
  match l with
  | [] => mret o
  | OptOutput a :: l => parse_options l (mk_options (o_root o) (strncpy_path a) (o_warnk o) (o_strace o))
  | OptWarning a :: l => parse_options l (mk_options (o_root o) (o_printk o) (strncpy_path a) (o_strace o))
  | OptStrace a :: l => parse_options l (mk_options (o_root o) (o_printk o) (o_warnk o) (strncpy_path a))
  | OptMnt None :: _ => halt (Exit 1)
  | OptMnt (Some p) :: l => parse_options l (mk_options p (o_printk o) (o_warnk o) (o_strace o))
  | OptHelp :: _ => halt (Exit 0)
  end.

Definition init_debug (path : list Z) : X unit := if bool_decide (path = []) then mret tt else lkx (init_sink path).

(** [main] up to the main loop; [fuel] bounds the chain of interpreters of [do_exec].  The paths
    of the options are what the debug files were opened with. *)
Definition main_start (fuel : nat) (opts : list opt) (argv envp : list (list Z)) : V options :=
  lx drop_privilege;;
  lx check_platform_version;;
  o ← parse_options opts (mk_options [] [] [] []);
  match argv with
  | [] => halt AssertFail   (* abort() *)
  | path :: _ =>
    vmm_create;;
    lx (init_vkernel (o_root o));;
    lx (init_debug (o_printk o));;
    lx (init_debug (o_warnk o));;
    lx (init_debug (o_strace o));;
    err ← lx (do_exec fuel path argv envp);
    if err <? 0 then halt (Exit 1) else mret o
  end.

End Boot.

(** ** What the set-up writes *)

Inductive target := VMCS (x : string) | REG (r : reg).
Definition target_reg (g : target) : option reg := match g with VMCS x => vmcs_reg x | REG r => Some r end.

(** Registers and VMCS fields after writes of 64-bit values. *)
Definition regs_after (l : list (target * Z)) (f : reg -> Z) : reg -> Z :=
  foldl (fun f gw => match target_reg gw.1 with Some r => upd_reg r gw.2 f | None => f end) f l.
Definition vmcs_after (l : list (target * Z)) (f : string -> Z) : string -> Z :=
  foldl (fun f gw => match gw.1 with VMCS x => match vmcs_reg x with Some _ => f | None => upd_vmcs x gw.2 f end | REG _ => f end) f l.

(** A step that made the writes [l] and left memory and mappings alone. *)
Record wrote (l : list (target * Z)) (x x' : xstate) : Prop := {
  wr_regs : t_regs (x_task x') = regs_after l (t_regs (x_task x));
  wr_vmcs : t_vmcs (x_task x') = vmcs_after l (t_vmcs (x_task x));
  wr_um : x_um x' = x_um x;
  wr_brk : x_brk x' = x_brk x;
  wr_calls : x_calls x' = x_calls x;
}.

Lemma wrote_trans l1 l2 x1 x2 x3 : wrote l1 x1 x2 -> wrote l2 x2 x3 -> wrote (l1 ++ l2) x1 x3.
Proof.
  intros [A1 A2 A3 A4 A5] [B1 B2 B3 B4 B5]. constructor; try congruence.
  - rewrite B1, A1. unfold regs_after. by rewrite foldl_app.
  - rewrite B2, A2. unfold vmcs_after. by rewrite foldl_app.
Qed.

Lemma wrote_refl x : wrote [] x x.
Proof. done. Qed.

Lemma wrote_winv l x x' : wrote l x x' -> winv (xworld x) -> winv (xworld x').
Proof. intros [_ _ Hu Hb Hc]. unfold xworld. by rewrite Hu, Hb, Hc. Qed.

(** An operation of the task that returns with the writes [l]. *)
Definition does {A} (c : T A) (l : list (target * Z)) (x : xstate) (a : A) : Prop :=
  exists x', ltask c x = Done a x' /\ wrote l x x'.

Section Writes.
Context `{OS}.

Lemma write_vmcs_does f v x : does (vmm_write_vmcs f v) [(VMCS f, u64 v)] x tt.
Proof.
  unfold does, vmm_write_vmcs, ltask. destruct (vmcs_reg f) as [r|] eqn:E; eexists; (split; [reflexivity|]).
  - constructor; try done; simpl; by rewrite E.
  - constructor; try done; simpl; by rewrite E.
Qed.

Lemma write_register_does r v x : does (vmm_write_register r v) [(REG r, u64 v)] x tt.
Proof. eexists. split; [reflexivity|]. done. Qed.

Lemma hcall_does name args x :
  does (lk (hcall name args)) [] x (os (k_trace (t_kern (x_task x))) name args).
Proof. eexists. split; [reflexivity|]. done. Qed.

Lemma ret_does {A} (a : A) x : does (mret a) [] x a.
Proof. exists x. split; [by destruct x as [[]]|done]. Qed.

(** Sequencing: the second operation runs from the state the first one leaves. *)
Lemma bind_does {A B} (c : T A) (k : A -> T B) l1 l2 x a b :
  does c l1 x a -> (forall x1, wrote l1 x x1 -> does (k a) l2 x1 b) -> does (c ≫= k) (l1 ++ l2) x b.
Proof.
  intros (x1 & E1 & W1) Hk. destruct (Hk x1 W1) as (x2 & E2 & W2). exists x2. split; [|by eapply wrote_trans].
  unfold ltask in *. unfold mbind, M_bind. destruct (c (x_task x)) as [a' t'|]; [|done]. simplify_eq. exact E2.
Qed.

Lemma write_vmcs_list_does l x : does (write_vmcs_list l) ((fun p => (VMCS p.1, u64 p.2)) <$> l) x tt.
Proof.
  revert x. induction l as [|[f v] l IH]; intros x; [apply ret_does|]. simpl.
  apply (bind_does _ _ [(VMCS f, u64 v)] _ x tt); [apply write_vmcs_does|]. intros x1 _. apply IH.
Qed.

Lemma write_reg_list_does l x : does (write_reg_list l) ((fun p => (REG p.1, u64 p.2)) <$> l) x tt.
Proof.
  revert x. induction l as [|[r v] l IH]; intros x; [apply ret_does|]. simpl.
  apply (bind_does _ _ [(REG r, u64 v)] _ x tt); [apply write_register_does|]. intros x1 _. apply IH.
Qed.

(** A call of the hypervisor that succeeds. *)
Lemma hv_must_does name args x :
  (forall tr, h_ret (os tr name args) = 0) -> does (hv_must name args) [] x tt.
Proof.
  intros Hok. unfold hv_must. apply (bind_does _ _ [] [] x _ tt (hcall_does name args x)). intros x1 _.
  rewrite Hok. apply ret_does.
Qed.

End Writes.

(** ** Legal controls *)

(** A capability of the processor: the bits a control must have are among those it may. *)
Definition cap_ok (cap : Z) : Prop := 0 <= cap < 2 ^ 64 /\ Z.land (Z.land cap 0xffffffff) (Z.shiftr cap 32) = Z.land cap 0xffffffff.
(** The control has every bit it must have and none it may not. *)
Definition legal (cap ctrl : Z) : Prop :=
  Z.land (Z.land cap 0xffffffff) ctrl = Z.land cap 0xffffffff /\ Z.land ctrl (Z.shiftr cap 32) = ctrl.

Lemma cap2ctrl_legal cap ctrl :
  cap_ok cap -> legal cap (cap2ctrl cap ctrl) /\ Z.land (Z.land ctrl (Z.shiftr cap 32)) (cap2ctrl cap ctrl) = Z.land ctrl (Z.shiftr cap 32).
Proof.
  intros [_ Hc]. unfold legal, cap2ctrl. set (lo := Z.land cap 0xffffffff) in *. set (hi := Z.shiftr cap 32) in *.
  assert (forall n, 0 <= n -> Z.testbit lo n = true -> Z.testbit hi n = true) as Hb.
  { intros n Hn E. rewrite <- Hc, Z.land_spec in E. by apply andb_true_iff in E as [_ ?]. }
  split_and!; apply Z.bits_inj'; intros n Hn; rewrite ?Z.land_spec, ?Z.lor_spec; specialize (Hb n Hn);
    destruct (Z.testbit lo n), (Z.testbit hi n), (Z.testbit ctrl n); try done; by specialize (Hb eq_refl).
Qed.

Lemma cap2ctrl_u64 cap ctrl : cap_ok cap -> u64 (cap2ctrl cap ctrl) = cap2ctrl cap ctrl.
Proof.
  intros [Hr _]. apply wrap_small. assert (0 <= Z.shiftr cap 32 < 2 ^ 32) as Hh.
  { rewrite Z.shiftr_div_pow2 by lia. split; [apply Z.div_pos; lia|]. apply Z.div_lt_upper_bound; lia. }
  unfold cap2ctrl. split; [apply Z.land_nonneg; lia|].
  apply (Z.le_lt_trans _ (Z.shiftr cap 32)); [|lia]. rewrite Z.land_comm. apply Z.ldiff_le; [lia|].
  apply Z.bits_inj'. intros n Hn. rewrite Z.ldiff_spec, Z.land_spec, Z.bits_0. by destruct (Z.testbit _ n), (Z.testbit _ n).
Qed.

(** ** The virtual CPU after start-up *)

Section Cpu.
Context `{OS} `{DarwinErrno} `{DarwinConst} `{Heap} `{Host} `{HostMem} `{HostCpu} `{KernImage}.
Implicit Types (x : xstate) (cap : string -> Z).

(** What the processor answers: consistent capabilities [cap], and success. *)
Record hv_cpu_ok (cap : string -> Z) : Prop := {
  hc_cap tr name : u64 (fld (outbuf (h_out (os tr "hv_vmx_read_capability" [HI (D name)])) 0) 0) = cap name;
  hc_ok name : cap_ok (cap name);
  hc_msr tr args : h_ret (os tr "hv_vcpu_enable_native_msr" args) = 0;
  hc_fpu tr args : h_ret (os tr "hv_vcpu_write_fpstate" args) = 0;
}.

Definition control_writes cap : list (target * Z) :=
  (fun p => (VMCS p.1, u64 p.2)) <$>
    [("CTRL_PIN_BASED", cap2ctrl (cap "HV_VMX_CAP_PINBASED") 0);
     ("CTRL_CPU_BASED", cap2ctrl (cap "HV_VMX_CAP_PROCBASED") (Z.lor (Z.lor (D "CPU_BASED_HLT") (D "CPU_BASED_CR8_LOAD")) (D "CPU_BASED_CR8_STORE")));
     ("CTRL_CPU_BASED2", cap2ctrl (cap "HV_VMX_CAP_PROCBASED2") 0);
     ("CTRL_VMENTRY_CONTROLS", cap2ctrl (cap "HV_VMX_CAP_ENTRY") (Z.lor (D "VMENTRY_LOAD_EFER") (D "VMENTRY_GUEST_IA32E")));
     ("CTRL_VMEXIT_CONTROLS", cap2ctrl (cap "HV_VMX_CAP_EXIT") (D "VMEXIT_LOAD_EFER"));
     ("CTRL_EXC_BITMAP", 0xffffffff); ("CTRL_CR0_SHADOW", 0); ("CTRL_CR4_MASK", 0); ("CTRL_CR4_SHADOW", 0)]%string.

Lemma read_capability_does cap name x : hv_cpu_ok cap -> does (read_capability name) [] x (cap name).
Proof.
  intros Hc. unfold read_capability. apply (bind_does _ _ [] [] x _ _ (hcall_does _ _ x)). intros x1 _.
  rewrite (hc_cap _ Hc). apply ret_does.
Qed.

Lemma init_vmcs_does cap x : hv_cpu_ok cap -> does init_vmcs (control_writes cap) x tt.
Proof.
  intros Hc. unfold init_vmcs.
  do 5 (apply (bind_does _ _ [] (control_writes cap) _ _ tt (read_capability_does cap _ _ Hc)); intros ? _).
  apply write_vmcs_list_does.
Qed.

Lemma init_msr_does cap x : hv_cpu_ok cap -> does init_msr [] x tt.
Proof.
  intros Hc. unfold init_msr, vmm_enable_native_msr.
  apply (bind_does _ _ [] [] x tt tt); [apply hv_must_does; intros; apply (hc_msr _ Hc)|intros x1 _].
  apply (bind_does _ _ [] [] x1 tt tt); [apply hv_must_does; intros; apply (hc_msr _ Hc)|intros x2 _].
  apply hv_must_does; intros; apply (hc_msr _ Hc).
Qed.

Lemma init_fpu_does cap x : hv_cpu_ok cap -> does init_fpu [] x tt.
Proof.
  intros Hc. unfold does, init_fpu, ltask. msimp. apply (hv_must_does "hv_vcpu_write_fpstate" _ x). intros. apply (hc_fpu _ Hc).
Qed.

(** The writes of [init_special_regs] in a state with these values. *)
Definition special_writes (cr0 cr4 efer : Z) : list (target * Z) :=
  [(VMCS "GUEST_CR0", u64 (Z.lor (clearf cr0 CR0_EM) CR0_MP));
   (VMCS "GUEST_CR4", u64 (Z.lor (Z.lor (Z.lor (Z.lor (Z.lor cr4 CR4_PAE) CR4_OSFXSR) CR4_OSXMMEXCPT) CR4_VMXE) CR4_OSXSAVE));
   (VMCS "GUEST_IA32_EFER", u64 (Z.lor (Z.lor efer EFER_LME) EFER_LMA))]%string.

Lemma init_special_regs_does x :
  does init_special_regs (special_writes (t_regs (x_task x) CR0) (t_regs (x_task x) CR4) (t_vmcs (x_task x) "GUEST_IA32_EFER")) x tt.
Proof. eexists. split; [reflexivity|]. done. Qed.

Lemma init_regs_does x : exists l, does init_regs ((REG RFLAGS, u64 2) :: l) x tt /\ (l = [] \/ exists v, l = [(REG XCR0, v)]).
Proof.
  destruct (testf (u32 (fld (outbuf (h_out (os (k_trace (t_kern (x_task x))) "cpuid" [HI 0x0d; HI 0x0])) 0) 0)) XCR0_SSE_STATE) eqn:E.
  - eexists. split; [|right; eexists; reflexivity]. unfold does, init_regs, get_cpuid_count, ltask, lk, hcall. msimp. cbn.
    rewrite E. eexists. split; [reflexivity|done].
  - exists []. split; [|by left]. unfold does, init_regs, get_cpuid_count, ltask, lk, hcall. msimp. cbn.
    rewrite E. eexists. split; [reflexivity|done].
Qed.

(** A page mapped for the kernel above [b]; the CPU and host memory stay. *)
Record kmapped (b : Z) x x' : Prop := {
  km_winv : winv (xworld x');
  km_regs : t_regs (x_task x') = t_regs (x_task x);
  km_vmcs : t_vmcs (x_task x') = t_vmcs (x_task x);
  km_mem : hmem (x_um x') = hmem (x_um x);
  km_brk : x_brk x' = x_brk x + 0x1000;
  km_ept a : a < b -> ept (x_calls x') a = ept (x_calls x) a;
}.

Lemma kmap_page x p :
  winv (xworld x) -> (forall tr, hv_vm_map_ok tr = true) -> p mod 4096 = 0 -> x_brk x + 0x1000 < 2 ^ 64 ->
  exists x', lw (kmap p 0x1000 HV_RW) x = Done (x_brk x) x' /\ kmapped (x_brk x) x x'.
Proof.
  intros Hw Hhv Hp Hb. destruct (lw_kmap x p 0x1000 HV_RW Hw) as (x' & E & Hw' & Eb & Ec & Em & _ & Er & Ev); [lia|done|done|done|done|].
  exists x'. split; [done|]. constructor; try done. intros a Ha. rewrite Ec. cbn [ept app]. zcases; cbn [andb]; done || lia.
Qed.

(** 64-bit mode with paging, and the kernel's code segment. *)
Record long_mode (t : tstate) : Prop := {
  lm_cr0 : t_regs t CR0 = Z.lor (Z.lor (Z.lor CR0_PG CR0_PE) CR0_NE) CR0_MP;
  lm_pae : Z.testbit (t_regs t CR4) 5 = true /\ Z.testbit (t_regs t CR4) 9 = true /\ Z.testbit (t_regs t CR4) 18 = true;
  lm_efer : Z.testbit (t_vmcs t "GUEST_IA32_EFER") 8 = true /\ Z.testbit (t_vmcs t "GUEST_IA32_EFER") 10 = true;
  lm_cs : t_regs t CS = GSEL SEG_CODE 0 /\ Z.testbit (t_vmcs t "GUEST_CS_AR") 13 = true /\ Z.testbit (t_vmcs t "GUEST_CS_AR") 14 = false;
  lm_rflags : t_regs t RFLAGS = 2;
}.

(** The control fields and the capability each answers to. *)
Definition controls : list (string * string) :=
  [("CTRL_PIN_BASED", "HV_VMX_CAP_PINBASED"); ("CTRL_CPU_BASED", "HV_VMX_CAP_PROCBASED");
   ("CTRL_CPU_BASED2", "HV_VMX_CAP_PROCBASED2"); ("CTRL_VMENTRY_CONTROLS", "HV_VMX_CAP_ENTRY");
   ("CTRL_VMEXIT_CONTROLS", "HV_VMX_CAP_EXIT")]%string.

(** Everything [init_cpu] writes after [init_page]. *)
Definition late_writes (cr0 cr4 efer idt_ptr : Z) (l : list (target * Z)) : list (target * Z) :=
  special_writes cr0 cr4 efer ++ ((fun p => (VMCS p.1, u64 p.2)) <$> segment_fields) ++
  ((fun p => (REG p.1, u64 p.2)) <$> segment_regs) ++ [(VMCS "GUEST_IDTR_BASE", u64 idt_ptr)] ++
  [(VMCS "GUEST_IDTR_LIMIT", u64 sizeof_idt)] ++ (REG RFLAGS, u64 2) :: l.

Lemma init_cpu_run x cap :
  winv (xworld x) -> (forall tr, hv_vm_map_ok tr = true) -> image_ok (hmem (x_um x)) -> x_brk x + 0x4000 < 2 ^ 52 ->
  gdt_addr mod 4096 = 0 -> idt_addr mod 4096 = 0 -> hv_cpu_ok cap ->
  exists x' cr4 efer l, init_cpu x = Done tt x' /\ winv (xworld x') /\ tables_at x' (x_brk x) (x_brk x + 0x1000) /\
    (l = [] \/ exists v, l = [(REG XCR0, v)]) /\ exists f,
    let L := late_writes (Z.lor (Z.lor CR0_PG CR0_PE) CR0_NE) cr4 efer (x_brk x + 0x3000) l in
    t_regs (x_task x') = regs_after L f /\
    t_vmcs (x_task x') = vmcs_after L (vmcs_after (control_writes cap) (t_vmcs (x_task x))).
Proof.
  intros Hw Hhv Hi Hb Hg Hidt Hc.
  destruct (init_vmcs_does cap x Hc) as (x1 & E1 & W1). destruct (init_msr_does cap x1 Hc) as (x2 & E2 & W2).
  pose proof (wrote_trans _ _ _ _ _ W1 W2) as W12. rewrite app_nil_r in W12. pose proof (wrote_winv _ _ _ W12 Hw) as Hw2.
  pose proof (inv_kbrk _ Hw) as Hk. unfold user_addr_max in Hk. simpl in Hk. pose proof (wr_brk _ _ _ W12) as Eb12.
  destruct (init_page_tables x2 Hw2 Hhv) as (x3 & E3 & Hw3 & Ht3 & Ecr0 & Ev3 & Eb3 & _); [by rewrite (wr_um _ _ _ W12)|lia|].
  rewrite Eb12 in *. destruct (init_special_regs_does x3) as (x4 & E4 & W4). pose proof (wr_brk _ _ _ W4) as Eb4.
  destruct (kmap_page x4 gdt_addr) as (x5 & E5 & K5); [by eapply wrote_winv|done|done|lia|].
  destruct (write_vmcs_list_does segment_fields x5) as (x6 & E6 & W6).
  destruct (write_reg_list_does segment_regs x6) as (x7 & E7 & W7).
  pose proof (wrote_trans _ _ _ _ _ W6 W7) as W67. pose proof (wr_brk _ _ _ W67) as Eb7. pose proof (km_brk _ _ _ K5) as Eb5.
  destruct (kmap_page x7 idt_addr) as (x8 & E8 & K8); [by eapply wrote_winv; [|apply K5]|done|done|lia|].
  destruct (write_vmcs_does "GUEST_IDTR_BASE" (x_brk x7) x8) as (x9 & E9 & W9).
  destruct (write_vmcs_does "GUEST_IDTR_LIMIT" sizeof_idt x9) as (x10 & E10 & W10).
  destruct (init_regs_does x10) as (l & (x11 & E11 & W11) & Hl). destruct (init_fpu_does cap x11 Hc) as (x12 & E12 & W12').
  pose proof (wrote_trans _ _ _ _ _ W9 (wrote_trans _ _ _ _ _ W10 (wrote_trans _ _ _ _ _ W11 W12'))) as Wf. rewrite app_nil_r in Wf.
  exists x12, (t_regs (x_task x3) CR4), (t_vmcs (x_task x3) "GUEST_IA32_EFER"), l. split.
  { unfold init_cpu, init_segment, init_idt. erewrite bind_Done by exact E1. erewrite bind_Done by exact E2.
    erewrite bind_Done by exact E3. erewrite bind_Done by exact E4.
    assert ((lw (kmap gdt_addr 0x1000 HV_RW);; ltask (write_vmcs_list segment_fields);; ltask (write_reg_list segment_regs)) x4 = Done tt x7) as ES.
    { erewrite bind_Done by exact E5. erewrite bind_Done by exact E6. exact E7. }
    erewrite bind_Done by exact ES.
    assert ((idt_ptr ← lw (kmap idt_addr 0x1000 HV_RW); ltask (vmm_write_vmcs "GUEST_IDTR_BASE" idt_ptr);;
      ltask (vmm_write_vmcs "GUEST_IDTR_LIMIT" sizeof_idt)) x7 = Done tt x10) as EI.
    { erewrite bind_Done by exact E8. erewrite bind_Done by exact E9. exact E10. }
    erewrite bind_Done by exact EI. erewrite bind_Done by exact E11. exact E12. }
  assert (hmem (x_um x12) = hmem (x_um x3)) as Em.
  { rewrite (wr_um _ _ _ Wf), (km_mem _ _ _ K8), (wr_um _ _ _ W67), (km_mem _ _ _ K5), (wr_um _ _ _ W4). done. }
  assert (t_regs (x_task x12) = regs_after (late_writes (t_regs (x_task x3) CR0) (t_regs (x_task x3) CR4)
    (t_vmcs (x_task x3) "GUEST_IA32_EFER") (x_brk x7) l) (t_regs (x_task x3))) as Er.
  { rewrite (wr_regs _ _ _ Wf), (km_regs _ _ _ K8), (wr_regs _ _ _ W67), (km_regs _ _ _ K5), (wr_regs _ _ _ W4).
    unfold regs_after, late_writes. rewrite !foldl_app. done. }
  assert (t_vmcs (x_task x12) = vmcs_after (late_writes (t_regs (x_task x3) CR0) (t_regs (x_task x3) CR4)
    (t_vmcs (x_task x3) "GUEST_IA32_EFER") (x_brk x7) l) (t_vmcs (x_task x3))) as Ev.
  { rewrite (wr_vmcs _ _ _ Wf), (km_vmcs _ _ _ K8), (wr_vmcs _ _ _ W67), (km_vmcs _ _ _ K5), (wr_vmcs _ _ _ W4).
    unfold vmcs_after, late_writes. rewrite !foldl_app. done. }
  assert (x_brk x7 = x_brk x + 0x3000) as Eb by lia. rewrite Ecr0, Eb in Er, Ev.
  split; [eapply wrote_winv; [exact Wf|apply K8]|]. split; [|split; [done|]].
  - apply (tables_frame x3); [done| |done|].
    + rewrite Er. destruct Hl as [->|[v ->]]; reflexivity.
    + intros a Ha. rewrite (wr_calls _ _ _ Wf), (km_ept _ _ _ K8), (wr_calls _ _ _ W67), (km_ept _ _ _ K5), (wr_calls _ _ _ W4) by lia. done.
  - exists (t_regs (x_task x3)). split; [done|]. by rewrite <- (wr_vmcs _ _ _ W12), <- Ev3.
Qed.

(** C12: The set-up of the virtual CPU returns and leaves it in 64-bit mode: paging with
    the identity map, [PAE], long mode enabled and active, a 64-bit code segment; and
    every VM-execution control it wrote has all bits the processor requires and none it
    forbids. *)
Theorem boot_long_mode x cap :
  winv (xworld x) -> (forall tr, hv_vm_map_ok tr = true) -> image_ok (hmem (x_um x)) -> x_brk x + 0x4000 < 2 ^ 52 ->
  gdt_addr mod 4096 = 0 -> idt_addr mod 4096 = 0 -> hv_cpu_ok cap ->
  exists x', init_cpu x = Done tt x' /\ long_mode (x_task x') /\ tables_at x' (x_brk x) (x_brk x + 0x1000) /\
    (forall la, 0 <= la < user_addr_max -> guest_access x' la = guest_to_host (u_mm (x_um x')) (u_vkern (x_um x')) la) /\
    (forall f c, (f, c) ∈ controls -> legal (cap c) (t_vmcs (x_task x') f)).
Proof.
  intros Hw Hhv Hi Hb Hg Hidt Hc.
  destruct (init_cpu_run x cap Hw Hhv Hi Hb Hg Hidt Hc) as (x' & cr4 & efer & l & E & Hw' & Ht & Hl & f & Er & Ev).
  exists x'. split; [done|]. split; [|split; [done|split]].
  - assert (forall v n, 0 <= n < 64 -> Z.testbit (u64 v) n = Z.testbit v n) as Hbit
      by (intros; apply Z.mod_pow2_bits_low; lia).
    assert (t_regs (x_task x') CR4 = u64 (Z.lor (Z.lor (Z.lor (Z.lor (Z.lor cr4 CR4_PAE) CR4_OSFXSR) CR4_OSXMMEXCPT) CR4_VMXE) CR4_OSXSAVE)) as E4
      by (rewrite Er; destruct Hl as [->|[v ->]]; reflexivity).
    assert (t_vmcs (x_task x') "GUEST_IA32_EFER" = u64 (Z.lor (Z.lor efer EFER_LME) EFER_LMA)) as Ee
      by (rewrite Ev; destruct Hl as [->|[v ->]]; reflexivity).
    constructor.
    + rewrite Er. destruct Hl as [->|[v ->]]; reflexivity.
    + rewrite E4, !Hbit, !Z.lor_spec by lia. split_and!; apply orb_true_iff; rewrite !orb_true_iff; auto 10.
    + rewrite Ee, !Hbit, !Z.lor_spec by lia. split_and!; apply orb_true_iff; rewrite !orb_true_iff; auto 10.
    + rewrite Er, Ev. destruct Hl as [->|[v ->]]; split_and!; reflexivity.
    + rewrite Er. destruct Hl as [->|[v ->]]; reflexivity.
  - intros la Hla. by apply (mmu_agrees x' _ _ la Ht).
  - intros g c Hin. assert (t_vmcs (x_task x') g = u64 (cap2ctrl (cap c) (default 0 (snd <$> (list_find (fun p => p.1 = g)
      [("CTRL_CPU_BASED", Z.lor (Z.lor (D "CPU_BASED_HLT") (D "CPU_BASED_CR8_LOAD")) (D "CPU_BASED_CR8_STORE"));
       ("CTRL_VMENTRY_CONTROLS", Z.lor (D "VMENTRY_LOAD_EFER") (D "VMENTRY_GUEST_IA32E"));
       ("CTRL_VMEXIT_CONTROLS", D "VMEXIT_LOAD_EFER")]%string ≫= (fun q => Some q.2)))))) as ->.
    { rewrite Ev. unfold controls in Hin. repeat (apply elem_of_cons in Hin as [[= -> ->]|Hin];
        [destruct Hl as [->|[v ->]]; reflexivity|]). by apply elem_of_nil in Hin. }
    rewrite cap2ctrl_u64 by apply (hc_ok _ Hc). apply cap2ctrl_legal, (hc_ok _ Hc).
Qed.

End Cpu.

(** ** Runs *)

(** A processor that requires bits 1, 2 and 4 of every control and allows all. *)
Definition boot_os : OS := {|
  os _ call _ := if String.eqb call "hv_vmx_read_capability" then mk_hres 0 0 [[0xffffffff00000016]] else mk_hres 0 0 [];
  uninit _ := [] |}.

Section Runs.
#[local] Existing Instances demo_host demo_image zero_mem boot_os macos_const.

Lemma boot_os_ok : hv_cpu_ok (fun _ => 0xffffffff00000016).
Proof. constructor; intros; try (vm_compute; reflexivity). split; [split; vm_compute; congruence|vm_compute; reflexivity]. Qed.

Lemma boot_long_mode_witness :
  exists x', init_cpu x_image = Done tt x' /\ long_mode (x_task x') /\ legal 0xffffffff00000016 (t_vmcs (x_task x') "CTRL_CPU_BASED").
Proof.
  destruct (boot_long_mode x_image (fun _ => 0xffffffff00000016)) as (x' & E & Hl & _ & _ & Hc);
    [apply init_winv|done|apply image_loaded|vm_compute; reflexivity|reflexivity|reflexivity|apply boot_os_ok|].
  exists x'. split; [exact E|]. split; [exact Hl|]. apply (Hc "CTRL_CPU_BASED"%string "HV_VMX_CAP_PROCBASED"%string). by apply (list_elem_of_lookup_2 _ 1%nat).
Defined.

(** [init_segment] maps the descriptor table at [user_addr_max + 0x2000] but tells the
    processor it is at 0, because [gdt_ptr] is never assigned; the limit of the interrupt
    descriptor table is its size instead of the size less one; and the FPU image
    has the tag bits of eight used registers, where [fninit] leaves all of them empty. *)
Theorem boot_departures :
  (exists x', init_cpu x_image = Done tt x' /\ t_regs (x_task x') GDT_BASE = 0 /\
    ept (x_calls x') (user_addr_max + 0x2000) = Some gdt_addr /\ ept (x_calls x') 0 = None /\
    t_regs (x_task x') IDT_LIMIT = 256 * 16) /\
  (fxregs []) !! 4%nat = Some 0xff.
Proof.
  split; [|reflexivity].
  assert ((match init_cpu x_image with
    | Done _ x' => bool_decide (t_regs (x_task x') GDT_BASE = 0 /\ ept (x_calls x') (user_addr_max + 0x2000) = Some gdt_addr /\
        ept (x_calls x') 0 = None /\ t_regs (x_task x') IDT_LIMIT = 256 * 16)
    | Stop _ _ => false
    end) = true) as Hb by (vm_compute; reflexivity).
  destruct (init_cpu x_image) as [[] x'|]; [|done]. exists x'. split; [done|]. by apply bool_decide_eq_true_1 in Hb.
Qed.

End Runs.
