(* ===== verification/MainLoop.v ===== *)
(** * The main loop ([src/main.c], [include/syscall.h], [src/base.c])

    [main_loop] runs the guest until it leaves the virtual machine and handles the exit:
    a [syscall] instruction, which is an invalid opcode in the guest, is dispatched
    through the table of system calls; other exceptions end the process; violations of
    the guest-physical map become signals.  A signal is handled by another [main_loop]
    nested in the first.  What the guest does between two exits is a parameter. *)

From S2P Require Import Prelude RBTree Const Errno Conv Mm Mmap MmapFacts MmInv MmSys UserMem FdTable.
From S2P Require Import Kernel Files Path FileOps PathOps FdSys Task Signal Exec Fork PageTable Boot.

(** ** [include/syscall.h] *)

Definition SYSCALLS_0 : list (Z * string) :=
  [(0, "read"); (1, "write"); (2, "open"); (3, "close"); (4, "stat"); (5, "fstat"); (6, "lstat"); (7, "poll");
   (8, "lseek"); (9, "mmap"); (10, "mprotect"); (11, "munmap"); (12, "brk"); (13, "rt_sigaction");
   (14, "rt_sigprocmask"); (15, "rt_sigreturn"); (16, "ioctl"); (17, "pread64"); (18, "pwrite64"); (19, "readv");
   (20, "writev"); (21, "access"); (22, "pipe"); (23, "select"); (24, "sched_yield"); (25, "mremap");
   (26, "msync"); (27, "unimplemented"); (28, "madvise"); (29, "shmget"); (30, "shmat"); (31, "shmctl");
   (32, "dup"); (33, "dup2"); (34, "unimplemented"); (35, "nanosleep"); (36, "getitimer"); (37, "alarm");
   (38, "setitimer"); (39, "getpid"); (40, "unimplemented"); (41, "socket"); (42, "connect"); (43, "accept");
   (44, "sendto"); (45, "recvfrom"); (46, "sendmsg"); (47, "recvmsg"); (48, "shutdown"); (49, "bind");
   (50, "listen"); (51, "getsockname"); (52, "getpeername"); (53, "socketpair"); (54, "setsockopt");
   (55, "getsockopt"); (56, "clone"); (57, "fork"); (58, "vfork"); (59, "execve"); (60, "exit"); (61, "wait4");
   (62, "kill"); (63, "uname"); (64, "semget"); (65, "semop"); (66, "semctl"); (67, "unimplemented");
   (68, "unimplemented"); (69, "unimplemented"); (70, "unimplemented"); (71, "unimplemented"); (72, "fcntl");
   (73, "flock"); (74, "fsync"); (75, "fdatasync"); (76, "unimplemented"); (77, "ftruncate"); (78, "getdents");
   (79, "getcwd"); (80, "chdir"); (81, "fchdir"); (82, "rename"); (83, "mkdir"); (84, "rmdir"); (85, "creat");
   (86, "link"); (87, "unlink"); (88, "symlink"); (89, "readlink"); (90, "chmod"); (91, "fchmod"); (92, "chown");
   (93, "fchown"); (94, "lchown"); (95, "umask"); (96, "gettimeofday"); (97, "getrlimit"); (98, "getrusage");
   (99, "sysinfo"); (100, "unimplemented"); (101, "ptrace"); (102, "getuid"); (103, "unimplemented");
   (104, "getgid"); (105, "setuid"); (106, "setgid"); (107, "geteuid"); (108, "getegid"); (109, "setpgid")]%string.

Definition SYSCALLS_1 : list (Z * string) :=
  [(110, "getppid"); (111, "getpgrp"); (112, "setsid"); (113, "unimplemented"); (114, "unimplemented");
   (115, "getgroups"); (116, "setgroups"); (117, "setresuid"); (118, "getresuid"); (119, "setresgid");
   (120, "getresgid"); (121, "getpgid"); (122, "unimplemented"); (123, "unimplemented"); (124, "getsid");
   (125, "capget"); (126, "unimplemented"); (127, "rt_sigpending"); (128, "unimplemented");
   (129, "unimplemented"); (130, "rt_sigsuspend"); (131, "sigaltstack"); (132, "utime"); (133, "mknod");
   (134, "uselib"); (135, "unimplemented"); (136, "unimplemented"); (137, "statfs"); (138, "fstatfs");
   (139, "unimplemented"); (140, "getpriority"); (141, "setpriority"); (142, "unimplemented");
   (143, "unimplemented"); (144, "unimplemented"); (145, "unimplemented"); (146, "unimplemented");
   (147, "unimplemented"); (148, "unimplemented"); (149, "mlock"); (150, "munlock"); (151, "unimplemented");
   (152, "unimplemented"); (153, "unimplemented"); (154, "unimplemented"); (155, "unimplemented");
   (156, "unimplemented"); (157, "prctl"); (158, "arch_prctl"); (159, "unimplemented"); (160, "setrlimit");
   (161, "chroot"); (162, "sync"); (163, "unimplemented"); (164, "unimplemented"); (165, "unimplemented");
   (166, "unimplemented"); (167, "unimplemented"); (168, "unimplemented"); (169, "unimplemented");
   (170, "unimplemented"); (171, "unimplemented"); (172, "unimplemented"); (173, "unimplemented");
   (174, "unimplemented"); (175, "unimplemented"); (176, "unimplemented"); (177, "unimplemented");
   (178, "unimplemented"); (179, "unimplemented"); (180, "nfsservctl"); (181, "getpmsg"); (182, "putpmsg");
   (183, "afs_syscall"); (184, "tuxcall"); (185, "security"); (186, "gettid"); (187, "unimplemented");
   (188, "setxattr"); (189, "unimplemented"); (190, "fsetxattr"); (191, "getxattr"); (192, "unimplemented");
   (193, "fgetxattr"); (194, "unimplemented"); (195, "unimplemented"); (196, "flistxattr");
   (197, "unimplemented"); (198, "unimplemented"); (199, "unimplemented"); (200, "unimplemented"); (201, "time");
   (202, "futex"); (203, "unimplemented"); (204, "sched_getaffinity"); (205, "set_thread_area");
   (206, "unimplemented"); (207, "unimplemented"); (208, "unimplemented"); (209, "unimplemented");
   (210, "unimplemented"); (211, "get_thread_area"); (212, "unimplemented"); (213, "unimplemented");
   (214, "epoll_ctl_old"); (215, "epoll_wait_old"); (216, "unimplemented"); (217, "getdents64");
   (218, "set_tid_address"); (219, "unimplemented")]%string.

Definition SYSCALLS_2 : list (Z * string) :=
  [(220, "unimplemented"); (221, "fadvise64"); (222, "unimplemented"); (223, "unimplemented");
   (224, "unimplemented"); (225, "unimplemented"); (226, "unimplemented"); (227, "unimplemented");
   (228, "clock_gettime"); (229, "clock_getres"); (230, "unimplemented"); (231, "exit_group");
   (232, "unimplemented"); (233, "unimplemented"); (234, "tgkill"); (235, "utimes"); (236, "vserver");
   (237, "unimplemented"); (238, "unimplemented"); (239, "get_mempolicy"); (240, "unimplemented");
   (241, "unimplemented"); (242, "unimplemented"); (243, "unimplemented"); (244, "unimplemented");
   (245, "unimplemented"); (246, "unimplemented"); (247, "unimplemented"); (248, "unimplemented");
   (249, "unimplemented"); (250, "unimplemented"); (251, "unimplemented"); (252, "unimplemented");
   (253, "unimplemented"); (254, "unimplemented"); (255, "unimplemented"); (256, "unimplemented");
   (257, "openat"); (258, "mkdirat"); (259, "mknodat"); (260, "fchownat"); (261, "unimplemented");
   (262, "newfstatat"); (263, "unlinkat"); (264, "renameat"); (265, "linkat"); (266, "symlinkat");
   (267, "readlinkat"); (268, "fchmodat"); (269, "faccessat"); (270, "pselect6"); (271, "unimplemented");
   (272, "unimplemented"); (273, "set_robust_list"); (274, "unimplemented"); (275, "unimplemented");
   (276, "unimplemented"); (277, "unimplemented"); (278, "unimplemented"); (279, "unimplemented");
   (280, "utimensat"); (281, "unimplemented"); (282, "unimplemented"); (283, "unimplemented");
   (284, "unimplemented"); (285, "fallocate"); (286, "unimplemented"); (287, "unimplemented");
   (288, "unimplemented"); (289, "unimplemented"); (290, "unimplemented"); (291, "unimplemented"); (292, "dup3");
   (293, "pipe2"); (294, "unimplemented"); (295, "unimplemented"); (296, "unimplemented"); (297, "unimplemented");
   (298, "unimplemented"); (299, "unimplemented"); (300, "unimplemented"); (301, "unimplemented");
   (302, "unimplemented"); (303, "unimplemented"); (304, "unimplemented"); (305, "unimplemented");
   (306, "unimplemented"); (307, "sendmmsg"); (308, "unimplemented"); (309, "unimplemented");
   (310, "unimplemented"); (311, "unimplemented"); (312, "unimplemented"); (313, "unimplemented");
   (314, "unimplemented"); (315, "unimplemented"); (316, "unimplemented"); (317, "unimplemented");
   (318, "getrandom"); (319, "unimplemented"); (320, "unimplemented"); (321, "unimplemented");
   (322, "unimplemented"); (323, "unimplemented"); (324, "unimplemented"); (325, "unimplemented");
   (326, "unimplemented"); (327, "unimplemented"); (328, "unimplemented")]%string.

Definition SYSCALLS : list (Z * string) := SYSCALLS_0 ++ SYSCALLS_1 ++ SYSCALLS_2.

(** [src/base.c]: the tables are filled by designated initialisers [[n] = ...]. *)
Definition sc_name_table (n : Z) : option string := (fun p => p.2.2) <$> list_find (fun p => p.1 = n) SYSCALLS.

(** The handlers by name *)
Definition sc_handler_table {St} (handler : string -> Z -> Z -> Z -> Z -> Z -> Z -> M St Z) : sc_table St :=
  fun n => handler <$> sc_name_table n.

(** [DEFINE_SYSCALL(unimplemented)] *)
Definition sys_unimplemented : T Z := _ ← vmm_read_register RAX; mret (- LINUX_ENOSYS).

(** [include/x86/irq_vectors.h], [include/x86/vmx.h] *)
Definition X86_VEC_UD : Z := 6.
Definition X86_VEC_PF : Z := 14.
Definition VMCS_EXCTYPE_EXTERNAL_INTERRUPT : Z := 0.
Definition VMCS_EXCTYPE_NONMASKTABLE_INTERRUPT : Z := 2.
Definition VMCS_EXCTYPE_HARDWARE_EXCEPTION : Z := 3.
Definition VMCS_EXCTYPE_SOFTWARE_EXCEPTION : Z := 6.

(** [include/noah.h], [include/linux/signal.h] *)
Definition VERIFY_READ : Z := LINUX_PROT_READ.
Definition VERIFY_WRITE : Z := LINUX_PROT_WRITE.
Definition VERIFY_EXEC : Z := LINUX_PROT_EXEC.
Definition LINUX_SIGILL : Z := 4.

(** What the guest does from one entry to the next exit: registers, exit fields of the
    VMCS, memory, and signals that arrive meanwhile; and the answer of [hv_vcpu_run].  [sleep_] is
    what happens to the task while it sleeps until a signal arrives. *)
Class Guest := { hv_vcpu_run : tstate -> Z * tstate; sleep_ : tstate -> tstate }.

Section MainLoop.
Context `{OS} `{DarwinErrno} `{DarwinConst} `{Guest} {St : Type} `{HasTask St} (table : sc_table St).

Definition vmm_run : T Z := fun t => let '(r, t) := hv_vcpu_run t in Done (if r =? 0 then 0 else -1) t.

(** ** Exceptions *)

Definition is_avx (instlen rip : Z) : T bool :=
  '(e, bs) ← lk (k_copy_from_user rip 1);
  mret (if negb (e =? 0) then false else (le_decode bs =? 0xc4) || (le_decode bs =? 0xc5)).

Definition signal_self (sig : Z) : T unit :=
  pid ← lk (hcall "getpid" []); send_signal (h_ret pid) sig;; mret tt.

(** The instruction is copied to be printed. *)
Definition fetch_inst (rip instlen : Z) : T unit :=
  '(e, _) ← lk (k_copy_from_user rip instlen);
  if negb (e =? 0) then halt AssertFail else mret tt.

(** The cases that share the end of the inner [switch] *)
Definition fatal_exception {A} : T A :=
  instlen ← vmm_read_vmcs "RO_VMEXIT_INSTR_LEN";
  rip ← vmm_read_register RIP;
  fetch_inst rip instlen;;
  halt (Exit 1).

(** [true] when AVX state is now enabled *)
Definition enable_avx : T bool :=
  xcr0 ← vmm_read_register XCR0;
  if Z.land xcr0 XCR0_AVX_STATE =? 0 then
    eax ← get_cpuid_count 0x0d 0x0;
    if testf eax XCR0_AVX_STATE then vmm_write_register XCR0 (Z.lor xcr0 XCR0_AVX_STATE);; mret true
    else mret false
  else mret false.

(** [case X86_VEC_UD]; the result says whether [main_loop] returns. *)
Definition invalid_opcode (return_on_sigret : bool) : M St bool :=
  instlen ← on_task (vmm_read_vmcs "RO_VMEXIT_INSTR_LEN");
  rip ← on_task (vmm_read_register RIP);
  sc ← on_task (is_syscall instlen rip);
  if (sc : bool) then syscall_exit table return_on_sigret
  else
    avx ← on_task (is_avx instlen rip);
    enabled ← on_task (if (avx : bool) then enable_avx else mret false);
    if (enabled : bool) then mret false
    else
      on_task (fetch_inst rip instlen);;
      on_task (signal_self LINUX_SIGILL);;
      on_task fatal_exception.

(** [case X86_VEC_PF] has no [break] *)
Definition page_fault (return_on_sigret : bool) : M St bool :=
  _ ← on_task (vmm_read_vmcs "RO_EXIT_QUALIFIC");
  on_task (signal_self LINUX_SIGSEGV);;
  invalid_opcode return_on_sigret.

Definition exception_exit (return_on_sigret : bool) : M St bool :=
  exc_info ← on_task (vmm_read_vmcs "RO_VMEXIT_IRQ_INFO");
  let int_type := Z.shiftr (Z.land exc_info 0x700) 8 in
  if (int_type =? VMCS_EXCTYPE_EXTERNAL_INTERRUPT) || (int_type =? VMCS_EXCTYPE_NONMASKTABLE_INTERRUPT) then mret false
  else if (int_type =? VMCS_EXCTYPE_HARDWARE_EXCEPTION) || (int_type =? VMCS_EXCTYPE_SOFTWARE_EXCEPTION) then
    let exc_vec := Z.land exc_info 0xff in
    if exc_vec =? X86_VEC_PF then page_fault return_on_sigret
    else if exc_vec =? X86_VEC_UD then invalid_opcode return_on_sigret
    else on_task fatal_exception
  else halt AssertFail.

(** ** Other exits *)

Definition ept_violation : T unit :=
  _ ← vmm_read_vmcs "GUEST_PHYSICAL_ADDRESS";
  qual ← vmm_read_vmcs "RO_EXIT_QUALIFIC";
  if testf qual (Z.shiftl 1 7) then
    gladdr ← vmm_read_vmcs "RO_GUEST_LIN_ADDR";
    let verify := if testf qual (Z.shiftl 1 0) then VERIFY_READ
                  else if testf qual (Z.shiftl 1 1) then VERIFY_WRITE
                  else if testf qual (Z.shiftl 1 2) then VERIFY_EXEC else 0 in
    t ← get;
    if negb (addr_ok (u_mm (t_um t)) gladdr verify) then signal_self LINUX_SIGSEGV else mret tt
  else mret tt.

(** [__get_cpuid] leaves the results uninitialised when the leaf does not exist. *)
Definition cpuid_exit : T unit :=
  rax ← vmm_read_register RAX;
  t ← get;
  r ← lk (hcall "__get_cpuid" [HI (u32 rax)]);
  let out i := if h_ret r =? 0 then le_decode (take 4 (drop (4 * i) (uninit (k_trace (t_kern t))))) else u32 (fld (outbuf (h_out r) 0) i) in
  vmm_write_register RAX (out 0%nat);;
  vmm_write_register RBX (out 1%nat);;
  vmm_write_register RCX (out 2%nat);;
  vmm_write_register RDX (out 3%nat);;
  rip ← vmm_read_register RIP;
  vmm_write_register RIP (rip + 2).

(** *** [check_vm_entry] *)

(** [(int)((integer & (1 << n)) >> n)] *)
Definition get_bit (integer n : Z) : Z := s32 (Z.shiftr (Z.land integer (u64 (s32 (Z.shiftl 1 n)))) n).
Definition bit_set (integer n : Z) : bool := negb (get_bit integer n =? 0).

(** The bytes of [IA32_PAT], from the lowest, as [char]s *)
Fixpoint check_pat (n : nat) (tmp : Z) : T unit :=
  match n with
  | O => mret tt
  | S n =>
    let tmpbyte := swrap 8 (Z.land tmp 0xff) in
    assert_ ((tmpbyte =? 0) || (tmpbyte =? 1) || (tmpbyte =? 4) || (tmpbyte =? 5) || (tmpbyte =? 6) || (tmpbyte =? 7));;
    check_pat n (Z.shiftr tmp 8)
  end.

Definition check_vm_entry : T unit :=
  controls ← vmm_read_vmcs "CTRL_VMENTRY_CONTROLS";
  _ ← vmm_read_vmcs "CTRL_PIN_BASED";
  _ ← vmm_read_vmcs "CTRL_CPU_BASED";
  cpu_based2 ← vmm_read_vmcs "CTRL_CPU_BASED2";
  let unrestricted_guest := bit_set cpu_based2 7 in
  let load_debug_controls := bit_set controls 2 in
  let ia_32e_mode_guest := bit_set controls 9 in
  let ia_32_perf_global_ctrl := bit_set controls 13 in
  let ia_32_pat := bit_set controls 14 in
  let ia_32_efer := bit_set controls 15 in
  cr0 ← vmm_read_vmcs "GUEST_CR0";
  cr4 ← vmm_read_vmcs "GUEST_CR4";
  when_ (negb unrestricted_guest) (assert_ (negb (bit_set cr0 31) || bit_set cr0 0));;
  when_ load_debug_controls
    (tmp ← vmm_read_vmcs "GUEST_IA32_DEBUGCTL";
     vmm_write_vmcs "GUEST_IA32_DEBUGCTL" (Z.land tmp 57283);;
     tmp ← vmm_read_vmcs "GUEST_IA32_DEBUGCTL";
     assert_ (negb (bit_set tmp 2) && negb (bit_set tmp 3) && negb (bit_set tmp 4) && negb (bit_set tmp 5) &&
              negb (bit_set tmp 13) && (tmp <? 65535)));;
  (if ia_32e_mode_guest then assert_ (bit_set cr0 31 && bit_set cr4 5) else assert_ (negb (bit_set cr4 17)));;
  tmp ← vmm_read_vmcs "GUEST_CR3";
  assert_ (tmp =? 0);;
  when_ load_debug_controls (tmp ← vmm_read_vmcs "GUEST_DR7"; assert_ (tmp <? 2 ^ 32));;
  when_ ia_32_perf_global_ctrl (tmp ← vmm_read_vmcs "GUEST_IA32_PERF_GLOBAL_CTRL"; assert_ (tmp =? 0));;
  when_ ia_32_pat (tmp ← vmm_read_vmcs "GUEST_IA32_PAT"; check_pat 8 tmp);;
  when_ ia_32_efer
    (tmp ← vmm_read_vmcs "GUEST_IA32_EFER";
     assert_ (tmp =? 0);;
     assert_ (get_bit tmp 10 =? get_bit controls 9);;
     assert_ (negb (bit_set cr0 31) || (get_bit tmp 10 =? get_bit tmp 8))).

(** [default]: [1<<31] is a negative [int], extended to 64 bits. *)
Definition other_exit (exit_reason : Z) : T unit :=
  let bit31 := u64 (- 2 ^ 31) in
  let exit_reason := if testf exit_reason bit31 then Z.lxor exit_reason bit31 else exit_reason in
  when_ (testf exit_reason (D "VMX_REASON_VMENTRY_GUEST")) check_vm_entry;;
  _ ← vmm_read_vmcs "RO_EXIT_QUALIFIC";
  mret tt.

(** ** The loop *)

(** One round after the guest has left: [true] when [main_loop] returns. *)
Definition vm_exit (return_on_sigret : bool) : M St bool :=
  exit_reason ← on_task (vmm_read_vmcs "RO_EXIT_REASON");
  if exit_reason =? D "VMX_REASON_VMCALL" then halt AssertFail
  else if exit_reason =? D "VMX_REASON_EXC_NMI" then exception_exit return_on_sigret
  else if exit_reason =? D "VMX_REASON_EPT_VIOLATION" then on_task ept_violation;; mret false
  else if exit_reason =? D "VMX_REASON_CPUID" then on_task cpuid_exit;; mret false
  else if (exit_reason =? D "VMX_REASON_IRQ") || (exit_reason =? D "VMX_REASON_HLT") then mret false
  else on_task (other_exit exit_reason);; mret false.

End MainLoop.

Section Loop.
Context `{OS} `{DarwinErrno} `{DarwinConst} `{Guest} {St : Type} `{HasTask St} `{SigTrace St}.
(** The table of system calls; a handler may handle a signal, which nests a loop. *)
Context (table : M St unit -> sc_table St).

(** [handle_signal] ([src/ipc/signal.c]), given [main_loop(1)] *)
Definition handle_signal (nested : M St unit) : M St unit := wake_sighandler;; nested.

Definition task_run (nested : M St unit) : M St Z :=
  s ← get;
  when_ (has_sigpending (task_of s)) (handle_signal nested);;
  on_task vmm_run.

(** [fuel] bounds the number of rounds, nested ones included; when the guest cannot be
    entered the code reaches [__builtin_unreachable]. *)
Fixpoint main_loop (fuel : nat) (return_on_sigret : bool) : M St unit :=
  match fuel with
  | O => halt Diverge
  | S fuel =>
    r ← task_run (main_loop fuel true);
    if negb (r =? 0) then halt Fault
    else
      ret ← vm_exit (table (main_loop fuel true)) return_on_sigret;
      if (ret : bool) then mret tt else main_loop fuel return_on_sigret
  end.

(** [rt_sigsuspend]: the wait ends when a signal has arrived. *)
Definition sys_rt_sigsuspend (nested : M St unit) (nset size : Z) : M St Z :=
  f ← on_task (rt_sigsuspend_begin nset size);
  match f with
  | Ret r => mret r
  | Go old =>
    on_task (modify sleep_);;
    s ← get;
    if negb (has_sigpending (task_of s)) then halt Diverge
    else handle_signal nested;; on_task (rt_sigsuspend_end old)
  end.

End Loop.

(** ** When [main_loop] returns *)

Ltac msimp_in H := cbv [mbind M_bind mret M_ret get put modify halt deref assert_ when_] in H.

Section Returns.
Context `{OS} `{DarwinErrno} `{DarwinConst} `{Guest} {St : Type} `{HasTaskOk St} `{SigTrace St}.
Implicit Types s : St.

(** The system call after which a nested loop goes back to its caller *)
Definition sigreturn_exit (table : sc_table St) (ros : bool) (s' : St) : Prop :=
  ros = true /\
  exists s1, t_regs (task_of s1) RAX = LSYS_rt_sigreturn /\ syscall_exit table true s1 = Done true s'.

Lemma ensures_any {A S'} (c : M S' A) (s : S') : ensures c (fun _ _ => True) s.
Proof. unfold ensures. by destruct (c s). Qed.

(** A computation whose result is not looked at *)
Ltac skip := apply (ensures_mono _ (fun _ _ => True)); [intros|apply ensures_any].

Lemma handle_syscall_neg (table : sc_table St) s :
  ensures (handle_syscall table) (fun r _ => r < 0 -> t_regs (task_of s) RAX = LSYS_rt_sigreturn) s.
Proof.
  unfold handle_syscall. apply ensures_bind. apply (ensures_Done _ (t_regs (task_of s) RAX) _ s); [by apply on_task_same|].
  repeat (apply ensures_bind; skip). apply ensures_ret.
  destruct (Z.eqb_spec (t_regs (task_of s) RAX) LSYS_rt_sigreturn); [done|lia].
Qed.

Lemma syscall_exit_true (table : sc_table St) ros s :
  ensures (syscall_exit table ros) (fun r s' => r = true -> sigreturn_exit table ros s') s.
Proof.
  destruct (syscall_exit table ros s) as [r s'|] eqn:E; unfold ensures; rewrite E; [|done]. intros ->.
  pose proof (handle_syscall_neg table s) as Hn. unfold ensures in Hn.
  assert (exists r, ros && (r <? 0) = true /\ (r < 0 -> t_regs (task_of s) RAX = LSYS_rt_sigreturn)) as (r & Hr & Hs).
  { unfold syscall_exit in E. msimp_in E. destruct (handle_syscall table s) as [r s1|]; [|done]. exists r. split; [|done].
    unfold on_task, vmm_read_register, vmm_write_register in E. msimp_in E. by injection E. }
  apply andb_true_iff in Hr as [-> Hr%Z.ltb_lt]. split; [done|]. exists s. split; [by apply Hs|done].
Qed.

(** The exits that are no system call never end the loop. *)
Lemma fatal_exception_stops s (Q : bool -> St -> Prop) : ensures (on_task fatal_exception) Q s.
Proof.
  assert (ensures (fatal_exception (A := bool)) (fun _ _ => False) (task_of s)) as Hf.
  { unfold fatal_exception. repeat (apply ensures_bind; skip). apply ensures_halt. }
  unfold ensures, on_task in *. by destruct (fatal_exception (task_of s)).
Qed.

Lemma invalid_opcode_true (table : sc_table St) ros s :
  ensures (invalid_opcode table ros) (fun r s' => r = true -> sigreturn_exit table ros s') s.
Proof.
  unfold invalid_opcode. do 3 (apply ensures_bind; skip). destruct a1; [apply syscall_exit_true|].
  do 2 (apply ensures_bind; skip). destruct a2; [by apply ensures_ret|].
  do 2 (apply ensures_bind; skip). apply fatal_exception_stops.
Qed.

Lemma exception_exit_true (table : sc_table St) ros s :
  ensures (exception_exit table ros) (fun r s' => r = true -> sigreturn_exit table ros s') s.
Proof.
  unfold exception_exit. apply ensures_bind. skip. cbv zeta.
  destruct ((_ =? VMCS_EXCTYPE_EXTERNAL_INTERRUPT) || _); [by apply ensures_ret|].
  destruct ((_ =? VMCS_EXCTYPE_HARDWARE_EXCEPTION) || _); [|apply ensures_halt].
  destruct (_ =? X86_VEC_PF); [|destruct (_ =? X86_VEC_UD)].
  - unfold page_fault. do 2 (apply ensures_bind; skip). apply invalid_opcode_true.
  - apply invalid_opcode_true.
  - apply fatal_exception_stops.
Qed.

Lemma vm_exit_true (table : sc_table St) ros s :
  ensures (vm_exit table ros) (fun r s' => r = true -> sigreturn_exit table ros s') s.
Proof.
  unfold vm_exit. apply ensures_bind. skip.
  destruct (_ =? D "VMX_REASON_VMCALL"); [apply ensures_halt|].
  destruct (_ =? D "VMX_REASON_EXC_NMI"); [apply exception_exit_true|].
  destruct (_ =? D "VMX_REASON_EPT_VIOLATION"); [apply ensures_bind; skip; by apply ensures_ret|].
  destruct (_ =? D "VMX_REASON_CPUID"); [apply ensures_bind; skip; by apply ensures_ret|].
  destruct ((_ =? D "VMX_REASON_IRQ") || _); [by apply ensures_ret|]. apply ensures_bind; skip; by apply ensures_ret.
Qed.

Lemma main_loop_sigreturn (table : M St unit -> sc_table St) fuel ros s s' :
  main_loop table fuel ros s = Done tt s' ->
  exists n, (n < fuel)%nat /\ sigreturn_exit (table (main_loop table n true)) ros s'.
Proof.
  revert s. induction fuel as [|fuel IH]; intros s E; [done|]. simpl in E. msimp_in E.
  destruct (task_run _ s) as [r s1|]; [|done].
  destruct (negb (r =? 0)); [done|]. pose proof (vm_exit_true (table (main_loop table fuel true)) ros s1) as Hv. unfold ensures in Hv.
  destruct (vm_exit _ ros s1) as [ret s2|]; [|done]. destruct ret.
  - injection E as <-. exists fuel. split; [lia|]. by apply Hv.
  - destruct (IH _ E) as (n & Hn & Hs). exists n. split; [lia|done].
Qed.

(** C13: [main_loop] returns to its caller only when it was called to return on
    [rt_sigreturn] and the last thing it did was that system call: whatever the guest
    does, the state it returns in is the one [rt_sigreturn], run to its end and with
    [rip] moved past the instruction, left.  The loop of [main] never returns. *)
Theorem main_loop_returns (table : M St unit -> sc_table St) fuel ros s s' :
  main_loop table fuel ros s = Done tt s' ->
  exists n, (n < fuel)%nat /\ sigreturn_exit (table (main_loop table n true)) ros s'.
Proof. apply main_loop_sigreturn. Qed.

(** The guest left at [syscall]: an invalid opcode exception at the bytes [0f 05]. *)
Record syscall_trap (t : tstate) : Prop := {
  trap_um : umem_ok (k_um (t_kern t));
  trap_reason : t_vmcs t "RO_EXIT_REASON" = D "VMX_REASON_EXC_NMI";
  trap_type : Z.shiftr (Z.land (t_vmcs t "RO_VMEXIT_IRQ_INFO") 0x700) 8 = VMCS_EXCTYPE_HARDWARE_EXCEPTION;
  trap_vec : Z.land (t_vmcs t "RO_VMEXIT_IRQ_INFO") 0xff = X86_VEC_UD;
  trap_len : t_vmcs t "RO_VMEXIT_INSTR_LEN" = 2;
  trap_rip : 0 <= t_regs t RIP < 2 ^ 63;
  trap_inst : user_bytes (k_um (t_kern t)) (t_regs t RIP) 2 = [0x0f; 0x05];
}.

Lemma is_syscall_trap t : syscall_trap t -> is_syscall 2 (t_regs t RIP) t = Done true t.
Proof.
  intros [Hu _ _ _ _ Hr Hi]. unfold is_syscall. change (negb (s32 2 =? 2)) with false. cbv beta iota.
  msimp. erewrite lk_Done by (apply k_copy_from_user_ok; [done|lia..]).
  change (Z.to_nat 2) with 2%nat. rewrite Hi. simpl. f_equal. by destruct t.
Qed.

Lemma read_vmcs_field x t : vmcs_reg x = None -> vmm_read_vmcs x t = Done (t_vmcs t x) t.
Proof. unfold vmm_read_vmcs. by intros ->. Qed.

(** Such an exit is handled as a system call. *)
Lemma vm_exit_trap (table : sc_table St) ros s :
  D "VMX_REASON_EXC_NMI" <> D "VMX_REASON_VMCALL" -> syscall_trap (task_of s) -> vm_exit table ros s = syscall_exit table ros s.
Proof.
  intros Hd Ht. pose proof (is_syscall_trap _ Ht) as Es. destruct Ht as [_ Er Ety Evec El _ _].
  unfold vm_exit. erewrite bind_Done by (by apply on_task_same, read_vmcs_field). rewrite Er.
  rewrite (proj2 (Z.eqb_neq _ _)), Z.eqb_refl by done. cbv beta iota.
  unfold exception_exit. erewrite bind_Done by (by apply on_task_same, read_vmcs_field). rewrite Ety, Evec. cbn -[invalid_opcode].
  unfold invalid_opcode. erewrite bind_Done by (by apply on_task_same, read_vmcs_field). rewrite El.
  erewrite bind_Done by (by apply on_task_same). by erewrite bind_Done by (apply on_task_same; exact Es).
Qed.

(** The state in which the guest left for the last time before the loop returned, if it does *)
Fixpoint last_exit (table : M St unit -> sc_table St) (fuel : nat) (ros : bool) (s : St) : option St :=
  match fuel with
  | O => None
  | S fuel =>
    match task_run (main_loop table fuel true) s with
    | Done r s1 =>
      if negb (r =? 0) then None
      else match vm_exit (table (main_loop table fuel true)) ros s1 with
           | Done true _ => Some s1
           | Done false s2 => last_exit table fuel ros s2
           | Stop _ _ => None
           end
    | Stop _ _ => None
    end
  end.

Lemma main_loop_last table fuel ros s s2 : last_exit table fuel ros s = Some s2 ->
  exists n s3, vm_exit (table (main_loop table n true)) ros s2 = Done true s3 /\ main_loop table fuel ros s = Done tt s3.
Proof.
  revert s. induction fuel as [|fuel IH]; intros s E; [done|]. simpl in *. msimp.
  destruct (task_run _ s) as [r s1|]; [|done]. destruct (negb (r =? 0)); [done|].
  destruct (vm_exit _ ros s1) as [[] s4|] eqn:Ev; [|by apply IH|done]. injection E as <-. by exists fuel, s4.
Qed.

Lemma main_loop_syscall (table : M St unit -> sc_table St) fuel ros s t1 h v s2 :
  let s1 : St := set_task t1 s in
  let r := t_regs t1 in
  D "VMX_REASON_EXC_NMI" <> D "VMX_REASON_VMCALL" ->
  has_sigpending (task_of s) = false -> hv_vcpu_run (task_of s) = (0, t1) ->
  syscall_trap t1 -> r RAX < NR_SYSCALLS -> table (main_loop table fuel true) (r RAX) = Some h ->
  h (r RDI) (r RSI) (r RDX) (r R10) (r R8) (r R9) s1 = Done v s2 ->
  let s3 : St := set_task (sysret v (task_of s2)) s2 in
  main_loop table (S fuel) ros s =
  if ros && (r RAX =? LSYS_rt_sigreturn) then Done tt s3 else main_loop table fuel ros s3.
Proof.
  intros s1 r Hd Hs Er Ht Hn Eh Ev s3. simpl. unfold task_run. msimp. rewrite Hs. unfold vmm_run.
  rewrite (on_task_Done _ s 0 t1) by (by rewrite Er). cbn [negb]. change (0 =? 0) with true. cbv beta iota. cbn [negb]. fold s1.
  assert (task_of s1 = t1) as E1 by apply task_of_set.
  rewrite vm_exit_trap by (rewrite ?E1; done). rewrite (syscall_exit_run _ ros s1 h v s2) by (rewrite ?E1; done).
  rewrite E1. fold r. fold s3. by destruct (ros && _).
Qed.

(** C14: a [syscall] instruction of the guest that no signal precedes: the loop calls the
    handler of the number in [rax], and no other, with the arguments in [rdi], [rsi],
    [rdx], [r10], [r8] and [r9], puts its value in [rax], moves [rip] past the
    instruction, as the handler left it, and then goes on in that state; except that a
    nested loop returns after [rt_sigreturn]. *)
Theorem syscall_trap_spec (table : M St unit -> sc_table St) fuel ros s t1 h v s2 :
  let s1 : St := set_task t1 s in
  let r := t_regs t1 in
  D "VMX_REASON_EXC_NMI" <> D "VMX_REASON_VMCALL" ->
  has_sigpending (task_of s) = false -> hv_vcpu_run (task_of s) = (0, t1) ->
  syscall_trap t1 -> r RAX < NR_SYSCALLS -> table (main_loop table fuel true) (r RAX) = Some h ->
  h (r RDI) (r RSI) (r RDX) (r R10) (r R8) (r R9) s1 = Done v s2 ->
  let s3 : St := set_task (sysret v (task_of s2)) s2 in
  main_loop table (S fuel) ros s =
  if ros && (r RAX =? LSYS_rt_sigreturn) then Done tt s3 else main_loop table fuel ros s3.
Proof. intros s1 r Hd Hs Er Ht Hn Eh Ev. exact (main_loop_syscall table fuel ros s t1 h v s2 Hd Hs Er Ht Hn Eh Ev). Qed.

End Returns.

(** ** Runs *)

(** The exit reasons of [Hypervisor/hv_arch_vmx.h] *)
Definition vmx_const : DarwinConst := {|
  D n := match list_find (fun p => p.1 = n) [("VMX_REASON_EXC_NMI", 0); ("VMX_REASON_IRQ", 1); ("VMX_REASON_CPUID", 10);
           ("VMX_REASON_HLT", 12); ("VMX_REASON_VMCALL", 18); ("VMX_REASON_VMENTRY_GUEST", 33);
           ("VMX_REASON_EPT_VIOLATION", 48)]%string with Some (_, p) => p.2 | None => macos_const_of n end;
  major x := Z.land (Z.shiftr x 24) 0xff;
  minor x := Z.land x 0xffffff;
  counter _ := 0 |}.

(** A guest that leaves at once with an exception of the vector [vec], [rax] being [nr] *)
Definition trapping (vec nr : Z) : Guest := {|
  hv_vcpu_run t := (0, tset_vmcs (upd_vmcs "RO_EXIT_REASON" 0 (upd_vmcs "RO_VMEXIT_IRQ_INFO" (0x80000300 + vec)
    (upd_vmcs "RO_VMEXIT_INSTR_LEN" 2 (t_vmcs t)))) (tset_regs (upd_reg RAX nr (t_regs t)) t));
  sleep_ t := t |}.

(** [syscall] at 0x10010 in the memory of [sig_demo] *)
Definition loop_demo : tstate :=
  tset_sigpending 0 (tset_kern (set_um (user_write (t_um sig_demo) 0x10010 [0x0f; 0x05]) (t_kern sig_demo)) sig_demo).

(** The table with one handler *)
Definition demo_table (_ : T unit) : sc_table tstate := sc_handler_table (fun _ _ _ _ _ _ _ => sys_unimplemented).

Section Runs.
#[local] Existing Instances macos_errno vmx_const demo_os.

Lemma loop_demo_trap nr : syscall_trap (hv_vcpu_run (Guest := trapping X86_VEC_UD nr) loop_demo).2.
Proof. split; try (vm_compute; reflexivity || (split; congruence)). apply user_write_ok, u3p_ok. Qed.

Lemma main_loop_returns_witness :
  exists t', main_loop (H2 := trapping X86_VEC_UD 15) demo_table 1 true loop_demo = Done tt t' /\
    exists n, (n < 1)%nat /\ sigreturn_exit (demo_table (main_loop (H2 := trapping X86_VEC_UD 15) demo_table n true)) true t'.
Proof.
  eexists. split; [vm_compute; reflexivity|].
  apply (main_loop_returns (H2 := trapping X86_VEC_UD 15) demo_table 1 true loop_demo). vm_compute. reflexivity.
Defined.

Lemma syscall_trap_spec_witness :
  exists t3, main_loop (H2 := trapping X86_VEC_UD 27) demo_table 1 false loop_demo = main_loop (H2 := trapping X86_VEC_UD 27) demo_table 0 false t3 /\
    t_regs t3 RAX = u64 (- LINUX_ENOSYS) /\ t_regs t3 RIP = 0x10012.
Proof.
  eexists. split.
  - rewrite (syscall_trap_spec (H2 := trapping X86_VEC_UD 27) demo_table 0 false loop_demo
      (hv_vcpu_run (Guest := trapping X86_VEC_UD 27) loop_demo).2 (fun _ _ _ _ _ _ => sys_unimplemented) (- LINUX_ENOSYS)
      (hv_vcpu_run (Guest := trapping X86_VEC_UD 27) loop_demo).2);
      [reflexivity|vm_compute; congruence|reflexivity|reflexivity|apply loop_demo_trap|reflexivity|reflexivity|reflexivity].
  - vm_compute. done.
Defined.

(** A page fault falls through into the case of the invalid opcode: the process is sent
    SIGSEGV and SIGILL and ends with status 1, whatever handler the guest has. *)
Theorem page_fault_exits :
  exists t', main_loop (H2 := trapping X86_VEC_PF 0) demo_table 1 false
      (tset_regs (upd_reg RIP 0x10020 (t_regs loop_demo)) loop_demo) = Stop (Exit 1) t' /\
    (fun e => (ev_call e, ev_args e)) <$> rev (k_trace (t_kern t')) =
    [("getpid", []); ("kill", [HI 0; HI 11]); ("getpid", []); ("kill", [HI 0; HI 4])]%string.
Proof. eexists. split; vm_compute; reflexivity. Qed.

End Runs.

Section OtherExits.
Context `{OS} `{DarwinErrno} `{DarwinConst}.

(** [aborts c t]: [c] fails an assertion from [t].  [checks c]: [c] can only do that or
    return with the registers as they were. *)
Definition aborts {A} (c : T A) (t : tstate) : Prop := exists t', c t = Stop AssertFail t'.
Definition checks {A} (c : T A) : Prop :=
  forall t, aborts c t \/ exists a t', c t = Done a t' /\ t_regs t' = t_regs t.

Lemma checks_bind {A B} (c : T A) (k : A -> T B) : checks c -> (forall a, checks (k a)) -> checks (c ≫= k).
Proof.
  intros Hc Hk t. unfold aborts, mbind, M_bind. destruct (Hc t) as [[t' ->]|(a & t' & -> & Hr)]; [eauto|].
  destruct (Hk a t') as [[t2 ->]|(b & t2 & -> & Hr2)]; [eauto|]. right. exists b, t2. split; congruence.
Qed.

Lemma checks_read x : checks (vmm_read_vmcs x).
Proof. intros t. right. unfold vmm_read_vmcs. destruct (vmcs_reg x); by eexists _, t. Qed.

Lemma checks_assert b : checks (assert_ b).
Proof. intros t. destruct b; [right; by exists tt, t|left; by exists t]. Qed.

Lemma checks_ret {A} (a : A) : checks (mret a).
Proof. intros t. right. by exists a, t. Qed.

Lemma checks_debugctl v : checks (vmm_write_vmcs "GUEST_IA32_DEBUGCTL" v).
Proof. intros t. right. by eexists tt, _. Qed.

Lemma checks_when b (c : T unit) : checks c -> checks (when_ b c).
Proof. destruct b; [done|]. intros _. apply checks_ret. Qed.

Lemma aborts_checks {A B} (c : T A) (k : A -> T B) t : checks c -> t_regs t CR3 <> 0 ->
  (forall a t', t_regs t' CR3 <> 0 -> aborts (k a) t') -> aborts (c ≫= k) t.
Proof.
  intros Hc Ht Hk. unfold aborts, mbind, M_bind. destruct (Hc t) as [[t' ->]|(a & t' & -> & Hr)]; [eauto|].
  apply Hk. by rewrite Hr.
Qed.

Create HintDb checks.
#[local] Hint Resolve checks_bind checks_read checks_assert checks_ret checks_debugctl checks_when : checks.

Lemma aborts_cr3 t : t_regs t CR3 <> 0 -> aborts check_vm_entry t.
Proof.
  revert t. unfold check_vm_entry.
  do 6 (intros t Ht; apply aborts_checks; [apply checks_read|exact Ht|]; clear t Ht; intros ?; cbv zeta).
  do 2 (intros t Ht; apply aborts_checks; [auto 10 with checks|exact Ht|]; clear t Ht; intros ?).
  intros t Ht; apply aborts_checks; [case_match; auto with checks|exact Ht|]; clear t Ht; intros ?.
  intros t Ht. exists t. rewrite (bind_Done _ _ t (t_regs t CR3) t) by done. unfold assert_.
  rewrite (proj2 (Z.eqb_neq (t_regs t CR3) 0)) by done. done.
Qed.

(** [check_vm_entry] asserts that CR3 is 0, while [init_page] has loaded the address of
    the page table; and the [default] case of [main_loop] tests the reason with a mask, so
    that every exit it handles with a bit in common with [VMX_REASON_VMENTRY_GUEST] goes there:
    the process aborts whatever else the guest's state is. *)
Theorem check_vm_entry_stops reason t :
  t_regs t CR3 <> 0 -> 0 <= reason < 2 ^ 31 -> testf reason (D "VMX_REASON_VMENTRY_GUEST") = true ->
  exists t', other_exit reason t = Stop AssertFail t'.
Proof.
  intros Hc Hr Ht. unfold other_exit.
  assert (testf reason (u64 (- 2 ^ 31)) = false) as ->.
  { unfold testf. apply negb_false_iff, Z.eqb_eq. apply Z.bits_inj'. intros i Hi. rewrite Z.land_spec, Z.bits_0.
    apply andb_false_iff. destruct (Z.lt_ge_cases i 31).
    - right. change (u64 (- 2 ^ 31)) with (Z.shiftl (Z.ones 33) 31). rewrite Z.shiftl_spec by lia. apply Z.testbit_neg_r. lia.
    - left. destruct (Z.eq_dec reason 0) as [->|]; [apply Z.bits_0|]. apply Z.bits_above_log2; [lia|].
      apply Z.lt_le_trans with 31; [|lia]. apply Z.log2_lt_pow2; lia. }
  rewrite Ht. unfold when_.
  destruct (aborts_cr3 t Hc) as [t' E]. exists t'. unfold mbind, M_bind. by rewrite E.
Qed.

End OtherExits.

(** ** The table *)

Lemma list_find_seqZ {A} (l : list (Z * A)) a n :
  l.*1 = seqZ a (Z.of_nat (length l)) ->
  (fun p => p.2.2) <$> list_find (fun p => p.1 = n) l =
  if (a <=? n) && (n <? a + Z.of_nat (length l)) then snd <$> l !! Z.to_nat (n - a) else None.
Proof.
  revert a. induction l as [|[m x] l IH]; intros a E.
  - cbn [list_find length fmap option_fmap option_map]. by case_match.
  - cbn [length] in *. rewrite Nat2Z.inj_succ, seqZ_cons in E by lia. injection E as -> E.
    rewrite Z.pred_succ in E. cbn [list_find].
    destruct (decide ((a, x).1 = n)) as [Hn|Hn]; simpl in Hn.
    + subst n. rewrite Z.leb_refl, Z.sub_diag, (proj2 (Z.ltb_lt _ _)) by lia. done.
    + transitivity ((fun p : nat * (Z * A) => p.2.2) <$> list_find (fun p => p.1 = n) l).
      { by destruct (list_find _ l) as [[]|]. }
      rewrite IH with (a := Z.succ a) by done.
      destruct (Z.leb_spec (Z.succ a) n), (Z.leb_spec a n), (Z.ltb_spec n (Z.succ a + Z.of_nat (length l))),
        (Z.ltb_spec n (a + Z.of_nat (S (length l)))); cbn [andb]; try lia; try done.
      replace (Z.to_nat (n - a)) with (S (Z.to_nat (n - Z.succ a))) by lia. done.
Qed.

(** The table of system calls: the entries are the numbers 0 to 328 in order, so each
    number below [NR_SYSCALLS] has exactly one handler, the one its line of
    [include/syscall.h] names, and no other number has one. *)
Theorem sc_handler_table_total {St} handler n :
  sc_handler_table (St := St) handler n =
  if (0 <=? n) && (n <? NR_SYSCALLS) then handler <$> (snd <$> SYSCALLS !! Z.to_nat n) else None.
Proof.
  unfold sc_handler_table, sc_name_table. rewrite (list_find_seqZ SYSCALLS 0) by (vm_compute; reflexivity).
  rewrite Z.sub_0_r. change (0 + Z.of_nat (length SYSCALLS)) with NR_SYSCALLS. by case_match.
Qed.
