(* ===== verification/Dump.v ===== *)
(** * The rest of the hypervisor interface ([lib/vmm.c])

    Model-specific registers, and the two functions that print the state of the virtual
    CPU to the file of [printk].  The state is a task with the debug files beside it. *)

From S2P Require Import Prelude RBTree Const Errno Conv Mm Mmap MmInv MmSys UserMem FdTable Kernel Files Path FileOps.
From S2P Require Import Task Signal Debug Strace Exec Fork PageTable Boot MainLoop.

#[local] Open Scope Z_scope.

Section Msr.
Context `{OS}.

(** [abort()] unless the call succeeded *)
Definition vmm_read_msr (reg : Z) : T Z :=
  r ← lk (hcall "hv_vcpu_read_msr" [HI reg]);
  if negb (h_ret r =? 0) then halt AssertFail else mret (field (outbuf (h_out r) 0) 0 8).
Definition vmm_write_msr (reg val : Z) : T unit :=
  r ← lk (hcall "hv_vcpu_write_msr" [HI reg; HI val]);
  if negb (h_ret r =? 0) then halt AssertFail else mret tt.

End Msr.

Abbreviation TD := (M (tstate * dstate)).

Definition logging {A} (c : M dstate A) : TD A := fun s =>
  match c s.2 with Done a d => Done a (s.1, d) | Stop w d => Stop w (s.1, d) end.

Definition tab : string := String (Ascii.ascii_of_nat 9) EmptyString.

Section Dump.
Context `{OS} `{DarwinErrno} `{DarwinConst} `{Heap} (pid tid : Z).

Definition print_reg (name : string) (r : reg) : TD unit :=
  value ← on_task (vmm_read_register r);
  logging (printk pid tid (tab +:+ name +:+ " = 0x" +:+ fmt_x 0 value +:+ nl)).

Definition print_regs : TD unit :=
  print_reg "rip" RIP;; print_reg "rax" RAX;; print_reg "rbx" RBX;; print_reg "rcx" RCX;;
  print_reg "rdx" RDX;; print_reg "rdi" RDI;; print_reg "rsi" RSI;; print_reg "rbp" RBP.

(** The bytes from [rip] on, [i] of which are in [inst_str]: the address of the first is
    translated each time. *)
Fixpoint dump_loop (n : nat) (i rip : Z) (inst_str : string) : TD (option string) :=
  match n with
  | O => mret (Some inst_str)
  | S n =>
    s ← get;
    match translate (t_um (task_of s)) rip with
    | Some ip => dump_loop n (i + 1) rip (inst_str +:+ fmt_x 2 (hmem (t_um (task_of s)) (host_add ip i)) +:+ " ")
    | None =>
      logging (printk pid tid ("rip is in invalid user address: 0x" +:+ fmt_x 16 rip +:+ nl));;
      on_task (signal_self LINUX_SIGSEGV);;
      mret None
    end
  end.

Definition dump_instr : TD unit :=
  instlen ← on_task (vmm_read_vmcs "RO_VMEXIT_INSTR_LEN");
  rip ← on_task (vmm_read_register RIP);
  (if stack_ok (u64 (instlen * 3 + 1)) then mret tt else halt Overflow);;
  r ← dump_loop (Z.to_nat instlen) 0 rip EmptyString;
  match r with
  | None => mret tt
  | Some inst_str => logging (printk pid tid ("len: " +:+ fmt_d instlen +:+ ", instruction: " +:+ inst_str +:+ nl))
  end.

(** ** What is printed *)

(** The bytes of an instruction in hexadecimal *)
Fixpoint hex_dump (bs : list Z) : string :=
  match bs with [] => EmptyString | b :: bs => fmt_x 2 b +:+ " " +:+ hex_dump bs end.

Lemma dump_loop_ok n : forall i rip str s ip, translate (t_um (task_of s)) rip = Some ip ->
  dump_loop n i rip str s =
  Done (Some (str +:+ hex_dump ((fun j => hmem (t_um (task_of s)) (host_add ip j)) <$> seqZ i (Z.of_nat n)))) s.
Proof.
  induction n as [|n IH]; intros i rip str s ip E.
  - cbn. by rewrite app_string_nil.
  - rewrite Nat2Z.inj_succ, seqZ_cons by lia. cbn [dump_loop]. rewrite (bind_Done get _ s s s) by done. rewrite E.
    rewrite (IH (i + 1) rip _ s ip E). rewrite Z.pred_succ, <- Z.add_1_r. cbn [fmap list_fmap hex_dump]. by rewrite !app_string_assoc.
Qed.

(** When the instruction pointer is mapped, the file of [printk] receives the length the processor
    gave and that many bytes of host memory from there on, and nothing else changes. *)
Theorem dump_instr_spec t d ip :
  let n := t_vmcs t "RO_VMEXIT_INSTR_LEN" in
  translate (t_um t) (t_regs t RIP) = Some ip -> 0 <= n -> stack_ok (u64 (n * 3 + 1)) = true ->
  dump_instr (t, d) = Done tt (t, set_printk_sink (print_to_sink pid tid (printk_sink d)
    ("len: " +:+ fmt_d n +:+ ", instruction: " +:+ hex_dump (host_read (hmem (t_um t)) ip n) +:+ nl)) d).
Proof.
  intros n E Hn Hs. unfold dump_instr.
  rewrite (bind_Done _ _ (t, d) n (t, d)) by (by apply on_task_same, read_vmcs_field).
  rewrite (bind_Done _ _ (t, d) (t_regs t RIP) (t, d)) by (by apply on_task_same). rewrite Hs.
  rewrite (bind_Done _ _ (t, d) tt (t, d)) by done.
  erewrite bind_Done by (apply (dump_loop_ok _ _ _ _ (t, d) ip); exact E). rewrite Z2Nat.id by done. done.
Qed.

End Dump.

(** ** Runs *)

Section Runs.
#[local] Existing Instances macos_errno vmx_const demo_os roomy_heap.

Lemma dump_instr_spec_witness :
  let t := (hv_vcpu_run (Guest := trapping X86_VEC_UD 0) loop_demo).2 in
  exists d', dump_instr 7 1 (t, mk_dstate (Some EmptyString) None EmptyString (0, 0)) = Done tt (t, d') /\
    printk_sink d' = Some ("[7:1] len: 2, instruction: 0f 05 " +:+ nl).
Proof.
  intros t. destruct (translate (t_um t) (t_regs t RIP)) as [ip|] eqn:E; [|vm_compute in E; discriminate].
  eexists. split.
  - apply (dump_instr_spec 7 1 t (mk_dstate (Some EmptyString) None EmptyString (0, 0)) ip E); [vm_compute; congruence|reflexivity].
  - vm_compute in E. injection E as <-. vm_compute. reflexivity.
Defined.

End Runs.
