(* ===== verification/Net.v ===== *)
(** * Sockets ([src/net/net.c], [include/linux/socket.h])

    The handlers copy addresses, buffers and message headers between guest memory and
    Darwin's calls, convert address families and flags, and enter the new descriptors
    into the guest's table.  The lock of the table is in [Locks.v]. *)

From S2P Require Import Prelude RBTree Const Errno Conv Mm UserMem FdTable Kernel Files FileOps FdSys.

(** ** [include/linux/socket.h] *)

Definition LINUX_AF : list decl := [
  DECL_LINUX "AF_UNSPEC" 0 SAME;
  DECL_LINUX "AF_UNIX" 1 SAME;
  DECL_ALIAS "AF_FILE" "AF_UNIX";
  DECL_ALIAS "AF_LOCAL" "AF_UNIX";
  DECL_LINUX "AF_INET" 2 SAME;
  DECL_LINUX "AF_AX25" 3 LINUX_SPECIFIC;
  DECL_LINUX "AF_IPX" 4 SAME;
  DECL_LINUX "AF_APPLETALK" 5 SAME;
  DECL_LINUX "AF_INET6" 10 SAME]%string.

Definition LINUX_SOL_SOCKET : Z := 1.
Definition LINUX_SOCK_NONBLOCK : Z := 0x800.
Definition LINUX_SOCK_CLOEXEC : Z := 0x80000.
Definition LINUX_MSG_NOSIGNAL : Z := 0x4000.
Definition LINUX_EOPNOTSUPP : Z := 95.
Definition LINUX_ENOBUFS : Z := 105.
Definition INT_MAX : Z := 2 ^ 31 - 1.

(** The options of [to_host_sockopt_name] *)
Definition LINUX_SO : list (Z * string) :=
  [(1, "SO_DEBUG"); (2, "SO_REUSEADDR"); (3, "SO_TYPE"); (4, "SO_ERROR"); (5, "SO_DONTROUTE"); (6, "SO_BROADCAST");
   (7, "SO_SNDBUF"); (8, "SO_RCVBUF"); (9, "SO_KEEPALIVE"); (10, "SO_OOBINLINE"); (13, "SO_LINGER");
   (18, "SO_RCVLOWAT"); (19, "SO_SNDLOWAT"); (20, "SO_RCVTIMEO"); (21, "SO_SNDTIMEO"); (29, "SO_TIMESTAMP");
   (30, "SO_ACCEPTCONN")]%string.

(** The flags [linux_to_darwin_msg_flags] converts, in its order *)
Definition LINUX_MSG : list (Z * string) :=
  [(0x01, "MSG_OOB"); (0x02, "MSG_PEEK"); (0x04, "MSG_DONTROUTE"); (0x80, "MSG_EOR"); (0x20, "MSG_TRUNC");
   (0x08, "MSG_CTRUNC"); (0x100, "MSG_WAITALL"); (0x40, "MSG_DONTWAIT")]%string.

(** Sizes of Darwin's [struct sockaddr_un], [sockaddr_in] and [sockaddr_in6] *)
Definition sizeof_sockaddr_un : Z := 106.
Definition sizeof_sockaddr_in : Z := 16.
Definition sizeof_sockaddr_in6 : Z := 28.
Definition sizeof_l_sockaddr : Z := 16.
Definition sizeof_l_cmsghdr : Z := 16.

(** [struct l_msghdr] and [struct l_mmsghdr] *)
Record l_msghdr := mk_l_msghdr {
  msg_name : Z; msg_namelen : Z; msg_iov : Z; msg_iovlen : Z; msg_control : Z; msg_controllen : Z; msg_flags : Z;
}.
Definition sizeof_l_msghdr : Z := 56.
Definition sizeof_l_mmsghdr : Z := 64.
Definition offsetof_msg_namelen : Z := 8.
Definition offsetof_msg_controllen : Z := 40.
Definition offsetof_msg_len : Z := 56.
Definition dec_msghdr (bs : list Z) : l_msghdr :=
  mk_l_msghdr (field bs 0 8) (s32 (field bs 8 4)) (field bs 16 8) (field bs 24 8) (field bs 32 8) (field bs 40 8) (field bs 48 4).

(** [LINUX_CMSG_FIRSTHDR] *)
Definition LINUX_CMSG_FIRSTHDR (msg : l_msghdr) : Z :=
  if msg_controllen msg >=? sizeof_l_cmsghdr then msg_control msg else 0.

Section Net.
Context `{OS} `{DarwinErrno} `{DarwinConst} `{Heap}.

Definition linux_to_darwin_sa_family (val : Z) : Z :=
  switch (linux_to_darwin_cases D (counter "linux_to_darwin_sa_family") LINUX_AF) val.
Definition darwin_to_linux_sa_family (val : Z) : Z :=
  switch (darwin_to_linux_cases D LINUX_AF (counter "darwin_to_linux_sa_family") LINUX_AF) val.

(** ** Addresses *)

(** The addresses are buffers.  An access beyond the end of one stops the model. *)
Definition linux_to_darwin_sockaddr (l_sockaddr : list Z) : K (flow (list Z)) :=
  let len := Z.of_nat (length l_sockaddr) in
  if (len <? 2) then halt Overflow
  else if negb (heap_ok len) then halt Fault
  else
    let family := linux_to_darwin_sa_family (field l_sockaddr 0 2) in
    let sockaddr sa_len := wrap 8 sa_len :: wrap 8 family :: drop 2 l_sockaddr in
    if family =? D "AF_UNIX" then
      if len =? 2 then halt Overflow
      else
        let sun_path := drop 2 l_sockaddr in
        let slen := Z.of_nat (length (until_nul (if fld sun_path 0 =? 0 then drop 1 sun_path else sun_path))) in
        mret (if sizeof_sockaddr_un <? 2 + slen then Ret (-1) else Go (sockaddr sizeof_sockaddr_un))
    else if family =? D "AF_INET" then mret (Go (sockaddr sizeof_sockaddr_in))
    else if family =? D "AF_INET6" then assert_ (negb (len =? sizeof_sockaddr_in6 - 4));; mret (Go (sockaddr len))
    else if family =? -1 then mret (Ret (-1))
    else mret (Go (sockaddr len)).

(** [darwin_to_linux_sockaddr] into a buffer of [sockaddr->sa_len] bytes *)
Definition sa_len (sockaddr : list Z) : Z := fld sockaddr 0.
Definition darwin_to_linux_sockaddr (sockaddr : list Z) : K (list Z) :=
  if sa_len sockaddr <? 2 then halt Overflow
  else mret (le_encode 2 (darwin_to_linux_sa_family (fld sockaddr 1)) ++ drop 2 (take (Z.to_nat (sa_len sockaddr)) sockaddr)).

(** A buffer [malloc(n)] filled by [copy_from_user]: the allocation is not checked. *)
Definition malloc_copy_in (ptr n : Z) (rest : list Z -> K Z) : K Z :=
  '(e, bs) ← k_copy_from_user ptr n;
  if negb (heap_ok n) && negb (bool_decide (bs = [])) then halt Fault
  else if negb (e =? 0) then mret (- LINUX_EFAULT)
  else rest bs.

(** The bytes Darwin reads at an address of [n] bytes in a buffer that may be shorter *)
Definition reads (n : Z) (buf : list Z) : K harg :=
  k ← get; mret (HB (take (Z.to_nat n) (buf ++ uninit (k_trace k)))).

Definition sys_connect (sockfd addr_ptr addrlen : Z) : K Z :=
  malloc_copy_in addr_ptr addrlen (fun addr =>
    s ← linux_to_darwin_sockaddr addr;
    match s with
    | Ret _ => mret (- LINUX_EINVAL)
    | Go sockaddr =>
      b ← reads (sa_len sockaddr) sockaddr;
      sysw "connect" [HI sockfd; b; HI (sa_len sockaddr)]
    end).

Definition sys_bind (sockfd addr_ptr addrlen : Z) : K Z :=
  malloc_copy_in addr_ptr (u64 addrlen) (fun addr =>
    s ← linux_to_darwin_sockaddr addr;
    match s with
    | Ret _ => mret (- LINUX_EINVAL)
    | Go sockaddr => sysw "bind" [HI sockfd; HB sockaddr; HI (u32 addrlen)]
    end).

(** The buffer for an address, of the length the guest stored; [None] when it wants none *)
Definition addr_buf (addr_ptr addrlen_ptr : Z) (rest : option Z -> K Z) : K Z :=
  if addr_ptr =? 0 then rest None
  else copy_in addrlen_ptr 4 (fun bs => let addrbuflen := le_decode bs in alloca addrbuflen;; rest (Some addrbuflen)).
Definition harg_len (l : option Z) : harg := match l with None => HI 0 | Some n => HB [n] end.

(** [sock] and [socklen] are what the call filled in. *)
Definition addr_out (addr_ptr addrlen_ptr : Z) (sock : list Z) (socklen : Z) (ret : Z) : K Z :=
  if addr_ptr =? 0 then mret ret
  else
    k ← get;
    addr ← darwin_to_linux_sockaddr (sock ++ uninit (k_trace k));
    e ← k_copy_to_user addr_ptr addr;
    if negb (e =? 0) then mret (- LINUX_EFAULT)
    else copy_out addrlen_ptr (le_encode 4 socklen) ret.

Definition sys_getname (call : string) (sockfd addr_ptr addrlen_ptr : Z) : K Z :=
  addr_buf addr_ptr addrlen_ptr (fun l =>
    '(ret, o) ← sysw_out call [HI sockfd; harg_len l];
    if ret <? 0 then mret ret else addr_out addr_ptr addrlen_ptr (outbuf o 0) (fld (outbuf o 1) 0) ret).
Definition sys_getsockname (sockfd addr_ptr addrlen_ptr : Z) : K Z := sys_getname "getsockname" sockfd addr_ptr addrlen_ptr.
Definition sys_getpeername (sockfd addr_ptr addrlen_ptr : Z) : K Z := sys_getname "getpeername" sockfd addr_ptr addrlen_ptr.

(** ** Descriptors *)

Definition sys_socket (family type protocol : Z) : K Z :=
  fd ← sysw "socket" [HI (linux_to_darwin_sa_family family);
                      HI (clearf type (Z.lor LINUX_SOCK_NONBLOCK LINUX_SOCK_CLOEXEC)); HI protocol];
  if fd <? 0 then mret fd
  else
    e ← (if testf type LINUX_SOCK_NONBLOCK then sysw "fcntl" [HI fd; HI (D "F_SETFL"); HI (D "O_NONBLOCK")] else mret 0);
    if e <? 0 then mret e
    else
      e ← (if testf type LINUX_SOCK_CLOEXEC then sysw "fcntl" [HI fd; HI (D "F_SETFD"); HI (D "FD_CLOEXEC")] else mret 0);
      if e <? 0 then mret e
      else
        e ← register_fd fd (testf type LINUX_SOCK_CLOEXEC);
        if e <? 0 then _ ← hcall "close" [HI fd]; mret e else mret fd.

Definition sys_accept (sockfd addr_ptr addrlen_ptr : Z) : K Z :=
  addr_buf addr_ptr addrlen_ptr (fun l =>
    '(ret, o) ← sysw_out "accept" [HI sockfd; harg_len l];
    if ret <? 0 then mret ret
    else
      e ← register_fd ret false;
      if e <? 0 then _ ← hcall "close" [HI ret]; mret e
      else addr_out addr_ptr addrlen_ptr (outbuf o 0) (fld (outbuf o 1) 0) ret).

Definition sys_socketpair (family type protocol usockvec_ptr : Z) : K Z :=
  '(ret, o) ← sysw_out "socketpair" [HI (linux_to_darwin_sa_family family); HI type; HI protocol];
  if ret <? 0 then mret ret
  else
    let fd0 := fld (outbuf o 0) 0 in
    let fd1 := fld (outbuf o 0) 1 in
    e ← register_fd fd0 (testf type LINUX_SOCK_CLOEXEC);
    if e <? 0 then _ ← hcall "close" [HI fd0]; _ ← hcall "close" [HI fd1]; mret e
    else
      e ← register_fd fd1 (testf type LINUX_SOCK_CLOEXEC);
      if e <? 0 then _ ← user_close fd0; _ ← hcall "close" [HI fd1]; mret e
      else
        e ← k_copy_to_user usockvec_ptr (enc_fildes fd0 fd1);
        if negb (e =? 0) then _ ← user_close fd0; _ ← user_close fd1; mret (- LINUX_EFAULT)
        else mret ret.

Definition sys_listen (socket backlog : Z) : K Z := sysw "listen" [HI socket; HI backlog].
Definition sys_shutdown (socket how : Z) : K Z := sysw "shutdown" [HI socket; HI how].

(** ** Options *)

Definition linux_to_darwin_sockopt_level (level : Z) : Z :=
  if level =? LINUX_SOL_SOCKET then D "SOL_SOCKET" else level.
Definition to_host_sockopt_name (name : Z) : Z :=
  match list_find (fun p => p.1 = name) LINUX_SO with Some (_, p) => D p.2 | None => -1 end.

Definition sys_setsockopt (fd level optname optval_ptr opt_len : Z) : K Z :=
  malloc_copy_in optval_ptr opt_len (fun optval =>
    sysw "setsockopt" [HI fd; HI (linux_to_darwin_sockopt_level level); HI (to_host_sockopt_name optname); HB optval; HI opt_len]).

(** The host answers the value and its length. *)
Definition sys_getsockopt (fd level optname optval_ptr optlen_ptr : Z) : K Z :=
  copy_in optlen_ptr 4 (fun bs =>
    let l_optlen := le_decode bs in
    '(r, o) ← sysw_out "getsockopt" [HI fd; HI (linux_to_darwin_sockopt_level level); HI (to_host_sockopt_name optname);
                                     HI (Z.b2z (heap_ok l_optlen)); HI l_optlen];
    if r >=? 0 then
      let optlen := u32 (fld (outbuf o 1) 0) in
      if negb (heap_ok l_optlen) && (0 <? optlen) then halt Fault
      else
        k ← get;
        e ← k_copy_to_user optval_ptr (bufbytes k o 0 optlen);
        if negb (e =? 0) then mret (- LINUX_EFAULT)
        else copy_out optlen_ptr (le_encode 4 optlen) r
    else mret r).

(** ** Messages *)

Definition linux_to_darwin_msg_flags (flags : Z) : Z :=
  let '(ret, flags) :=
    foldl (fun st p => let '(ret, flags) := st in
      if testf flags p.1 then (Z.lor ret (D p.2), clearf flags p.1) else (ret, flags)) (0, flags) LINUX_MSG in
  if negb (flags =? 0) then - LINUX_EOPNOTSUPP else ret.

(** [addrlen] bytes go into a [struct l_sockaddr] on the stack; a failure to copy the
    buffer is not noticed. *)
Definition sys_sendto (socket buf_ptr length_ flags addr_ptr addrlen : Z) : K Z :=
  let send (sockaddr : harg) : K Z :=
    let n := u64 length_ in
    if negb (heap_ok n) then mret (- LINUX_ENOMEM)
    else
      k ← get;
      '(_, bs) ← k_copy_from_user buf_ptr n;
      sysw "sendto" [HI socket; HB (resize (Z.to_nat n) 0 (bs ++ uninit (k_trace k))); HI flags; sockaddr; HI addrlen] in
  if addr_ptr =? 0 then send (HI 0)
  else
    '(e, bs) ← k_copy_from_user addr_ptr addrlen;
    if sizeof_l_sockaddr <? Z.of_nat (length bs) then halt Overflow
    else if negb (e =? 0) then mret (- LINUX_EFAULT)
    else
      s ← linux_to_darwin_sockaddr bs;
      match s with
      | Ret _ => mret (- LINUX_EINVAL)
      | Go sockaddr => send (HB sockaddr)
      end.

Definition sys_recvfrom (socket buf_ptr length_ flags addr_ptr addrlen_ptr : Z) : K Z :=
  addr_buf addr_ptr addrlen_ptr (fun l =>
    alloca (u64 length_);;
    '(ret, o) ← sysw_out "recvfrom" [HI socket; HI (u64 length_); HI flags; harg_len l];
    if ret <? 0 then mret ret
    else
      k ← get;
      e ← k_copy_to_user buf_ptr (bufbytes k o 0 ret);
      if negb (e =? 0) then mret (- LINUX_EFAULT)
      else addr_out addr_ptr addrlen_ptr (outbuf o 1) (fld (outbuf o 2) 0) ret).

(** The name of a message: [strncpy_from_user] into an uninitialised buffer *)
Definition send_name (msg : l_msghdr) (namelen : Z) : K (flow harg) :=
  if 0 <? namelen then
    alloca namelen;;
    k ← get;
    '(r, bs) ← total (strncpy_from_user (k_um k) (msg_name msg) namelen);
    mret (if r <? 0 then Ret (- LINUX_EFAULT) else Go (HB (resize (Z.to_nat namelen) 0 (bs ++ uninit (k_trace k)))))
  else mret (Go (HI 0)).

Definition do_sendmsg (sockfd : Z) (msg : l_msghdr) (flags : Z) : K Z :=
  if msg_controllen msg >? INT_MAX then mret (- LINUX_ENOBUFS)
  else
    let namelen := u32 (msg_namelen msg) in
    n ← send_name msg namelen;
    match n with
    | Ret r => mret r
    | Go name =>
      let iovlen := s32 (msg_iovlen msg) in
      alloca (u64 (16 * iovlen));;
      alloca (u64 (16 * iovlen));;
      copy_in (msg_iov msg) (u64 (16 * iovlen)) (fun bs =>
        iov ← gather (dec_iovecs bs iovlen);
        match iov with
        | Ret r => mret r
        | Go iov =>
          if negb (LINUX_CMSG_FIRSTHDR msg =? 0) then mret (- LINUX_EINVAL)
          else
            let dflags := linux_to_darwin_msg_flags (clearf flags LINUX_MSG_NOSIGNAL) in
            if dflags <? 0 then
              (* [hdr.msg_flags], which was never written *)
              k ← get; mret (s32 (le_decode (take 4 (uninit (k_trace k)))))
            else
              when_ (testf flags LINUX_MSG_NOSIGNAL)
                (r ← sysw "setsockopt" [HI sockfd; HI (D "SOL_SOCKET"); HI (D "SO_NOSIGPIPE"); HB (le_encode 4 1); HI 4];
                 if r <? 0 then halt Panic else mret tt);;
              sysw "sendmsg" (HI sockfd :: name :: HI namelen :: HI dflags :: (HB <$> iov))
        end)
    end.

Definition sys_sendmsg (sockfd msg_ptr flags : Z) : K Z :=
  copy_in msg_ptr sizeof_l_msghdr (fun bs => do_sendmsg sockfd (dec_msghdr bs) flags).

(** The messages from the [i]-th on, [n] of them *)
Fixpoint sendmmsg_loop (n : nat) (sockfd msgvec_ptr : Z) (msgs : list Z) (i flags : Z) : K Z :=
  match n with
  | O => mret i
  | S n =>
    err ← do_sendmsg sockfd (dec_msghdr (drop (Z.to_nat (sizeof_l_mmsghdr * i)) msgs)) flags;
    if err <? 0 then mret err
    else
      e ← k_copy_to_user (u64 (msgvec_ptr + sizeof_l_mmsghdr * i + offsetof_msg_len)) (le_encode 4 err);
      if negb (e =? 0) then mret (- LINUX_EFAULT) else sendmmsg_loop n sockfd msgvec_ptr msgs (i + 1) flags
  end.
Definition sys_sendmmsg (sockfd msgvec_ptr vlen flags : Z) : K Z :=
  malloc_copy_in msgvec_ptr (vlen * sizeof_l_mmsghdr) (fun msgs =>
    r ← sendmmsg_loop (Z.to_nat vlen) sockfd msgvec_ptr msgs 0 (s32 flags); mret (s32 r)).

(** The loop of [recvmsg] that writes the buffers, each in full *)
Fixpoint recv_scatter (o : list (list Z)) (i : nat) (liov : list (Z * Z)) (rest : K Z) : K Z :=
  match liov with
  | [] => rest
  | (base, len) :: liov =>
    k ← get;
    e ← k_copy_to_user base (bufbytes k o i len);
    if negb (e =? 0) then mret (- LINUX_EFAULT) else recv_scatter o (S i) liov rest
  end.

(** An allocation that is not checked and then dereferenced *)
Definition malloc_ (n : Z) : K unit := if heap_ok n then mret tt else halt Fault.

(** The host answers the name, the control data, their lengths, and the buffers. *)
Definition sys_recvmsg (sockfd msg_ptr flags : Z) : K Z :=
  copy_in msg_ptr sizeof_l_msghdr (fun bs =>
    let lmsg := dec_msghdr bs in
    let n := msg_iovlen lmsg in
    malloc_ (if msg_name lmsg =? 0 then 0 else u64 (msg_namelen lmsg));;
    malloc_copy_in (msg_iov lmsg) (u64 (n * sizeof_l_iovec)) (fun bs =>
      if 2 ^ 64 <=? n * sizeof_l_iovec then halt Overflow else
      let liov := dec_iovecs bs n in
      malloc_ (n * sizeof_l_iovec);;
      malloc_ (u64 (foldr Z.add 0 liov.*2));;
      malloc_ (msg_controllen lmsg);;
      '(r, o) ← sysw_out "recvmsg" (HI sockfd :: HI (Z.b2z (negb (msg_name lmsg =? 0))) :: HI (u32 (msg_namelen lmsg)) ::
        HI (u32 (msg_controllen lmsg)) :: HI (linux_to_darwin_msg_flags (s32 (msg_flags lmsg))) :: HI flags :: (HI <$> liov.*2));
      if r <? 0 then mret r
      else
        let namelen := u32 (fld (outbuf o 2) 0) in
        let controllen := u32 (fld (outbuf o 2) 1) in
        k ← get;
        opt_out (msg_name lmsg) (bufbytes k o 0 namelen) (
        e ← k_copy_to_user (u64 (msg_ptr + offsetof_msg_namelen)) (le_encode 4 namelen);
        if negb (e =? 0) then mret (- LINUX_EFAULT)
        else recv_scatter o 3 liov (
          k ← get;
          e ← k_copy_to_user (msg_control lmsg) (bufbytes k o 1 (msg_controllen lmsg));
          if negb (e =? 0) then mret (- LINUX_EFAULT)
          else copy_out (u64 (msg_ptr + offsetof_msg_controllen)) (le_encode 4 controllen) r)))).

End Net.

(** ** Addresses convert back *)

(** What the conversions rely on of Darwin's [sys/socket.h]: families are bytes, distinct *)
Definition same_families : list (string * Z) :=
  omap (fun d => match d with DECL_LINUX n v SAME => Some (n, v) | _ => None end) LINUX_AF.

Class DarwinAfOk `{DarwinConst} : Prop := {
  af_labels : NoDup (darwin_to_linux_cases D LINUX_AF (counter "darwin_to_linux_sa_family") LINUX_AF).*1;
  af_range : Forall (fun p => 0 <= D p.1 < 256) same_families;
  af_distinct : NoDup ((fun p => D p.1) <$> same_families);
}.

Section SockaddrFacts.
Context `{OS} `{DarwinErrno} `{DarwinConst} `{!DarwinAfOk} `{Heap}.

Lemma family_values n v : (n, v) ∈ same_families ->
  linux_to_darwin_sa_family v = D n /\ darwin_to_linux_sa_family (D n) = v /\ 0 <= D n < 256.
Proof.
  intros Hin. pose proof af_range as Hr. rewrite Forall_forall in Hr. specialize (Hr _ Hin).
  assert (DECL_LINUX n v SAME ∈ LINUX_AF) as Ht.
  { apply list_elem_of_omap in Hin as (d & Hd & E). by destruct d as [? ? []| |]; simplify_eq. }
  unfold linux_to_darwin_sa_family, darwin_to_linux_sa_family.
  destruct (const_roundtrip D LINUX_AF (counter "linux_to_darwin_sa_family") (counter "darwin_to_linux_sa_family") n v)
    as [E1 E2]; [|exact af_labels|done|done].
  apply (bool_decide_unpack _). vm_compute. exact I.
Qed.

Lemma family_eqb n v m w : (n, v) ∈ same_families -> (m, w) ∈ same_families -> (D n =? D m) = bool_decide (n = m).
Proof.
  intros Hn Hm. case_bool_decide as E; [subst; apply Z.eqb_refl|]. apply Z.eqb_neq. intros Ed. apply E.
  apply list_elem_of_lookup in Hn as [i Hi]. apply list_elem_of_lookup in Hm as [j Hj].
  assert (i = j) as ->; [|rewrite Hi in Hj; by simplify_eq].
  eapply NoDup_lookup; [exact af_distinct| |]; rewrite list_lookup_fmap, ?Hi, ?Hj; simpl; [done|by rewrite Ed].
Qed.

(** The two bytes of the family *)
Lemma le_encode_field2 a b ls : 0 <= a < 256 -> 0 <= b < 256 -> le_encode 2 (field (a :: b :: ls) 0 2) = [a; b].
Proof.
  intros Ha Hb. unfold field. simpl.
  replace (a + 256 * (b + 256 * 0)) with (a + b * 256) by lia. rewrite Z_mod_plus_full, Z_div_plus_full by lia.
  rewrite (Z.mod_small a), (Z.div_small a), Z.add_0_l, (Z.mod_small b) by lia. done.
Qed.

Lemma until_nul_length l : (length (until_nul l) <= length l)%nat.
Proof. induction l as [|b l IH]; simpl; [lia|]. destruct (b =? 0); simpl; lia. Qed.

(** The size [linux_to_darwin_sockaddr] gives the address of a family, of [len] bytes *)
Definition family_len (n : string) (len : Z) : Z :=
  if decide (n = "AF_UNIX"%string) then sizeof_sockaddr_un
  else if decide (n = "AF_INET"%string) then sizeof_sockaddr_in else len.

(** C38: an address of a family both systems have survives the conversion to Darwin and
    back, byte for byte: a complete structure of its family (106 bytes for a path, 16 for
    an Internet address; IPv6 not in the obsolete form without the scope) is accepted,
    Darwin sees its own number of the family and the length, and [darwin_to_linux_sockaddr]
    gives the guest's bytes back. *)
Theorem sockaddr_roundtrip n v ls k :
  (n, v) ∈ same_families -> Forall (fun b => 0 <= b < 256) ls -> field ls 0 2 = v ->
  2 < Z.of_nat (length ls) < 256 -> heap_ok (Z.of_nat (length ls)) = true ->
  Z.of_nat (length ls) = family_len n (Z.of_nat (length ls)) ->
  (n = "AF_INET6"%string -> Z.of_nat (length ls) <> sizeof_sockaddr_in6 - 4) ->
  exists ds, linux_to_darwin_sockaddr ls k = Done (Go ds) k /\
    sa_len ds = Z.of_nat (length ls) /\ fld ds 1 = D n /\ drop 2 ds = drop 2 ls /\
    darwin_to_linux_sockaddr ds k = Done ls k.
Proof.
  intros Hin Hb Hv Hlen Hh Hfl H6. destruct (family_values n v Hin) as (E1 & E2 & Hr).
  destruct ls as [|a [|b ls]]; [simpl in Hlen; lia..|].
  set (len := Z.of_nat (length (a :: b :: ls))) in *.
  exists (len :: D n :: ls). split.
  - unfold linux_to_darwin_sockaddr. fold len. cbv zeta. rewrite Hv, E1, Hh.
    rewrite (family_eqb n v "AF_UNIX" 1), (family_eqb n v "AF_INET" 2), (family_eqb n v "AF_INET6" 10)
      by (done || (apply (bool_decide_unpack _); vm_compute; exact I)).
    rewrite (proj2 (Z.eqb_neq (D n) (-1))) by lia. rewrite (wrap_small 8 (D n)), (wrap_small 8 len) by (simpl; lia).
    rewrite (proj2 (Z.ltb_ge len 2)), (proj2 (Z.eqb_neq len 2)) by lia. change (drop 2 (a :: b :: ls)) with ls. cbn [negb].
    unfold family_len in Hfl. repeat case_bool_decide; subst; repeat case_decide; try done.
    + rewrite (proj2 (Z.ltb_ge sizeof_sockaddr_un _)); [by rewrite Hfl|].
      pose proof (until_nul_length (if fld ls 0 =? 0 then drop 1 ls else ls)). unfold sizeof_sockaddr_un in *.
      assert (length (if (fld ls 0 =? 0)%Z then drop 1 ls else ls) <= length ls)%nat by (case_match; rewrite ?length_drop; lia).
      unfold len in Hfl. simpl length in Hfl. lia.
    + by rewrite Hfl.
    + unfold assert_. rewrite (proj2 (Z.eqb_neq _ _)); [done|by apply H6].
  - split; [done|]. split; [done|]. split; [done|]. unfold darwin_to_linux_sockaddr.
    change (sa_len (len :: D n :: ls)) with len. change (fld (len :: D n :: ls) 1) with (D n).
    rewrite (proj2 (Z.ltb_ge len 2)) by lia. rewrite E2, <- Hv. apply Forall_cons in Hb as [Ha Hb]. apply Forall_cons in Hb as [Hb _].
    rewrite le_encode_field2 by done. rewrite take_ge by (unfold len; simpl; lia). done.
Qed.

End SockaddrFacts.

(** ** Descriptors *)

Section DescriptorFacts.
Context `{OS} `{DarwinErrno} `{DarwinConst} `{Heap}.
Hypothesis Hheap : forall n, heap_ok n = true.

Lemma register_fd_refused k fd cx : start (vkern_fdt (k_fi k)) <= fd -> register_fd fd cx k = Done (- LINUX_EMFILE) k.
Proof. intros Hs. unfold register_fd. msimp. rewrite Z.geb_leb. by rewrite (proj2 (Z.leb_le _ _)). Qed.

(** One registered descriptor closed again *)
Lemma user_close_open k fd c : files_ok (k_fi k) -> fds (fdt (k_fi k)) fd = Some c ->
  exists n r k', user_close fd k = Done n k' /\ files_ok (k_fi k') /\ vkern_fdt (k_fi k') = vkern_fdt (k_fi k) /\
    k_trace k' = mk_event "close" [HI fd] r :: k_trace k /\
    (forall fd', fds (fdt (k_fi k')) fd' = if fd' =? fd then None else fds (fdt (k_fi k)) fd').
Proof.
  intros Hf E. pose proof (do_close_user k fd Hf) as Hd. rewrite E in Hd. destruct Hd as (t & Ec & Hok & _ & Hfds).
  eexists _, _, _. split; [exact Ec|]. by split_and!.
Qed.

End DescriptorFacts.

(** ** Messages *)

Section MessageFacts.
Context `{OS} `{DarwinErrno} `{DarwinConst} `{Heap}.

Lemma clearf_id f m : testf f m = false -> clearf f m = f.
Proof.
  unfold testf, clearf. intros Hf. apply negb_false_iff, Z.eqb_eq in Hf. apply Z.bits_inj'. intros i Hi.
  assert (Z.testbit (Z.land f m) i = false) as Hb by (rewrite Hf; apply Z.bits_0). rewrite Z.land_spec in Hb.
  rewrite Z.ldiff_spec. by destruct (Z.testbit f i), (Z.testbit m i).
Qed.

Lemma testf_clearf f m p : Z.land m p = 0 -> testf (clearf f m) p = testf f p.
Proof.
  intros Hd. unfold testf, clearf. f_equal. f_equal. apply Z.bits_inj'. intros i Hi.
  assert (Z.testbit (Z.land m p) i = false) as Hb by (rewrite Hd; apply Z.bits_0). rewrite Z.land_spec in Hb.
  rewrite !Z.land_spec, Z.ldiff_spec. by destruct (Z.testbit f i), (Z.testbit m i), (Z.testbit p i).
Qed.

(** The host's flags for a set of Linux flags *)
Definition msg_bits (flags : Z) (l : list (Z * string)) : list Z :=
  omap (fun p => if testf flags p.1 then Some (D p.2) else None) l.

Lemma msg_bits_cons f p l : msg_bits f (p :: l) = if testf f p.1 then D p.2 :: msg_bits f l else msg_bits f l.
Proof. unfold msg_bits. simpl. by destruct (testf f p.1). Qed.

Lemma msg_flags_fold flags l : forall ret fl, ForallOrdPairs (fun p q => Z.land p.1 q.1 = 0) l ->
  (forall p, p ∈ l -> testf fl p.1 = testf flags p.1) ->
  foldl (fun st p => let '(ret, flags) := st in
    if testf flags p.1 then (Z.lor ret (D p.2), clearf flags p.1) else (ret, flags)) (ret, fl) l =
  (foldl Z.lor ret (msg_bits flags l), foldl clearf fl l.*1).
Proof.
  induction l as [|p l IH]; intros ret fl Hd Ht; [done|]. inversion Hd as [|? ? Hp Hd']; subst.
  assert (testf fl p.1 = testf flags p.1) as Ep by (apply Ht; by left).
  assert (forall q, q ∈ l -> testf (clearf fl p.1) q.1 = testf flags q.1) as Hq.
  { intros q Hq. rewrite Forall_forall in Hp. rewrite testf_clearf by (by apply Hp). apply Ht. by right. }
  rewrite msg_bits_cons. cbn [foldl fmap list_fmap]. rewrite Ep. destruct (testf flags p.1) eqn:E; rewrite IH by (done || (intros; apply Ht; by right)); [done|].
  by rewrite clearf_id.
Qed.

Lemma msg_bits_ext f g l : (forall p, p ∈ l -> testf f p.1 = testf g p.1) -> msg_bits f l = msg_bits g l.
Proof.
  induction l as [|p l IH]; intros Ht; [done|].
  rewrite !msg_bits_cons, (Ht p), IH; [done| |by left]. intros q Hq. apply Ht. by right.
Qed.

(** Every flag of the table, cleared one after the other *)
Definition msg_mask : Z := 0x1ef.

Lemma msg_flags_ok flags : linux_to_darwin_msg_flags flags =
  if clearf flags msg_mask =? 0 then foldl Z.lor 0 (msg_bits flags LINUX_MSG) else - LINUX_EOPNOTSUPP.
Proof.
  unfold linux_to_darwin_msg_flags. rewrite (msg_flags_fold flags) by (done || (repeat constructor)).
  assert (foldl clearf flags LINUX_MSG.*1 = clearf flags msg_mask) as ->.
  { unfold LINUX_MSG, clearf. simpl. rewrite !Z.ldiff_ldiff_l. done. }
  by destruct (clearf flags msg_mask =? 0).
Qed.

(** The guest's buffers, when all of them are mapped *)
Definition gathered (u : umem) (liov : list (Z * Z)) : option (list (list Z)) :=
  mapM (fun v => let bs := user_bytes u v.1 (Z.to_nat v.2) in if Z.of_nat (length bs) =? v.2 then Some bs else None) liov.
Definition in_space (v : Z * Z) : Prop := 0 <= v.1 /\ 0 <= v.2 /\ v.1 + v.2 < 2 ^ 64 - 4096.

Lemma gather_ok k liov : (forall n, stack_ok n = true) -> umem_ok (k_um k) -> Forall in_space liov ->
  gather liov k = Done (match gathered (k_um k) liov with Some iov => Go iov | None => Ret (- LINUX_EFAULT) end) k.
Proof.
  intros Hs Hu Hl. induction Hl as [|[base len] liov (Ha & Hn & Hb) _ IH]; [done|]. simpl in Ha, Hn, Hb. simpl.
  unfold alloca. rewrite Hs. msimp. rewrite k_copy_from_user_ok by done.
  set (bs := user_bytes (k_um k) base (Z.to_nat len)).
  assert (negb (len - Z.of_nat (length bs) =? 0) = negb (Z.of_nat (length bs) =? len)) as -> by (f_equal; zcases; lia).
  destruct (Z.of_nat (length bs) =? len); cbn [negb]; cbv iota beta; [|done].
  rewrite IH. change (mapM _ liov) with (gathered (k_um k) liov). by destruct (gathered (k_um k) liov).
Qed.

(** The message at a guest address, if all of the header and the array is mapped: the
    header and the buffers' addresses and lengths *)
Definition guest_msg (u : umem) (ptr : Z) (msg : l_msghdr) (liov : list (Z * Z)) : Prop :=
  let hdr := user_bytes u ptr 56 in
  let arr := user_bytes u (msg_iov msg) (Z.to_nat (16 * msg_iovlen msg)) in
  length hdr = 56%nat /\ msg = dec_msghdr hdr /\ 0 <= msg_iovlen msg < 2 ^ 31 /\ 0 <= msg_iov msg /\
  msg_iov msg + 16 * msg_iovlen msg < 2 ^ 64 - 4096 /\ length arr = Z.to_nat (16 * msg_iovlen msg) /\
  liov = dec_iovecs arr (msg_iovlen msg).

(** C37: [sendmsg] of a message without a name and ancillary data, with flags Darwin knows apart from
    [MSG_NOSIGNAL], sends, in one call of
    the host, the bytes of the guest's buffers in order, with the flags Darwin has for the
    guest's; [MSG_NOSIGNAL], which Darwin lacks, is replaced by the socket option
    [SO_NOSIGPIPE], set before, and that is supposed to succeed.  When a buffer is not wholly readable it returns -EFAULT and
    the host sees nothing. *)
Theorem sendmsg_spec k fd ptr flags msg liov :
  umem_ok (k_um k) -> 0 <= ptr -> ptr + 56 < 2 ^ 64 - 4096 -> (forall n, stack_ok n = true) ->
  guest_msg (k_um k) ptr msg liov -> Forall in_space liov ->
  msg_namelen msg = 0 -> msg_controllen msg < sizeof_l_cmsghdr ->
  clearf flags (Z.lor msg_mask LINUX_MSG_NOSIGNAL) = 0 -> 0 <= foldl Z.lor 0 (msg_bits flags LINUX_MSG) ->
  let opt := [HI fd; HI (D "SOL_SOCKET"); HI (D "SO_NOSIGPIPE"); HB (le_encode 4 1); HI 4] in
  let ro := os (k_trace k) "setsockopt" opt in
  (testf flags LINUX_MSG_NOSIGNAL = true -> 0 <= syswrap (h_ret ro) (h_errno ro)) ->
  sys_sendmsg fd ptr flags k =
  match gathered (k_um k) liov with
  | None => Done (- LINUX_EFAULT) k
  | Some iov =>
    let k := if testf flags LINUX_MSG_NOSIGNAL then add_event (mk_event "setsockopt" opt ro) k else k in
    let args := HI fd :: HI 0 :: HI 0 :: HI (foldl Z.lor 0 (msg_bits flags LINUX_MSG)) :: (HB <$> iov) in
    let r := os (k_trace k) "sendmsg" args in
    Done (syswrap (h_ret r) (h_errno r)) (add_event (mk_event "sendmsg" args r) k)
  end.
Proof.
  intros Hu Hp Hb Hs (Lh & Emsg & Hn & Hi & Hib & La & El) Hsp Hname Hctl Hfl Hpos opt ro Hopt.
  unfold sys_sendmsg, copy_in at 1. rewrite (bind_Done _ _ _ _ _ (k_copy_from_user_ok k ptr 56 Hu Hp ltac:(lia) Hb)).
  change (Z.to_nat 56) with 56%nat. rewrite Lh, <- Emsg. change (negb (56 - Z.of_nat 56 =? 0)) with false. cbv iota.
  assert (linux_to_darwin_msg_flags (clearf flags LINUX_MSG_NOSIGNAL) = foldl Z.lor 0 (msg_bits flags LINUX_MSG)) as Ef.
  { rewrite msg_flags_ok. unfold clearf in *. rewrite Z.ldiff_ldiff_l, (Z.lor_comm LINUX_MSG_NOSIGNAL), Hfl. change (0 =? 0) with true. cbv iota.
    f_equal. apply msg_bits_ext. intros p Hp'. apply testf_clearf.
    revert p Hp'. apply Forall_forall, (bool_decide_unpack _). vm_compute. exact I. }
  unfold do_sendmsg, send_name. rewrite Hname. change (u32 0) with 0. change (0 <? 0) with false.
  unfold sizeof_l_cmsghdr, INT_MAX in *.
  replace (msg_controllen msg >? 2 ^ 31 - 1) with false by lia. cbv iota zeta.
  rewrite (swrap_small 32) by lia. rewrite (wrap_small 64 (16 * msg_iovlen msg)) by lia.
  unfold alloca. rewrite Hs. unfold copy_in. msimp. rewrite k_copy_from_user_ok by (done || lia).
  rewrite La, Z2Nat.id, Z.sub_diag by lia. cbn [negb Z.eqb]. cbv iota. rewrite <- El, gather_ok by done.
  destruct (gathered (k_um k) liov) as [iov|]; [|done]. unfold LINUX_CMSG_FIRSTHDR, sizeof_l_cmsghdr.
  replace (msg_controllen msg >=? 16) with false by lia. cbn [negb Z.eqb]. cbv iota. rewrite Ef.
  rewrite (proj2 (Z.ltb_ge _ _)) by done. destruct (testf flags LINUX_MSG_NOSIGNAL); [|done].
  unfold sysw. msimp. rewrite hcall_run. fold opt. fold ro. rewrite (proj2 (Z.ltb_ge _ _)) by auto. done.
Qed.

End MessageFacts.

(** ** Runs *)

(** Numbers of Darwin's [sys/socket.h] *)
Definition net_const : DarwinConst := {|
  D n := match list_find (fun p => p.1 = n) [("AF_UNSPEC", 0); ("AF_UNIX", 1); ("AF_INET", 2); ("AF_IPX", 23); ("AF_APPLETALK", 16);
           ("AF_INET6", 30); ("MSG_OOB", 1); ("MSG_PEEK", 2); ("MSG_DONTROUTE", 4); ("MSG_EOR", 8); ("MSG_TRUNC", 0x10);
           ("MSG_CTRUNC", 0x20); ("MSG_WAITALL", 0x40); ("MSG_DONTWAIT", 0x80); ("SOL_SOCKET", 0xffff);
           ("SO_NOSIGPIPE", 0x1022)]%string with Some (_, p) => p.2 | None => macos_const_of n end;
  major x := Z.land (Z.shiftr x 24) 0xff;
  minor x := Z.land x 0xffffff;
  counter _ := 0 |}.

(** A host with new sockets 5 and 6, whose [recvmsg] receives one byte; what is
    uninitialised holds 65 *)
Definition net_os : OS := {|
  os _ call _ := if String.eqb call "socketpair" then mk_hres 0 0 [[5; 6]]
                 else if String.eqb call "recvmsg" then mk_hres 1 0 [[]; []; [0; 0]; [7]]
                 else mk_hres 0 0 [];
  uninit _ := repeat 65 200 |}.

(** A message of the two buffers at 0x10200 (2 bytes) and 0x10300 (3 bytes) *)
Definition net_msg : list Z :=
  enc [(8%nat, 0); (4%nat, 0); (4%nat, 0); (8%nat, 0x10100); (8%nat, 2); (8%nat, 0); (8%nat, 0); (8%nat, 0)].
Definition net_iov : list Z := enc [(8%nat, 0x10200); (8%nat, 2); (8%nat, 0x10300); (8%nat, 3)].
Definition knet : kstate := set_um (user_write (user_write u3p 0x10000 net_msg) 0x10100 net_iov) k34.
(** A one-byte path, 106 bytes of it, and an IPv6 address *)
Definition unix_a : list Z := [1; 0; 97].
Definition in6_loopback : list Z := [10; 0; 0; 80] ++ repeat 0 19 ++ [1; 0; 0; 0; 0].

Section Runs.
#[local] Existing Instances net_os macos_errno net_const roomy_heap.

Lemma net_af_ok : DarwinAfOk.
Proof. constructor; apply (bool_decide_unpack _); vm_compute; exact I. Qed.

(** 127.0.0.1, port 80 *)
Lemma sockaddr_roundtrip_witness :
  exists ds, linux_to_darwin_sockaddr ([2; 0; 0; 80; 127; 0; 0; 1] ++ repeat 0 8) k0 = Done (Go ds) k0 /\ sa_len ds = 16 /\
    darwin_to_linux_sockaddr ds k0 = Done ([2; 0; 0; 80; 127; 0; 0; 1] ++ repeat 0 8) k0.
Proof.
  destruct (sockaddr_roundtrip (H2 := net_af_ok) "AF_INET" 2 ([2; 0; 0; 80; 127; 0; 0; 1] ++ repeat 0 8) k0)
    as (ds & E1 & E2 & _ & _ & E3).
  - apply (bool_decide_unpack _). vm_compute. exact I.
  - apply (bool_decide_unpack _). vm_compute. exact I.
  - reflexivity.
  - vm_compute. split; reflexivity.
  - reflexivity.
  - reflexivity.
  - intros E. discriminate E.
  - exists ds. split; [exact E1|]. split; [exact E2|exact E3].
Defined.

Lemma sendmsg_spec_witness :
  exists k', sys_sendmsg 4 0x10000 (Z.lor 0x40 LINUX_MSG_NOSIGNAL) knet = Done 0 k' /\
    option_map ev_args (head (k_trace k')) = Some [HI 4; HI 0; HI 0; HI 0x80; HB [0; 1]; HB [0; 1; 2]].
Proof.
  eexists. split.
  - rewrite (sendmsg_spec knet 4 0x10000 (Z.lor 0x40 LINUX_MSG_NOSIGNAL) (dec_msghdr net_msg) [(0x10200, 2); (0x10300, 3)]).
    + vm_compute. reflexivity.
    + apply user_write_ok, user_write_ok, u3p_ok.
    + lia.
    + lia.
    + intros n. reflexivity.
    + vm_compute. split_and!; congruence.
    + repeat constructor; vm_compute; congruence.
    + reflexivity.
    + reflexivity.
    + reflexivity.
    + vm_compute. congruence.
    + vm_compute. congruence.
  - vm_compute. reflexivity.
Defined.

(** What Darwin is given besides what the guest passed: [connect] to a path of one byte
    hands over 106 bytes, of which 103 are whatever followed the copy on the heap;
    [sendto] to an address longer than 16 bytes writes past a structure on the stack;
    [recvmsg] of one byte fills the guest's buffer of two, with one that was never received; and
    [sendmsg] with a flag Darwin lacks returns an uninitialised field. *)
Theorem net_departures :
  (exists r k', sys_connect 4 0x10000 3 (set_um (user_write u3p 0x10000 unix_a) k34) = Done r k' /\
     option_map ev_args (head (k_trace k')) = Some [HI 4; HB ([106; 1; 97] ++ repeat 65 103); HI 106]) /\
  (exists k', sys_sendto 4 0x10100 2 0 0x10000 28 (set_um (user_write u3p 0x10000 in6_loopback) k34) = Stop Overflow k') /\
  (exists r k', sys_recvmsg 4 0x10000 0 knet = Done r k' /\ r = 1 /\ user_bytes (k_um k') 0x10200 2 = [7; 65]) /\
  (exists r k', sys_sendmsg 4 0x10000 0x800 knet = Done r k' /\ r = 0x41414141 /\ length (k_trace k') = 0%nat).
Proof.
  split_and!; try (unshelve eapply run_test; vm_compute; reflexivity).
  assert ((match sys_sendto 4 0x10100 2 0 0x10000 28 (set_um (user_write u3p 0x10000 in6_loopback) k34) with
           | Stop Overflow _ => true | _ => false end) = true) as Hs by (vm_compute; reflexivity).
  destruct (sys_sendto _ _ _ _ _ _ _) as [|[] k']; try done. by exists k'.
Qed.

End Runs.
