(* ===== verification/Locks.v ===== *)
(** * The lock of the descriptor tables ([proc.fileinfo.fdtable_lock])

    The operations of [src/fs/fs.c] and [src/net/net.c] that take the lock while they hold it, with the lock.
    Elsewhere in the development the lock is left out: an operation runs from its start to its end.  [agrees]
    shows what that leaves out when the host refuses to lock twice, as Darwin documents: nothing of
    the result and of the kernel's state.  What the lock protects against, the accesses of other threads, is
    recorded here: whether a table was touched without the lock, and how often a lock was given back that was not held. *)

From S2P Require Import Prelude RBTree Const Errno Conv Mm UserMem FdTable Kernel Files FileOps FdSys Net.

(** What [pthread_rwlock_wrlock] and [pthread_rwlock_rdlock] do when the calling thread holds the lock for
    writing: return [EDEADLK], which the program never looks at, or wait for the thread itself. *)
Class RwLock := { relock_fails : bool }.

(** How the thread holds the lock; [Rd n], [n + 1] times for reading *)
Inductive hold := Unheld | Rd (n : nat) | Wr.

(** The kernel's state and the thread's lock; [l_racy] says that a descriptor table was touched without it,
    and [l_stray] counts the calls that gave back a lock the thread did not hold. *)
Record lstate := mk_lstate { l_k : kstate; l_lock : hold; l_racy : bool; l_stray : nat }.

Definition set_lock (h : hold) (l : lstate) : lstate := mk_lstate (l_k l) h (l_racy l) (l_stray l).

Abbreviation LK A := (M lstate A).

(** A computation that touches the tables, and one that does not *)
Definition table {A} (c : K A) : LK A := fun l =>
  let racy := match l_lock l with Unheld => true | _ => l_racy l end in
  match c (l_k l) with
  | Done a k => Done a (mk_lstate k (l_lock l) racy (l_stray l))
  | Stop w k => Stop w (mk_lstate k (l_lock l) racy (l_stray l))
  end.
Definition plain {A} (c : K A) : LK A := fun l =>
  match c (l_k l) with
  | Done a k => Done a (mk_lstate k (l_lock l) (l_racy l) (l_stray l))
  | Stop w k => Stop w (mk_lstate k (l_lock l) (l_racy l) (l_stray l))
  end.

Section Lock.
Context `{RwLock}.

Definition relock : LK unit := if relock_fails then mret tt else halt Diverge.

Definition pthread_rwlock_wrlock : LK unit :=
  l ← get;
  match l_lock l with Unheld => put (set_lock Wr l) | _ => relock end.
Definition pthread_rwlock_rdlock : LK unit :=
  l ← get;
  match l_lock l with Unheld => put (set_lock (Rd 0) l) | Rd n => put (set_lock (Rd (S n)) l) | Wr => relock end.
Definition pthread_rwlock_unlock : LK unit :=
  modify (fun l => match l_lock l with
                   | Unheld => mk_lstate (l_k l) Unheld (l_racy l) (S (l_stray l))
                   | Rd (S n) => set_lock (Rd n) l
                   | _ => set_lock Unheld l
                   end).

End Lock.

(** ** The operations *)

Section Locked.
Context `{OS} `{DarwinErrno} `{DarwinConst} `{Heap} `{RwLock}.

Definition locked_user_close (fd : Z) : LK Z :=
  pthread_rwlock_wrlock;;
  ret ← table (do_close User fd);
  pthread_rwlock_unlock;;
  mret ret.

Definition locked_get_file (fd : Z) : LK (option file) :=
  pthread_rwlock_rdlock;;
  ret ← table (get_file fd);
  pthread_rwlock_unlock;;
  mret ret.

(** A new descriptor entered, or closed when that fails *)
Definition locked_register (r : Z) (cloexec : bool) : LK Z :=
  if r >=? 0 then
    err ← table (register_fd r cloexec);
    if err <? 0 then _ ← plain (hcall "close" [HI r]); mret err else mret r
  else mret r.

(** [darwinfs_fcntl]; the commands other than these three do not touch the tables. *)
Definition locked_darwinfs_fcntl (f : file) (cmd arg : Z) : LK Z :=
  let fd := f_fd f in
  if cmd =? LINUX_F_DUPFD then
    pthread_rwlock_wrlock;;
    r ← plain (sysw "fcntl" [HI fd; HI (D "F_DUPFD"); HI arg]);
    r ← locked_register r false;
    pthread_rwlock_unlock;;
    mret r
  else if cmd =? LINUX_F_DUPFD_CLOEXEC then
    pthread_rwlock_wrlock;;
    r ← plain (sysw "fcntl" [HI fd; HI (D "F_DUPFD_CLOEXEC"); HI arg]);
    r ← locked_register r true;
    pthread_rwlock_unlock;;
    mret r
  else if cmd =? LINUX_F_SETFD then
    pthread_rwlock_wrlock;;
    r ← plain (sysw "fcntl" [HI fd; HI (D "F_SETFD"); HI arg]);
    when_ (r >=? 0) (table (set_cloexec fd (testf arg (D "FD_CLOEXEC"))));;
    pthread_rwlock_unlock;;
    mret r
  else plain (darwinfs_fcntl f cmd arg).

Definition locked_fcntl (fd cmd arg : Z) : LK Z :=
  f ← locked_get_file (s32 fd);
  match f with
  | None => mret (- LINUX_EBADF)
  | Some file => if f_ops file then locked_darwinfs_fcntl file cmd arg else halt Fault
  end.

(** The case [LINUX_FIOCLEX] of [darwinfs_ioctl] *)
Definition locked_fioclex (fd : Z) : LK Z :=
  pthread_rwlock_wrlock;;
  r ← locked_fcntl fd LINUX_F_SETFD 1;
  when_ (r >=? 0) (table (set_cloexec fd true));;
  pthread_rwlock_unlock;;
  mret r.

Definition locked_dup (fd : Z) : LK Z :=
  pthread_rwlock_wrlock;;
  ret ← locked_fcntl fd LINUX_F_DUPFD 0;
  ret ← locked_register ret false;
  pthread_rwlock_unlock;;
  mret ret.

(** [socketpair] between taking the lock and giving it back *)
Definition socketpair_body (family type protocol usockvec_ptr : Z) : LK Z :=
  '(ret, o) ← plain (sysw_out "socketpair" [HI (linux_to_darwin_sa_family family); HI type; HI protocol]);
  if ret <? 0 then mret ret
  else
    let fd0 := fld (outbuf o 0) 0 in
    let fd1 := fld (outbuf o 0) 1 in
    e ← table (register_fd fd0 (testf type LINUX_SOCK_CLOEXEC));
    if e <? 0 then _ ← plain (hcall "close" [HI fd0]); _ ← plain (hcall "close" [HI fd1]); mret e
    else
      e ← table (register_fd fd1 (testf type LINUX_SOCK_CLOEXEC));
      if e <? 0 then _ ← locked_user_close fd0; _ ← plain (hcall "close" [HI fd1]); mret e
      else
        e ← plain (k_copy_to_user usockvec_ptr (enc_fildes fd0 fd1));
        if negb (e =? 0) then _ ← locked_user_close fd0; _ ← locked_user_close fd1; mret (- LINUX_EFAULT)
        else mret ret.

Definition locked_socketpair (family type protocol usockvec_ptr : Z) : LK Z :=
  pthread_rwlock_wrlock;;
  ret ← socketpair_body family type protocol usockvec_ptr;
  pthread_rwlock_unlock;;
  mret ret.

End Locked.

(** ** The lock left out *)

Section Agrees.
Context `{OS} `{DarwinErrno} `{DarwinConst} `{Heap} `{RwLock}.
Hypothesis Hrelock : relock_fails = true.

(** [c] gives the result and the kernel's state that [p] gives, however the lock is held. *)
Definition agrees {A} (c : LK A) (p : K A) : Prop := forall l,
  match p (l_k l) with
  | Done a k => exists l', c l = Done a l' /\ l_k l' = k
  | Stop w k => exists l', c l = Stop w l' /\ l_k l' = k
  end.

Lemma agrees_bind {A B} (c : LK A) (p : K A) (f : A -> LK B) (g : A -> K B) :
  agrees c p -> (forall a, agrees (f a) (g a)) -> agrees (c ≫= f) (p ≫= g).
Proof.
  intros Hc Hf l. specialize (Hc l). unfold mbind, M_bind. destruct (p (l_k l)) as [a k|w k]; destruct Hc as (l' & -> & <-).
  - apply (Hf a l').
  - by exists l'.
Qed.

Lemma agrees_seq {A} (c : LK unit) (f : LK A) p : agrees c (mret tt) -> agrees f p -> agrees (c;; f) p.
Proof. intros Hc Hf. exact (agrees_bind c (mret tt) (fun _ => f) (fun _ => p) Hc (fun _ => Hf)). Qed.

(** A last statement whose result is the one computed before it *)
Lemma agrees_end {A} (c : LK A) (p : K A) (e : LK unit) : agrees c p -> agrees e (mret tt) -> agrees (a ← c; e;; mret a) p.
Proof.
  intros Hc He l. specialize (Hc l). unfold mbind, M_bind. destruct (p (l_k l)) as [a k|w k]; destruct Hc as (l' & -> & <-).
  - destruct (He l') as (l2 & -> & E). exists l2. by split.
  - by exists l'.
Qed.

Lemma agrees_ret {A} (a : A) : agrees (mret a) (mret a).
Proof. intros l. by exists l. Qed.
Lemma agrees_halt {A} w : agrees (halt w : LK A) (halt w).
Proof. intros l. by exists l. Qed.
Lemma agrees_table {A} (c : K A) : agrees (table c) c.
Proof. intros l. unfold table. destruct (c (l_k l)); by eexists. Qed.
Lemma agrees_plain {A} (c : K A) : agrees (plain c) c.
Proof. intros l. unfold plain. destruct (c (l_k l)); by eexists. Qed.
Lemma agrees_when b (c : LK unit) (p : K unit) : agrees c p -> agrees (when_ b c) (when_ b p).
Proof. destruct b; [done|]. intros _. apply agrees_ret. Qed.

Lemma relock_returns l : relock l = Done tt l.
Proof using Hrelock. unfold relock. by rewrite Hrelock. Qed.
Lemma agrees_wrlock : agrees pthread_rwlock_wrlock (mret tt).
Proof using Hrelock. intros l. unfold pthread_rwlock_wrlock. msimp. destruct (l_lock l); rewrite ?relock_returns; by eexists. Qed.
Lemma agrees_rdlock : agrees pthread_rwlock_rdlock (mret tt).
Proof using Hrelock. intros l. unfold pthread_rwlock_rdlock. msimp. destruct (l_lock l); rewrite ?relock_returns; by eexists. Qed.
Lemma agrees_unlock : agrees pthread_rwlock_unlock (mret tt).
Proof using. intros l. unfold pthread_rwlock_unlock. msimp. destruct (l_lock l) as [|[]|]; by eexists. Qed.

Ltac agree := repeat first
  [assumption
  |apply agrees_wrlock|apply agrees_rdlock|apply agrees_unlock|apply agrees_table|apply agrees_plain|apply agrees_ret|apply agrees_halt
  |apply agrees_when
  |lazymatch goal with
   | |- agrees (pthread_rwlock_wrlock;; _) _ => apply agrees_seq
   | |- agrees (pthread_rwlock_rdlock;; _) _ => apply agrees_seq
   | |- agrees (_ ≫= _) (_ ≫= _) => apply agrees_bind; [|intros ?]
   | |- agrees (match ?x with _ => _ end) _ => destruct x
   end].

Lemma agrees_user_close fd : agrees (locked_user_close fd) (user_close fd).
Proof using Hrelock. apply agrees_seq; [agree|]. apply agrees_end; agree. Qed.

Lemma agrees_get_file fd : agrees (locked_get_file fd) (get_file fd).
Proof using Hrelock. apply agrees_seq; [agree|]. apply agrees_end; agree. Qed.

Lemma agrees_register r cx : agrees (locked_register r cx) (register_or_close r cx).
Proof using. unfold locked_register, register_or_close. agree. Qed.

Lemma agrees_darwinfs_fcntl f cmd arg : agrees (locked_darwinfs_fcntl f cmd arg) (darwinfs_fcntl f cmd arg).
Proof using Hrelock.
  unfold locked_darwinfs_fcntl. cbv zeta. destruct (cmd =? LINUX_F_DUPFD) eqn:E1; [|destruct (cmd =? LINUX_F_DUPFD_CLOEXEC) eqn:E2;
    [|destruct (cmd =? LINUX_F_SETFD) eqn:E3; [|apply agrees_plain]]]; unfold darwinfs_fcntl; cbv zeta; rewrite ?E1, ?E2, ?E3.
  1,2: apply agrees_seq; [agree|]; apply agrees_bind; [agree|]; intros r; apply agrees_end; [apply agrees_register|agree].
  apply Z.eqb_eq in E3 as ->. change (LINUX_F_SETFD =? LINUX_F_GETFD) with false. change (LINUX_F_SETFD =? LINUX_F_SETFD) with true.
  cbv iota. apply agrees_seq; [agree|]. agree. apply agrees_seq; agree.
Qed.

Lemma agrees_fcntl fd cmd arg : agrees (locked_fcntl fd cmd arg) (sys_fcntl fd cmd arg).
Proof using Hrelock.
  apply agrees_bind; [apply agrees_get_file|]. intros [f|]; [|agree]. unfold with_ops. destruct (f_ops f); [apply agrees_darwinfs_fcntl|agree].
Qed.

Lemma agrees_dup fd : agrees (locked_dup fd) (sys_dup fd).
Proof using Hrelock.
  apply agrees_seq; [agree|]. apply agrees_bind; [apply agrees_fcntl|]. intros r. apply agrees_end; [apply agrees_register|agree].
Qed.

Lemma agrees_fioclex f val : agrees (locked_fioclex (f_fd f)) (darwinfs_ioctl f LINUX_FIOCLEX val).
Proof using Hrelock.
  apply agrees_seq; [agree|]. apply agrees_bind; [apply agrees_fcntl|]. intros r. agree. apply agrees_seq; agree.
Qed.

Lemma agrees_socketpair family type protocol ptr :
  agrees (locked_socketpair family type protocol ptr) (sys_socketpair family type protocol ptr).
Proof using Hrelock.
  apply agrees_seq; [agree|]. apply agrees_end; [|agree]. pose proof agrees_user_close.
  unfold socketpair_body, sys_socketpair. agree; auto.
Qed.

(** The lock left out changes no result and no state of the kernel, on a host that refuses to lock twice. *)
Theorem lock_left_out :
  (forall fd, agrees (locked_user_close fd) (user_close fd)) /\
  (forall fd cmd arg, agrees (locked_fcntl fd cmd arg) (sys_fcntl fd cmd arg)) /\
  (forall fd, agrees (locked_dup fd) (sys_dup fd)) /\
  (forall f val, agrees (locked_fioclex (f_fd f)) (darwinfs_ioctl f LINUX_FIOCLEX val)) /\
  (forall family type protocol ptr, agrees (locked_socketpair family type protocol ptr) (sys_socketpair family type protocol ptr)).
Proof using Hrelock.
  split_and!; [apply agrees_user_close|apply agrees_fcntl|apply agrees_dup|apply agrees_fioclex|apply agrees_socketpair].
Qed.

End Agrees.

(** ** [socketpair] *)

Section Socketpair.
Context `{OS} `{DarwinErrno} `{DarwinConst} `{Heap} `{RwLock}.
Hypothesis Hheap : forall n, heap_ok n = true.

(** Closing a descriptor leaves the lock given back, also when the caller of [user_close] held it. *)
Lemma locked_close_done k h rc st fd n k' : h = Unheld \/ h = Wr /\ relock_fails = true -> user_close fd k = Done n k' ->
  locked_user_close fd (mk_lstate k h rc st) = Done n (mk_lstate k' Unheld rc st).
Proof.
  intros Hh E. unfold user_close in E. unfold locked_user_close, pthread_rwlock_wrlock, relock, table, pthread_rwlock_unlock.
  destruct Hh as [-> |[-> Hr]]; msimp; cbn; [|rewrite Hr; cbn]; by rewrite E.
Qed.

Lemma locked_close_blocks k rc st fd : relock_fails = false ->
  locked_user_close fd (mk_lstate k Wr rc st) = Stop Diverge (mk_lstate k Wr rc st).
Proof. intros Hr. unfold locked_user_close, pthread_rwlock_wrlock, relock. msimp. cbn. by rewrite Hr. Qed.

Lemma bind_Stop {S A B} (m : M S A) (k : A -> M S B) s w s' : m s = Stop w s' -> (m ≫= k) s = Stop w s'.
Proof. intros E. unfold mbind, M_bind. by rewrite E. Qed.

Lemma table_Wr {A} (c : K A) k rc st a k' : c k = Done a k' -> table c (mk_lstate k Wr rc st) = Done a (mk_lstate k' Wr rc st).
Proof. intros E. unfold table. cbn. by rewrite E. Qed.
Lemma plain_Done {A} (c : K A) k h rc st a k' : c k = Done a k' -> plain c (mk_lstate k h rc st) = Done a (mk_lstate k' h rc st).
Proof. intros E. unfold plain. cbn. by rewrite E. Qed.

(** What [socketpair] does to the kernel's state *)
Definition pair_outcome (k k' : kstate) (args : list harg) (h : hres) (fd0 fd1 ptr ret : Z) (cx : bool) : Prop :=
  let vk := start (vkern_fdt (k_fi k)) in
  files_ok (k_fi k') /\
  if bool_decide (fd0 < vk /\ fd1 < vk /\ user_mapped (k_um k) ptr 8 = 8%nat) then
    ret = 0 /\ k_um k' = user_write (k_um k) ptr (enc_fildes fd0 fd1) /\
    k_trace k' = mk_event "socketpair" args h :: k_trace k /\
    (forall fd, fds (fdt (k_fi k')) fd = if (fd =? fd0) || (fd =? fd1) then Some cx else fds (fdt (k_fi k)) fd)
  else
    ret = (if (fd0 <? vk) && (fd1 <? vk) then - LINUX_EFAULT else - LINUX_EMFILE) /\
    (forall fd, fds (fdt (k_fi k')) fd = fds (fdt (k_fi k)) fd) /\
    exists r0 r1, k_trace k' = mk_event "close" [HI fd1] r1 :: mk_event "close" [HI fd0] r0 :: mk_event "socketpair" args h :: k_trace k.

(** The two ways to undo the first descriptor: it is closed by [user_close], under the lock of the caller. *)
Definition undone (k : kstate) (fd0 fd1 ptr : Z) : bool :=
  let vk := start (vkern_fdt (k_fi k)) in
  bool_decide (fd0 < vk /\ (vk <= fd1 \/ user_mapped (k_um k) ptr 8 <> 8%nat)).

(** Both descriptors are in the table [t2] of [k3], and their numbers are stored, or both are closed. *)
Lemma pair_stored k k3 rc st fd0 fd1 ptr cx args h :
  files_ok (k_fi k3) -> umem_ok (k_um k) -> 0 <= ptr -> ptr + 8 < 2 ^ 64 - 4096 -> fd0 <> fd1 ->
  let vk := start (vkern_fdt (k_fi k)) in
  fd0 < vk -> fd1 < vk -> fds (fdt (k_fi k)) fd0 = None -> fds (fdt (k_fi k)) fd1 = None ->
  k_um k3 = k_um k -> k_trace k3 = mk_event "socketpair" args h :: k_trace k ->
  (forall fd, fds (fdt (k_fi k3)) fd = if (fd =? fd0) || (fd =? fd1) then Some cx else fds (fdt (k_fi k)) fd) ->
  let c := e ← plain (k_copy_to_user ptr (enc_fildes fd0 fd1));
           if negb (e =? 0) then _ ← locked_user_close fd0; _ ← locked_user_close fd1; mret (- LINUX_EFAULT) else mret 0 in
  if undone k fd0 fd1 ptr && negb relock_fails
  then exists k', c (mk_lstate k3 Wr rc st) = Stop Diverge (mk_lstate k' Wr rc st)
  else exists ret k', c (mk_lstate k3 Wr rc st) = Done ret (mk_lstate k' (if undone k fd0 fd1 ptr then Unheld else Wr) rc st) /\
         pair_outcome k k' args h fd0 fd1 ptr ret cx.
Proof using.
  intros Hf Hu Hp Hb Hne vk L0 L1 N0 N1 Eu Et Hfds c. unfold undone, pair_outcome, c. fold vk.
  assert (k_copy_to_user ptr (enc_fildes fd0 fd1) k3 = _) as Ec by (apply k_copy_to_user_ok; [by rewrite Eu|done..]).
  rewrite (bind_Done _ _ _ _ _ (plain_Done _ _ _ _ _ _ _ Ec)). clear Ec. change (length (enc_fildes fd0 fd1)) with 8%nat. rewrite Eu.
  pose proof (user_mapped_le (k_um k) ptr 8) as Hm. rewrite (proj2 (Z.ltb_lt _ _) L0), (proj2 (Z.ltb_lt _ _) L1). cbn [andb].
  destruct (Z.eqb_spec (Z.of_nat 8 - Z.of_nat (user_mapped (k_um k) ptr 8)) 0) as [Em|Em]; cbn [negb]; cbv iota beta.
  { rewrite bool_decide_false, bool_decide_true by lia. eexists _, _. by split_and!. }
  rewrite bool_decide_true, bool_decide_false by lia. set (k4 := set_um _ k3).
  destruct relock_fails eqn:Hrl; cbn [negb andb]; [|eexists; by rewrite (bind_Stop _ _ _ _ _ (locked_close_blocks k4 rc st fd0 Hrl))].
  destruct (user_close_open k4 fd0 cx) as (n & r0 & k5 & E5 & Hf5 & _ & Ht5 & Hfds5); [exact Hf|simpl; by rewrite Hfds, Z.eqb_refl|].
  assert (fds (fdt (k_fi k5)) fd1 = Some cx) as Hfd1.
  { rewrite Hfds5. simpl fdt. rewrite Hfds, Z.eqb_refl, orb_true_r. by rewrite (proj2 (Z.eqb_neq fd1 fd0)) by done. }
  destruct (user_close_open k5 fd1 cx Hf5 Hfd1) as (n' & r1 & k6 & E6 & Hf6 & _ & Ht6 & Hfds6).
  rewrite (bind_Done _ _ _ _ _ (locked_close_done k4 Wr rc st fd0 n k5 (or_intror (conj eq_refl Hrl)) E5)).
  rewrite (bind_Done _ _ _ _ _ (locked_close_done k5 Unheld rc st fd1 n' k6 (or_introl eq_refl) E6)).
  eexists _, _. split; [reflexivity|]. split; [exact Hf6|]. split; [done|]. split.
  - intros fd. rewrite Hfds6, Hfds5. simpl fdt. rewrite Hfds.
    destruct (Z.eqb_spec fd fd1) as [->|]; [done|]. by destruct (Z.eqb_spec fd fd0) as [->|].
  - exists r0, r1. rewrite Ht6, Ht5. simpl. by rewrite Et.
Qed.

Lemma socketpair_body_ok k rc st family type protocol ptr fd0 fd1 :
  files_ok (k_fi k) -> umem_ok (k_um k) -> 0 <= ptr -> ptr + 8 < 2 ^ 64 - 4096 ->
  let args := [HI (linux_to_darwin_sa_family family); HI type; HI protocol] in
  let h := os (k_trace k) "socketpair" args in
  let cx := testf type LINUX_SOCK_CLOEXEC in
  syswrap (h_ret h) (h_errno h) = 0 -> outbuf (h_out h) 0 = [fd0; fd1] ->
  0 <= fd0 -> 0 <= fd1 -> fd0 <> fd1 -> fds (fdt (k_fi k)) fd0 = None -> fds (fdt (k_fi k)) fd1 = None ->
  if undone k fd0 fd1 ptr && negb relock_fails
  then exists k', socketpair_body family type protocol ptr (mk_lstate k Wr rc st) = Stop Diverge (mk_lstate k' Wr rc st)
  else exists ret k', socketpair_body family type protocol ptr (mk_lstate k Wr rc st) =
         Done ret (mk_lstate k' (if undone k fd0 fd1 ptr then Unheld else Wr) rc st) /\ pair_outcome k k' args h fd0 fd1 ptr ret cx.
Proof using Hheap.
  intros Hf Hu Hp Hb args h cx Hr Ho P0 P1 Hne N0 N1. set (vk := start (vkern_fdt (k_fi k))).
  set (k1 := add_event (mk_event "socketpair" args h) k).
  assert (sysw_out "socketpair" args k = Done (0, h_out h) k1) as E0.
  { unfold sysw_out. msimp. rewrite hcall_run. fold args h. by rewrite Hr. }
  unfold socketpair_body. rewrite (bind_Done _ _ _ _ _ (plain_Done _ _ _ _ _ _ _ E0)). change (0 <? 0) with false. cbv iota zeta. rewrite Ho.
  change (fld [fd0; fd1] 0) with fd0. change (fld [fd0; fd1] 1) with fd1. fold cx.
  destruct (Z.lt_ge_cases fd0 vk) as [L0|L0]; cycle 1.
  { unfold undone, pair_outcome. fold vk. rewrite (proj2 (Z.ltb_ge fd0 vk)) by done. rewrite (bind_Done _ _ _ _ _ (table_Wr _ _ _ _ _ _ (register_fd_refused k1 fd0 cx L0))). rewrite !bool_decide_false by lia.
    cbn [andb]. eexists _, _. split; [reflexivity|]. split; [exact Hf|]. split; [done|]. split; [done|]. by eexists _, _. }
  destruct (register_fd_ok k1 fd0 cx) as (t1 & E1 & Hf1 & Hfds1); [done|exact Hf|split; [done|exact L0]|].
  rewrite (bind_Done _ _ _ _ _ (table_Wr _ _ _ _ _ _ E1)). change (0 <? 0) with false. cbv iota beta. set (k2 := set_fdt t1 k1) in *.
  destruct (Z.lt_ge_cases fd1 vk) as [L1|L1]; cycle 1.
  { unfold undone, pair_outcome. fold vk. rewrite (proj2 (Z.ltb_ge fd1 vk)), andb_false_r by done. rewrite (bind_Done _ _ _ _ _ (table_Wr _ _ _ _ _ _ (register_fd_refused k2 fd1 cx L1))). change (- LINUX_EMFILE <? 0) with true. cbv iota beta.
    rewrite bool_decide_true, bool_decide_false by lia. destruct relock_fails eqn:Hrl; cbn [negb andb]; cycle 1.
    { eexists. by rewrite (bind_Stop _ _ _ _ _ (locked_close_blocks k2 rc st fd0 Hrl)). }
    destruct (user_close_open k2 fd0 cx) as (n & r0 & k3 & Ec & Hf3 & _ & Ht3 & Hfds3); [exact Hf1|rewrite Hfds1, Z.eqb_refl; done|].
    rewrite (bind_Done _ _ _ _ _ (locked_close_done k2 Wr rc st fd0 n k3 (or_intror (conj eq_refl Hrl)) Ec)).
    eexists _, _. split; [reflexivity|]. split; [exact Hf3|]. split; [done|]. split.
    - intros fd. cbn. rewrite Hfds3. simpl fdt. rewrite Hfds1. destruct (Z.eqb_spec fd fd0) as [->|]; [by rewrite N0|done].
    - exists r0. eexists. simpl. rewrite Ht3. reflexivity. }
  destruct (register_fd_ok k2 fd1 cx) as (t2 & E2 & Hf2 & Hfds2); [done|exact Hf1|split; [done|exact L1]|].
  rewrite (bind_Done _ _ _ _ _ (table_Wr _ _ _ _ _ _ E2)). change (0 <? 0) with false. cbv iota beta. set (k3 := set_fdt t2 k2) in *.
  apply pair_stored; try done. intros fd. rewrite Hfds2. simpl fdt. rewrite Hfds1. by destruct (fd =? fd1), (fd =? fd0).
Qed.

(** C36: [socketpair] with the lock of the tables, which its caller does not hold, once Darwin has made two sockets with new
    descriptors and when memory can be allocated.  Either it
    enters both into the guest's table, with the close-on-exec flag asked for, and
    stores their numbers in guest memory, with no other call of the host; or, when a
    number is in the kernel's range or the guest's array is not writable, it returns -EMFILE
    or -EFAULT with the guest's table as it was before and both sockets closed.  The table is only touched under the lock, and the lock is
    given back.  When the first descriptor has to be undone, though, [user_close] locks a second time: on a host that
    refuses that, the lock is given back inside, and once more, not held, at the end; on a host on which a thread waits for itself, the call
    never returns and keeps the lock. *)
Theorem socketpair_spec l family type protocol ptr fd0 fd1 :
  let k := l_k l in
  files_ok (k_fi k) -> umem_ok (k_um k) -> l_lock l = Unheld -> 0 <= ptr -> ptr + 8 < 2 ^ 64 - 4096 ->
  let args := [HI (linux_to_darwin_sa_family family); HI type; HI protocol] in
  let h := os (k_trace k) "socketpair" args in
  syswrap (h_ret h) (h_errno h) = 0 -> outbuf (h_out h) 0 = [fd0; fd1] ->
  0 <= fd0 -> 0 <= fd1 -> fd0 <> fd1 -> fds (fdt (k_fi k)) fd0 = None -> fds (fdt (k_fi k)) fd1 = None ->
  let undo := undone k fd0 fd1 ptr in
  if undo && negb relock_fails
  then exists l', locked_socketpair family type protocol ptr l = Stop Diverge l' /\ l_lock l' = Wr
  else exists ret l', locked_socketpair family type protocol ptr l = Done ret l' /\
         l_lock l' = Unheld /\ l_racy l' = l_racy l /\ l_stray l' = (if undo then S (l_stray l) else l_stray l) /\
         pair_outcome k (l_k l') args h fd0 fd1 ptr ret (testf type LINUX_SOCK_CLOEXEC).
Proof using Hheap.
  intros k Hf Hu El Hp Hb args h Hr Ho P0 P1 Hne N0 N1 undo. destruct l as [k' lk rc st]. cbn in k, El. subst k lk.
  pose proof (socketpair_body_ok k' rc st family type protocol ptr fd0 fd1 Hf Hu Hp Hb Hr Ho P0 P1 Hne N0 N1) as Hbody. cbv zeta in Hbody.
  fold args h undo in Hbody. unfold locked_socketpair. erewrite bind_Done by reflexivity. unfold set_lock. cbn [l_k l_racy l_stray].
  destruct (undo && negb relock_fails).
  - destruct Hbody as (k2 & E). rewrite (bind_Stop _ _ _ _ _ E). by eexists.
  - destruct Hbody as (ret & k2 & E & Hout). rewrite (bind_Done _ _ _ _ _ E). destruct undo; (eexists _, _; split; [reflexivity|by split_and!]).
Qed.

End Socketpair.

(** ** The second lock of [dup] and [FIOCLEX] *)

Section Relock.
Context `{OS} `{DarwinErrno} `{DarwinConst} `{Heap} `{RwLock}.

Lemma get_file_held fd k rc st : relock_fails = true ->
  ensures (locked_get_file fd) (fun _ l => l_lock l = Unheld) (mk_lstate k Wr rc st).
Proof.
  intros Hr. unfold ensures, locked_get_file, pthread_rwlock_rdlock, relock, table, pthread_rwlock_unlock. msimp. cbn. rewrite Hr. cbn.
  by destruct (get_file fd k).
Qed.

Lemma fcntl_held fd cmd arg k rc st : relock_fails = true -> cmd = LINUX_F_DUPFD \/ cmd = LINUX_F_SETFD ->
  ensures (locked_fcntl fd cmd arg) (fun _ l => l_lock l = Unheld) (mk_lstate k Wr rc st).
Proof.
  intros Hr Hc. unfold locked_fcntl. apply ensures_bind. eapply ensures_mono; [|by apply get_file_held]. intros [f|] [k1 h1 rc1 st1] E1.
  2: by apply ensures_ret.
  cbn in E1. subst h1. destruct (f_ops f); [|apply ensures_halt]. unfold ensures, locked_darwinfs_fcntl, locked_register, pthread_rwlock_wrlock, plain, table, pthread_rwlock_unlock.
  destruct Hc as [-> | ->]; cbn -[sysw register_fd set_cloexec hcall Z.geb Z.ltb]; msimp; cbn -[sysw register_fd set_cloexec hcall Z.geb Z.ltb];
    repeat (case_match; cbn -[sysw register_fd set_cloexec hcall Z.geb Z.ltb] in *; simplify_eq; try done).
Qed.

Lemma after_fcntl {A} (c : Z -> LK A) (Q : A -> lstate -> Prop) fd cmd arg l : relock_fails = true -> cmd = LINUX_F_DUPFD \/ cmd = LINUX_F_SETFD ->
  l_lock l = Unheld -> (forall r k rc st, ensures (c r) Q (mk_lstate k Unheld rc st)) ->
  ensures (pthread_rwlock_wrlock;; r ← locked_fcntl fd cmd arg; c r) Q l.
Proof.
  intros Hr Hc El Hk. destruct l as [k h rc st]. cbn in El. subst h. unfold ensures. erewrite bind_Done by reflexivity.
  apply (ensures_bind _ c Q). eapply ensures_mono; [|by apply fcntl_held]. intros r [k1 h1 rc1 st1] E. cbn in E. subst h1. apply Hk.
Qed.

(** [dup] and [FIOCLEX] hold the lock when they call [fcntl], which locks and gives the lock back.  On a host that refuses
    to lock twice, what they do to the table after that is not protected: another thread may be changing it. *)
Theorem relock_unprotected fd l : relock_fails = true -> l_lock l = Unheld ->
  ensures (locked_dup fd) (fun r l' => 0 <= r -> l_racy l' = true) l /\
  ensures (locked_fioclex fd) (fun r l' => 0 <= r -> l_racy l' = true) l.
Proof.
  intros Hr El. split.
  - apply after_fcntl; [done|by left|done|]. intros r k rc st.
    unfold ensures, locked_register, table, plain, pthread_rwlock_unlock. msimp. rewrite Z.geb_leb. cbn -[register_fd hcall].
    destruct (Z.leb_spec 0 r); [|cbn; lia]. cbn -[register_fd hcall]. by repeat (case_match; cbn -[register_fd hcall] in *; simplify_eq).
  - apply after_fcntl; [done|by right|done|]. intros r k rc st.
    unfold ensures, table, pthread_rwlock_unlock. msimp. rewrite Z.geb_leb. cbn -[set_cloexec].
    destruct (Z.leb_spec 0 r); [|cbn; lia]. cbn -[set_cloexec]. by repeat (case_match; cbn -[set_cloexec] in *; simplify_eq).
Qed.

(** On a host on which a thread waits for itself neither ever returns. *)
Theorem relock_waits fd l : relock_fails = false -> l_lock l = Unheld ->
  (exists l', locked_dup fd l = Stop Diverge l') /\ (exists l', locked_fioclex fd l = Stop Diverge l').
Proof.
  intros Hr El. destruct l as [k h rc st]. cbn in El. subst h.
  split; eexists; unfold locked_dup, locked_fioclex, locked_fcntl, locked_get_file, pthread_rwlock_wrlock, pthread_rwlock_rdlock, relock;
    msimp; cbn; rewrite Hr; reflexivity.
Qed.

End Relock.

(** ** Runs *)

Section Runs.
#[local] Existing Instances net_os macos_errno net_const roomy_heap.
#[local] Instance darwin_lock : RwLock := {| relock_fails := true |}.

Definition unlocked (k : kstate) : lstate := mk_lstate k Unheld false 0.

(** Two descriptors stored at 0x10000, and an array at an address that is not mapped *)
Lemma socketpair_spec_witness :
  (exists l', locked_socketpair 1 (Z.lor 1 LINUX_SOCK_CLOEXEC) 0 0x10000 (unlocked k0) = Done 0 l' /\ l_lock l' = Unheld /\
     fds (fdt (k_fi (l_k l'))) 5 = Some true /\ fds (fdt (k_fi (l_k l'))) 6 = Some true) /\
  (exists l', locked_socketpair 1 1 0 0 (unlocked k0) = Done (- LINUX_EFAULT) l' /\ l_lock l' = Unheld /\ l_stray l' = 1%nat /\
     fds (fdt (k_fi (l_k l'))) 5 = None /\ fds (fdt (k_fi (l_k l'))) 6 = None).
Proof.
  pose proof (fun ty ptr H1 H2 => socketpair_spec roomy (unlocked k0) 1 ty 0 ptr 5 6 fi0_ok u3p_ok eq_refl H1 H2 eq_refl eq_refl
    ltac:(lia) ltac:(lia) ltac:(lia) eq_refl eq_refl) as Hs. cbv zeta in Hs. split.
  - specialize (Hs (Z.lor 1 LINUX_SOCK_CLOEXEC) 0x10000 ltac:(lia) ltac:(lia)).
    assert (undone (l_k (unlocked k0)) 5 6 0x10000 = false) as Hu by (vm_compute; reflexivity). rewrite Hu in Hs.
    destruct Hs as (ret & l' & E & El & _ & _ & _ & Hout). rewrite bool_decide_true in Hout by (vm_compute; split_and!; reflexivity).
    destruct Hout as (-> & _ & _ & Hfds). exists l'. rewrite !Hfds. by split_and!.
  - specialize (Hs 1 0 ltac:(lia) ltac:(lia)).
    assert (undone (l_k (unlocked k0)) 5 6 0 = true) as Hu by (vm_compute; reflexivity). rewrite Hu in Hs.
    destruct Hs as (ret & l' & E & El & _ & Est & _ & Hout). rewrite bool_decide_false in Hout by (vm_compute; intros (? & ? & ?); discriminate).
    destruct Hout as (-> & Hfds & _). exists l'. rewrite !Hfds. by split_and!.
Defined.

End Runs.
