(* ===== verification/TimeSys.v ===== *)
(** * Clocks, timers and file times ([src/sys/time.c], [include/linux/time.h])

    The host answers the fields of its structures; a
    structure it leaves unwritten holds what the stack held. *)

From S2P Require Import Prelude RBTree Const Errno Conv Mm UserMem FdTable Kernel Files Path FileOps PathOps FdSys.

Definition LINUX_UTIME_NOW : Z := 0x3FFFFFFF.
Definition LINUX_UTIME_OMIT : Z := 0x3FFFFFFE.
Definition LINUX_CLOCK_REALTIME : Z := 0.
Definition LINUX_CLOCK_MONOTONIC : Z := 1.
Definition LINUX_CLOCK_PROCESS_CPUTIME_ID : Z := 2.
Definition LINUX_CLOCK_THREAD_CPUTIME_ID : Z := 3.
Definition LINUX_CLOCK_REALTIME_HR : Z := 4.
Definition LINUX_CLOCK_MONOTONIC_COARSE : Z := 6.

(** [struct l_timespec] and [struct l_timeval], 16 bytes: seconds and a fraction *)
Record l_timespec := mk_timespec { tv_sec : Z; tv_nsec : Z }.
Definition sizeof_l_timespec : Z := 16.
Definition dec_timespec (bs : list Z) : l_timespec := mk_timespec (swrap 64 (field bs 0 8)) (swrap 64 (field bs 8 8)).
Definition enc_time (sec frac : Z) : list Z := enc [(8%nat, sec); (8%nat, frac)].

(** [struct itimerval] and [struct l_itimerval]; Darwin's microseconds are an [int]. *)
Record itimerval := mk_itimerval { int_sec : Z; int_usec : Z; val_sec : Z; val_usec : Z }.
Record l_itimerval := mk_l_itimerval { l_int_sec : Z; l_int_usec : Z; l_val_sec : Z; l_val_usec : Z }.
Definition sizeof_l_itimerval : Z := 32.
Definition dec_itimerval (bs : list Z) : l_itimerval :=
  mk_l_itimerval (swrap 64 (field bs 0 8)) (swrap 64 (field bs 8 8)) (swrap 64 (field bs 16 8)) (swrap 64 (field bs 24 8)).
Definition enc_itimerval (v : l_itimerval) : list Z := enc_time (l_int_sec v) (l_int_usec v) ++ enc_time (l_val_sec v) (l_val_usec v).
Definition darwin_to_linux_itimerval (d : itimerval) : l_itimerval :=
  mk_l_itimerval (int_sec d) (int_usec d) (val_sec d) (val_usec d).
Definition linux_to_darwin_itimerval (l : l_itimerval) : itimerval :=
  mk_itimerval (l_int_sec l) (s32 (l_int_usec l)) (l_val_sec l) (s32 (l_val_usec l)).

Section Time.
Context `{OS} `{DarwinErrno} `{DarwinConst} `{Heap}.

Definition itimerval_of (l : list Z) : itimerval := mk_itimerval (fld l 0) (s32 (fld l 1)) (fld l 2) (s32 (fld l 3)).

(** ** Clocks *)

(** [time] is wrapped into an [int]. *)
Definition sys_time (tloc_ptr : Z) : K Z :=
  '(r, o) ← sysw_out "time" [];
  if r <? 0 then mret r
  else if tloc_ptr =? 0 then mret r
  else copy_out tloc_ptr (le_encode 8 (fld (outbuf o 0) 0)) r.

(** The host answers seconds, microseconds, and the time zone's two numbers. *)
Definition sys_gettimeofday (tp_ptr tzp_ptr : Z) : K Z :=
  r ← hcall "gettimeofday" [];
  let o := outbuf (h_out r) 0 in
  e ← (if tp_ptr =? 0 then mret 0 else k_copy_to_user tp_ptr (enc_time (fld o 0) (fld o 1)));
  if negb (e =? 0) then mret (- LINUX_EINVAL)
  else
    e ← (if tzp_ptr =? 0 then mret 0 else k_copy_to_user tzp_ptr (enc [(4%nat, fld o 2); (4%nat, fld o 3)]));
    mret (if negb (e =? 0) then - LINUX_EINVAL else 0).

(** [rm], which Darwin writes only when the sleep was interrupted *)
Definition sys_nanosleep (rqtp_ptr rmtp_ptr : Z) : K Z :=
  copy_in rqtp_ptr sizeof_l_timespec (fun bs =>
    let rq := dec_timespec bs in
    '(r, o) ← sysw_out "nanosleep" [HI (tv_sec rq); HI (tv_nsec rq)];
    if r <? 0 then mret r
    else if rmtp_ptr =? 0 then mret r
    else
      k ← get;
      copy_out rmtp_ptr (match outbuf o 0 with
                         | [sec; nsec] => enc_time sec nsec
                         | _ => resize 16 0 (uninit (k_trace k))
                         end) r).

Definition linux_to_darwin_clockid (id : Z) : K Z :=
  if (id =? LINUX_CLOCK_REALTIME) || (id =? LINUX_CLOCK_REALTIME_HR) then mret (D "CLOCK_REALTIME")
  else if (id =? LINUX_CLOCK_MONOTONIC) || (id =? LINUX_CLOCK_MONOTONIC_COARSE) then mret (D "CLOCK_MONOTONIC")
  else if id =? LINUX_CLOCK_PROCESS_CPUTIME_ID then mret (D "CLOCK_PROCESS_CPUTIME_ID")
  else if id =? LINUX_CLOCK_THREAD_CPUTIME_ID then mret (D "CLOCK_THREAD_CPUTIME_ID")
  else halt Panic.

Definition sys_clock (call : string) (id ptr : Z) : K Z :=
  d ← linux_to_darwin_clockid id;
  '(r, o) ← sysw_out call [HI d];
  if r <? 0 then mret r
  else if ptr =? 0 then mret 0
  else copy_out ptr (enc_time (fld (outbuf o 0) 0) (fld (outbuf o 0) 1)) 0.
Definition sys_clock_gettime (id spec_ptr : Z) : K Z := sys_clock "clock_gettime" id spec_ptr.
Definition sys_clock_getres (id res_ptr : Z) : K Z := sys_clock "clock_getres" id res_ptr.

Definition sys_fdatasync (fildes : Z) : K Z := sysw "fsync" [HI fildes].

(** ** Interval timers *)

Definition sys_getitimer (which_ ret_ptr : Z) : K Z :=
  '(r, o) ← sysw_out "getitimer" [HI which_];
  if r <? 0 then mret r
  else copy_out ret_ptr (enc_itimerval (darwin_to_linux_itimerval (itimerval_of (outbuf o 0)))) r.

Definition sys_setitimer (which_ new_ptr old_ptr : Z) : K Z :=
  if new_ptr =? 0 then sys_getitimer which_ old_ptr
  else copy_in new_ptr sizeof_l_itimerval (fun bs =>
    let v := linux_to_darwin_itimerval (dec_itimerval bs) in
    '(r, o) ← sysw_out "setitimer" [HI which_; HI (int_sec v); HI (int_usec v); HI (val_sec v); HI (val_usec v)];
    if r <? 0 then mret r
    else if old_ptr =? 0 then mret r
    else copy_out old_ptr (enc_itimerval (darwin_to_linux_itimerval (itimerval_of (outbuf o 0)))) r).

(** ** File times *)

(** A [struct timeval] of the host: seconds, and microseconds as an [int] *)
Definition to_timeval (sec nsec : Z) : Z * Z := (sec, s32 (Z.quot nsec 1000)).

(** The part of [do_utimensat] that works out [times] and sets them; the first
    component of the result tells whether [fstat] failed. *)
Definition set_times (fd : Z) (l_times : option (l_timespec * l_timespec)) : K Z :=
  match l_times with
  | None => sysw "futimes" [HI fd; HI 0]
  | Some (t0, t1) =>
    let times0 := to_timeval (tv_sec t0) (tv_nsec t0) in
    let times1 := to_timeval (tv_sec t1) (tv_nsec t1) in
    now ← (if (tv_nsec t0 =? LINUX_UTIME_NOW) || (tv_nsec t1 =? LINUX_UTIME_NOW)
           then r ← hcall "gettimeofday" []; mret (fld (outbuf (h_out r) 0) 0, fld (outbuf (h_out r) 0) 1)
           else mret (0, 0));
    let times0 := if tv_nsec t0 =? LINUX_UTIME_NOW then now else times0 in
    let times1 := if tv_nsec t1 =? LINUX_UTIME_NOW then now else times1 in
    st ← (if (tv_nsec t0 =? LINUX_UTIME_OMIT) || (tv_nsec t1 =? LINUX_UTIME_OMIT)
          then r ← hcall "fstat" [HI fd]; mret (if s32 (h_ret r) <? 0 then None else Some (stat_of (outbuf (h_out r) 0)))
          else mret (Some (stat_of [])));
    match st with
    | None => mret (- LINUX_EPERM)
    | Some st =>
      let times0 := if tv_nsec t0 =? LINUX_UTIME_OMIT then to_timeval (st_atimespec st).1 (st_atimespec st).2 else times0 in
      let times1 := if tv_nsec t1 =? LINUX_UTIME_OMIT then to_timeval (st_mtimespec st).1 (st_mtimespec st).2 else times1 in
      sysw "futimes" [HI fd; HI times0.1; HI times0.2; HI times1.1; HI times1.2]
    end
  end.

Definition do_utimensat (dirfd : Z) (name : option (list Z)) (l_times : option (l_timespec * l_timespec)) (flags : Z) : K Z :=
  fd ← match name with
       | None => mret dirfd
       | Some name =>
         let lflags := if testf flags LINUX_AT_SYMLINK_NOFOLLOW then Z.lor LINUX_O_NOFOLLOW LINUX_O_PATH else 0 in
         vkern_openat dirfd name lflags 0
       end;
  if bool_decide (is_Some name) && (fd <? 0) then mret fd
  else
    r ← set_times fd l_times;
    when_ (negb (fd =? dirfd)) (_ ← vkern_close fd; mret tt);;
    mret r.

(** A path of the guest; [strncpy_from_user] fails with a negative number. *)
Definition path_in (ptr : Z) (rest : list Z -> K Z) : K Z :=
  '(r, name) ← k_strncpy_from_user ptr LINUX_PATH_MAX;
  if r <? 0 then mret (- LINUX_EFAULT) else rest name.

Definition sys_utimensat (dirfd filename times_ptr flags : Z) : K Z :=
  let go (name : option (list Z)) : K Z :=
    if times_ptr =? 0 then do_utimensat dirfd name None flags
    else copy_in times_ptr (2 * sizeof_l_timespec) (fun bs =>
      do_utimensat dirfd name (Some (dec_timespec bs, dec_timespec (drop 16 bs))) flags) in
  if filename =? 0 then go None else path_in filename (fun name => go (Some name)).

(** The [struct timeval]s of the guest are read as [struct l_timespec]s. *)
Definition sys_utimes (filename times_ptr : Z) : K Z := sys_utimensat LINUX_AT_FDCWD filename times_ptr 0.

Definition sys_utime (path times : Z) : K Z :=
  path_in path (fun name =>
    if times =? 0 then do_utimensat LINUX_AT_FDCWD (Some name) None 0
    else copy_in times 16 (fun bs =>
      do_utimensat LINUX_AT_FDCWD (Some name)
        (Some (mk_timespec (swrap 64 (field bs 0 8)) 0, mk_timespec (swrap 64 (field bs 8 8)) 0)) 0)).

End Time.

(** ** Theorems *)

(** The bytes of a number read back *)
Lemma le_encode_decode bs : Forall (fun b => 0 <= b < 256) bs -> le_encode (length bs) (le_decode bs) = bs.
Proof.
  induction 1 as [|b bs Hb _ IH]; [done|]. cbn [length le_encode le_decode].
  replace (b + 256 * le_decode bs) with (b + le_decode bs * 256) by lia.
  rewrite Z_mod_plus_full, Z_div_plus_full by lia. rewrite Z.mod_small, Z.div_small, Z.add_0_l by lia. by rewrite IH.
Qed.

Lemma le_decode_bound bs : Forall (fun b => 0 <= b < 256) bs -> 0 <= le_decode bs < 256 ^ Z.of_nat (length bs).
Proof.
  induction 1 as [|b bs Hb _ IH]; [simpl; lia|]. cbn [length le_decode]. rewrite Nat2Z.inj_succ, Z.pow_succ_r by lia. lia.
Qed.

(** Encoding does not see the sign. *)
Lemma le_encode_mod n v w : v mod 256 ^ Z.of_nat n = w mod 256 ^ Z.of_nat n -> le_encode n v = le_encode n w.
Proof.
  revert v w. induction n as [|n IH]; intros v w E; [done|]. cbn [le_encode].
  rewrite Nat2Z.inj_succ, Z.pow_succ_r in E by lia.
  assert (0 < 256 ^ Z.of_nat n) as Hp by (apply Z.pow_pos_nonneg; lia).
  rewrite !Z.rem_mul_r in E by lia. f_equal; [Z.div_mod_to_equations; lia|]. apply IH.
  assert (v mod 256 = w mod 256) by (Z.div_mod_to_equations; lia). lia.
Qed.

Lemma swrap_mod w x : 0 < w -> swrap w x mod 2 ^ w = x mod 2 ^ w.
Proof.
  intros Hw. unfold swrap. destruct (x mod 2 ^ w <? 2 ^ (w - 1)).
  - apply Z.mod_mod. lia.
  - rewrite <- (Z_mod_plus_full _ 1). replace (x mod 2 ^ w - 2 ^ w + 1 * 2 ^ w) with (x mod 2 ^ w) by lia. apply Z.mod_mod. lia.
Qed.

Lemma s32_id x : - 2 ^ 31 <= x < 2 ^ 31 -> s32 x = x.
Proof. intros Hx. destruct (Z.lt_ge_cases x 0); [apply swrap_neg|apply swrap_small]; simpl; lia. Qed.

Lemma enc_field bs off : Forall (fun b => 0 <= b < 256) bs -> (off + 8 <= length bs)%nat ->
  le_encode 8 (swrap 64 (field bs off 8)) = take 8 (drop off bs).
Proof.
  intros Hb Hl. assert (length (take 8 (drop off bs)) = 8%nat) as L by (rewrite length_take, length_drop; lia).
  rewrite (le_encode_mod 8 _ (field bs off 8)).
  - unfold field. rewrite <- L at 1. apply le_encode_decode. by apply Forall_take, Forall_drop.
  - change (256 ^ Z.of_nat 8) with (2 ^ 64). by apply swrap_mod.
Qed.

Section TimeFacts.
Context `{OS} `{DarwinErrno} `{DarwinConst} `{Heap}.

Lemma itimer_roundtrip bs :
  length bs = 32%nat -> Forall (fun b => 0 <= b < 256) bs ->
  let l := dec_itimerval bs in
  - 2 ^ 31 <= l_int_usec l < 2 ^ 31 -> - 2 ^ 31 <= l_val_usec l < 2 ^ 31 ->
  enc_itimerval (darwin_to_linux_itimerval (linux_to_darwin_itimerval l)) = bs.
Proof.
  intros Hl Hb l H1' H2'. unfold enc_itimerval, enc_time, enc, darwin_to_linux_itimerval, linux_to_darwin_itimerval. cbn [l_int_sec l_int_usec
    l_val_sec l_val_usec int_sec int_usec val_sec val_usec]. rewrite !s32_id by done.
  unfold l, dec_itimerval. cbn [l_int_sec l_int_usec l_val_sec l_val_usec].
  cbn [mbind list_bind fst snd]. rewrite !enc_field by (done || lia). rewrite !app_nil_r, <- !app_assoc.
  do 32 (destruct bs as [|? bs]; [discriminate|]). by destruct bs.
Qed.

(** What [utimensat] sets for one of the two times *)
Definition chosen (t : l_timespec) (now current : Z * Z) : Z * Z :=
  if tv_nsec t =? LINUX_UTIME_NOW then now
  else if tv_nsec t =? LINUX_UTIME_OMIT then current
  else to_timeval (tv_sec t) (tv_nsec t).
Definition timeval_of (r : hres) : Z * Z := (fld (outbuf (h_out r) 0) 0, fld (outbuf (h_out r) 0) 1).
Definition usec_of (ts : Z * Z) : Z * Z := to_timeval ts.1 ts.2.

(** [utimensat] on a descriptor sets each of the two times independently: to the
    present for UTIME_NOW, to what the file has for UTIME_OMIT, else to the time given in
    microseconds.  The clock and the file are asked only when needed, and a file that cannot be asked
    is -EPERM with nothing set. *)
Theorem utimensat_spec fd t0 t1 flags k :
  let any n := (tv_nsec t0 =? n) || (tv_nsec t1 =? n) in
  let rn := os (k_trace k) "gettimeofday" [] in
  let k1 := if any LINUX_UTIME_NOW then add_event (mk_event "gettimeofday" [] rn) k else k in
  let rs := os (k_trace k1) "fstat" [HI fd] in
  let k2 := if any LINUX_UTIME_OMIT then add_event (mk_event "fstat" [HI fd] rs) k1 else k1 in
  let st := stat_of (outbuf (h_out rs) 0) in
  let a := chosen t0 (timeval_of rn) (usec_of (st_atimespec st)) in
  let b := chosen t1 (timeval_of rn) (usec_of (st_mtimespec st)) in
  let args := [HI fd; HI a.1; HI a.2; HI b.1; HI b.2] in
  let r := os (k_trace k2) "futimes" args in
  do_utimensat fd None (Some (t0, t1)) flags k =
  if any LINUX_UTIME_OMIT && (s32 (h_ret rs) <? 0) then Done (- LINUX_EPERM) k2
  else Done (syswrap (h_ret r) (h_errno r)) (add_event (mk_event "futimes" args r) k2).
Proof.
  intros any rn k1 rs k2 st a b args r. unfold do_utimensat. cbn [bool_decide andb]. msimp.
  rewrite bool_decide_false by (intros []; done). cbn [andb]. rewrite Z.eqb_refl. cbn [negb].
  assert (set_times fd (Some (t0, t1)) k =
    if any LINUX_UTIME_OMIT && (s32 (h_ret rs) <? 0) then Done (- LINUX_EPERM) k2
    else Done (syswrap (h_ret r) (h_errno r)) (add_event (mk_event "futimes" args r) k2)) as ->; [|by destruct (any _ && _)].
  subst any k1 k2 a b args r rn rs st. unfold set_times, chosen, sysw. msimp. cbv beta zeta.
  destruct (Z.eqb_spec (tv_nsec t0) LINUX_UTIME_NOW) as [E0|], (Z.eqb_spec (tv_nsec t1) LINUX_UTIME_NOW) as [E1|],
    (Z.eqb_spec (tv_nsec t0) LINUX_UTIME_OMIT) as [E2|], (Z.eqb_spec (tv_nsec t1) LINUX_UTIME_OMIT) as [E3|];
    try (rewrite ?E0, ?E1 in *; discriminate); cbn [orb andb]; rewrite ?hcall_run; cbv beta iota; rewrite ?hcall_run; cbv beta iota;
    try (destruct (s32 _ <? 0)); cbv beta iota; rewrite ?hcall_run; reflexivity.
Qed.

(** What [setitimer] hands the host for the guest's 32 bytes *)
Definition itimer_args (which_ : Z) (bs : list Z) : list harg :=
  let v := linux_to_darwin_itimerval (dec_itimerval bs) in
  [HI which_; HI (int_sec v); HI (int_usec v); HI (val_sec v); HI (val_usec v)].

(** A timer the guest sets reads back: on a host whose [getitimer] answers the value
    the last [setitimer] was given, [setitimer] from a readable structure followed by [getitimer]
    into a writable one stores there the 32 bytes the guest had set, byte for byte.
    The microseconds are those an [int] holds; Darwin has no wider ones. *)
Theorem itimer_set_get k which_ new_ptr ret_ptr bs :
  umem_ok (k_um k) -> 0 < new_ptr -> new_ptr + 32 < 2 ^ 64 - 4096 -> 0 <= ret_ptr -> ret_ptr + 32 < 2 ^ 64 - 4096 ->
  user_bytes (k_um k) new_ptr 32 = bs -> length bs = 32%nat -> Forall (fun b => 0 <= b < 256) bs ->
  user_mapped (k_um k) ret_ptr 32 = 32%nat ->
  - 2 ^ 31 <= l_int_usec (dec_itimerval bs) < 2 ^ 31 -> - 2 ^ 31 <= l_val_usec (dec_itimerval bs) < 2 ^ 31 ->
  let rset := os (k_trace k) "setitimer" (itimer_args which_ bs) in
  let k1 := add_event (mk_event "setitimer" (itimer_args which_ bs) rset) k in
  let rget := os (k_trace k1) "getitimer" [HI which_] in
  syswrap (h_ret rset) (h_errno rset) = 0 -> syswrap (h_ret rget) (h_errno rget) = 0 ->
  itimerval_of (outbuf (h_out rget) 0) = linux_to_darwin_itimerval (dec_itimerval bs) ->
  (sys_setitimer which_ new_ptr 0 ≫= fun r => if r =? 0 then sys_getitimer which_ ret_ptr else mret r) k =
  Done 0 (set_um (user_write (k_um k) ret_ptr bs) (add_event (mk_event "getitimer" [HI which_] rget) k1)).
Proof.
  intros Hu Hn Hnb Hr Hrb Hbs Hl Hbytes Hm Hi Hv rset k1 rget Es Eg Ev.
  assert (sys_setitimer which_ new_ptr 0 k = Done 0 k1) as E1.
  { unfold sys_setitimer. rewrite (proj2 (Z.eqb_neq new_ptr 0)) by lia. unfold copy_in. msimp.
    rewrite k_copy_from_user_ok by (done || lia). change (Z.to_nat sizeof_l_itimerval) with 32%nat. rewrite Hbs, Hl.
    change (negb (sizeof_l_itimerval - Z.of_nat 32 =? 0)) with false. cbv iota. unfold sysw_out. msimp. rewrite hcall_run.
    fold (itimer_args which_ bs). fold rset. rewrite Es. done. }
  rewrite (bind_Done _ _ _ _ _ E1). change (0 =? 0) with true. cbv iota. unfold sys_getitimer, sysw_out. msimp.
  rewrite hcall_run. fold rget. rewrite Eg. change (0 <? 0) with false. cbv iota.
  rewrite Ev, itimer_roundtrip by done. rewrite copy_out_ok by (exact Hu || lia). rewrite Hl. simpl k_um.
  by rewrite bool_decide_true by done.
Qed.

End TimeFacts.

(** ** Runs *)

(** A host whose clock is at second 100 and whose [getitimer] has the timer of [itimer_demo] *)
Definition time_os : OS := {|
  os _ call _ := if String.eqb call "gettimeofday" then mk_hres 0 0 [[100; 7; 0; 0]]
                 else if String.eqb call "fstat" then mk_hres 0 0 [[0; 0; 0; 0; 0; 0; 0; 0; 50; 3000; 60; 4000]]
                 else if String.eqb call "getitimer" then mk_hres 0 0 [[1; 500000; 2; 250000]] else mk_hres 0 0 [];
  uninit _ := repeat 65 200 |}.
Definition itimer_demo : list Z := enc_itimerval (mk_l_itimerval 1 500000 2 250000).
Definition ktime : kstate := set_um (user_write u3p 0x10000 itimer_demo) k0.

Section Runs.
#[local] Existing Instances time_os macos_errno macos_const roomy_heap.

Lemma itimer_set_get_witness :
  exists k', (sys_setitimer 0 0x10000 0 ≫= fun r => if r =? 0 then sys_getitimer 0 0x11000 else mret r) ktime = Done 0 k'.
Proof.
  eexists. apply (itimer_set_get ktime 0 0x10000 0x11000 itimer_demo).
  - apply user_write_ok, u3p_ok.
  - lia.
  - lia.
  - lia.
  - lia.
  - vm_compute. reflexivity.
  - vm_compute. reflexivity.
  - apply (bool_decide_unpack _). vm_compute. exact I.
  - vm_compute. reflexivity.
  - vm_compute. split; congruence.
  - vm_compute. split; congruence.
  - reflexivity.
  - reflexivity.
  - vm_compute. reflexivity.
Defined.

(** [utimes] with 3 s and 500000 us sets 500 us; [nanosleep] that sleeps to its end overwrites the
    guest's second structure with stack contents; a clock Darwin lacks ends the process. *)
Theorem time_departures :
  (exists r k', sys_utimes 0 0x10000 (set_um (user_write u3p 0x10000 (enc_time 3 500000 ++ enc_time 3 500000)) k0) = Done r k' /\
     option_map ev_args (head (k_trace k')) = Some [HI LINUX_AT_FDCWD; HI 3; HI 500; HI 3; HI 500]) /\
  (exists r k', sys_nanosleep 0x10000 0x11000 ktime = Done r k' /\ r = 0 /\ user_bytes (k_um k') 0x11000 16 = repeat 65 16) /\
  sys_clock_gettime 7 0x10000 k0 = Stop Panic k0.
Proof.
  split_and!; [| |vm_compute; reflexivity]; unshelve eapply run_test; vm_compute; reflexivity.
Qed.

End Runs.
