(* ===== verification/Sys.v ===== *)
(** * System information, System V IPC and ptrace ([src/sys/sys.c], [src/ipc/sem.c],
    [src/mm/shm.c], [src/proc/ptrace.c]) *)

From S2P Require Import Prelude RBTree Const Errno Conv Mm Mmap MmapFacts MmInv MmSys.
From S2P Require Import UserMem FdTable Kernel Files Path FileOps PathOps FdSys Task Signal Exec.

(** [include/linux/random.h], [include/linux/ipc.h], [include/linux/misc.h] *)
Definition GRND_NONBLOCK : Z := 1.
Definition GRND_RANDOM : Z := 2.
Definition LINUX_IPC_PRIVATE : Z := 0.
Definition LINUX_IPC_CREAT : Z := 0x200.
Definition LINUX_IPC_EXCL : Z := 0x400.
Definition LINUX_IPC_NOWAIT : Z := 0x800.
Definition LINUX_IPC_RMID : Z := 0.
Definition LINUX_SEM_UNDO : Z := 0x1000.
Definition LINUX_SYSINFO_LOADS_SCALE : Z := 65536.
Definition sizeof_l_sembuf : Z := 6.

(** [struct l_sysinfo]: its fields and, in [pad], what its padding holds *)
Record l_sysinfo := mk_l_sysinfo {
  uptime : Z; loads : list Z; totalram : Z; freeram : Z; sharedram : Z; bufferram : Z;
  totalswap : Z; freeswap : Z; procs : Z; totalhigh : Z; freehigh : Z; mem_unit : Z;
}.
Definition enc_sysinfo (pad : list Z) (i : l_sysinfo) : list Z :=
  le_encode 8 (uptime i) ++ (loads i ≫= le_encode 8) ++
  enc [(8%nat, totalram i); (8%nat, freeram i); (8%nat, sharedram i); (8%nat, bufferram i); (8%nat, totalswap i);
       (8%nat, freeswap i); (2%nat, procs i)] ++ resize 6 0 pad ++
  enc [(8%nat, totalhigh i); (8%nat, freehigh i); (4%nat, mem_unit i)] ++ resize 4 0 pad.

Section Sys.
Context `{OS} `{DarwinErrno} `{DarwinConst} `{Heap}.

(** ** [sysinfo] *)

(** [sysctlbyname(name, buf, &len, NULL, 0)] into [n] bytes that held [before] *)
Definition sysctlbyname (name : string) (n : nat) (before : list Z) : K (list Z) :=
  r ← hcall "sysctlbyname" [HS (str name); HI (Z.of_nat n)];
  if s32 (h_ret r) <? 0 then halt (Exit 1)
  else mret (resize n 0 (outbuf (h_out r) 0 ++ drop (length (outbuf (h_out r) 0)) before)).

(** A load average, a [double] [m * 2 ^ e], times the scale, which is a power of two *)
Definition scaled_load (m e : Z) : Z := u64 (Z.shiftl m (e + Z.log2 LINUX_SYSINFO_LOADS_SCALE)).

(** [getloadavg] answers mantissa and exponent of the three averages. *)
Definition sys_sysinfo (info_ptr : Z) : K Z :=
  k ← get;
  let stack := uninit (k_trace k) in
  boottime ← sysctlbyname "kern.boottime" 16 stack;
  l ← hcall "getloadavg" [HI 3];
  if s32 (h_ret l) <? 0 then halt Panic
  else
    let avg := outbuf (h_out l) 0 in
    memsize ← sysctlbyname "hw.memsize" 8 stack;
    freepages ← sysctlbyname "vm.page_free_count" 8 stack;
    swapinfo ← sysctlbyname "vm.swapusage" 32 (repeat 0 32);
    let swap i := field swapinfo (8 * i) 8 in
    let info := mk_l_sysinfo (field boottime 0 8)
      [scaled_load (fld avg 0) (fld avg 1); scaled_load (fld avg 2) (fld avg 3); scaled_load (fld avg 4) (fld avg 5)]
      (field memsize 0 8) (u64 (field freepages 0 8 * 0x1000)) 0 0 (swap 0%nat)
      (if swap 3%nat =? 0 then swap 2%nat else swap 1%nat) 100 0 0 1 in
    copy_out info_ptr (enc_sysinfo stack info) 0.

(** ** [getrandom] *)

(** The descriptor is not closed. *)
Definition sys_getrandom (buf_ptr count flags : Z) : K Z :=
  if negb (clearf flags (Z.lor GRND_RANDOM GRND_NONBLOCK) =? 0) then mret (- LINUX_EINVAL)
  else
    let source := if testf flags GRND_RANDOM then str "/dev/random" else str "/dev/urandom" in
    let oflags := Z.lor (D "O_RDONLY") (if testf flags GRND_NONBLOCK then D "O_NONBLOCK" else 0) in
    f ← hcall "open" [HS source; HI oflags];
    let fd := s32 (h_ret f) in
    if fd <? 0 then mret (- darwin_to_linux_errno (h_errno f))
    else
      '(r, o) ← sysw_out "read" [HI fd; HI (Z.b2z (heap_ok count)); HI count];
      if r <? 0 then mret r
      else if negb (heap_ok count) && (0 <? count) then halt Fault
      else k ← get; copy_out buf_ptr (bufbytes k o 0 count) r.

(** ** Semaphores *)

(** [linux_to_darwin_semflg]: what is not one of the three flags fails the assertion. *)
Definition linux_to_darwin_semflg (l_semflg : Z) : K Z :=
  let step (st : Z * Z) (m : Z) (d : Z) :=
    if testf st.1 m then (clearf st.1 m, Z.lor st.2 d) else st in
  let st := step (l_semflg, 0) LINUX_IPC_CREAT (D "IPC_CREAT") in
  let st := step st LINUX_IPC_EXCL (D "IPC_EXCL") in
  let st := step st LINUX_IPC_NOWAIT (D "IPC_NOWAIT") in
  assert_ (st.1 =? 0);;
  mret st.2.

Definition sys_semget (key nsems semflg : Z) : K Z :=
  flg ← linux_to_darwin_semflg semflg;
  sysw "semget" [HI (Z.lor key (D "IPC_PRIVATE")); HI nsems; HI flg].

(** The guest's operations are copied over the pointer [l_tsops] itself, 8 bytes, which
    is then dereferenced, or freed when the copy failed. *)
Definition sys_semop (semid tsops_ptr nsops : Z) : K Z :=
  '(e, bs) ← k_copy_from_user tsops_ptr (sizeof_l_sembuf * nsops);
  if 8 <? Z.of_nat (length bs) then halt Overflow
  else if negb (bool_decide (bs = [])) then halt Fault
  else if negb (e =? 0) then mret (- LINUX_EFAULT)
  else sysw "semop" [HI semid; HI nsops].

Definition sys_semctl (semid semnum cmd arg : Z) : K Z := mret (- LINUX_ENOSYS).

(** ** [ptrace] *)

Definition sys_ptrace (request pid addr data : Z) : K Z := mret (- LINUX_ENOSYS).

(** ** Shared memory *)

Definition sys_shmget (l_key size l_shmflg : Z) : K Z :=
  let shmflg := if testf l_shmflg LINUX_IPC_EXCL then D "IPC_EXCL" else 0 in
  let shmflg := if testf l_shmflg LINUX_IPC_CREAT then Z.lor shmflg (D "IPC_CREAT") else shmflg in
  let key := if negb (l_key =? LINUX_IPC_PRIVATE) then l_key else D "IPC_PRIVATE" in
  sysw "shmget" [HI key; HI size; HI shmflg].

Definition sys_shmctl (shmid cmd buf_ptr : Z) : K Z :=
  if cmd =? LINUX_IPC_RMID then sysw "shmctl" [HI shmid; HI (D "IPC_RMID")] else mret (- LINUX_ENOSYS).

End Sys.

Section Shmat.
Context `{OS} `{DarwinErrno} `{DarwinConst} `{Heap} `{Host} `{HostMem}.

(** The part that enters the segment at [ptr] into the guest's address space *)
Definition shm_attach (ptr len : Z) : M world Z :=
  addr ← alloc_region len;
  _ ← do_munmap addr len;
  _ ← on_mm (record_region ptr addr len (Z.lor LINUX_PROT_READ LINUX_PROT_WRITE)
               (Z.lor LINUX_MAP_PRIVATE LINUX_MAP_FIXED) (-1) 0);
  vmm_mmap addr len (Z.lor HV_MEMORY_READ HV_MEMORY_WRITE) ptr;;
  mret addr.

(** [shmctl] answers the size of the segment. *)
Definition sys_shmat (shmid addr shmflg : Z) : X Z :=
  if negb (addr =? 0) then mret (- LINUX_ENOSYS)
  else
    assert_ (shmflg =? 0);;
    r ← lkx (hcall "shmat" [HI shmid; HI 0; HI shmflg]);
    if h_ret r =? -1 then mret (- linux_to_darwin_errno (h_errno r))
    else
      ds ← lkx (hcall "shmctl" [HI shmid; HI (D "IPC_STAT")]);
      lw (shm_attach (u64 (h_ret r)) (u64 (fld (outbuf (h_out ds) 0) 0))).

End Shmat.

(** ** Attaching a segment *)

Section ShmatFacts.
Context `{Host} `{DarwinErrno} `{!HostOk}.

Definition shm_prot : Z := Z.lor LINUX_PROT_READ LINUX_PROT_WRITE.
Definition shm_flags : Z := Z.lor LINUX_MAP_PRIVATE LINUX_MAP_FIXED.

Lemma shm_attach_inv w ptr len :
  winv w -> 0 < len <= 2 ^ 31 -> len mod 4096 = 0 -> current_mmap_top (w_mm w) + len <= user_addr_max ->
  ensures (shm_attach ptr len) (fun _ w' => winv w') w.
Proof.
  intros Hw Hl Ha Hb. pose proof (inv_top _ Hw). pose proof (inv_top_al _ Hw). unfold shm_attach. estep.
  apply (alloc_region_ensures (lim := user_addr_max)); try done; [lia|]. intros w1 Hw1 _ _. estep.
  destruct (do_munmap_inv (lim := user_addr_max) w1 (current_mmap_top (w_mm w)) len) as (e & w2 & E & Hw2 & _); [done|lia|unfold user_addr_max in *; lia| |].
  { unfold user_addr_max in *. change PAGE with 4096. rewrite roundup_aligned; lia. }
  eapply ensures_Done; [exact E|]. apply (record_map_inv (lim := user_addr_max)); try done; lia.
Qed.

(** C39: attaching a shared memory segment of whole pages, when the range at
    [current_mmap_top] is free: the guest gets that address, the mark moves past the segment,
    and exactly the segment's addresses are mapped to the memory the host attached, in the
    regions and in the hypervisor, readable and writable; the invariant of the memory
    system is kept. *)
Theorem shm_attach_spec w ptr len :
  let top := current_mmap_top (w_mm w) in
  reach w -> ptr mod 4096 = 0 -> 0 < len <= 2 ^ 31 -> len mod 4096 = 0 -> top + len <= user_addr_max ->
  (forall x r, heap (w_mm w) !! x = Some r -> ~ overlaps (req top len) r) ->
  (forall tr, hv_vm_map_ok tr = true) ->
  exists w', shm_attach ptr len w = Done top w' /\ winv w' /\
    current_mmap_top (w_mm w') = top + len /\
    (forall a, aspace (w_mm w') a =
       if (top <=? a) && (a <? top + len) then Some (u64 (ptr + a - top), shm_prot, shm_flags, -1)
       else aspace (w_mm w) a) /\
    (forall a, ept (w_trace w') a =
       if (top <=? a) && (a <? top + len) then Some (u64 (ptr + a - top)) else ept (w_trace w) a).
Proof.
  intros top Hr Hp Hl Hal Hu Hno Hhv. apply reach_winv in Hr.
  pose proof (inv_top _ Hr) as Ht. pose proof (inv_top_al _ Hr) as Hta. fold top in Ht, Hta.
  assert (roundup len PAGE = len) as Hrl by (unfold user_addr_max in *; change PAGE with 4096; apply roundup_aligned; lia).
  destruct (len_bounds top len) as (Hl1 & Hl2 & Hq); [done|lia|done|by rewrite Hrl|].
  set (w1 := mk_world (set_mmap_top (top + len) (w_mm w)) (w_vkern w) (noah_kern_brk w) (w_trace w)).
  assert (winv w1) as Hw1.
  { apply winv_top; [done|lia|]. by rewrite Zplus_mod, Hal, Hta. }
  destruct (clear_map_ok w1 top len shm_prot shm_flags (-1) 0 (Z.lor HV_MEMORY_READ HV_MEMORY_WRITE) ptr)
    as (w' & E & Hm & _ & Hsf & Has & He); try done; try (by destruct Hw1); [lia| |].
  { apply single_lowest; try done; unfold user_addr_max in *; rewrite ?Hrl; try lia.
    intros x y rx ry Hx _ Hox. by destruct (Hno x rx). }
  rewrite Hrl in E, Has, He.
  assert (shm_attach ptr len w = Done top w') as Es.
  { unfold shm_attach. rewrite (bind_Done _ _ w top w1); [exact E|].
    unfold alloc_region. msimp. unfold on_mm. simpl. rewrite Hrl. unfold user_addr_max in *. fold top.
    rewrite (wrap_small 64 (top + len)), wrap_small by lia. by replace (top + len - len) with top by lia. }
  pose proof (shm_attach_inv w ptr len Hr ltac:(lia) Hal Hu) as Hi. unfold ensures in Hi. rewrite Es in Hi.
  exists w'. split_and!; try done. by rewrite (sf_top _ _ Hsf).
Qed.

(** A segment that is not a whole number of pages is refused by an assertion of
    [vmm_mmap], after the region has been recorded. *)
Theorem shm_attach_unaligned w ptr len :
  len mod 4096 <> 0 -> ensures (shm_attach ptr len) (fun _ _ => False) w.
Proof.
  intros Hl. unfold shm_attach. do 3 (estep; apply (ensures_mono _ (fun _ _ => True)); [intros|unfold ensures; by case_match]).
  unfold vmm_mmap. repeat estep. apply is_page_aligned_spec in Hassert1. done.
Qed.

End ShmatFacts.

(** ** Runs *)

(** A host whose [read] returns two bytes, of the descriptor 9 it opened *)
Definition sys_os : OS := {|
  os _ call _ := if String.eqb call "open" then mk_hres 9 0 []
                 else if String.eqb call "read" then mk_hres 2 0 [[1; 2]]
                 else if String.eqb call "sysctlbyname" then mk_hres 0 0 [[0; 0x10; 0; 0]] else mk_hres 0 0 [];
  uninit _ := repeat 65 200 |}.

Section Runs.
#[local] Existing Instances demo_host demo_host_ok macos_errno macos_const roomy_heap sys_os.

Lemma shm_attach_spec_witness :
  exists w', shm_attach 0x500000000 0x2000 w3p = Done (current_mmap_top (w_mm w3p)) w' /\
    aspace (w_mm w') (current_mmap_top (w_mm w3p) + 5) = Some (0x500000005, shm_prot, shm_flags, -1).
Proof.
  destruct (shm_attach_spec w3p 0x500000000 0x2000) as (w' & E & _ & _ & Ha & _);
    [apply w3p_reach|reflexivity|lia|reflexivity|vm_compute; congruence| |reflexivity|].
  - intros x r Hx [Ho _]. assert (map_Forall (fun _ r => gaddr r + Mm.size r <= current_mmap_top (w_mm w3p)) (heap (w_mm w3p))) as Hall
      by (apply (bool_decide_unpack _); vm_compute; exact I).
    specialize (Hall x r Hx). simpl in *. lia.
  - exists w'. split; [exact E|]. rewrite Ha. vm_compute. reflexivity.
Defined.

(** [semget] with permission bits fails an assertion; [semop] dereferences the guest's bytes as a
    pointer, whatever they are; [shmget] drops the permission bits; [getrandom] of two of eight bytes
    stores eight, six of them never read, and leaves the device open; and [sysinfo] reports as free
    memory a count of which the host wrote the lower half only. *)
Theorem sys_departures :
  sys_semget 1 1 (Z.lor LINUX_IPC_CREAT 0x180) k0 = Stop AssertFail k0 /\
  sys_semop 0 0x10000 1 k0 = Stop Fault k0 /\
  (exists r k', sys_shmget 1 4096 (Z.lor LINUX_IPC_CREAT 0x180) k0 = Done r k' /\
     option_map ev_args (head (k_trace k')) = Some [HI 1; HI 4096; HI (D "IPC_CREAT")]) /\
  (exists r k', sys_getrandom 0x10000 8 0 k0 = Done r k' /\ r = 2 /\ user_bytes (k_um k') 0x10000 8 = [1; 2] ++ repeat 65 6 /\
     ev_call <$> k_trace k' = ["read"; "open"]%string) /\
  (exists r k', sys_sysinfo 0x10000 k0 = Done r k' /\ field (user_bytes (k_um k') 0x10000 112) 40 8 = u64 (0x4141414100001000 * 0x1000)).
Proof.
  split; [reflexivity|]. split; [reflexivity|]. split_and!; unshelve eapply run_test; vm_compute; reflexivity.
Qed.

End Runs.
