(* ===== verification/Syscalls.v ===== *)
(** * The system calls together ([include/common.h], [src/base.c], [src/mm/mm.c], [src/main.c])

    [DEFINE_SYSCALL] wraps every handler in a function of six 64-bit arguments that casts
    them to the handler's types and traces the call.  The handlers work on different parts of
    the state; here is the state that has them all, each handler lifted to it, the table
    of the wrapped handlers, and the program: [main] around the main loop with that table. *)

From S2P Require Import Prelude RBTree Const Errno Conv Mm Mmap MmapFacts MmInv MmSys UserMem FdTable Kernel Files Path.
From S2P Require Import FileOps PathOps FdSys ShmMalloc Futex Task Signal Debug Strace Exec Fork Process PageTable Boot MainLoop Net TimeSys Sys.

(** ** Four small handlers of [src/mm/mm.c] *)

Definition LINUX_MPOL_DEFAULT : Z := 0.

Section MmSmall.
Context `{Heap}.

Definition sys_madvise (addr length advice : Z) : K Z := mret 0.
Definition sys_mlock (addr length : Z) : K Z := mret 0.
Definition sys_munlock (addr length : Z) : K Z := mret 0.

Definition sys_get_mempolicy (policy nmask maxnode addr flags : Z) : K Z :=
  let maxnode := roundup maxnode 8 in
  if negb (flags =? 0) then mret (- LINUX_ENOSYS)
  else
    assert_ (addr =? 0);;
    e ← k_copy_to_user policy (le_encode 4 LINUX_MPOL_DEFAULT);
    if negb (e =? 0) then mret (- LINUX_EFAULT)
    else
      let size := maxnode / 64 in
      alloca (8 * size);;
      copy_out nmask (replicate (Z.to_nat (8 * size)) 0) 0.

End MmSmall.

(** ** The state of the program *)

(** A task, the memory system, the virtual machine, and the futexes of the process; guest memory
    is the task's. *)
Record core := mk_core { c_v : vstate; c_futex : fstate }.

#[global] Instance core_task : HasTask core :=
  {| task_of c := task_of (c_v c); set_task t c := mk_core (set_task t (c_v c)) (c_futex c) |}.
#[global] Instance core_task_ok : HasTaskOk core.
Proof. split; [done|by intros [[[]]]|done]. Qed.

(** The trace file stands beside it. *)
Abbreviation machine := (core * option string)%type.

Definition lv {A} (c : M vstate A) : M core A := fun s =>
  match c (c_v s) with
  | Done a v => Done a (mk_core v (c_futex s))
  | Stop w v => Stop w (mk_core v (c_futex s))
  end.
Definition lp {A} (c : M pstate A) : M core A := fun s =>
  let back p := mk_core (set_task (p_task p) (c_v s)) (p_futex p) in
  match c (mk_pstate (task_of s) (c_futex s)) with
  | Done a p => Done a (back p)
  | Stop w p => Stop w (back p)
  end.

(** What the rest of the system does while this thread is blocked on a futex, until the
    wait ends, and how; [None] when it never does. *)
Class Waiting := { until_woken : pstate -> option (wakeup * pstate) }.

(** ** The wrapped handlers *)

Definition handler : Type := Z -> Z -> Z -> Z -> Z -> Z -> M machine Z.

Section Handlers.
Context `{OS} `{DarwinErrno} `{DarwinConst} `{Heap} `{Host} `{HostMem} `{HostCpu} `{KernImage} `{Guest} `{Waiting} `{TraceEnv}.
(** Bounds the chain of interpreters of [do_exec] *)
Context (exec_fuel : nat).

(** The handlers of the memory system *)
Definition mem {A} (c : M world A) : M machine A := unseen (lv (lx (lw c))).

(** The creator of a thread goes on; the thread it made runs on its own. *)
Definition creator (c : M vstate (Z * option tstate)) : M core Z := '(r, _) ← lv c; mret r.

(** [futex] with its wait *)
Definition futex_wait_woken (a : futex_args) : P Z :=
  t ← pt get;
  r ← pf (futex_call (t_tid t) a);
  match r with
  | Some r => mret r
  | None =>
    p ← get;
    match until_woken p with
    | None => halt Diverge
    | Some (k, p) => put p;; pf (wait_end (t_tid t) k)
    end
  end.

(** [_sys_name] for each [DEFINE_SYSCALL(name, ...)]: [int] arguments are the low 32 bits
    with their sign, unsigned ones without, [long] and [off_t] are signed. *)
Definition handlers (nested : M machine unit) : list (string * handler) :=
  [("accept", fun a1 a2 a3 _ _ _ => on_task (lk (sys_accept (s32 a1) a2 a3)));
   ("access", fun a1 a2 _ _ _ _ => on_task (lk (sys_access a1 (s32 a2))));
   ("alarm", fun a1 _ _ _ _ _ => on_task (sys_alarm (u32 a1)));
   ("arch_prctl", fun a1 a2 _ _ _ _ => on_task (sys_arch_prctl (s32 a1) a2));
   ("bind", fun a1 a2 a3 _ _ _ => on_task (lk (sys_bind (s32 a1) a2 (s32 a3))));
   ("brk", fun a1 _ _ _ _ _ => mem (sys_brk a1));
   ("capget", fun a1 a2 _ _ _ _ => on_task (lk (sys_capget a1 a2)));
   ("chdir", fun a1 _ _ _ _ _ => on_task (lk (sys_chdir a1)));
   ("chmod", fun a1 a2 _ _ _ _ => on_task (lk (sys_chmod a1 (s32 a2))));
   ("chown", fun a1 a2 a3 _ _ _ => on_task (lk (sys_chown a1 (s32 a2) (s32 a3))));
   ("chroot", fun a1 _ _ _ _ _ => on_task (lk (sys_chroot a1)));
   ("clock_getres", fun a1 a2 _ _ _ _ => on_task (lk (sys_clock_getres (u32 a1) a2)));
   ("clock_gettime", fun a1 a2 _ _ _ _ => on_task (lk (sys_clock_gettime (u32 a1) a2)));
   ("clone", fun a1 a2 a3 a4 a5 _ => unseen (creator (sys_clone a1 a2 a3 a4 a5)));
   ("close", fun a1 _ _ _ _ _ => on_task (lk (sys_close (s32 a1))));
   ("connect", fun a1 a2 a3 _ _ _ => on_task (lk (sys_connect (s32 a1) a2 a3)));
   ("creat", fun a1 a2 _ _ _ _ => on_task (lk (sys_creat a1 (s32 a2))));
   ("dup", fun a1 _ _ _ _ _ => on_task (lk (sys_dup (u32 a1))));
   ("dup2", fun a1 a2 _ _ _ _ => on_task (lk (sys_dup2 (u32 a1) (u32 a2))));
   ("dup3", fun a1 a2 a3 _ _ _ => on_task (lk (sys_dup3 (u32 a1) (u32 a2) (s32 a3))));
   ("execve", fun a1 a2 a3 _ _ _ => unseen (lv (lx (sys_execve exec_fuel a1 a2 a3))));
   ("exit", fun a1 _ _ _ _ _ => unseen (lp (sys_exit (s32 a1))));
   ("exit_group", fun a1 _ _ _ _ _ => unseen (lp (sys_exit_group (s32 a1))));
   ("faccessat", fun a1 a2 a3 _ _ _ => on_task (lk (sys_faccessat (s32 a1) a2 (s32 a3))));
   ("fadvise64", fun a1 a2 a3 a4 _ _ => on_task (lk (sys_fadvise64 (s32 a1) (swrap 64 a2) a3 (s32 a4))));
   ("fallocate", fun a1 a2 a3 a4 _ _ => on_task (lk (sys_fallocate (s32 a1) (s32 a2) (swrap 64 a3) (swrap 64 a4))));
   ("fchdir", fun a1 _ _ _ _ _ => on_task (lk (sys_fchdir (s32 a1))));
   ("fchmod", fun a1 a2 _ _ _ _ => on_task (lk (sys_fchmod (s32 a1) (u32 a2))));
   ("fchmodat", fun a1 a2 a3 _ _ _ => on_task (lk (sys_fchmodat (s32 a1) a2 (u32 a3))));
   ("fchown", fun a1 a2 a3 _ _ _ => on_task (lk (sys_fchown (s32 a1) (u32 a2) (u32 a3))));
   ("fchownat", fun a1 a2 a3 a4 a5 _ => on_task (lk (sys_fchownat (s32 a1) a2 (u32 a3) (u32 a4) (s32 a5))));
   ("fcntl", fun a1 a2 a3 _ _ _ => on_task (lk (sys_fcntl (u32 a1) (u32 a2) a3)));
   ("fdatasync", fun a1 _ _ _ _ _ => on_task (lk (sys_fdatasync (s32 a1))));
   ("fgetxattr", fun a1 a2 a3 a4 _ _ => on_task (lk (sys_fgetxattr (s32 a1) a2 a3 a4)));
   ("flistxattr", fun a1 a2 a3 _ _ _ => on_task (lk (sys_flistxattr (s32 a1) a2 a3)));
   ("flock", fun a1 a2 _ _ _ _ => on_task (lk (sys_flock (s32 a1) (s32 a2))));
   ("fork", fun _ _ _ _ _ _ => unseen (creator sys_fork));
   ("fsetxattr", fun a1 a2 a3 a4 a5 _ => on_task (lk (sys_fsetxattr (s32 a1) a2 a3 a4 (s32 a5))));
   ("fstat", fun a1 a2 _ _ _ _ => on_task (lk (sys_fstat (s32 a1) a2)));
   ("fstatfs", fun a1 a2 _ _ _ _ => on_task (lk (sys_fstatfs (s32 a1) a2)));
   ("fsync", fun a1 _ _ _ _ _ => on_task (lk (sys_fsync (s32 a1))));
   ("ftruncate", fun a1 a2 _ _ _ _ => on_task (lk (sys_ftruncate (u32 a1) a2)));
   ("futex", fun a1 a2 a3 a4 a5 a6 => unseen (lp (futex_wait_woken (mk_futex_args a1 (s32 a2) (u32 a3) a4 a5 (u32 a6)))));
   ("get_mempolicy", fun a1 a2 a3 a4 a5 _ => on_task (lk (sys_get_mempolicy a1 a2 a3 a4 a5)));
   ("getcwd", fun a1 a2 _ _ _ _ => on_task (lk (sys_getcwd a1 a2)));
   ("getdents", fun a1 a2 a3 _ _ _ => on_task (lk (sys_getdents (u32 a1) a2 (u32 a3))));
   ("getdents64", fun a1 a2 a3 _ _ _ => on_task (lk (sys_getdents64 (u32 a1) a2 (u32 a3))));
   ("getegid", fun _ _ _ _ _ _ => on_task (lk (sys_getegid)));
   ("geteuid", fun _ _ _ _ _ _ => on_task (lk (sys_geteuid)));
   ("getgid", fun _ _ _ _ _ _ => on_task (lk (sys_getgid)));
   ("getgroups", fun a1 a2 _ _ _ _ => on_task (lk (sys_getgroups (s32 a1) a2)));
   ("getitimer", fun a1 a2 _ _ _ _ => on_task (lk (sys_getitimer (s32 a1) a2)));
   ("getpeername", fun a1 a2 a3 _ _ _ => on_task (lk (sys_getpeername (s32 a1) a2 a3)));
   ("getpgid", fun a1 _ _ _ _ _ => on_task (lk (sys_getpgid (s32 a1))));
   ("getpgrp", fun _ _ _ _ _ _ => on_task (lk (sys_getpgrp)));
   ("getpid", fun _ _ _ _ _ _ => on_task (lk (sys_getpid)));
   ("getppid", fun _ _ _ _ _ _ => on_task (lk (sys_getppid)));
   ("getpriority", fun a1 a2 _ _ _ _ => on_task (lk (sys_getpriority (s32 a1) (s32 a2))));
   ("getrandom", fun a1 a2 a3 _ _ _ => on_task (lk (sys_getrandom a1 a2 (u32 a3))));
   ("getresgid", fun a1 a2 a3 _ _ _ => on_task (lk (sys_getresgid a1 a2 a3)));
   ("getresuid", fun a1 a2 a3 _ _ _ => on_task (lk (sys_getresuid a1 a2 a3)));
   ("getrlimit", fun a1 a2 _ _ _ _ => on_task (lk (sys_getrlimit (s32 a1) a2)));
   ("getrusage", fun a1 a2 _ _ _ _ => on_task (lk (sys_getrusage (s32 a1) a2)));
   ("getsid", fun a1 _ _ _ _ _ => on_task (lk (sys_getsid (s32 a1))));
   ("getsockname", fun a1 a2 a3 _ _ _ => on_task (lk (sys_getsockname (s32 a1) a2 a3)));
   ("getsockopt", fun a1 a2 a3 a4 a5 _ => on_task (lk (sys_getsockopt (s32 a1) (s32 a2) (s32 a3) a4 a5)));
   ("gettid", fun _ _ _ _ _ _ => on_task sys_gettid);
   ("gettimeofday", fun a1 a2 _ _ _ _ => on_task (lk (sys_gettimeofday a1 a2)));
   ("getuid", fun _ _ _ _ _ _ => on_task (lk (sys_getuid)));
   ("getxattr", fun a1 a2 a3 a4 _ _ => on_task (lk (sys_getxattr a1 a2 a3 a4)));
   ("ioctl", fun a1 a2 a3 _ _ _ => on_task (lk (sys_ioctl (s32 a1) (s32 a2) a3)));
   ("kill", fun a1 a2 _ _ _ _ => on_task (sys_kill (s32 a1) (s32 a2)));
   ("lchown", fun a1 a2 a3 _ _ _ => on_task (lk (sys_lchown a1 (s32 a2) (s32 a3))));
   ("link", fun a1 a2 _ _ _ _ => on_task (lk (sys_link a1 a2)));
   ("linkat", fun a1 a2 a3 a4 a5 _ => on_task (lk (sys_linkat (s32 a1) a2 (s32 a3) a4 (s32 a5))));
   ("listen", fun a1 a2 _ _ _ _ => on_task (lk (sys_listen (s32 a1) (s32 a2))));
   ("lseek", fun a1 a2 a3 _ _ _ => on_task (lk (sys_lseek (s32 a1) (swrap 64 a2) (s32 a3))));
   ("lstat", fun a1 a2 _ _ _ _ => on_task (lk (sys_lstat a1 a2)));
   ("madvise", fun a1 a2 a3 _ _ _ => on_task (lk (sys_madvise a1 a2 (s32 a3))));
   ("mkdir", fun a1 a2 _ _ _ _ => on_task (lk (sys_mkdir a1 (s32 a2))));
   ("mkdirat", fun a1 a2 a3 _ _ _ => on_task (lk (sys_mkdirat (s32 a1) a2 (s32 a3))));
   ("mknod", fun a1 a2 a3 _ _ _ => on_task (lk (sys_mknod a1 (u32 a2) a3)));
   ("mknodat", fun a1 a2 a3 a4 _ _ => on_task (lk (sys_mknodat (s32 a1) a2 (u32 a3) a4)));
   ("mlock", fun a1 a2 _ _ _ _ => on_task (lk (sys_mlock a1 a2)));
   ("mmap", fun a1 a2 a3 a4 a5 a6 => mem (sys_mmap a1 a2 (s32 a3) (s32 a4) (s32 a5) (swrap 64 a6)));
   ("mprotect", fun a1 a2 a3 _ _ _ => mem (sys_mprotect a1 a2 (s32 a3)));
   ("mremap", fun a1 a2 a3 a4 a5 _ => mem (sys_mremap a1 a2 a3 (s32 a4) a5));
   ("msync", fun a1 a2 a3 _ _ _ => mem (sys_msync a1 a2 (s32 a3)));
   ("munlock", fun a1 a2 _ _ _ _ => on_task (lk (sys_munlock a1 a2)));
   ("munmap", fun a1 a2 _ _ _ _ => mem (sys_munmap a1 a2));
   ("nanosleep", fun a1 a2 _ _ _ _ => on_task (lk (sys_nanosleep a1 a2)));
   ("newfstatat", fun a1 a2 a3 a4 _ _ => on_task (lk (sys_newfstatat (s32 a1) a2 a3 (s32 a4))));
   ("open", fun a1 a2 a3 _ _ _ => on_task (lk (sys_open a1 (s32 a2) (s32 a3))));
   ("openat", fun a1 a2 a3 a4 _ _ => on_task (lk (sys_openat (s32 a1) a2 (s32 a3) (s32 a4))));
   ("pipe", fun a1 _ _ _ _ _ => on_task (lk (sys_pipe a1)));
   ("pipe2", fun a1 a2 _ _ _ _ => on_task (lk (sys_pipe2 a1 (s32 a2))));
   ("poll", fun a1 a2 a3 _ _ _ => on_task (lk (sys_poll a1 (s32 a2) (s32 a3))));
   ("prctl", fun a1 a2 _ _ _ _ => on_task (lk (sys_prctl (s32 a1) a2)));
   ("pread64", fun a1 a2 a3 a4 _ _ => on_task (lk (sys_pread64 (u32 a1) a2 a3 (swrap 64 a4))));
   ("pselect6", fun a1 a2 a3 a4 a5 a6 => on_task (lk (sys_pselect6 (s32 a1) a2 a3 a4 a5 a6)));
   ("ptrace", fun a1 a2 a3 a4 _ _ => on_task (lk (sys_ptrace (swrap 64 a1) (swrap 64 a2) a3 a4)));
   ("pwrite64", fun a1 a2 a3 a4 _ _ => on_task (lk (sys_pwrite64 (u32 a1) a2 a3 (swrap 64 a4))));
   ("read", fun a1 a2 a3 _ _ _ => on_task (lk (sys_read (s32 a1) a2 a3)));
   ("readlink", fun a1 a2 a3 _ _ _ => on_task (lk (sys_readlink a1 a2 (s32 a3))));
   ("readlinkat", fun a1 a2 a3 a4 _ _ => on_task (lk (sys_readlinkat (s32 a1) a2 a3 (s32 a4))));
   ("readv", fun a1 a2 a3 _ _ _ => on_task (lk (sys_readv (s32 a1) a2 (s32 a3))));
   ("recvfrom", fun a1 a2 a3 a4 a5 a6 => on_task (lk (sys_recvfrom (s32 a1) a2 (s32 a3) (s32 a4) a5 a6)));
   ("recvmsg", fun a1 a2 a3 _ _ _ => on_task (lk (sys_recvmsg (s32 a1) a2 (s32 a3))));
   ("rename", fun a1 a2 _ _ _ _ => on_task (lk (sys_rename a1 a2)));
   ("renameat", fun a1 a2 a3 a4 _ _ => on_task (lk (sys_renameat (s32 a1) a2 (s32 a3) a4)));
   ("rmdir", fun a1 _ _ _ _ _ => on_task (lk (sys_rmdir a1)));
   ("rt_sigaction", fun a1 a2 a3 a4 _ _ => on_task (sys_rt_sigaction (s32 a1) a2 a3 a4));
   ("rt_sigpending", fun a1 a2 _ _ _ _ => on_task (sys_rt_sigpending a1 a2));
   ("rt_sigprocmask", fun a1 a2 a3 a4 _ _ => on_task (sys_rt_sigprocmask (s32 a1) a2 a3 a4));
   ("rt_sigreturn", fun _ _ _ _ _ _ => on_task sys_rt_sigreturn);
   ("rt_sigsuspend", fun a1 a2 _ _ _ _ => sys_rt_sigsuspend nested a1 a2);
   ("sched_getaffinity", fun a1 a2 a3 _ _ _ => on_task (lk (sys_sched_getaffinity (s32 a1) (u32 a2) a3)));
   ("sched_yield", fun _ _ _ _ _ _ => on_task (lk (sys_sched_yield)));
   ("select", fun a1 a2 a3 a4 a5 _ => on_task (lk (sys_select (s32 a1) a2 a3 a4 a5)));
   ("semctl", fun a1 a2 a3 a4 _ _ => on_task (lk (sys_semctl (s32 a1) (s32 a2) (s32 a3) a4)));
   ("semget", fun a1 a2 a3 _ _ _ => on_task (lk (sys_semget (s32 a1) (s32 a2) (s32 a3))));
   ("semop", fun a1 a2 a3 _ _ _ => on_task (lk (sys_semop (s32 a1) a2 (u32 a3))));
   ("sendmmsg", fun a1 a2 a3 a4 _ _ => on_task (lk (sys_sendmmsg (s32 a1) a2 (u32 a3) (u32 a4))));
   ("sendmsg", fun a1 a2 a3 _ _ _ => on_task (lk (sys_sendmsg (s32 a1) a2 (s32 a3))));
   ("sendto", fun a1 a2 a3 a4 a5 a6 => on_task (lk (sys_sendto (s32 a1) a2 (s32 a3) (s32 a4) a5 (u32 a6))));
   ("set_robust_list", fun a1 a2 _ _ _ _ => on_task (sys_set_robust_list a1 a2));
   ("set_tid_address", fun a1 _ _ _ _ _ => on_task (sys_set_tid_address a1));
   ("setgid", fun a1 _ _ _ _ _ => on_task (lk (sys_setgid (u32 a1))));
   ("setgroups", fun a1 a2 _ _ _ _ => on_task (lk (sys_setgroups (s32 a1) a2)));
   ("setitimer", fun a1 a2 a3 _ _ _ => on_task (lk (sys_setitimer (s32 a1) a2 a3)));
   ("setpgid", fun a1 a2 _ _ _ _ => on_task (lk (sys_setpgid (s32 a1) (s32 a2))));
   ("setpriority", fun a1 a2 a3 _ _ _ => on_task (lk (sys_setpriority (s32 a1) (s32 a2) (s32 a3))));
   ("setresgid", fun a1 a2 a3 _ _ _ => on_task (lk (sys_setresgid (u32 a1) (u32 a2) (u32 a3))));
   ("setresuid", fun a1 a2 a3 _ _ _ => on_task (lk (sys_setresuid (u32 a1) (u32 a2) (u32 a3))));
   ("setrlimit", fun a1 a2 _ _ _ _ => on_task (lk (sys_setrlimit (u32 a1) a2)));
   ("setsid", fun _ _ _ _ _ _ => on_task (lk (sys_setsid)));
   ("setsockopt", fun a1 a2 a3 a4 a5 _ => on_task (lk (sys_setsockopt (s32 a1) (s32 a2) (s32 a3) a4 (u32 a5))));
   ("setuid", fun a1 _ _ _ _ _ => on_task (lk (sys_setuid (u32 a1))));
   ("setxattr", fun a1 a2 a3 a4 a5 _ => on_task (lk (sys_setxattr a1 a2 a3 a4 (s32 a5))));
   ("shmat", fun a1 a2 a3 _ _ _ => unseen (lv (lx (sys_shmat (s32 a1) a2 (s32 a3)))));
   ("shmctl", fun a1 a2 a3 _ _ _ => on_task (lk (sys_shmctl (s32 a1) (s32 a2) a3)));
   ("shmget", fun a1 a2 a3 _ _ _ => on_task (lk (sys_shmget (s32 a1) a2 (s32 a3))));
   ("shutdown", fun a1 a2 _ _ _ _ => on_task (lk (sys_shutdown (s32 a1) (s32 a2))));
   ("sigaltstack", fun a1 a2 _ _ _ _ => on_task (sys_sigaltstack a1 a2));
   ("socket", fun a1 a2 a3 _ _ _ => on_task (lk (sys_socket (s32 a1) (s32 a2) (s32 a3))));
   ("socketpair", fun a1 a2 a3 a4 _ _ => on_task (lk (sys_socketpair (s32 a1) (s32 a2) (s32 a3) a4)));
   ("stat", fun a1 a2 _ _ _ _ => on_task (lk (sys_stat a1 a2)));
   ("statfs", fun a1 a2 _ _ _ _ => on_task (lk (sys_statfs a1 a2)));
   ("symlink", fun a1 a2 _ _ _ _ => on_task (lk (sys_symlink a1 a2)));
   ("symlinkat", fun a1 a2 a3 _ _ _ => on_task (lk (sys_symlinkat a1 (s32 a2) a3)));
   ("sync", fun _ _ _ _ _ _ => on_task (lk (sys_sync)));
   ("sysinfo", fun a1 _ _ _ _ _ => on_task (lk (sys_sysinfo a1)));
   ("tgkill", fun _ _ _ _ _ _ => on_task (lk (sys_tgkill)));
   ("time", fun a1 _ _ _ _ _ => on_task (lk (sys_time a1)));
   ("umask", fun a1 _ _ _ _ _ => on_task (lk (sys_umask (s32 a1))));
   ("uname", fun a1 _ _ _ _ _ => on_task (lk (sys_uname a1)));
   ("unimplemented", fun _ _ _ _ _ _ => on_task sys_unimplemented);
   ("unlink", fun a1 _ _ _ _ _ => on_task (lk (sys_unlink a1)));
   ("unlinkat", fun a1 a2 a3 _ _ _ => on_task (lk (sys_unlinkat (s32 a1) a2 (s32 a3))));
   ("utime", fun a1 a2 _ _ _ _ => on_task (lk (sys_utime a1 a2)));
   ("utimensat", fun a1 a2 a3 a4 _ _ => on_task (lk (sys_utimensat (s32 a1) a2 a3 (s32 a4))));
   ("utimes", fun a1 a2 _ _ _ _ => on_task (lk (sys_utimes a1 a2)));
   ("vfork", fun _ _ _ _ _ _ => unseen (creator sys_vfork));
   ("wait4", fun a1 a2 a3 a4 _ _ => on_task (lk (sys_wait4 (s32 a1) a2 (s32 a3) a4)));
   ("write", fun a1 a2 a3 _ _ _ => on_task (lk (sys_write (s32 a1) a2 a3)));
   ("writev", fun a1 a2 a3 _ _ _ => on_task (lk (sys_writev (s32 a1) a2 (s32 a3))));
   ("vserver", fun _ _ _ _ _ _ => mret (- LINUX_ENOSYS));
   ("uselib", fun _ _ _ _ _ _ => mret (- LINUX_ENOSYS));
   ("epoll_ctl_old", fun _ _ _ _ _ _ => mret (- LINUX_ENOSYS));
   ("epoll_wait_old", fun _ _ _ _ _ _ => mret (- LINUX_ENOSYS));
   ("getpmsg", fun _ _ _ _ _ _ => mret (- LINUX_ENOSYS));
   ("putpmsg", fun _ _ _ _ _ _ => mret (- LINUX_ENOSYS));
   ("nfsservctl", fun _ _ _ _ _ _ => mret (- LINUX_ENOSYS));
   ("security", fun _ _ _ _ _ _ => mret (- LINUX_ENOSYS));
   ("set_thread_area", fun _ _ _ _ _ _ => mret (- LINUX_ENOSYS));
   ("get_thread_area", fun _ _ _ _ _ _ => mret (- LINUX_ENOSYS));
   ("tuxcall", fun _ _ _ _ _ _ => mret (- LINUX_ENOSYS));
   ("afs_syscall", fun _ _ _ _ _ _ => mret (- LINUX_ENOSYS))]%string.

(** The types and names of the parameters, as [MK_STRACE_CALL] passes them *)
Definition params : list (string * list (string * string)) :=
  [("accept", [("int", "sockfd"); ("gaddr_t", "addr_ptr"); ("gaddr_t", "addrlen_ptr")]);
   ("access", [("gstr_t", "path_ptr"); ("int", "mode")]);
   ("alarm", [("unsigned int", "seconds")]);
   ("arch_prctl", [("int", "code"); ("gaddr_t", "addr")]);
   ("bind", [("int", "sockfd"); ("gaddr_t", "addr_ptr"); ("int", "addrlen")]);
   ("brk", [("unsigned long", "brk")]);
   ("capget", [("gaddr_t", "header_ptr"); ("gaddr_t", "data_ptr")]);
   ("chdir", [("gstr_t", "path_ptr")]);
   ("chmod", [("gstr_t", "path"); ("int", "mode")]);
   ("chown", [("gstr_t", "path"); ("int", "uid"); ("int", "gid")]);
   ("chroot", [("gstr_t", "path_ptr")]);
   ("clock_getres", [("l_clockid_t", "id"); ("gaddr_t", "res_ptr")]);
   ("clock_gettime", [("l_clockid_t", "id"); ("gaddr_t", "spec_ptr")]);
   ("clone", [("unsigned long", "clone_flags"); ("unsigned long", "newsp"); ("gaddr_t", "parent_tid"); ("gaddr_t", "child_tid"); ("gaddr_t", "tls")]);
   ("close", [("int", "fd")]);
   ("connect", [("int", "sockfd"); ("gaddr_t", "addr_ptr"); ("uint64_t", "addrlen")]);
   ("creat", [("gstr_t", "path_ptr"); ("int", "mode")]);
   ("dup", [("unsigned int", "fd")]);
   ("dup2", [("unsigned int", "fd1"); ("unsigned int", "fd2")]);
   ("dup3", [("unsigned int", "oldfd"); ("unsigned int", "newfd"); ("int", "flags")]);
   ("execve", [("gstr_t", "gelf_path"); ("gaddr_t", "gargv"); ("gaddr_t", "genvp")]);
   ("exit", [("int", "reason")]);
   ("exit_group", [("int", "reason")]);
   ("faccessat", [("int", "dirfd"); ("gstr_t", "path_ptr"); ("int", "mode")]);
   ("fadvise64", [("int", "fd"); ("off_t", "offset"); ("size_t", "len"); ("int", "advice")]);
   ("fallocate", [("int", "fd"); ("int", "mode"); ("l_off_t", "offset"); ("l_off_t", "len")]);
   ("fchdir", [("int", "fd")]);
   ("fchmod", [("int", "fd"); ("l_mode_t", "mode")]);
   ("fchmodat", [("int", "dirfd"); ("gstr_t", "path_ptr"); ("l_mode_t", "mode")]);
   ("fchown", [("int", "fd"); ("l_uid_t", "uid"); ("l_gid_t", "gid")]);
   ("fchownat", [("int", "dirfd"); ("gstr_t", "path_ptr"); ("l_uid_t", "user"); ("l_gid_t", "group"); ("int", "flags")]);
   ("fcntl", [("unsigned int", "fd"); ("unsigned int", "cmd"); ("unsigned long", "arg")]);
   ("fdatasync", [("int", "fildes")]);
   ("fgetxattr", [("int", "fd"); ("gaddr_t", "name"); ("gaddr_t", "value"); ("size_t", "size")]);
   ("flistxattr", [("int", "fd"); ("gaddr_t", "list"); ("size_t", "size")]);
   ("flock", [("int", "fd"); ("int", "operation")]);
   ("fsetxattr", [("int", "fd"); ("gaddr_t", "name"); ("gaddr_t", "value"); ("size_t", "size"); ("int", "flags")]);
   ("fstat", [("int", "fd"); ("gaddr_t", "st_ptr")]);
   ("fstatfs", [("int", "fd"); ("gaddr_t", "buf_ptr")]);
   ("fsync", [("int", "fd")]);
   ("ftruncate", [("unsigned int", "fd"); ("unsigned long", "length")]);
   ("futex", [("gaddr_t", "uaddr"); ("int", "op"); ("uint32_t", "val"); ("gaddr_t", "timeout_ptr"); ("gaddr_t", "uaddr2"); ("uint32_t", "val3")]);
   ("get_mempolicy", [("gaddr_t", "policy"); ("gaddr_t", "nmask"); ("unsigned long", "maxnode"); ("unsigned long", "addr"); ("unsigned long", "flags")]);
   ("getcwd", [("gaddr_t", "buf_ptr"); ("unsigned long", "size")]);
   ("getdents", [("unsigned int", "fd"); ("gaddr_t", "dirent_ptr"); ("unsigned int", "count")]);
   ("getdents64", [("unsigned int", "fd"); ("gaddr_t", "dirent_ptr"); ("unsigned int", "count")]);
   ("getgroups", [("int", "gidsetsize"); ("gaddr_t", "grouplist_ptr")]);
   ("getitimer", [("int", "which"); ("gaddr_t", "ret_ptr")]);
   ("getpeername", [("int", "sockfd"); ("gaddr_t", "addr_ptr"); ("gaddr_t", "addrlen_ptr")]);
   ("getpgid", [("l_pid_t", "pid")]);
   ("getpriority", [("int", "which"); ("int", "who")]);
   ("getrandom", [("gaddr_t", "buf_ptr"); ("size_t", "count"); ("unsigned", "flags")]);
   ("getresgid", [("gaddr_t", "rgid"); ("gaddr_t", "egid"); ("gaddr_t", "sgid")]);
   ("getresuid", [("gaddr_t", "ruid"); ("gaddr_t", "euid"); ("gaddr_t", "suid")]);
   ("getrlimit", [("int", "l_resource"); ("gaddr_t", "rl_ptr")]);
   ("getrusage", [("int", "who"); ("gaddr_t", "rusage_ptr")]);
   ("getsid", [("l_pid_t", "pid")]);
   ("getsockname", [("int", "sockfd"); ("gaddr_t", "addr_ptr"); ("gaddr_t", "addrlen_ptr")]);
   ("getsockopt", [("int", "fd"); ("int", "level"); ("int", "optname"); ("gaddr_t", "optval_ptr"); ("gaddr_t", "optlen_ptr")]);
   ("gettimeofday", [("gaddr_t", "tp_ptr"); ("gaddr_t", "tzp_ptr")]);
   ("getxattr", [("gstr_t", "path_ptr"); ("gstr_t", "name_ptr"); ("gaddr_t", "value"); ("size_t", "size")]);
   ("ioctl", [("int", "fd"); ("int", "cmd"); ("uint64_t", "val0")]);
   ("kill", [("l_pid_t", "pid"); ("int", "sig")]);
   ("lchown", [("gstr_t", "path"); ("int", "uid"); ("int", "gid")]);
   ("link", [("gstr_t", "oldpath"); ("gstr_t", "newpath")]);
   ("linkat", [("int", "oldfd"); ("gstr_t", "oldpath_ptr"); ("int", "newfd"); ("gstr_t", "newpath_ptr"); ("int", "flags")]);
   ("listen", [("int", "socket"); ("int", "backlog")]);
   ("lseek", [("int", "fd"); ("off_t", "offset"); ("int", "whence")]);
   ("lstat", [("gstr_t", "path"); ("gaddr_t", "st")]);
   ("madvise", [("gaddr_t", "addr"); ("size_t", "length"); ("int", "advice")]);
   ("mkdir", [("gstr_t", "path_ptr"); ("int", "mode")]);
   ("mkdirat", [("int", "dirfd"); ("gstr_t", "path_ptr"); ("int", "mode")]);
   ("mknod", [("gaddr_t", "path_ptr"); ("l_mode_t", "mode"); ("l_dev_t", "dev")]);
   ("mknodat", [("int", "dirfd"); ("gaddr_t", "path_ptr"); ("l_mode_t", "mode"); ("l_dev_t", "dev")]);
   ("mlock", [("gaddr_t", "addr"); ("size_t", "length")]);
   ("mmap", [("gaddr_t", "addr"); ("size_t", "len"); ("int", "prot"); ("int", "flags"); ("int", "fd"); ("off_t", "offset")]);
   ("mprotect", [("gaddr_t", "addr"); ("size_t", "len"); ("int", "prot")]);
   ("mremap", [("gaddr_t", "old_addr"); ("size_t", "old_size"); ("size_t", "new_size"); ("int", "flags"); ("gaddr_t", "new_addr")]);
   ("msync", [("gaddr_t", "addr"); ("size_t", "len"); ("int", "flags")]);
   ("munlock", [("gaddr_t", "addr"); ("size_t", "length")]);
   ("munmap", [("gaddr_t", "gaddr"); ("size_t", "size")]);
   ("nanosleep", [("gaddr_t", "rqtp_ptr"); ("gaddr_t", "rmtp_ptr")]);
   ("newfstatat", [("int", "dirfd"); ("gstr_t", "path_ptr"); ("gaddr_t", "st_ptr"); ("int", "flags")]);
   ("open", [("gstr_t", "path_ptr"); ("int", "flags"); ("int", "mode")]);
   ("openat", [("int", "dirfd"); ("gstr_t", "path_ptr"); ("int", "flags"); ("int", "mode")]);
   ("pipe", [("gaddr_t", "fildes_ptr")]);
   ("pipe2", [("gaddr_t", "fildes_ptr"); ("int", "flags")]);
   ("poll", [("gaddr_t", "fds_ptr"); ("int", "nfds"); ("int", "timeout")]);
   ("prctl", [("int", "option"); ("unsigned long", "arg1"); ("unsigned long", "arg2"); ("unsigned long", "arg3"); ("unsigned long", "arg4"); ("unsigned long", "arg5")]);
   ("pread64", [("unsigned int", "fd"); ("gstr_t", "buf_ptr"); ("size_t", "count"); ("off_t", "pos")]);
   ("pselect6", [("int", "nfds"); ("gaddr_t", "readfds_ptr"); ("gaddr_t", "writefds_ptr"); ("gaddr_t", "errorfds_ptr"); ("gaddr_t", "timeout_ptr"); ("gaddr_t", "sigmask_ptr")]);
   ("ptrace", [("long", "request"); ("long", "pid"); ("unsigned long", "addr"); ("unsigned long", "data")]);
   ("pwrite64", [("unsigned int", "fd"); ("gstr_t", "buf_ptr"); ("size_t", "count"); ("off_t", "pos")]);
   ("read", [("int", "fd"); ("gaddr_t", "buf_ptr"); ("size_t", "size")]);
   ("readlink", [("gstr_t", "path_ptr"); ("gaddr_t", "buf_ptr"); ("int", "bufsize")]);
   ("readlinkat", [("int", "dirfd"); ("gstr_t", "path_ptr"); ("gaddr_t", "buf_ptr"); ("int", "bufsize")]);
   ("readv", [("int", "fd"); ("gaddr_t", "iov_ptr"); ("int", "iovcnt")]);
   ("recvfrom", [("int", "socket"); ("gaddr_t", "buf_ptr"); ("int", "length"); ("int", "flags"); ("gaddr_t", "addr_ptr"); ("gaddr_t", "addrlen_ptr")]);
   ("recvmsg", [("int", "sockfd"); ("gaddr_t", "msg_ptr"); ("int", "flags")]);
   ("rename", [("gstr_t", "oldpath_ptr"); ("gstr_t", "newpath_ptr")]);
   ("renameat", [("int", "oldfd"); ("gstr_t", "oldpath_ptr"); ("int", "newfd"); ("gstr_t", "newpath_ptr")]);
   ("rmdir", [("gstr_t", "path")]);
   ("rt_sigaction", [("int", "sig"); ("gaddr_t", "act"); ("gaddr_t", "oact"); ("size_t", "size")]);
   ("rt_sigpending", [("gaddr_t", "set"); ("size_t", "size")]);
   ("rt_sigprocmask", [("int", "how"); ("gaddr_t", "nset"); ("gaddr_t", "oset"); ("size_t", "size")]);
   ("rt_sigsuspend", [("gaddr_t", "nset"); ("size_t", "size")]);
   ("sched_getaffinity", [("l_pid_t", "pid"); ("unsigned int", "len"); ("gaddr_t", "user_mask_ptr")]);
   ("select", [("int", "nfds"); ("gaddr_t", "readfds_ptr"); ("gaddr_t", "writefds_ptr"); ("gaddr_t", "errorfds_ptr"); ("gaddr_t", "timeout_ptr")]);
   ("semctl", [("int", "semid"); ("int", "semnum"); ("int", "cmd"); ("union l_semun", "arg")]);
   ("semget", [("l_key_t", "key"); ("int", "nsems"); ("int", "semflg")]);
   ("semop", [("int", "semid"); ("gaddr_t", "tsops_ptr"); ("unsigned", "nsops")]);
   ("sendmmsg", [("int", "sockfd"); ("gaddr_t", "msgvec_ptr"); ("unsigned int", "vlen"); ("unsigned int", "flags")]);
   ("sendmsg", [("int", "sockfd"); ("gaddr_t", "msg_ptr"); ("int", "flags")]);
   ("sendto", [("int", "socket"); ("gaddr_t", "buf_ptr"); ("int", "length"); ("int", "flags"); ("gaddr_t", "addr_ptr"); ("socklen_t", "addrlen")]);
   ("set_robust_list", [("gaddr_t", "head"); ("size_t", "len")]);
   ("set_tid_address", [("gaddr_t", "tidptr")]);
   ("setgid", [("l_gid_t", "gid")]);
   ("setgroups", [("int", "gidsetsize"); ("gaddr_t", "grouplist_ptr")]);
   ("setitimer", [("int", "which"); ("gaddr_t", "new_ptr"); ("gaddr_t", "old_ptr")]);
   ("setpgid", [("pid_t", "pid"); ("pid_t", "pgid")]);
   ("setpriority", [("int", "which"); ("int", "who"); ("int", "niceval")]);
   ("setresgid", [("l_gid_t", "rgid"); ("l_gid_t", "egid"); ("l_gid_t", "sgid")]);
   ("setresuid", [("l_uid_t", "ruid"); ("l_uid_t", "euid"); ("l_uid_t", "suid")]);
   ("setrlimit", [("unsigned int", "resource"); ("gaddr_t", "rlim")]);
   ("setsockopt", [("int", "fd"); ("int", "level"); ("int", "optname"); ("gaddr_t", "optval_ptr"); ("uint", "opt_len")]);
   ("setuid", [("l_uid_t", "uid")]);
   ("setxattr", [("gstr_t", "pathname"); ("gstr_t", "name"); ("gaddr_t", "value"); ("size_t", "size"); ("int", "flags")]);
   ("shmat", [("int", "shmid"); ("gaddr_t", "addr"); ("int", "shmflg")]);
   ("shmctl", [("int", "shmid"); ("int", "cmd"); ("gaddr_t", "buf_ptr")]);
   ("shmget", [("l_key_t", "l_key"); ("size_t", "size"); ("int", "l_shmflg")]);
   ("shutdown", [("int", "socket"); ("int", "how")]);
   ("sigaltstack", [("gaddr_t", "uss"); ("gaddr_t", "uoss")]);
   ("socket", [("int", "family"); ("int", "type"); ("int", "protocol")]);
   ("socketpair", [("int", "family"); ("int", "type"); ("int", "protocol"); ("gaddr_t", "usockvec_ptr")]);
   ("stat", [("gstr_t", "path"); ("gaddr_t", "st")]);
   ("statfs", [("gstr_t", "path_ptr"); ("gaddr_t", "buf_ptr")]);
   ("symlink", [("gstr_t", "path1_ptr"); ("gstr_t", "path2_ptr")]);
   ("symlinkat", [("gstr_t", "path1_ptr"); ("int", "dirfd"); ("gstr_t", "path2_ptr")]);
   ("sysinfo", [("gaddr_t", "info_ptr")]);
   ("time", [("gaddr_t", "tloc_ptr")]);
   ("umask", [("int", "mask")]);
   ("uname", [("gaddr_t", "buf_ptr")]);
   ("unlink", [("gstr_t", "path")]);
   ("unlinkat", [("int", "dirfd"); ("gstr_t", "path_ptr"); ("int", "flags")]);
   ("utime", [("gaddr_t", "path"); ("gaddr_t", "times")]);
   ("utimensat", [("int", "dirfd"); ("gaddr_t", "filename"); ("gaddr_t", "times_ptr"); ("int", "flags")]);
   ("utimes", [("gaddr_t", "filename"); ("gaddr_t", "times_ptr")]);
   ("wait4", [("int", "pid"); ("gaddr_t", "status_ptr"); ("int", "options"); ("gaddr_t", "rusage_ptr")]);
   ("write", [("int", "fd"); ("gaddr_t", "buf_ptr"); ("size_t", "size")]);
   ("writev", [("int", "fd"); ("gaddr_t", "iov_ptr"); ("int", "iovcnt")])]%string.

Definition strace_args (name : string) (a1 a2 a3 a4 a5 a6 : Z) : list sc_arg :=
  match list_find (fun p => p.1 = name) params with
  | Some (_, p) => zip_with (fun q a => mk_sc_arg q.1 q.2 a) p.2 [a1; a2; a3; a4; a5; a6]
  | None => []
  end.

(** [enum { LSYS_name = n }]; the numbers without a name of their own are -1. *)
Definition LSYS (name : string) : Z :=
  if bool_decide (name = "unimplemented"%string) then -1
  else match list_find (fun p => p.2 = name) SYSCALLS with Some (_, p) => p.1 | None => -1 end.

Definition sys_handler (nested : M machine unit) (name : string) : handler := fun a1 a2 a3 a4 a5 a6 =>
  scwrapper (LSYS name) name (strace_args name a1 a2 a3 a4 a5 a6)
    (match list_find (fun p => p.1 = name) (handlers nested) with
     | Some (_, p) => p.2 a1 a2 a3 a4 a5 a6
     | None => halt Fault
     end).

(** The table of [main_loop] *)
Definition syscall_table (nested : M machine unit) : sc_table machine := sc_handler_table (sys_handler nested).

(** ** [main] *)

(** [init_meta_strace] opens the trace file when the option names one. *)
Definition main (fuel : nat) (opts : list opt) (argv envp : list (list Z)) : M machine Z :=
  o ← unseen (lv (main_start exec_fuel opts argv envp));
  modify (fun s => (s.1, if bool_decide (o_strace o = []) then s.2 else Some EmptyString));;
  main_loop syscall_table fuel false;;
  unseen (lv vmm_destroy);;
  mret 0.

End Handlers.

(** Every number of the table has a handler. *)
Section Total.
Context `{OS} `{DarwinErrno} `{DarwinConst} `{Heap} `{Host} `{HostMem} `{HostCpu} `{KernImage} `{Guest} `{Waiting} `{TraceEnv}.

Lemma handlers_total exec_fuel nested name :
  name ∈ (snd <$> SYSCALLS) -> is_Some (list_find (fun p => p.1 = name) (handlers exec_fuel nested)).
Proof.
  intros Hn. assert (Forall (fun n => n ∈ (fst <$> handlers exec_fuel nested)) (snd <$> SYSCALLS)) as Hf.
  { apply (bool_decide_unpack _). vm_compute. exact I. }
  rewrite Forall_forall in Hf. apply Hf, list_elem_of_fmap in Hn as (p & -> & Hp). by eapply list_find_elem_of.
Qed.

End Total.
