(* ===== verification/EndToEnd.v ===== *)
(** * What the guest sees of the whole program

    Theorems about the main loop with the table of all system calls: one instruction of the guest
    from the exit of the virtual machine to the host and back, and a signal from its delivery to
    the return of its handler. *)

From S2P Require Import Prelude RBTree Const Errno Conv Mm Mmap MmapFacts MmInv MmSys UserMem FdTable Kernel Files Path.
From S2P Require Import FileOps PathOps FdSys ShmMalloc Futex Task Signal Debug Strace Exec Fork Process PageTable Boot MainLoop Net TimeSys Sys Syscalls.

Section EndToEnd.
Context `{OS} `{DarwinErrno} `{DarwinConst} `{Heap} `{Host} `{HostMem} `{HostCpu} `{KernImage} `{Guest} `{Waiting} `{TraceEnv}.
Context (exec_fuel : nat).
Let table := syscall_table exec_fuel.
Implicit Types c : core.

(** One instruction without a trace file: the handler [h] named in the table ran, and left the state [c2]. *)
Lemma guest_syscall fuel ros c t1 name (h : handler) v c2 :
  let r := t_regs t1 in
  D "VMX_REASON_EXC_NMI" <> D "VMX_REASON_VMCALL" ->
  has_sigpending (task_of c) = false -> hv_vcpu_run (task_of c) = (0, t1) ->
  syscall_trap t1 -> r RAX < NR_SYSCALLS -> r RAX <> LSYS_rt_sigreturn -> sc_name_table (r RAX) = Some name ->
  snd <$> (snd <$> list_find (fun p => p.1 = name) (handlers exec_fuel (main_loop table fuel true))) = Some h ->
  h (r RDI) (r RSI) (r RDX) (r R10) (r R8) (r R9) (set_task t1 c, None) = Done v (c2, None) ->
  main_loop table (S fuel) ros (c, None) = main_loop table fuel ros (set_task (sysret v (task_of c2)) c2, None).
Proof.
  intros r Hd Hs Er Ht Hn Hsr Hname Hh Ev.
  pose proof (main_loop_syscall table fuel ros (c, None) t1 (sys_handler exec_fuel (main_loop table fuel true) name) v (c2, None)) as E.
  cbv zeta in E. rewrite E; try done; clear E.
  - fold r. rewrite (proj2 (Z.eqb_neq _ _) Hsr). by rewrite andb_false_r.
  - unfold table, syscall_table, sc_handler_table. fold r. by rewrite Hname.
  - apply scwrapper_off. destruct (list_find _ _) as [[i [n h']]|]; simplify_eq/=. exact Ev.
Qed.

(** C1: the [write] system call from the instruction to the host and back: a guest that
    executes [syscall] with 1 in [rax], a descriptor in [rdi] (of which the low 32 bits count), an address in
    [rsi] and a length in [rdx], and has no signal pending, continues after the
    instruction with Linux's answer in [rax]; Darwin has been given exactly the guest's bytes, in one call, when
    the buffer is readable and the descriptor open, and nothing otherwise; no other
    register, no memory and no table has changed, and of the rest of the program's state nothing. *)
Theorem guest_write fuel ros c t1 :
  D "VMX_REASON_EXC_NMI" <> D "VMX_REASON_VMCALL" ->
  has_sigpending (task_of c) = false -> hv_vcpu_run (task_of c) = (0, t1) -> syscall_trap t1 -> t_regs t1 RAX = 1 ->
  let k := t_kern t1 in
  let fd := s32 (t_regs t1 RDI) in
  let ptr := t_regs t1 RSI in
  let n := t_regs t1 RDX in
  files_ok (k_fi k) -> 0 <= ptr -> 0 <= n -> ptr + n < 2 ^ 64 - 4096 -> FdTable.heap_ok n = true ->
  let bs := user_bytes (k_um k) ptr (Z.to_nat n) in
  let r := os (k_trace k) "writev" [HI fd; HB bs] in
  main_loop (syscall_table exec_fuel) (S fuel) ros (c, None) =
  main_loop (syscall_table exec_fuel) fuel ros
    (set_task (if Z.of_nat (length bs) <? n then sysret (- LINUX_EFAULT) t1
       else match fds (fdt (k_fi k)) fd with
            | None => sysret (- LINUX_EBADF) t1
            | Some _ => sysret (syswrap (h_ret r) (h_errno r)) (tset_kern (add_event (mk_event "writev" [HI fd; HB bs] r) k) t1)
            end) c, None).
Proof.
  intros Hd Hs Er Ht Ha k fd ptr n Hf Hp Hn Hb Hh bs r. fold table.
  assert (forall v k', sys_write fd ptr n k = Done v k' ->
    main_loop table (S fuel) ros (c, None) = main_loop table fuel ros (set_task (sysret v (tset_kern k' t1)) c, None)) as Hw.
  { intros v k' E. rewrite (guest_syscall fuel ros c t1 "write" (fun a1 a2 a3 _ _ _ => on_task (lk (sys_write (s32 a1) a2 a3)))
      v (set_task (tset_kern k' t1) c) Hd Hs Er Ht); rewrite ?Ha; try done.
    exact (on_task_pair (lk (sys_write fd ptr n)) (set_task t1 c) None v (tset_kern k' t1) (lk_Done _ t1 _ _ E)). }
  pose proof (write_spec k fd ptr n Hf (trap_um _ Ht) Hp Hn Hb Hh) as Ew. cbv zeta in Ew. fold bs in Ew.
  assert (tset_kern k t1 = t1) as Ek by (by destruct t1).
  destruct (Z.of_nat (length bs) <? n); [by rewrite (Hw _ _ Ew), Ek|].
  destruct (fds (fdt (k_fi k)) fd); [by apply Hw|by rewrite (Hw _ _ Ew), Ek].
Qed.

Lemma table_sigreturn nested :
  syscall_table exec_fuel nested LSYS_rt_sigreturn = Some (sys_handler exec_fuel nested "rt_sigreturn") /\
  forall a1 a2 a3 a4 a5 a6, runs_as (sys_handler exec_fuel nested "rt_sigreturn" a1 a2 a3 a4 a5 a6) sys_rt_sigreturn.
Proof.
  split; [reflexivity|]. intros. unfold sys_handler, strace_args.
  assert (list_find (fun p => p.1 = "rt_sigreturn"%string) params = None) as -> by (vm_compute; reflexivity).
  assert (LSYS "rt_sigreturn" = LSYS_rt_sigreturn) as -> by (vm_compute; reflexivity).
  assert (snd <$> list_find (fun p => p.1 = "rt_sigreturn"%string) (handlers exec_fuel nested) =
    Some ("rt_sigreturn"%string, fun _ _ _ _ _ _ => on_task sys_rt_sigreturn)) as E by reflexivity.
  destruct (list_find _ _) as [[i p]|]; simplify_eq/=.
  apply scwrapper_runs_as; try done. simpl. lia.
Qed.

(** C3: what a signal saves of the guest it interrupts, and gives back.  The guest is about to be
    entered with deliverable signals pending, all below 32, and the lowest that has a handler has a restorer too: before anything
    else runs, the signal is traced, if there is a trace file, and the handler is started with the signal's number, in a nested loop.
    Whatever the handler then
    does, any other system calls and nested signals included, if it comes to its [rt_sigreturn] with the stack pointer
    it was given and its frame unwritten, the nested loop returns and the guest is entered in a state
    that has the signal mask, the sixteen general registers, [rip], [rflags] and the selectors of [cs], [gs], [fs] and [ss]
    as they were before, and guest memory as the handler left it.  That is all that is restored: [ds], [es] and the state of the floating-point
    unit are not in the frame ("TODO: save FPU state"), and the frame itself is written below the stack pointer
    of the interrupted code, over the 128 bytes that code may still use there, unless the handler has a stack of its own. *)
Theorem signal_transparent fuel s sig act :
  let t := task_of s in
  let fa := frame_addr t act in
  let loop := main_loop (syscall_table exec_fuel) fuel true in
  D "VMX_REASON_EXC_NMI" <> D "VMX_REASON_VMCALL" -> has_sigpending t = true ->
  0 <= t_sigpending t -> length (t_sigaction t) = 64%nat -> (forall s', deliverable t s' -> s' < 32) ->
  deliverable t sig -> t_sigaction t !! Z.to_nat (sig - 1) = Some act ->
  lsa_handler act <> LINUX_SIG_DFL -> lsa_handler act <> LINUX_SIG_IGN ->
  (forall s', s' < sig -> deliverable t s' -> ~ handled t s') ->
  cpu_ok t -> 0 <= lsa_restorer act < 2 ^ 64 -> testf (lsa_flags act) LINUX_SA_RESTORER = true ->
  buffer_ok (t_um t) fa sizeof_l_rt_sigframe ->
  exists t1 sink, wake_sighandler s = Done tt (set_task t1 s.1, sink) /\
  t_regs t1 RIP = u64 (lsa_handler act) /\ t_regs t1 RSP = fa /\ t_regs t1 RDI = sig /\
  forall s2, last_exit (syscall_table exec_fuel) fuel true (set_task t1 s.1, sink) = Some s2 -> syscall_trap (task_of s2) -> handler_ran fa t1 (task_of s2) ->
  exists s3 : machine, task_run loop s = on_task vmm_run s3 /\ t_um (task_of s3) = t_um (task_of s2) /\
    t_sigmask (task_of s3) = t_sigmask t /\
    Forall (fun r => t_regs (task_of s3) r = t_regs t r) (context_regs ++ context_segs).
Proof.
  intros t fa loop Hd Hp Hp0 Hlen Hsm Hdl Ea N1 N2 Hlow Hc Hres Hr Hb.
  assert (wake_sighandler t = deliver sig (drop_upto t sig)) as Ew.
  { destruct (wake_sighandler_first t Hp0 Hlen Hsm) as [(s0 & Hd0 & Hh0 & Hl0 & E)|[Hno _]].
    - assert (handled t sig) as Hh by (by exists act). assert (s0 = sig) as ->; [|done].
      destruct (Z.lt_trichotomy s0 sig) as [|[|]]; [|done|]; exfalso; [by apply (Hlow s0)|by apply (Hl0 sig)].
    - destruct (Hno sig Hdl). by exists act. }
  set (t0 := drop_upto t sig) in *.
  assert (1 <= sig <= LINUX_NSIG) as Hs by (pose proof (Hsm sig Hdl); destruct Hdl as [? _]; unfold LINUX_NSIG; lia).
  pose proof (fun nested => sigframe_roundtrip t0 sig act (syscall_table exec_fuel nested) (sys_handler exec_fuel nested "rt_sigreturn")
    fa eq_refl Hc Hs Ea Hres Hr Hb (proj1 (table_sigreturn nested)) (proj2 (table_sigreturn nested))) as Hf.
  destruct (Hf loop) as (t1 & E1 & (R1 & R2 & R3 & _) & _).
  assert (exists t1', deliver sig t0 = Done tt t1' /\ t_regs t1' = t_regs t1 /\ t_um t1' = t_um t1) as (t1' & Ed & Er & Eu).
  { unfold deliver. rewrite (bind_Done _ _ _ _ _ (action_ok t0 (sig - 1) act ltac:(lia) Ea)), (bind_Done _ _ _ _ _ E1).
    change (0 <? 0) with false. cbv iota. unfold when_. destruct (testf _ LINUX_SA_ONESHOT); [|by exists t1].
    unfold set_action. msimp. eexists. split; [reflexivity|]. done. }
  destruct (wake_sighandler_traced s.1 s.2 tt t1') as [sink Es]; [by rewrite <- Ed, <- Ew|]. rewrite <- surjective_pairing in Es.
  exists t1', sink. rewrite Er. split_and!; try done. intros s2 Hl Ht (Q1 & Q2 & Q3 & Q4).
  destruct (main_loop_last _ _ _ _ _ Hl) as (n & s3 & Ev & Em). rewrite vm_exit_trap in Ev by done.
  destruct (Hf (main_loop (syscall_table exec_fuel) n true)) as (t1'' & E1'' & _ & Hh). rewrite E1 in E1''. injection E1'' as <-.
  destruct (Hh s2) as (s3' & E3 & Hregs & Hmask & Hum).
  { rewrite Eu in Q4. exact (conj Q1 (conj Q2 (conj Q3 Q4))). }
  rewrite Ev in E3. injection E3 as <-. exists s3. split_and!; try done.
  unfold task_run, handle_signal. msimp. fold t. rewrite Hp, Es. fold loop in Em. by rewrite Em.
Qed.

(** *** Memory *)

Context `{!HostOk}.

(** The memory system of a state *)
Definition mem_of (c : core) : xstate := v_x (c_v c).

Lemma mem_Done {A} (op : M world A) c a x' o : lw op (mem_of c) = Done a x' ->
  mem op (c, o) = Done a (mk_core (mk_vstate x' (nr_vcpus (c_v c))) (c_futex c), o).
Proof. unfold mem, unseen, lv, lx, mem_of. cbn [fst snd]. by intros ->. Qed.

(** The registers a system call leaves alone *)
Lemma sysret_regs v t r : r <> RAX -> r <> RIP -> t_regs (sysret v t) r = t_regs t r.
Proof. intros. unfold sysret. cbn [t_regs tset_regs]. by rewrite !upd_reg_ne. Qed.

(** C2: the [mmap] system call from the instruction to the page tables.  A guest that executes [syscall] with
    9 in [rax] and asks for anonymous memory at an address of the system's choosing continues after the instruction with the address in
    [rax], and from then on every access of the guest to the new pages, through the processor's page tables and the
    hypervisor's, reaches the memory the host has just provided, while every other user address reaches what it did
    before, with the same contents; no other register has changed, and the files, the signals and
    the page tables neither. *)
Theorem guest_mmap fuel ros c t1 p p4 p3 :
  let x := mem_of (set_task t1 c) in
  let arg r := t_regs t1 r in
  let flags := s32 (arg R10) in
  let top := current_mmap_top (u_mm (x_um x)) in
  let sz := roundup (arg RSI) PAGE in
  D "VMX_REASON_EXC_NMI" <> D "VMX_REASON_VMCALL" ->
  has_sigpending (task_of c) = false -> hv_vcpu_run (task_of c) = (0, t1) -> syscall_trap t1 -> arg RAX = 9 ->
  winv (xworld x) -> tables_at x p4 p3 -> user_addr_max <= p4 -> user_addr_max <= p3 ->
  0 <= arg RDI -> arg RDI mod 4096 = 0 -> 0 < arg RSI <= 2 ^ 31 - 4096 -> flags_ok flags ->
  testf (mmap_flags flags) LINUX_MAP_FIXED = false -> testf (mmap_flags flags) LINUX_MAP_ANON = true ->
  top + sz <= user_addr_max -> (forall y r, heap (u_mm (x_um x)) !! y = Some r -> ~ overlaps (key top sz) r) ->
  host_mmap (x_calls x) sz (s32 (arg RDX)) (linux_to_darwin_mflags (mmap_flags flags)) (-1) 0 = inl p -> fresh_host x p sz ->
  (forall tr, hv_vm_map_ok tr = true) ->
  exists c', main_loop (syscall_table exec_fuel) (S fuel) ros (c, None) = main_loop (syscall_table exec_fuel) fuel ros (c', None) /\
    let x' := mem_of c' in
    (t_regs (x_task x') RAX = top /\ t_regs (x_task x') RIP = u64 (arg RIP + 2) /\
     (forall r, r <> RAX -> r <> RIP -> t_regs (x_task x') r = arg r) /\
     t_kern (x_task x') = set_um (x_um x') (t_kern t1) /\ c_futex c' = c_futex c) /\
    winv (xworld x') /\ tables_at x' p4 p3 /\
    (forall la, 0 <= la < user_addr_max -> guest_access x' la =
       if (top <=? la) && (la <? top + sz) then Some (u64 (p + la - top)) else guest_access x la) /\
    (forall h, hmem (x_um x') h = if (p <=? h) && (h <? p + sz) then fresh_bytes (drop 2 (x_calls x')) h else hmem (x_um x) h).
Proof.
  intros x arg flags top sz Hd Hs Er Ht Ha Hw Htab Hp4 Hp3 Hadr Hal Hlen Hfl Hfix Hanon Htop Hfree Hhost Hfresh Hhv.
  destruct (mmap_free_top (xworld x) (arg RDI) (arg RSI) (s32 (arg RDX)) (s32 (arg RDX)) flags (s32 (arg R8)) (swrap 64 (arg R9)) p)
    as (w & E & Hw' & Hvk & Has & Htr); try done.
  { unfold mmap_fd, mmap_off. by rewrite Hanon. }
  { apply Hfresh. }
  destruct (lw_mapped _ _ _ _ _ _ _ _ _ _ _ _ _ E Htr) as (x' & E' & <- & Et & Hh).
  set (c1 := mk_core (mk_vstate x' (nr_vcpus (c_v c))) (c_futex c)).
  pose proof (inv_top _ Hw : 0 < top <= user_addr_max) as Ht0.
  exists (set_task (sysret top (x_task x')) c1). split.
  { apply (guest_syscall fuel ros c t1 "mmap" (fun a1 a2 a3 a4 a5 a6 => mem (sys_mmap a1 a2 (s32 a3) (s32 a4) (s32 a5) (swrap 64 a6))) top c1);
      fold (arg RAX); rewrite ?Ha; try done. exact (mem_Done _ _ _ _ None E'). }
  set (x2 := mem_of (set_task (sysret top (x_task x')) c1)). intros x2'. change x2' with x2. clear x2'.
  assert (t_regs (x_task x') = t_regs t1) as Eregs by (by rewrite Et).
  assert (forall a, ept (x_calls x2) a = if (top <=? a) && (a <? top + sz) then Some (u64 (p + a - top)) else ept (x_calls x) a) as Hept.
  { intros a. change (x_calls x2) with (w_trace (xworld x')). rewrite Htr. simpl. fold top sz. by destruct (_ && _). }
  destruct (mapped_access x x2 p4 p3 top sz p) as [Htab2 Hacc]; try done.
  { unfold x2. cbn [x_task mem_of set_task core_task vstate_task xstate_task c_v v_x]. rewrite sysret_regs by done. by rewrite Eregs. }
  { intros h Hn. change (hmem (x_um x2) h) with (hmem (x_um x') h). rewrite Hh. fold sz.
    destruct (Z.leb_spec p h), (Z.ltb_spec h (p + sz)); [lia|done..]. }
  split_and!; try done.
  - unfold x2, sysret. cbn [x_task mem_of set_task core_task vstate_task xstate_task c_v v_x t_regs tset_regs].
    rewrite upd_reg_ne, upd_reg_eq by done. apply (wrap_small 64 top). unfold user_addr_max in *. lia.
  - unfold x2, sysret. cbn [x_task mem_of set_task core_task vstate_task xstate_task c_v v_x t_regs tset_regs].
    rewrite upd_reg_eq, upd_reg_ne by done. by rewrite Eregs.
  - intros r Hr1 Hr2. unfold x2. cbn [x_task mem_of set_task core_task vstate_task xstate_task c_v v_x].
    rewrite sysret_regs by done. by rewrite Eregs.
  - change (t_kern (x_task x2)) with (t_kern (x_task x')). rewrite Et. done.
Qed.

(** *** Tracing *)

Create HintDb indifferent.
#[local] Hint Resolve indifferent_bind indifferent_ret indifferent_halt indifferent_unseen indifferent_on_task indifferent_sigdeliver : indifferent.

Lemma indifferent_wake : indifferent (wake_sighandler (St := machine)).
Proof.
  unfold wake_sighandler. generalize 65%nat as n. induction n as [|n IH]; cbn [wake_sighandler_loop]; [auto with indifferent|].
  apply indifferent_bind; [auto with indifferent|]. intros sig. case_match; [auto with indifferent|].
  apply indifferent_bind; [auto with indifferent|]. intros _. apply indifferent_bind; [auto with indifferent|].
  intros act. case_match; auto with indifferent.
Qed.
#[local] Hint Resolve indifferent_wake : indifferent.

Definition indifferent_table (tbl : sc_table machine) : Prop :=
  forall n h, tbl n = Some h -> forall a1 a2 a3 a4 a5 a6, indifferent (h a1 a2 a3 a4 a5 a6).

Lemma indifferent_deref {A B} (v : option A) (k : A -> M machine B) :
  (forall a, v = Some a -> indifferent (k a)) -> indifferent (deref v ≫= k).
Proof. intros Hk. destruct v as [a|]; [exact (Hk a eq_refl)|exact (indifferent_halt (A := B) Fault)]. Qed.

Lemma indifferent_syscall tbl ros : indifferent_table tbl -> indifferent (syscall_exit tbl ros).
Proof.
  intros Ht. unfold syscall_exit, handle_syscall. apply indifferent_bind; [|auto 7 with indifferent].
  do 8 (apply indifferent_bind; [auto with indifferent|intros ?]).
  apply indifferent_deref. intros h E. apply indifferent_bind; [by eapply Ht|auto with indifferent].
Qed.

Lemma indifferent_exit tbl ros : indifferent_table tbl -> indifferent (vm_exit tbl ros).
Proof.
  intros Ht. pose proof (indifferent_syscall tbl ros Ht) as Hs.
  assert (indifferent (invalid_opcode tbl ros)) as Hi.
  { unfold invalid_opcode. do 3 (apply indifferent_bind; [auto with indifferent|intros ?]). case_match; [done|].
    do 2 (apply indifferent_bind; [auto with indifferent|intros ?]). case_match; auto with indifferent. }
  unfold vm_exit, exception_exit, page_fault. apply indifferent_bind; [auto with indifferent|]. intros reason.
  repeat case_match; auto with indifferent. apply indifferent_bind; [auto with indifferent|]. intros info. cbv zeta.
  repeat case_match; auto with indifferent.
Qed.

Lemma indifferent_loop (tbl : M machine unit -> sc_table machine) :
  (forall nested, indifferent nested -> indifferent_table (tbl nested)) -> forall fuel ros, indifferent (main_loop tbl fuel ros).
Proof.
  intros Ht. induction fuel as [|fuel IH]; intros ros; cbn [main_loop]; [apply indifferent_halt|].
  apply indifferent_bind.
  { apply (indifferent_get (fun t => when_ (has_sigpending t) (handle_signal (main_loop tbl fuel true));; on_task vmm_run)).
    intros t. unfold when_, handle_signal. case_match; auto with indifferent. }
  intros r. case_match; [auto with indifferent|]. apply indifferent_bind; [by apply indifferent_exit, Ht|].
  intros ret. case_match; auto with indifferent.
Qed.

Lemma indifferent_sigsuspend nested nset size : indifferent nested -> indifferent (sys_rt_sigsuspend nested nset size).
Proof.
  intros Hn. unfold sys_rt_sigsuspend. apply indifferent_bind; [auto with indifferent|]. intros [r|old]; [auto with indifferent|].
  apply indifferent_bind; [auto with indifferent|]. intros _.
  apply (indifferent_get (fun t => if negb (has_sigpending t) then halt Diverge else handle_signal nested;; on_task (rt_sigsuspend_end old))).
  intros t. unfold handle_signal. case_match; auto with indifferent.
Qed.

Lemma indifferent_handlers nested : indifferent nested ->
  Forall (fun p : string * handler => forall a1 a2 a3 a4 a5 a6, indifferent (p.2 a1 a2 a3 a4 a5 a6)) (handlers exec_fuel nested).
Proof.
  intros Hn. unfold handlers. repeat (apply Forall_cons; split; [intros; cbn [snd]; first
    [apply indifferent_on_task|apply indifferent_unseen|apply indifferent_ret|by apply indifferent_sigsuspend]|]). apply Forall_nil_2.
Qed.

Lemma indifferent_syscalls nested : indifferent nested -> indifferent_table (syscall_table exec_fuel nested).
Proof.
  intros Hn n h E a1 a2 a3 a4 a5 a6. unfold syscall_table, sc_handler_table in E.
  destruct (sc_name_table n) as [name|]; simplify_eq/=. unfold sys_handler. apply indifferent_scwrapper.
  destruct (list_find _ _) as [[i p]|] eqn:E; [|apply indifferent_halt].
  apply list_find_Some in E as (E & _ & _). pose proof (indifferent_handlers nested Hn) as Hf.
  rewrite Forall_lookup in Hf. by apply (Hf i p).
Qed.

(** C5: tracing does not change what a program does.  A run of the main loop with a trace file open, over any
    number of system calls and of signals, which are traced where they are taken from the pending set, ends as the run without one does, in the same
    state of the task, its memory,
    the tables, the host and the virtual machine, having only added text to the file; unless it was the code that traces that
    crashed ([Tracing]), at an address or on the stack.  The handlers do not see the file: the variable that holds it is static to [meta_strace.c]. *)
Theorem trace_transparent fuel ros c o :
  let loop := main_loop (syscall_table exec_fuel) fuel ros in
  match loop (c, Some o) with
  | Done _ (c', sink) => loop (c, None) = Done tt (c', None) /\ exists text, sink = Some (o +:+ text)
  | Stop w (c', sink) =>
    (trace_crash w = true \/ loop (c, None) = Stop w (c', None)) /\ exists text, sink = Some (o +:+ text)
  end.
Proof.
  intros loop. pose proof (indifferent_loop (syscall_table exec_fuel) indifferent_syscalls fuel ros c o) as Hi. fold loop in Hi.
  by destruct (loop (c, Some o)) as [[] ?|].
Qed.

End EndToEnd.

(** ** Runs *)

(** A guest that leaves at once at the [syscall] at 0x10010 to write 3 bytes from 0x10ffe to
    descriptor 4 *)
Definition writing : Guest := {|
  hv_vcpu_run t := let '(r, t) := hv_vcpu_run (Guest := trapping X86_VEC_UD 1) t in
    (r, tset_regs (upd_reg RDI 4 (upd_reg RSI 0x10ffe (upd_reg RDX 3 (t_regs t)))) t);
  sleep_ t := t |}.
Definition write_demo : tstate := tset_kern (set_um (k_um (t_kern loop_demo)) k34) loop_demo.

(** A guest that, entered at the handler of [handler10], goes back to its restorer, where
    there is a [syscall] *)
Definition returning : Guest := {|
  hv_vcpu_run t := let '(r, t') := hv_vcpu_run (Guest := trapping X86_VEC_UD LSYS_rt_sigreturn) t in
    (r, tset_regs (upd_reg RIP 0x11800 (upd_reg RSP (t_regs t RSP + 8) (t_regs t'))) t');
  sleep_ t := t |}.
Definition signal_demo : tstate :=
  tset_sigpending (2 + 512) (tset_kern (set_um (user_write (t_um sig_demo) 0x11800 [0x0f; 0x05]) (t_kern sig_demo)) sig_demo).

(** The user memory of [w3p] with [syscall] at 0x10010, and the page tables that [init_page] makes of the kernel image *)
Definition code_mem (a : Z) : Z := if a =? 0x100000010 then 0x0f else if a =? 0x100000011 then 0x05 else image_mem a.
Definition x_code : xstate :=
  mk_xstate (tset_kern (set_um (mk_umem (w_mm w3p) (w_vkern w3p) code_mem) (t_kern loop_demo)) loop_demo) (noah_kern_brk w3p) (w_trace w3p).

(** A guest that leaves at once to map two pages *)
Definition mapping : Guest := {|
  hv_vcpu_run t := let '(r, t) := hv_vcpu_run (Guest := trapping X86_VEC_UD 9) t in
    (r, tset_regs (upd_reg RDI 0 (upd_reg RSI 0x2000 (upd_reg RDX 3 (upd_reg R10 0x22 (t_regs t))))) t);
  sleep_ t := t |}.

Definition nothing_else : Waiting := {| until_woken _ := None |}.
Definition some_trace : TraceEnv := {| trace_pid _ := 7; trace_tid _ := 1; trace_fuel := 64 |}.
Definition demo_core (t : tstate) : core := mk_core (mk_vstate (mk_xstate t user_addr_max []) 1) (init_futex (t_um t)).

Section Runs.
#[local] Existing Instances macos_errno vmx_const io_os roomy_heap demo_host demo_host_ok zero_mem demo_image nothing_else some_trace.
#[local] Instance zero_cpu : HostCpu := {| fresh_regs := fun _ _ => 0; fresh_vmcs := fun _ _ => 0 |}.

Lemma guest_write_witness :
  exists c3, main_loop (H2 := writing) (syscall_table (H7 := writing) 1) 1 false (demo_core write_demo, None) =
      main_loop (H2 := writing) (syscall_table (H7 := writing) 1) 0 false (c3, None) /\
    t_regs (task_of c3) RAX = 3 /\ t_regs (task_of c3) RIP = 0x10012 /\
    option_map ev_args (head (k_trace (t_kern (task_of c3)))) = Some [HI 4; HB [254; 255; 0]].
Proof.
  eexists. split.
  - rewrite (guest_write (H7 := writing) 1 0 false (demo_core write_demo) (hv_vcpu_run (Guest := writing) write_demo).2);
      [|vm_compute; congruence|reflexivity|reflexivity| |reflexivity|apply k34_ok|vm_compute; congruence|vm_compute; congruence|vm_compute; reflexivity|reflexivity].
    + reflexivity.
    + split; try (vm_compute; reflexivity || (split; congruence)). apply user_write_ok, u3p_ok.
  - vm_compute. done.
Defined.

Lemma signal_demo_buffer : buffer_ok (t_um signal_demo) (frame_addr signal_demo handler10) sizeof_l_rt_sigframe.
Proof.
  destruct (translate (t_um signal_demo) (frame_addr signal_demo handler10)) as [h|] eqn:E; [|vm_compute in E; discriminate].
  apply (buffer_one_page _ _ _ h); [apply user_write_ok, u3p_ok|vm_compute; congruence|vm_compute; congruence|vm_compute; congruence|exact E|..];
    vm_compute in E; injection E as <-; vm_compute; congruence.
Qed.

Lemma signal_demo_small s : deliverable signal_demo s -> s < 32.
Proof.
  intros (H1 & Hd & _). destruct (Z.le_gt_cases s 31); [lia|]. exfalso.
  assert (t_sigpending signal_demo < 2 ^ (s - 1)).
  { apply Z.lt_le_trans with (2 ^ 31); [vm_compute; reflexivity|]. apply Z.pow_le_mono_r; lia. }
  rewrite Z.bits_above_log2 in Hd; [done|vm_compute; congruence|]. apply Z.log2_lt_pow2; [vm_compute; reflexivity|done].
Qed.

Lemma signal_transparent_witness :
  let s : machine := (demo_core signal_demo, Some EmptyString) in
  (exists t1 text, wake_sighandler s = Done tt (set_task t1 s.1, text) /\ t_regs t1 RIP = 0x11000 /\ t_regs t1 RDI = 10) /\
  exists r s3, handle_signal (main_loop (H2 := returning) (syscall_table (H7 := returning) 1) 1 true) s = Done r s3 /\
    t_regs (task_of s3) RIP = t_regs signal_demo RIP /\ t_regs (task_of s3) RSP = t_regs signal_demo RSP /\
    t_sigmask (task_of s3) = t_sigmask signal_demo.
Proof.
  intros s. split; [|unshelve eapply run_test; vm_compute; reflexivity].
  destruct (signal_transparent (H7 := returning) 1 1 s 10 handler10) as (t1 & text & E & R1 & R2 & R3 & Hh).
  - vm_compute. congruence.
  - reflexivity.
  - vm_compute. congruence.
  - reflexivity.
  - apply signal_demo_small.
  - vm_compute. split_and!; congruence.
  - reflexivity.
  - vm_compute. congruence.
  - vm_compute. congruence.
  - intros s' Hs' _ (act & Ha & Hn & _). change (t_sigaction (task_of s)) with (t_sigaction sig_demo) in Ha.
    cbn [t_sigaction sig_demo] in Ha. apply Hn.
    destruct (Z.lt_ge_cases s' 1).
    + replace (Z.to_nat (s' - 1)) with 0%nat in Ha by lia. by injection Ha as <-.
    + rewrite list_lookup_insert_ne in Ha by lia. apply lookup_replicate in Ha as [-> _]. reflexivity.
  - split; [|split]; apply (bool_decide_unpack _); vm_compute; exact I.
  - vm_compute. split; congruence.
  - reflexivity.
  - apply signal_demo_buffer.
  - exists t1, text. split; [exact E|]. split; [exact R1|exact R3].
Defined.

Definition x_paged : xstate := match init_page x_code with Done _ x => x | Stop _ x => x end.
Definition c_paged : core := mk_core (mk_vstate x_paged 1) (init_futex (x_um x_paged)).
Definition mapping_exit : tstate := (hv_vcpu_run (Guest := mapping) (x_task x_paged)).2.

Lemma paged_ok : winv (xworld x_paged) /\ tables_at x_paged user_addr_max (user_addr_max + 0x1000).
Proof.
  destruct (init_page_tables x_code) as (x' & E & Hw & Ht & _).
  - apply reach_winv, w3p_reach.
  - done.
  - destruct image_loaded. constructor; try done; apply words_at_dec; vm_compute; reflexivity.
  - vm_compute. reflexivity.
  - unfold x_paged. rewrite E. by split.
Qed.

(** What leaves the memory system alone leaves the tables in place. *)
Lemma task_frame x n f t p4 p3 :
  let x' := mem_of (set_task t (mk_core (mk_vstate x n) f)) in
  t_um t = x_um x -> t_regs t CR3 = t_regs (x_task x) CR3 -> winv (xworld x) -> tables_at x p4 p3 ->
  winv (xworld x') /\ tables_at x' p4 p3.
Proof.
  intros x' Hu Hc Hw Ht. assert (x_um x' = x_um x) as Ex by exact Hu. split; [|apply (tables_frame x); [done|done|by rewrite Ex|done]].
  assert (xworld x' = xworld x) as -> by (unfold xworld; by rewrite Ex). done.
Qed.

Lemma mapping_keeps t : let t' := (hv_vcpu_run (Guest := mapping) t).2 in t_um t' = t_um t /\ t_regs t' CR3 = t_regs t CR3.
Proof. done. Qed.

#[local] Opaque x_paged.

Lemma mapping_trap : syscall_trap mapping_exit.
Proof.
  split; try (vm_compute; reflexivity || (split; congruence)). destruct paged_ok as [Hw _]. split; apply Hw.
Qed.

Lemma guest_mmap_witness :
  exists c', main_loop (H2 := mapping) (syscall_table (H7 := mapping) 1) 1 false (c_paged, None) =
      main_loop (H2 := mapping) (syscall_table (H7 := mapping) 1) 0 false (c', None) /\
    t_regs (task_of c') RAX = 0xc0000000 /\ exists h, guest_access (mem_of c') 0xc0000000 = Some h /\ guest_access (mem_of c_paged) 0xc0000000 = None.
Proof.
  destruct paged_ok as [Hw Ht].
  set (x := mem_of (set_task mapping_exit c_paged)).
  destruct (task_frame x_paged 1 (init_futex (x_um x_paged)) mapping_exit user_addr_max (user_addr_max + 0x1000)
    (proj1 (mapping_keeps _)) (proj2 (mapping_keeps _)) Hw Ht) as [Hwx Htx].
  destruct (guest_mmap (H7 := mapping) 1 0 false c_paged mapping_exit 0x170000000 user_addr_max (user_addr_max + 0x1000)) as
    (c' & E & (Ea & _) & _ & _ & Hacc & _); [vm_compute; congruence|reflexivity|reflexivity|apply mapping_trap|reflexivity|exact Hwx|exact Htx|..].
  - reflexivity.
  - unfold user_addr_max. lia.
  - vm_compute. congruence.
  - reflexivity.
  - vm_compute. split; congruence.
  - reflexivity.
  - reflexivity.
  - reflexivity.
  - vm_compute. congruence.
  - intros y r Hy [Ho _]. apply (heap_forall _ (fun r => gaddr r + Mm.size r <=? 0xc0000000)) in Hy; [|vm_compute; reflexivity].
    apply Z.leb_le in Hy. vm_compute (gaddr (key _ _)) in Ho. lia.
  - vm_compute. reflexivity.
  - split; [reflexivity|]. split; [reflexivity|]. split; [vm_compute; congruence|].
    intros a h Ha He. apply (apart_ept (x_calls x) 0x170000000 _ a); [vm_compute; reflexivity|done|done].
  - reflexivity.
  - exists c'. split; [exact E|]. split; [transitivity (current_mmap_top (u_mm (x_um x))); [exact Ea|vm_compute; reflexivity]|]. eexists. rewrite Hacc by (unfold user_addr_max; lia).
    split; [reflexivity|]. transitivity (ept (x_calls x_paged) 0xc0000000);
      [exact (access_ept x_paged _ _ 0xc0000000 Ht ltac:(unfold user_addr_max; lia))|vm_compute; reflexivity].
Defined.

End Runs.
