(* ===== verification/Security.v ===== *)
(** * Privileges over whole runs

    No system call but [execve] of a set-user-ID program gives a process an identity it did
    not have: an invariant of every state the main loop goes through.  The proof goes over
    every handler of the table; [inv I c] says that [c] keeps [I] whether it returns or stops. *)

From S2P Require Import Prelude RBTree Const Errno Conv Mm Mmap MmapFacts MmInv MmSys UserMem FdTable Kernel Files Path.
From S2P Require Import FileOps PathOps FdSys ShmMalloc Futex Task Signal Debug Strace Exec Fork Process PageTable Boot MainLoop Net TimeSys Sys Syscalls.

(** ** Invariants of computations *)

Definition inv {S A} (I : S -> Prop) (c : M S A) : Prop :=
  forall s, I s -> match c s with Done _ s' | Stop _ s' => I s' end.

Section Inv.
Context {S : Type} (I : S -> Prop).

Lemma inv_bind {A B} (c : M S A) (k : A -> M S B) : inv I c -> (forall a, inv I (k a)) -> inv I (c ≫= k).
Proof. intros Hc Hk s Hs. specialize (Hc s Hs). unfold mbind, M_bind. destruct (c s) as [a s'|]; [by apply Hk|done]. Qed.

Lemma inv_ret {A} (a : A) : inv I (mret a).
Proof. by intros s. Qed.

Lemma inv_halt {A} w : inv I (halt w : M S A).
Proof. by intros s. Qed.

Lemma inv_get : inv I get.
Proof. by intros s. Qed.

Lemma inv_modify f : (forall s, I s -> I (f s)) -> inv I (modify f).
Proof. intros Hf s Hs. by apply Hf. Qed.

End Inv.

Create HintDb inv discriminated.
#[export] Hint Constants Opaque : inv.
#[export] Hint Transparent K : inv.

(** Goes through a computation: sequencing, case analyses, known operations, and
    the definition of any other. *)
Ltac head_of c := lazymatch c with ?f _ => head_of f | _ => c end.
Ltac inv_lift := fail.
Ltac inv_step :=
  first
    [inv_lift
    |solve [auto 2 with inv nocore]
    |lazymatch goal with
     | |- inv _ (mbind _ _) => apply inv_bind; [|intros ?]
     | |- inv _ (mret _) => apply inv_ret
     | |- inv _ (halt _) => apply inv_halt
     | |- inv _ get => apply inv_get
     | |- inv _ (let _ := _ in _) => cbv zeta
     | |- inv _ (match ?x with _ => _ end) => destruct x
     | |- inv _ ?c => let h := head_of c in progress unfold h; cbv beta iota
     end].
Ltac inv_go := repeat inv_step.

(** ** The kernel's state *)

Section Kstate.
Context `{OS} `{DarwinErrno} `{DarwinConst} `{Heap} (s : list Z).

(** All the user ids are in [s]. *)
Abbreviation I := (within s).

Lemma inv_hcall name args : inv I (hcall name args).
Proof. by intros k. Qed.

Lemma inv_copy_from_user p n : inv I (k_copy_from_user p n).
Proof. intros k Hk. unfold k_copy_from_user, total. msimp. by destruct (copy_from_user _ _ _). Qed.

Lemma inv_copy_to_user p bs : inv I (k_copy_to_user p bs).
Proof. intros k Hk. unfold k_copy_to_user, total. msimp. by destruct (copy_to_user _ _ _) as [[]|]. Qed.

Lemma inv_put_fd wh fd cx : inv I (put_fd wh fd cx).
Proof. intros k Hk. unfold put_fd. msimp. destruct (enter_fd _ _ _); [|done]. by destruct wh. Qed.
#[local] Hint Resolve inv_hcall inv_copy_from_user inv_copy_to_user inv_put_fd : inv.

Lemma inv_register_fd fd cx : inv I (register_fd fd cx).
Proof.
  intros k Hk. unfold register_fd. rewrite (bind_Done get _ k k k) by done. destruct (_ >=? _); [done|].
  destruct (_ <=? _); [|rewrite (bind_Done _ _ k 0 k) by done; cbv iota].
  - destruct (alloc_fdtable _ _) as [err t]. rewrite (bind_Done _ _ k err (set_fdt t k)) by done.
    assert (inv I (if err <? 0 then mret err else put_fd User fd cx;; mret 0)) as Hi by inv_go. by apply Hi.
  - assert (inv I (if 0 <? 0 then mret 0 else put_fd User fd cx;; mret 0)) as Hi by inv_go. by apply Hi.
Qed.

Lemma inv_do_close wh fd : inv I (do_close wh fd).
Proof.
  assert (forall n : Z, inv I (k ← get; t ← deref (leave_fd (table_of wh k) fd); put (set_table wh t k);; mret n)).
  { intros n k Hk. msimp. destruct (leave_fd _ _); [|done]. by destruct wh. }
  unfold do_close. inv_go.
Qed.
#[local] Hint Resolve inv_register_fd inv_do_close : inv.

Lemma inv_close_words n : forall i, inv I (close_words n i).
Proof.
  assert (forall n i j, inv I (close_word n i j)).
  { clear. induction n as [|n IH]; intros i j; cbn [close_word]; inv_go. }
  induction n as [|n IH]; intros i; cbn [close_words]; inv_go.
Qed.
#[local] Hint Resolve inv_close_words : inv.

Lemma inv_close_cloexec : inv I close_cloexec.
Proof. inv_go. Qed.
#[local] Hint Resolve inv_close_cloexec : inv.

(** *** Paths and files *)

Lemma inv_set_cloexec fd on : inv I (set_cloexec fd on).
Proof. intros k Hk. unfold set_cloexec. msimp. by destruct (if on then _ else _). Qed.
#[local] Hint Resolve inv_set_cloexec : inv.

Lemma inv_walk n rec dirfd flags : (forall fd name, inv I (rec fd name)) -> forall c sp, inv I (Path.walk n rec dirfd flags c sp).
Proof. intros Hr. induction n as [|n IH]; intros c sp; cbn [Path.walk]; inv_go. Qed.
#[local] Hint Resolve inv_walk : inv.

Lemma inv_resolve fuel : forall parent name flags loop, inv I (resolve_path_fuel fuel parent name flags loop).
Proof. induction fuel as [|fuel IH]; intros parent name flags loop; cbn [resolve_path_fuel]; inv_go. Qed.
#[local] Hint Resolve inv_resolve : inv.

Lemma inv_gather l : inv I (gather l).
Proof. induction l as [|[p n] l IH]; cbn [gather]; inv_go. Qed.
Lemma inv_scatter o l : forall i size r, inv I (scatter o i l size r).
Proof. induction l as [|[p n] l IH]; intros i size r; cbn [scatter]; inv_go. Qed.
Lemma inv_alloca_all l : inv I (alloca_all l).
Proof. induction l as [|n l IH]; cbn [alloca_all]; inv_go. Qed.
Lemma inv_getdents fuel : forall dir buf count pos loc errno is64, inv I (getdents_loop fuel dir buf count pos loc errno is64).
Proof. induction fuel as [|fuel IH]; intros; cbn [getdents_loop]; inv_go. Qed.
#[local] Hint Resolve inv_gather inv_scatter inv_alloca_all inv_getdents : inv.

Lemma inv_recv_scatter o l rest : inv I rest -> forall i, inv I (recv_scatter o i l rest).
Proof. intros Hr. induction l as [|[p n] l IH]; intros i; cbn [recv_scatter]; inv_go. Qed.
Lemma inv_sendmmsg n : forall fd p msgs i flags, inv I (sendmmsg_loop n fd p msgs i flags).
Proof. induction n as [|n IH]; intros; cbn [sendmmsg_loop]; inv_go. Qed.
#[local] Hint Resolve inv_recv_scatter inv_sendmmsg : inv.

(** *** Credentials *)

Context (Hs : 0 ∉ s).

(** [put] of new credentials that pass the checks, and what follows *)
Lemma inv_put_cred {A} k c (rest : K A) : I (set_cred c k) -> inv I rest ->
  match (put (set_cred c k);; rest) k with Done _ k' | Stop _ k' => I k' end.
Proof. intros Hk Hr. by apply (Hr (set_cred c k)). Qed.

Lemma inv_set rest : inv I rest -> forall id, inv I (set_ruid id rest) /\ inv I (set_euid id rest) /\ inv I (set_suid id rest).
Proof.
  intros Hr id. assert (forall name (c : K Z), inv I c -> inv I (r ← sysw name [HI id]; if r <? 0 then halt Panic else c)) as Hh by (intros; inv_go).
  split_and!; intros k Hk; unfold set_ruid, set_euid, set_suid; (destruct (id =? NOID); [by apply Hr|]);
    rewrite (bind_Done get _ k k k) by done; destruct (can_setresxid _ _) eqn:Ec; cbn [negb]; try exact Hk;
    apply (can_within s) in Ec; try done; pose proof Hk as (Hu & He & Hsu).
  - destruct (_ && _); [exact Hk|]. apply inv_put_cred; [done|by apply Hh].
  - destruct (_ && _); [by destruct (id =? _)|]. apply inv_put_cred; [done|by apply Hh].
  - by apply inv_put_cred.
Qed.

Lemma inv_do_setresuid ruid euid suid : inv I (do_setresuid ruid euid suid).
Proof. unfold do_setresuid. do 3 (apply inv_set). apply inv_ret. Qed.
#[local] Hint Resolve inv_do_setresuid : inv.

(** *** Tasks *)

Definition It (t : tstate) : Prop := I (t_kern t).

Lemma inv_lk {A} (c : K A) : inv I c -> inv It (lk c).
Proof. intros Hc t Ht. specialize (Hc (t_kern t) Ht). unfold lk. by destruct (c (t_kern t)). Qed.

Lemma inv_task_modify f : (forall t, t_kern (f t) = t_kern t) -> inv It (modify f).
Proof. intros Hf t Ht. unfold modify, It. by rewrite Hf. Qed.

Ltac inv_lift ::= lazymatch goal with
  | |- inv _ (recv_scatter _ _ _ _) => apply inv_recv_scatter
  | |- inv It (lk _) => apply inv_lk
  | |- inv It (modify _) => apply inv_task_modify; done
  end.

Lemma inv_action_at i : inv It (action_at i).
Proof. inv_go. Qed.
Lemma inv_set_action i a : inv It (set_action i a).
Proof. inv_go. Qed.
Lemma inv_reset n : forall i, inv It (reset_actions n i).
Proof. induction n as [|n IH]; intros i; cbn [reset_actions]; inv_go. Qed.
#[local] Hint Resolve inv_action_at inv_set_action inv_reset : inv.

Lemma inv_reset_signal_state : inv It reset_signal_state.
Proof. inv_go. Qed.
#[local] Hint Resolve inv_reset_signal_state : inv.

(** *** The memory system and the program *)

Definition Ix (x : xstate) : Prop := It (x_task x).
Definition Iv (v : vstate) : Prop := Ix (v_x v).
Definition Ip (p : pstate) : Prop := It (p_task p).
Definition Ic (c : core) : Prop := Iv (c_v c).
Definition Im (m : machine) : Prop := Ic m.1.

Lemma inv_ltask {A} (c : T A) : inv It c -> inv Ix (ltask c).
Proof. intros Hc x Hx. specialize (Hc (x_task x) Hx). unfold ltask. by destruct (c (x_task x)). Qed.
Lemma inv_lw `{HostMem} {A} (c : M world A) : inv Ix (lw c).
Proof. intros x Hx. unfold lw. by destruct (c _). Qed.
Lemma inv_lx {A} (c : X A) : inv Ix c -> inv Iv (lx c).
Proof. intros Hc v Hv. specialize (Hc (v_x v) Hv). unfold lx. by destruct (c (v_x v)). Qed.
Lemma inv_lv {A} (c : V A) : inv Iv c -> inv Ic (lv c).
Proof. intros Hc v Hv. specialize (Hc (c_v v) Hv). unfold lv. by destruct (c (c_v v)). Qed.
Lemma inv_pt {A} (c : T A) : inv It c -> inv Ip (pt c).
Proof. intros Hc p Hp. specialize (Hc (p_task p) Hp). unfold pt. by destruct (c (p_task p)). Qed.
Lemma inv_pf {A} (c : M fstate A) : inv Ip (pf c).
Proof. intros p Hp. unfold pf. by destruct (c _). Qed.
Lemma inv_lp {A} (c : P A) : inv Ip c -> inv Ic (lp c).
Proof. intros Hc m Hm. specialize (Hc (mk_pstate (task_of m) (c_futex m)) Hm). unfold lp. by destruct (c _). Qed.
Lemma inv_unseen {A} (c : M core A) : inv Ic c -> inv Im (unseen c).
Proof. intros Hc m Hm. specialize (Hc m.1 Hm). unfold unseen. by destruct (c m.1). Qed.
Lemma inv_on_task {A} (c : T A) : inv It c -> inv Im (on_task c).
Proof. intros Hc m Hm. specialize (Hc (task_of m) Hm). unfold on_task. by destruct (c (task_of m)). Qed.
Lemma inv_v_modify f : (forall v, task_of (f v) = task_of v) -> inv Iv (modify f).
Proof. intros Hf v Hv. unfold modify, Iv, Ix. change (x_task (v_x (f v))) with (task_of (f v)). by rewrite Hf. Qed.

Ltac inv_lift ::= lazymatch goal with
  | |- inv _ (recv_scatter _ _ _ _) => apply inv_recv_scatter
  | |- inv It (lk _) => apply inv_lk
  | |- inv It (modify _) => apply inv_task_modify; done
  | |- inv Ix (ltask _) => apply inv_ltask
  | |- inv Ix (lw _) => apply inv_lw
  | |- inv Iv (lx _) => apply inv_lx
  | |- inv Iv (modify _) => apply inv_v_modify; done
  | |- inv Ic (lv _) => apply inv_lv
  | |- inv Ic (lp _) => apply inv_lp
  | |- inv Ip (pt _) => apply inv_pt
  | |- inv Ip (pf _) => apply inv_pf
  | |- inv Im (unseen _) => apply inv_unseen
  | |- inv Im (on_task _) => apply inv_on_task
  end.

(** *** [execve] without set-user-ID programs *)

Context `{Host} `{HostMem} `{HostCpu} `{KernImage}.
Context (no_setuid : forall tr args, testf (field (outbuf (h_out (os tr "fstat" args)) 1) 0 2) 2048 = false).

Lemma inv_interp n : forall i data h la top, inv Ix (interp_segments n i data h la top).
Proof. induction n as [|n IH]; intros; cbn [interp_segments]; inv_go. Qed.
Lemma inv_push_strings ss : forall ptr a buf, inv Ix (push_strings ss ptr a buf).
Proof. induction ss as [|x ss IH]; intros; cbn [push_strings]; inv_go. Qed.
Lemma inv_elf n : forall i data h off base top, inv Ix (elf_segments n i data h off base top).
Proof. induction n as [|n IH]; intros; cbn [elf_segments]; inv_go. Qed.
Lemma inv_find_interp n : forall i data h, inv Ix (find_interp n i data h).
Proof. induction n as [|n IH]; intros; cbn [find_interp]; inv_go. Qed.
#[local] Hint Resolve inv_interp inv_push_strings inv_elf inv_find_interp : inv.

Lemma inv_load_elf data argv envp : inv Ix (load_elf data argv envp).
Proof. inv_go. Qed.
Lemma inv_prepare : inv Ix prepare_newproc.
Proof. inv_go. Qed.
#[local] Hint Resolve inv_load_elf inv_prepare : inv.

(** The mode [fstat] gives has no set-user-ID bit. *)
Lemma inv_fstat {A} fd (k : Z * Z -> X A) : (forall size mode, testf mode 2048 = false -> inv Ix (k (size, mode))) -> inv Ix (host_fstat fd ≫= k).
Proof. intros Hk x Hx. refine (Hk _ _ _ _ _); [apply no_setuid|exact Hx]. Qed.

Lemma inv_do_exec fuel : forall path argv envp, inv Ix (do_exec fuel path argv envp).
Proof.
  induction fuel as [|fuel IH]; intros path argv envp; cbn [do_exec]; [inv_go|].
  apply inv_bind; [inv_go|]. intros err. inv_step; [inv_go|]. apply inv_bind; [inv_go|]. intros fd. inv_step; [inv_go|].
  apply inv_bind; [inv_go|]. intros x. inv_step; [inv_go|]. apply inv_fstat. intros size mode Hm. rewrite Hm. inv_go.
Qed.
#[local] Hint Resolve inv_do_exec : inv.

Lemma inv_loop {A B} n : forall (body : A -> X (A + B)) a, (forall a, inv Ix (body a)) -> inv Ix (Exec.loop n body a).
Proof. induction n as [n IH|n IH|]; intros body a Hb; cbn [Exec.loop]; inv_go. Qed.

Lemma inv_copy_strings p : inv Ix (copy_strings p).
Proof. unfold copy_strings. apply inv_bind; [apply inv_loop|]; intros ?; inv_go. Qed.
#[local] Hint Resolve inv_copy_strings : inv.

Lemma inv_execve fuel a b c : inv Ix (sys_execve fuel a b c).
Proof. inv_go. Qed.

(** *** Threads and processes *)

Lemma inv_own {A} (k : tstate -> V A) : (forall t, It t -> inv Iv (k t)) -> inv Iv (lx (ltask get) ≫= k).
Proof. intros Hk [[t b cs] n] Hv. exact (Hk t Hv (mk_vstate (mk_xstate t b cs) n) Hv). Qed.

Lemma inv_set_task t : It t -> inv Iv (modify (set_task t)).
Proof. by intros Ht v Hv. Qed.

Lemma inv_read_all {A} (read : A -> T Z) l : (forall a, inv It (read a)) -> inv It (read_all read l).
Proof. intros Hr. induction l as [|a l IH]; cbn [read_all]; inv_go. Qed.
Lemma inv_write_all {A} (write : A -> Z -> T unit) l : (forall a v, inv It (write a v)) -> forall vs, inv It (write_all write l vs).
Proof. intros Hw. induction l as [|a l IH]; intros [|v vs]; cbn [write_all]; inv_go. Qed.

Lemma inv_snapshot : inv It vmm_snapshot_vcpu.
Proof. unfold vmm_snapshot_vcpu. apply inv_bind; [apply inv_read_all; intros; inv_go|intros ?]. apply inv_bind; [apply inv_read_all; intros; inv_go|intros ?; inv_go]. Qed.
Lemma inv_restore sn : inv It (vmm_restore_vcpu sn).
Proof. unfold vmm_restore_vcpu. apply inv_bind; [|intros _]; apply inv_write_all; intros; inv_go. Qed.
Lemma inv_destroy n : inv Ix (destroy_vcpus n).
Proof. induction n as [|n IH]; cbn [destroy_vcpus]; inv_go. Qed.
#[local] Hint Resolve inv_snapshot inv_restore inv_destroy : inv.

Lemma inv_clone_process f sp pt ct tls : inv Iv (__do_clone_process f sp pt ct tls).
Proof. inv_go. Qed.
Lemma inv_start_thread sn f sp pt ct tls : inv Iv (__start_thread sn f sp pt ct tls).
Proof. inv_go. Qed.
#[local] Hint Resolve inv_clone_process inv_start_thread : inv.

Lemma inv_clone_thread f sp pt ct tls : inv Iv (__do_clone_thread f sp pt ct tls).
Proof.
  unfold __do_clone_thread. apply inv_bind; [inv_go|]. intros sn. apply inv_bind; [inv_go|]. intros r. inv_step; [inv_go|].
  apply inv_own. intros own Ho. apply inv_bind; [by apply inv_set_task|]. intros _. apply inv_bind; [inv_go|]. intros _.
  apply inv_own. intros child Hc. apply inv_bind; [by apply inv_set_task|]. intros _. inv_go.
Qed.
#[local] Hint Resolve inv_clone_thread : inv.

(** *** The handlers *)

Context `{Guest} `{Waiting} `{TraceEnv} (exec_fuel : nat).
Context (woken_ok : forall p k p', until_woken p = Some (k, p') -> Ip p -> Ip p').

Lemma inv_futex a : inv Ip (futex_wait_woken a).
Proof.
  unfold futex_wait_woken. apply inv_bind; [inv_go|]. intros t. apply inv_bind; [inv_go|]. intros [r|]; [inv_go|].
  intros p Hp. rewrite (bind_Done get _ p p p) by done. destruct (until_woken p) as [[k p']|] eqn:E; [|done].
  apply woken_ok in E; [|done]. rewrite (bind_Done _ _ p tt p') by done. by apply inv_pf.
Qed.
#[local] Hint Resolve inv_futex inv_execve : inv.

Lemma inv_handlers nested : inv Im nested -> (forall a b, inv Im (sys_rt_sigsuspend nested a b)) ->
  Forall (fun p : string * handler => forall a1 a2 a3 a4 a5 a6, inv Im (p.2 a1 a2 a3 a4 a5 a6)) (handlers exec_fuel nested).
Proof.
  intros Hn Hsus. unfold handlers. repeat (apply Forall_cons; split; [intros; cbn [snd]; inv_go|]). apply Forall_nil_2.
Qed.

(** *** The main loop *)

Context (guest_ok : forall t, It t -> It (hv_vcpu_run t).2) (sleep_ok : forall t, It t -> It (sleep_ t)).

Lemma inv_run : inv It vmm_run.
Proof. intros t Ht. unfold vmm_run. pose proof (guest_ok t Ht) as Hg. by destruct (hv_vcpu_run t). Qed.
Lemma inv_sleep : inv It (modify sleep_).
Proof. by apply inv_modify. Qed.
#[local] Hint Resolve inv_run : inv.

Lemma inv_tracing c : inv Im (tracing c).
Proof. intros m Hm. unfold tracing. by destruct (c _ _). Qed.

Lemma inv_check_pat n : forall tmp, inv It (check_pat n tmp).
Proof. induction n as [|n IH]; intros tmp; cbn [check_pat]; inv_go. Qed.
#[local] Hint Resolve inv_tracing inv_check_pat : inv.

Lemma inv_sigdeliver sig : inv Im (sigdeliver sig).
Proof. apply inv_tracing. Qed.
#[local] Hint Resolve inv_sigdeliver : inv.

Lemma inv_wake : inv Im wake_sighandler.
Proof.
  unfold wake_sighandler. generalize 65%nat as n. induction n as [|n IH]; cbn [wake_sighandler_loop]; inv_go.
Qed.
#[local] Hint Resolve inv_wake : inv.

Definition inv_table (tbl : sc_table machine) : Prop := forall n h, tbl n = Some h -> forall a1 a2 a3 a4 a5 a6, inv Im (h a1 a2 a3 a4 a5 a6).

Lemma inv_deref {A B} (o : option A) (k : A -> M machine B) : (forall a, o = Some a -> inv Im (k a)) -> inv Im (deref o ≫= k).
Proof. intros Hk. destruct o as [a|]; [exact (Hk a eq_refl)|exact (inv_halt (A := B) _ Fault)]. Qed.

Lemma inv_handle_syscall tbl : inv_table tbl -> inv Im (handle_syscall tbl).
Proof.
  intros Ht. unfold handle_syscall. do 8 (apply inv_bind; [inv_go|intros ?]).
  apply inv_deref. intros h E. apply inv_bind; [by eapply Ht|intros ?; inv_go].
Qed.

Lemma inv_vm_exit tbl ros : inv_table tbl -> inv Im (vm_exit tbl ros).
Proof. intros Ht. pose proof (inv_handle_syscall tbl Ht). inv_go. Qed.

Lemma inv_main_loop (tbl : M machine unit -> sc_table machine) :
  (forall nested, inv Im nested -> inv_table (tbl nested)) -> forall fuel ros, inv Im (main_loop tbl fuel ros).
Proof.
  intros Ht. induction fuel as [|fuel IH]; intros ros; cbn [main_loop]; [inv_go|].
  apply inv_bind; [inv_go|]. intros r. inv_step; [inv_go|]. apply inv_bind; [by apply inv_vm_exit, Ht|]. intros ret. inv_go.
Qed.

Lemma inv_sigsuspend nested a b : inv Im nested -> inv Im (sys_rt_sigsuspend nested a b).
Proof.
  intros Hn. unfold sys_rt_sigsuspend. apply inv_bind; [inv_go|]. intros [r|old]; [inv_go|].
  apply inv_bind; [apply inv_on_task, inv_sleep|]. intros _. inv_go.
Qed.

Lemma inv_syscalls nested : inv Im nested -> inv_table (syscall_table exec_fuel nested).
Proof.
  intros Hn n h E a1 a2 a3 a4 a5 a6. unfold syscall_table, sc_handler_table in E.
  destruct (sc_name_table n) as [name|]; simplify_eq/=. unfold sys_handler, scwrapper.
  apply inv_bind; [inv_go|]. intros _. apply inv_bind; [|intros r; inv_go].
  destruct (list_find _ _) as [[i p]|] eqn:E; [|inv_go]. apply list_find_Some in E as (E & _ & _).
  pose proof (inv_handlers nested Hn (fun a b => inv_sigsuspend nested a b Hn)) as Hf. rewrite Forall_lookup in Hf. by apply (Hf i p).
Qed.

End Kstate.

(** ** No escalation *)

Definition user_ids (m : machine) : list Z := ids (k_cred (t_kern (task_of m))).

Section Escalation.
Context `{OS} `{DarwinErrno} `{DarwinConst} `{Heap} `{Host} `{HostMem} `{HostCpu} `{KernImage} `{Guest} `{Waiting} `{TraceEnv}.

(** C4: a process that is not root stays what it is, whatever it runs.  With no set-user-ID program on the host, in every
    state a run of the main loop comes to, after any sequence of instructions, system calls, signals, forks and executions
    of other programs, and however it ends, each of the real, effective and saved user ids is one the process had
    when the run began; provided that the guest's instructions do not write the kernel's records, and that other threads obey the
    same rule while this one sleeps. *)
Theorem no_escalation exec_fuel fuel ros m :
  0 ∉ user_ids m ->
  (forall tr args, testf (field (outbuf (h_out (os tr "fstat" args)) 1) 0 2) 2048 = false) ->
  (forall t, k_cred (t_kern (hv_vcpu_run t).2) = k_cred (t_kern t)) -> (forall t, ids (k_cred (t_kern (sleep_ t))) ⊆ ids (k_cred (t_kern t))) ->
  (forall p k p', until_woken p = Some (k, p') -> ids (k_cred (t_kern (p_task p'))) ⊆ ids (k_cred (t_kern (p_task p)))) ->
  match main_loop (syscall_table exec_fuel) fuel ros m with Done _ m' | Stop _ m' => user_ids m' ⊆ user_ids m end.
Proof.
  intros Hz Hns Hg Hsl Hw. set (s := user_ids m) in *.
  assert (forall k, within s k <-> ids (k_cred k) ⊆ s) as Hws by (intros k; unfold within, ids; set_solver).
  assert (forall t, It s t -> It s (hv_vcpu_run t).2) as Hg' by (intros t; unfold It; rewrite !Hws, Hg; done).
  assert (forall t, It s t -> It s (sleep_ t)) as Hsl' by (intros t; unfold It; rewrite !Hws; intros; etrans; [apply Hsl|done]).
  assert (forall p k p', until_woken p = Some (k, p') -> Ip s p -> Ip s p') as Hw'
    by (intros p k p' E; unfold Ip, It; rewrite !Hws; intros; etrans; [by eapply Hw|done]).
  assert (inv (Im s) (main_loop (syscall_table exec_fuel) fuel ros)) as Hi
    by (apply inv_main_loop; [done|]; intros nested; by apply inv_syscalls).
  specialize (Hi m). destruct (main_loop _ fuel ros m) as [u m'|w m']; apply Hws; apply Hi; apply Hws; done.
Qed.

End Escalation.

(** ** A run *)

(** A guest of user 501 that asks for [setuid(0)] *)
Definition asking : Guest := {|
  hv_vcpu_run t := let '(r, t) := hv_vcpu_run (Guest := trapping X86_VEC_UD 105) t in (r, tset_regs (upd_reg RDI 0 (t_regs t)) t);
  sleep_ t := t |}.
Definition user_task : tstate := tset_kern (set_cred (mk_cred 501 501 501) (t_kern loop_demo)) loop_demo.
Definition user_machine : machine := (mk_core (mk_vstate (mk_xstate user_task user_addr_max []) 1) (init_futex (t_um user_task)), None).

Section Run.
#[local] Existing Instances macos_errno vmx_const quiet_os roomy_heap demo_host zero_mem demo_image.
#[local] Instance zero_cpu : HostCpu := {| fresh_regs := fun _ _ => 0; fresh_vmcs := fun _ _ => 0 |}.
#[local] Instance alone : Waiting := {| until_woken _ := None |}.
#[local] Instance untraced : TraceEnv := {| trace_pid _ := 7; trace_tid _ := 1; trace_fuel := 64 |}.

Lemma no_escalation_witness :
  match main_loop (H2 := asking) (syscall_table (H7 := asking) 1) 1 false user_machine with
  | Done _ m' | Stop _ m' => user_ids m' ⊆ [501] /\ t_regs (task_of m') RAX = u64 (- LINUX_EPERM)
  end.
Proof.
  assert (0 ∉ user_ids user_machine) as Hz by (apply (bool_decide_unpack _); vm_compute; exact I).
  pose proof (no_escalation (H7 := asking) 1 1 false user_machine Hz (fun _ _ => eq_refl) (fun _ => eq_refl) (fun t => reflexivity _)) as Hn.
  specialize (Hn ltac:(intros p k p' Ep; discriminate Ep)). revert Hn.
  destruct (main_loop _ 1 false user_machine) as [u m'|w m'] eqn:E; intros Hn; [vm_compute in E; discriminate|]. split.
  - etransitivity; [exact Hn|]. apply (bool_decide_unpack _). vm_compute. exact I.
  - vm_compute in E. injection E as <- <-. reflexivity.
Defined.

End Run.
